(** * SNF referral assistant: ranking and enrichment pipeline

    A shallow embedding of the JavaScript sources

    - [backend/services/analyzeService.js]        ([performAnalysis])
    - [backend/services/googlePlaceResolverService.js] ([getPlaceId])
    - [backend/services/googlePlaceIdCache.js], [googleReviewsCache.js],
      [googleReviewsService.js]                    (read-through caches)
    - [backend/utils/cmsMetrics.js]               ([fetchQualityMetrics])
    - [backend/loaders/historicalSnfLoader.js]    ([loadYear])
    - [backend/loaders/historicalRegulatoryLoader.js] ([loadHistoricalRegulatory])
    - [backend/loaders/snfsLoader.js], [hospitalsLoader.js] (record layout)
    - [snf-dashboard/src/SNFDashboard.js]         ([resolveMetricValue])

    JavaScript objects holding primitive fields are finite maps from
    property names to primitive values; a missing property reads
    [VUndefined].  Numbers are rationals extended with [NaN]: the
    rounding of IEEE doubles and the two infinities are outside the model.
    Strings are strings of ASCII characters: [toUpperCase], [toLowerCase]
    and [trim] are the JavaScript functions on such strings, and nothing
    is said of strings with other characters. *)

From Stdlib Require Import ZArith QArith Qabs Lqa String Ascii List Lia.
From stdpp Require Import base option gmap strings list sorting pretty.

Local Open Scope string_scope.
Local Open Scope Z_scope.

(** ** JavaScript primitives *)

Module JS.

Inductive number :=
| NaN
| Num (q : Q).

Inductive value :=
| VUndefined
| VNull
| VNumber (n : number)
| VString (s : string).

Definition int (z : Z) : value := VNumber (Num (inject_Z z)).

(** Plain objects with primitive fields. *)
Abbreviation obj := (gmap string value).

(** [o[k]], [o.k] *)
Definition get (o : obj) (k : string) : value := default VUndefined (o !! k).

(** Rows of a parsed CSV or JSON table: insertion order of the keys is
    observable through [Object.keys]. *)
Abbreviation row := (list (string * value)).

Fixpoint row_get (r : row) (k : string) : value :=
  match r with
  | [] => VUndefined
  | (k', v) :: r' => if String.eqb k' k then v else row_get r' k
  end.

(** *** Numbers *)

Definition num_sub (a b : number) : number :=
  match a, b with
  | Num x, Num y => Num (x - y)
  | _, _ => NaN
  end.

(** [a < b], [a <= b] and [a > b] on numbers: every comparison with [NaN]
    is false. *)
Definition num_lt (a b : number) : bool :=
  match a, b with
  | Num x, Num y => negb (Qle_bool y x)
  | _, _ => false
  end.

Definition num_le (a b : number) : bool :=
  match a, b with
  | Num x, Num y => Qle_bool x y
  | _, _ => false
  end.

Definition num_gt (a b : number) : bool := num_lt b a.

(** ToIntegerOrInfinity: [NaN] is 0, otherwise truncation toward zero. *)
Definition to_integer (n : number) : Z :=
  match n with
  | NaN => 0
  | Num q => Z.quot (Qnum q) (Z.pos (Qden q))
  end.

(** *** Truthiness and the short-circuit operators *)

Definition truthy (v : value) : bool :=
  match v with
  | VUndefined | VNull => false
  | VNumber n => match n with NaN => false | Num q => negb (Qeq_bool q 0) end
  | VString s => negb (String.eqb s "")
  end.

(** [v == null] *)
Definition nullish (v : value) : bool :=
  match v with
  | VUndefined | VNull => true
  | _ => false
  end.

(** [a || b] *)
Definition orElse (a b : value) : value := if truthy a then a else b.

(** [a ?? b] *)
Definition coalesce (a b : value) : value := if nullish a then b else a.

Definition is_string (v : value) : bool :=
  match v with VString _ => true | _ => false end.

(** *** Strings *)

Definition upper_char (c : ascii) : ascii :=
  let n := nat_of_ascii c in
  if ((97 <=? n)%nat && (n <=? 122)%nat)%bool then ascii_of_nat (n - 32) else c.

Definition lower_char (c : ascii) : ascii :=
  let n := nat_of_ascii c in
  if ((65 <=? n)%nat && (n <=? 90)%nat)%bool then ascii_of_nat (n + 32) else c.

Fixpoint map_string (f : ascii -> ascii) (s : string) : string :=
  match s with
  | EmptyString => EmptyString
  | String c s' => String (f c) (map_string f s')
  end.

(** [s.toUpperCase()] and [s.toLowerCase()] on ASCII strings, where they
    map the 26 letters and nothing else.  On other characters the
    JavaScript functions do more (["ß".toUpperCase()] is ["SS"]); such
    strings are outside the model, and no statement below rests on what
    these two definitions do with them. *)
Definition toUpperCase : string -> string := map_string upper_char.
Definition toLowerCase : string -> string := map_string lower_char.

(** White space removed by [trim]: tab, line feed, vertical tab, form
    feed, carriage return and space. *)
Definition is_white (c : ascii) : bool :=
  let n := nat_of_ascii c in
  (((9 <=? n)%nat && (n <=? 13)%nat) || (n =? 32)%nat)%bool.

Fixpoint trimStart (s : string) : string :=
  match s with
  | EmptyString => EmptyString
  | String c s' => if is_white c then trimStart s' else s
  end.

Fixpoint trimEnd (s : string) : string :=
  match s with
  | EmptyString => EmptyString
  | String c s' =>
      match trimEnd s' with
      | EmptyString => if is_white c then EmptyString else String c EmptyString
      | t => String c t
      end
  end.

Definition trim (s : string) : string := trimEnd (trimStart s).

Fixpoint repeat_string (n : nat) (p : string) : string :=
  match n with
  | O => ""
  | S n' => p ++ repeat_string n' p
  end.

(** [s.padStart(n, "0")] *)
Definition padStart0 (n : nat) (s : string) : string :=
  repeat_string (n - String.length s) "0" ++ s.

(** [parts.join(sep)] on strings *)
Fixpoint join (sep : string) (parts : list string) : string :=
  match parts with
  | [] => ""
  | [p] => p
  | p :: rest => p ++ sep ++ join sep rest
  end.

(** Number::toString.  Integers print in decimal.  A fraction prints
    its integer part, a point and the decimal digits up to twenty places,
    which is exact for the short decimals met in the data files. *)
Fixpoint frac_digits (fuel : nat) (r d : Z) : string :=
  match fuel with
  | O => ""
  | S fuel' =>
      if r =? 0 then ""
      else pretty (10 * r / d) ++ frac_digits fuel' (10 * r mod d) d
  end.

Definition number_to_string (n : number) : string :=
  match n with
  | NaN => "NaN"
  | Num q =>
      let q' := Qred q in
      let d := Z.pos (Qden q') in
      let a := Z.abs (Qnum q') in
      let sign := if Qnum q' <? 0 then "-" else "" in
      if d =? 1 then sign ++ pretty a
      else sign ++ pretty (a / d) ++ "." ++ frac_digits 20 (a mod d) d
  end.

(** [String(v)] *)
Definition String_ (v : value) : string :=
  match v with
  | VUndefined => "undefined"
  | VNull => "null"
  | VNumber n => number_to_string n
  | VString s => s
  end.

End JS.

Import JS.


(** ** Runtime functions outside the repository sources

    [StringToNumber] is the conversion of a string to a number (as in
    [Number(s)] and in arithmetic comparisons), [parseFloat_string] is
    [parseFloat] on a string and [localeCompare] is
    [String.prototype.localeCompare]; they belong to the JavaScript
    runtime.  [haversine] ([utils/distance.js]) and [norm]
    ([utils/strings.js]) are imported by the engine and the loaders;
    their bodies are not embedded and they are kept as parameters. *)

Class Runtime := {
  StringToNumber : string -> number;
  parseFloat_string : string -> number;
  localeCompare : string -> string -> Z;
  haversine : value * value -> value * value -> number;
  norm : string -> string;
}.

Section Coercions.
Context `{Runtime}.

(** ToNumber *)
Definition ToNumber (v : value) : number :=
  match v with
  | VUndefined => NaN
  | VNull => Num 0
  | VNumber n => n
  | VString s => StringToNumber s
  end.

(** The global [isNaN(v)] coerces its argument; [Number.isNaN(v)] does
    not. *)
Definition isNaN (v : value) : bool :=
  match ToNumber v with NaN => true | Num _ => false end.

Definition Number_isNaN (v : value) : bool :=
  match v with VNumber NaN => true | _ => false end.

(** [parseFloat(v)] converts [v] to a string first. *)
Definition parseFloat (v : value) : number :=
  match v with
  | VUndefined | VNull => NaN
  | VNumber n => n
  | VString s => parseFloat_string s
  end.

End Coercions.

(** ** Historical quality loader ([backend/loaders/historicalSnfLoader.js]) *)

Module HistoricalSnf.
Section Loader.
Context `{Runtime}.

Definition DEFAULT_YEARS : list Z := [2022; 2023; 2024].

Definition MDS_METRIC_CODES : list (string * list string) :=
  [ ("pressure_ulcer_rate", ["453"]);
    ("fall_with_major_injury_rate", ["410"]);
    ("medication_review_rate", ["452"]);
    ("discharge_to_community_rate", ["430"]);
    ("healthcare_associated_infection_rate", ["407"]) ].

Definition CLAIMS_METRIC_CODES : list (string * list string) :=
  [ ("short_stay_rehospitalization_rate", ["521"]);
    ("short_stay_ed_visit_rate", ["522"]);
    ("long_stay_hospitalization_rate", ["551"]);
    ("long_stay_ed_visit_rate", ["552"]) ].

Definition QRP_METRIC_CODES : list (string * string) :=
  [ ("self_care_at_discharge", "S_024_04_OBS_RATE");
    ("mobility_at_discharge", "S_025_04_OBS_RATE") ].

(** [name.toLowerCase().replace(/[^a-z0-9]+/g, "_").replace(/^_|_$/g, "")] *)
Definition is_alnum_lower (c : ascii) : bool :=
  let n := nat_of_ascii c in
  (((97 <=? n)%nat && (n <=? 122)%nat) || ((48 <=? n)%nat && (n <=? 57)%nat))%bool.

Fixpoint collapse_runs (in_run : bool) (s : string) : string :=
  match s with
  | EmptyString => EmptyString
  | String c s' =>
      if is_alnum_lower c then String c (collapse_runs false s')
      else if in_run then collapse_runs true s'
      else String "_" (collapse_runs true s')
  end.

Definition drop_leading_underscore (s : string) : string :=
  match s with
  | String "_" s' => s'
  | _ => s
  end.

Definition strip_edges (s : string) : string :=
  String.rev (drop_leading_underscore (String.rev (drop_leading_underscore s))).

Definition normalizeFieldName (name : string) : string :=
  strip_edges (collapse_runs false (toLowerCase name)).

Definition toNumber (v : value) : option Q :=
  match v with
  | VNull | VUndefined => None
  | VString EmptyString => None
  | _ => match ToNumber v with
         | Num q => Some q
         | NaN => None
         end
  end.

Definition toString (v : value) : string :=
  match v with
  | VNull | VUndefined => ""
  | _ => trim (String_ v)
  end.

(** [normKeys]: normalized name to actual key, later keys overwrite. *)
Definition normKeys (r : row) : gmap string string :=
  foldl (fun m kv => <[normalizeFieldName (fst kv) := fst kv]> m) ∅ r.

Fixpoint pickField_from (r : row) (nk : gmap string string)
    (candidates : list string) : value :=
  match candidates with
  | [] => VUndefined
  | candidate :: rest =>
      match nk !! normalizeFieldName candidate with
      | Some key => row_get r key
      | None => pickField_from r nk rest
      end
  end.

Definition pickField (r : row) (candidates : list string) : value :=
  pickField_from r (normKeys r) candidates.

Definition ccn_candidates : list string :=
  [ "cms_certification_number_(ccn)"; "federal_provider_number";
    "provider_number"; "ccn"; "federal provider number" ].

Definition normalizeCCNFromRow (r : row) : string :=
  padStart0 6 (toString (pickField r ccn_candidates)).

(** One facility of one year. *)
Record entry := {
  ccn : string;
  year : Z;
  facility_name : string;
  address : string;
  city : string;
  state : string;
  zip_code : string;
  county_name : string;
  phone_number : string;
  metrics : gmap string Q;
}.

(** [a || b] on strings *)
Definition or_string (a b : string) : string :=
  if String.eqb a "" then b else a.

(** [mergeEntryDetails] and [mergeProviderInfo] have the same body. *)
Definition mergeEntryDetails (e : entry) (r : row) : entry :=
  let field k1 k2 := toString (orElse (row_get r k1) (row_get r k2)) in
  {| ccn := ccn e;
     year := year e;
     facility_name :=
       or_string (facility_name e) (field "Provider Name" "provider_name");
     address := or_string (address e) (field "Provider Address" "provider_address");
     city := or_string (city e) (field "Provider City" "provider_city");
     state := or_string (state e) (field "Provider State" "provider_state");
     zip_code :=
       or_string (zip_code e) (field "Provider Zip Code" "provider_zip_code");
     county_name :=
       or_string (county_name e)
         (field "Provider County Name" "provider_county_name");
     phone_number :=
       or_string (phone_number e)
         (field "Provider Phone Number" "provider_phone_number");
     metrics := metrics e |}.

Definition mergeProviderInfo (e : entry) (providerInfo : option row) : entry :=
  match providerInfo with
  | None => e
  | Some r => mergeEntryDetails e r
  end.

(** A [Map] keeps its keys in insertion order. *)
Abbreviation entry_map := (list (string * entry)).

Fixpoint em_get (m : entry_map) (k : string) : option entry :=
  match m with
  | [] => None
  | (k', e) :: m' => if String.eqb k' k then Some e else em_get m' k
  end.

Fixpoint em_set (m : entry_map) (k : string) (e : entry) : entry_map :=
  match m with
  | [] => [(k, e)]
  | (k', e') :: m' =>
      if String.eqb k' k then (k, e) :: m' else (k', e') :: em_set m' k e
  end.

Definition new_entry (c : string) (y : Z) : entry :=
  {| ccn := c; year := y; facility_name := ""; address := ""; city := "";
     state := ""; zip_code := ""; county_name := ""; phone_number := "";
     metrics := ∅ |}.

(** [ensureEntry] returns the entry, which the caller then updates in
    place; here the updated entry is written back by [set_metric]. *)
Definition ensureEntry (m : entry_map) (c : string)
    (providerInfoMap : gmap string row) (sourceRow : row) (y : Z) : entry :=
  let e := default (new_entry c y) (em_get m c) in
  mergeProviderInfo (mergeEntryDetails e sourceRow) (providerInfoMap !! c).

Definition set_metric (e : entry) (metricKey : string) (v : Q) : entry :=
  {| ccn := ccn e; year := year e; facility_name := facility_name e;
     address := address e; city := city e; state := state e;
     zip_code := zip_code e; county_name := county_name e;
     phone_number := phone_number e;
     metrics := <[metricKey := v]> (metrics e) |}.

(** [Object.entries(table).find(([, codes]) => codes.includes(code))?.[0]] *)
Definition metric_of_codes (table : list (string * list string))
    (code : string) : option string :=
  fst <$> List.find (fun kc => existsb (String.eqb code) (snd kc)) table.

(** [Object.entries(QRP_METRIC_CODES).find(([, c]) => c === code)?.[0]] *)
Definition metric_of_code (table : list (string * string))
    (code : string) : option string :=
  fst <$> List.find (fun kc => String.eqb (snd kc) code) table.

(** The body of the three row loops of [loadYear]; they differ in the
    code table and in the score column. *)
Definition ingest_row (metricKeyOf : string -> option string)
    (score1 score2 : string) (providerInfoMap : gmap string row) (y : Z)
    (m : entry_map) (r : row) : entry_map :=
  let c := normalizeCCNFromRow r in
  if String.eqb (trim c) "" then m
  else
    let measureCode :=
      trim (String_ (orElse (orElse (row_get r "Measure Code")
                                    (row_get r "measure code")) (VString ""))) in
    match metricKeyOf measureCode with
    | None => m
    | Some metricKey =>
        match toNumber (orElse (row_get r score1) (row_get r score2)) with
        | None => m
        | Some v =>
            let e := ensureEntry m c providerInfoMap r y in
            em_set m c (set_metric e metricKey v)
        end
    end.

Definition ingest_mds := ingest_row (metric_of_codes MDS_METRIC_CODES)
  "Four Quarter Average Score" "four quarter average score".
Definition ingest_claims := ingest_row (metric_of_codes CLAIMS_METRIC_CODES)
  "Adjusted Score" "adjusted score".
Definition ingest_qrp := ingest_row (metric_of_code QRP_METRIC_CODES)
  "Score" "score".

(** The tables of one year as parsed from disk; [None] is a file that
    is missing or cannot be read. *)
Record year_files := {
  providerInfo : option (list row);
  qualityMds : option (list row);
  qualityClaims : option (list row);
  qrpProvider : list (option (list row));
}.

Definition loadProviderInfo (files : year_files) : gmap string row :=
  match providerInfo files with
  | None => ∅
  | Some rows =>
      foldl (fun m r =>
               let c := normalizeCCNFromRow r in
               if String.eqb (trim c) "" then m else <[c := r]> m) ∅ rows
  end.

(** [ingestFile]: the handler runs over the rows of a readable file. *)
Definition ingestFile (rows : option (list row))
    (handler : entry_map -> row -> entry_map) (m : entry_map) : entry_map * bool :=
  match rows with
  | None => (m, false)
  | Some rs => (foldl handler m rs, true)
  end.

(** The loop over [qrpPaths] stops at the first file that loads. *)
Fixpoint ingest_qrp_paths (paths : list (option (list row)))
    (handler : entry_map -> row -> entry_map) (m : entry_map) : entry_map :=
  match paths with
  | [] => m
  | p :: rest =>
      let '(m', loaded) := ingestFile p handler m in
      if loaded then m' else ingest_qrp_paths rest handler m'
  end.

Definition loadYear (y : Z) (files : year_files) : list entry :=
  let providerInfoMap := loadProviderInfo files in
  let m0 : entry_map := [] in
  let m1 := fst (ingestFile (qualityMds files) (ingest_mds providerInfoMap y) m0) in
  let m2 := fst (ingestFile (qualityClaims files) (ingest_claims providerInfoMap y) m1) in
  let m3 := ingest_qrp_paths (qrpProvider files) (ingest_qrp providerInfoMap y) m2 in
  List.filter (fun e => negb (Nat.eqb (size (metrics e)) 0)) (snd <$> m3).

Record timeline := {
  t_ccn : string;
  t_facility_name : string;
  t_address : string;
  t_city : string;
  t_state : string;
  t_zip_code : string;
  t_county_name : string;
  t_phone_number : string;
  years : gmap Z (gmap string Q);
}.

Definition add_year (y : Z) (timelines : gmap string timeline) (e : entry)
    : gmap string timeline :=
  let t := default
             {| t_ccn := ccn e; t_facility_name := facility_name e;
                t_address := address e; t_city := city e; t_state := state e;
                t_zip_code := zip_code e; t_county_name := county_name e;
                t_phone_number := phone_number e; years := ∅ |}
             (timelines !! ccn e) in
  <[ccn e :=
      {| t_ccn := t_ccn t; t_facility_name := t_facility_name t;
         t_address := t_address t; t_city := t_city t; t_state := t_state t;
         t_zip_code := t_zip_code t; t_county_name := t_county_name t;
         t_phone_number := t_phone_number t;
         years := <[y := metrics e]> (years t) |}]> timelines.

(** [loadHistoricalSNFQuality]: [years] is [options.years], [files y]
    are the tables found for year [y]. *)
Definition loadHistoricalSNFQuality (years : option (list Z))
    (files : Z -> year_files) : gmap string timeline :=
  foldl (fun timelines y => foldl (add_year y) timelines (loadYear y (files y)))
        ∅ (default DEFAULT_YEARS years).

End Loader.
End HistoricalSnf.

(** ** Metric resolver ([snf-dashboard/src/SNFDashboard.js]) *)

Module Dashboard.

Record metricDefinition := {
  label : string;
  currentKey : option string;
  historicalKey : string;
  higherIsBetter : bool;
  unit_ : string;
  group : string;
}.

(** The catalogue [metricDefinitions] (descriptive texts left out). *)
Definition metricDefinitions : list metricDefinition :=
  [ {| label := "Mobility at Discharge"; currentKey := Some "Mobility at Discharge";
       historicalKey := "mobility_at_discharge"; higherIsBetter := true;
       unit_ := "%"; group := "outcomes" |};
    {| label := "Discharge to Community"; currentKey := Some "Discharge to Community Rate";
       historicalKey := "discharge_to_community_rate"; higherIsBetter := true;
       unit_ := "%"; group := "outcomes" |};
    {| label := "Self-Care at Discharge"; currentKey := Some "Self-Care at Discharge";
       historicalKey := "self_care_at_discharge"; higherIsBetter := true;
       unit_ := "%"; group := "outcomes" |};
    {| label := "Fall w/ Major Injury"; currentKey := Some "Fall with Major Injury Rate";
       historicalKey := "fall_with_major_injury_rate"; higherIsBetter := false;
       unit_ := "%"; group := "safety" |};
    {| label := "Pressure Ulcer Rate"; currentKey := Some "Pressure Ulcer Rate";
       historicalKey := "pressure_ulcer_rate"; higherIsBetter := false;
       unit_ := "%"; group := "safety" |};
    {| label := "Preventable Readmission"; currentKey := Some "Preventable Readmission Rate";
       historicalKey := "preventable_readmission_rate"; higherIsBetter := false;
       unit_ := "%"; group := "safety" |};
    {| label := "Medication Review"; currentKey := Some "Medication Review Rate";
       historicalKey := "medication_review_rate"; higherIsBetter := true;
       unit_ := "%"; group := "process" |};
    {| label := "Infection Rate"; currentKey := Some "Healthcare-Associated Infection Rate";
       historicalKey := "healthcare_associated_infection_rate"; higherIsBetter := false;
       unit_ := "%"; group := "safety" |};
    {| label := "Short-stay Rehospitalization"; currentKey := None;
       historicalKey := "short_stay_rehospitalization_rate"; higherIsBetter := false;
       unit_ := "%"; group := "utilization" |};
    {| label := "Short-stay ED Visit"; currentKey := None;
       historicalKey := "short_stay_ed_visit_rate"; higherIsBetter := false;
       unit_ := "%"; group := "utilization" |};
    {| label := "Long-stay Hospitalizations"; currentKey := None;
       historicalKey := "long_stay_hospitalization_rate"; higherIsBetter := false;
       unit_ := ""; group := "utilization" |};
    {| label := "Long-stay ED Visits"; currentKey := None;
       historicalKey := "long_stay_ed_visit_rate"; higherIsBetter := false;
       unit_ := ""; group := "utilization" |} ].

(** A facility as the dashboard receives it: its primitive fields and
    the [historical_metrics] map (absent or [year -> metrics]). *)
Record facility := {
  fields : obj;
  historical_metrics : option (gmap Z (gmap string Q));
}.

Inductive source := current | historical.

Record trend := {
  delta : Q;
  good : bool;
  yearSpan : Z * Z;  (* earliestYear, historicalLatestYear *)
}.

Record resolved := {
  value_ : value;
  source_ : option source;
  historicalLatestYear : option Z;
  trend_ : option trend;
}.

(** [Object.keys(history).map(Number).sort((a, b) => a - b)] *)
Definition sorted_years (history : gmap Z (gmap string Q)) : list Z :=
  merge_sort Z.le (elements (dom history)).

Definition of_option (o : option Q) : value :=
  match o with
  | Some q => VNumber (Num q)
  | None => VNull
  end.

(** [metric.currentKey && metric.currentKey in facility
      ? facility[metric.currentKey] : undefined] *)
Definition currentValueOf (f : facility) (metric : metricDefinition) : value :=
  match currentKey metric with
  | Some k =>
      if (negb (String.eqb k "") && bool_decide (is_Some (fields f !! k)))%bool
      then get (fields f) k else VUndefined
  | None => VUndefined
  end.

Definition resolveMetricValue (f : facility) (metric : metricDefinition) : resolved :=
  let currentValue := currentValueOf f metric in
  let history := default ∅ (historical_metrics f) in
  let years := sorted_years history in
  let historicalLatestPair : option (Q * Z) :=
    match last years with
    | Some latestYear =>
        match history !! latestYear ≫= (fun m => m !! historicalKey metric) with
        | Some latestValue => Some (latestValue, latestYear)
        | None => None
        end
    | None => None
    end in
  let historicalLatest := fst <$> historicalLatestPair in
  let value := coalesce currentValue (of_option historicalLatest) in
  let source :=
    if negb (nullish currentValue) then Some current
    else match historicalLatest with
         | Some _ => Some historical
         | None => None
         end in
  let trend :=
    if (2 <=? length years)%nat then
      match head years with
      | Some earliestYear =>
          let earliestValue :=
            history !! earliestYear ≫= (fun m => m !! historicalKey metric) in
          match historicalLatestPair, earliestValue with
          | Some (latest, latestYear), Some earliest =>
              let delta := (latest - earliest)%Q in
              let positive := negb (Qle_bool delta 0) in
              let good := if higherIsBetter metric then positive else negb positive in
              Some {| delta := delta; good := good;
                      yearSpan := (earliestYear, latestYear) |}
          | _, _ => None
          end
      | None => None
      end
    else None in
  {| value_ := value; source_ := source;
     historicalLatestYear := snd <$> historicalLatestPair; trend_ := trend |}.

End Dashboard.

(** ** Errors *)

(** [new Error(message)], with the optional [status] the route maps to an
    HTTP code. *)
Record error := {
  message : string;
  status : option Z;
}.

Definition Error (msg : string) : error := {| message := msg; status := None |}.

(** A method call on a value that has no such method. *)
Definition TypeError : error := Error "TypeError".

Inductive outcome (A : Type) :=
| Ok (a : A)
| Throw (e : error).
Arguments Ok {A} a.
Arguments Throw {A} e.

Definition obind {A B} (m : outcome A) (k : A -> outcome B) : outcome B :=
  match m with
  | Ok a => k a
  | Throw e => Throw e
  end.

Notation "x <~ m ;; k" := (obind m (fun x => k))
  (at level 100, m at next level, right associativity).

(** [v.toUpperCase()] and [v.toLowerCase()] exist on strings only. *)
Definition toUpperCase_v (v : value) : outcome string :=
  match v with
  | VString s => Ok (toUpperCase s)
  | _ => Throw TypeError
  end.

Definition toLowerCase_v (v : value) : outcome string :=
  match v with
  | VString s => Ok (toLowerCase s)
  | _ => Throw TypeError
  end.

(** [(param = dflt)] in a destructuring pattern *)
Definition with_default (v dflt : value) : value :=
  match v with
  | VUndefined => dflt
  | _ => v
  end.

(** [s.includes(sub)] *)
Fixpoint includes (s sub : string) : bool :=
  (String.prefix sub s
   || match s with
      | EmptyString => false
      | String _ s' => includes s' sub
      end)%bool.

(** A [for (const row of rows)] loop whose body may throw. *)
Fixpoint for_rows {S} (body : S -> row -> outcome S) (st : S) (rows : list row)
    : outcome S :=
  match rows with
  | [] => Ok st
  | r :: rest => st' <~ body st r;; for_rows body st' rest
  end.

(** ** Regulatory loader ([backend/loaders/historicalRegulatoryLoader.js])

    The text of the loader is kept in the source tree behind
    [backend/scripts/geocode_hospitals.js].  The timelines it builds
    carry, per year, a summary of the citations and one of the
    penalties; [performAnalysis] is handed these timelines and passes
    the one of a facility on as its [regulatory_history]. *)

Module HistoricalRegulatory.
Section Loader.
Context `{Runtime}.

Definition DEFAULT_YEARS : list Z := [2022; 2023; 2024].

Definition normalizeCCN (v : value) : string :=
  match v with
  | VNull | VUndefined => ""
  | _ => padStart0 6 (String_ v)
  end.

(** [toNumber] repeats the one of the quality loader word for word. *)
Definition toNumber (v : value) : option Q := HistoricalSnf.toNumber v.

(** [severityBucket(scopeCode = "")]: [trim] exists on strings only. *)
Definition severityBucket (scopeCode : value) : outcome string :=
  match with_default scopeCode (VString "") with
  | VString s =>
      match toUpperCase (trim s) with
      | EmptyString => Ok "unknown"
      | String letter _ =>
          let one_of (letters : list ascii) := existsb (Ascii.eqb letter) letters in
          Ok (if one_of ["J"; "K"; "L"]%char then "immediateJeopardy"
              else if one_of ["G"; "H"; "I"]%char then "actualHarm"
              else if one_of ["D"; "E"; "F"]%char then "potentialHarm"
              else if one_of ["A"; "B"; "C"]%char then "minimalHarm"
              else "unknown")
      end
  | _ => Throw TypeError
  end.

Record citation_summary := {
  total : Z;
  immediateJeopardy : Z;
  actualHarm : Z;
  potentialHarm : Z;
  minimalHarm : Z;
  infectionControl : Z;
}.

Definition no_citations : citation_summary :=
  {| total := 0; immediateJeopardy := 0; actualHarm := 0; potentialHarm := 0;
     minimalHarm := 0; infectionControl := 0 |}.

(** [if (entry[bucket] !== undefined) entry[bucket] += 1] *)
Definition bump (bucket : string) (e : citation_summary) : citation_summary :=
  {| total := total e + (if String.eqb bucket "total" then 1 else 0);
     immediateJeopardy :=
       immediateJeopardy e
       + (if String.eqb bucket "immediateJeopardy" then 1 else 0);
     actualHarm := actualHarm e + (if String.eqb bucket "actualHarm" then 1 else 0);
     potentialHarm :=
       potentialHarm e + (if String.eqb bucket "potentialHarm" then 1 else 0);
     minimalHarm := minimalHarm e + (if String.eqb bucket "minimalHarm" then 1 else 0);
     infectionControl :=
       infectionControl e
       + (if String.eqb bucket "infectionControl" then 1 else 0) |}.

(** The provider number a citation or penalty row is filed under. *)
Definition provider_number (r : row) : value :=
  orElse (row_get r "Federal Provider Number") (row_get r "federal_provider_number").

(** The body of the loop of [loadCitations]. *)
Definition citation_row (map : gmap string citation_summary) (r : row)
    : outcome (gmap string citation_summary) :=
  let ccn := normalizeCCN (provider_number r) in
  if String.eqb ccn "" then Ok map
  else
    bucket <~ severityBucket (orElse (row_get r "Scope Severity Code")
                                     (row_get r "scope severity code"));;
    let entry := default no_citations (map !! ccn) in
    let entry := bump bucket (bump "total" entry) in
    flag <~ toUpperCase_v
              (orElse (orElse (row_get r "Infection Control Inspection Deficiency")
                              (row_get r "infection control inspection deficiency"))
                      (VString ""));;
    let infectionFlag :=
      (String.eqb flag "Y"
       || includes
            (toLowerCase (String_ (orElse (row_get r "Deficiency Category")
                                          (VString ""))))
            "infection control")%bool in
    let entry := if infectionFlag then bump "infectionControl" entry else entry in
    Ok (<[ccn := entry]> map).

(** [rows] is the parsed file of the year, [None] when it cannot be
    read; any exception leaves an empty map. *)
Definition loadCitations (rows : option (list row)) : gmap string citation_summary :=
  match rows with
  | None => ∅
  | Some rs =>
      match for_rows citation_row ∅ rs with
      | Ok map => map
      | Throw _ => ∅
      end
  end.

Record penalty_summary := {
  penalties : Z;
  finesCount : Z;
  finesTotal : Q;
  paymentDenials : Z;
}.

Definition no_penalties : penalty_summary :=
  {| penalties := 0; finesCount := 0; finesTotal := 0; paymentDenials := 0 |}.

(** The body of the loop of [loadPenalties]. *)
Definition penalty_row (map : gmap string penalty_summary) (r : row)
    : outcome (gmap string penalty_summary) :=
  let ccn := normalizeCCN (provider_number r) in
  if String.eqb ccn "" then Ok map
  else
    penaltyType <~ toLowerCase_v
                     (orElse (orElse (row_get r "Penalty Type")
                                     (row_get r "penalty type")) (VString ""));;
    let entry := default no_penalties (map !! ccn) in
    let fineAmount := toNumber (orElse (row_get r "Fine Amount")
                                       (row_get r "fine amount")) in
    let fined := match fineAmount with
                 | Some q => negb (Qeq_bool q 0)
                 | None => false
                 end in
    let hasDenial :=
      (includes penaltyType "denial"
       || truthy (orElse (row_get r "Payment Denial Start Date")
                         (row_get r "payment denial start date")))%bool in
    Ok (<[ccn :=
           {| penalties := penalties entry + 1;
              finesCount := finesCount entry + (if fined then 1 else 0);
              finesTotal := if fined then finesTotal entry + default 0%Q fineAmount
                            else finesTotal entry;
              paymentDenials := paymentDenials entry + (if hasDenial then 1 else 0) |}]>
          map).

Definition loadPenalties (rows : option (list row)) : gmap string penalty_summary :=
  match rows with
  | None => ∅
  | Some rs =>
      match for_rows penalty_row ∅ rs with
      | Ok map => map
      | Throw _ => ∅
      end
  end.

(** The two files of one year. *)
Record year_files := {
  citationsCsv : option (list row);
  penaltiesCsv : option (list row);
}.

Record timeline := {
  t_ccn : string;
  t_citations : gmap Z citation_summary;
  t_penalties : gmap Z penalty_summary;
}.

(** [if (!timelines[ccn]) timelines[ccn] = { ccn, citations: {}, penalties: {} }] *)
Definition ensure (timelines : gmap string timeline) (ccn : string) : timeline :=
  default {| t_ccn := ccn; t_citations := ∅; t_penalties := ∅ |} (timelines !! ccn).

Definition add_citation (y : Z) (timelines : gmap string timeline)
    (kv : string * citation_summary) : gmap string timeline :=
  let t := ensure timelines (fst kv) in
  <[fst kv := {| t_ccn := t_ccn t;
                 t_citations := <[y := snd kv]> (t_citations t);
                 t_penalties := t_penalties t |}]> timelines.

Definition add_penalty (y : Z) (timelines : gmap string timeline)
    (kv : string * penalty_summary) : gmap string timeline :=
  let t := ensure timelines (fst kv) in
  <[fst kv := {| t_ccn := t_ccn t;
                 t_citations := t_citations t;
                 t_penalties := <[y := snd kv]> (t_penalties t) |}]> timelines.

(** [loadHistoricalRegulatory]: [years] is [options.years], [files y] the
    files found for year [y].  The entries of the two maps of a year are
    visited one by one; each visit writes under its own CCN, so the
    order of the visits does not show in the result. *)
Definition loadHistoricalRegulatory (years : option (list Z))
    (files : Z -> year_files) : gmap string timeline :=
  foldl (fun timelines y =>
           let citations := loadCitations (citationsCsv (files y)) in
           let penalties := loadPenalties (penaltiesCsv (files y)) in
           foldl (add_penalty y)
                 (foldl (add_citation y) timelines (map_to_list citations))
                 (map_to_list penalties))
        ∅ (default DEFAULT_YEARS years).

End Loader.
End HistoricalRegulatory.

(** ** Collaborators and shared state *)

(** Entry of the place-id cache ([readCacheRecord]). *)
Record place_entry := {
  place_id : value;
  name : value;
  formatted_address : value;
  location : value;
  resolved_at : option Z;
}.

(** Result of [getPlaceId]: an entry tagged with its source. *)
Record place_result := {
  entry_of : place_entry;
  source : option string;
}.

(** Candidate returned by [findPlaceId]. *)
Record found_place := {
  found_place_id : value;
  found_name : value;
  found_formatted_address : value;
  found_location : value;
}.

(** Review snapshot.  The fields computed from the Places result
    ([google_name], [google_rating], ..., [recent_avg_rating]) are kept
    together in [details]. *)
Record snapshot := {
  details : obj;
  recent_reviews : list string;
  fetched_at : option Z;
}.

(** A row of the seed table of place ids ([loadGooglePlaceIds]). *)
Record seed := {
  google_place_id : value;
  google_name : value;
}.

(** Calls that leave the process. *)
Inductive call :=
| CallGeocode (name address city state zip : value)
| CallCMS (ccn : value) (metric : string)
| CallPlaceCacheRead (key : string)
| CallPlaceCacheWrite (key : string)
| CallFindPlace (query : string)
| CallReviewCacheRead (placeId : string)
| CallReviewCacheWrite (placeId : string)
| CallPlaceDetails (placeId : string).

(** Outcomes of the calls that leave the process.  Each is indexed by
    the number of calls made so far, so that the same call may succeed
    once and fail later. *)
Record world := {
  (** [geocodeHospitalAddress({name, address, city, state, zip})]: the
      [lat] and [lon] of the record found, or the error thrown when the
      cache and every provider failed. *)
  geocodeHospitalAddress : value * value * value * value * value -> nat -> outcome (value * value);
  (** [fetchCMSMetric(ccn, metric)]: first row, [null], or rejection. *)
  fetchCMSMetric : value -> string -> nat -> outcome (option obj);
  (** [Date.now()] *)
  now : nat -> Z;
  (** [readCacheRecord(key)] and [writeCacheRecord(key, payload)] of the
      place-id cache. *)
  readCacheRecord : string -> nat -> outcome (option place_entry);
  writeCacheRecord : string -> place_entry -> nat -> outcome unit;
  (** The request sent by [findPlaceId] for a non-empty query. *)
  findPlace : string -> option (value * value) -> nat -> outcome (option found_place);
  (** [readSnapshot] and [writeSnapshot] of the review cache. *)
  readSnapshot : string -> nat -> outcome (option snapshot);
  writeSnapshot : string -> snapshot -> nat -> outcome unit;
  (** [fetchPlaceDetails(placeId, apiKey)] followed by the construction
      of the snapshot fields, all inside the [try] block of
      [getReviewSnapshot]. *)
  fetchPlaceDetails : string -> nat -> outcome (obj * list string);
}.

(** State shared between requests: the loaded hospital records (which
    [performAnalysis] mutates), the in-process layers of the two caches
    ([null] is the empty map) and the log of outside calls. *)
Record state := {
  tick : nat;
  hospitals : list obj;
  placeMem : gmap string place_entry;
  reviewMem : gmap string snapshot;
  calls : list call;
}.

Definition M (A : Type) : Type := state -> outcome A * state.

Definition ret {A} (a : A) : M A := fun s => (Ok a, s).

Definition throw {A} (e : error) : M A := fun s => (Throw e, s).

Definition bind {A B} (m : M A) (k : A -> M B) : M B :=
  fun s =>
    match m s with
    | (Ok a, s') => k a s'
    | (Throw e, s') => (Throw e, s')
    end.

Notation "x <- m ;; k" := (bind m (fun x => k))
  (at level 100, m at next level, right associativity).

(** [try { m } catch (err) { h err }] *)
Definition try_catch {A} (m : M A) (h : error -> M A) : M A :=
  fun s =>
    match m s with
    | (Ok a, s') => (Ok a, s')
    | (Throw e, s') => h e s'
    end.

Definition lift {A} (o : outcome A) : M A := fun s => (o, s).

(** An outside call: its outcome is read at the current tick. *)
Definition outside {A} (c : call) (f : nat -> outcome A) : M A :=
  fun s =>
    (f (tick s),
     {| tick := S (tick s); hospitals := hospitals s; placeMem := placeMem s;
        reviewMem := reviewMem s; calls := calls s ++ [c] |}).

Definition read_tick : M nat := fun s => (Ok (tick s), s).

Definition get_hospitals : M (list obj) := fun s => (Ok (hospitals s), s).

Definition set_hospitals (hs : list obj) : M unit :=
  fun s =>
    (Ok tt,
     {| tick := tick s; hospitals := hs; placeMem := placeMem s;
        reviewMem := reviewMem s; calls := calls s |}).

Definition get_placeMem : M (gmap string place_entry) :=
  fun s => (Ok (placeMem s), s).

Definition set_placeMem (m : gmap string place_entry) : M unit :=
  fun s =>
    (Ok tt,
     {| tick := tick s; hospitals := hospitals s; placeMem := m;
        reviewMem := reviewMem s; calls := calls s |}).

Definition get_reviewMem : M (gmap string snapshot) :=
  fun s => (Ok (reviewMem s), s).

Definition set_reviewMem (m : gmap string snapshot) : M unit :=
  fun s =>
    (Ok tt,
     {| tick := tick s; hospitals := hospitals s; placeMem := placeMem s;
        reviewMem := m; calls := calls s |}).

(** ** Enrichment services *)

Section Services.
Context `{Runtime}.
Variable w : world.

(** *** Live quality metrics ([backend/utils/cmsMetrics.js]) *)

(** One element of [Promise.allSettled]: a rejection leaves [value]
    undefined. *)
Definition settled (ccn : value) (metric field : string) : M value :=
  try_catch
    (r <- outside (CallCMS ccn metric) (fetchCMSMetric w ccn metric);;
     ret (match r with
          | Some o => coalesce (get o field) VNull
          | None => VNull
          end))
    (fun _ => ret VNull).

Definition fetchQualityMetrics (ccn : value) : M obj :=
  try_catch
    (mob <- settled ccn "mobility" "mobility_percent";;
     dis <- settled ccn "discharge" "discharge_to_community_percent";;
     fall <- settled ccn "falls" "fall_with_major_injury_percent";;
     hai <- settled ccn "hai" "hai_percent";;
     ret (<["Mobility at Discharge" := mob]>
          (<["Discharge to Community Rate" := dis]>
           (<["Fall with Major Injury Rate" := fall]>
            (<["Healthcare-Associated Infection Rate" := hai]> ∅)))))
    (fun _ => ret ∅).

(** *** Place-id cache ([backend/services/googlePlaceIdCache.js]) *)

Definition placeCache_get (key : string) : M (option place_entry) :=
  if String.eqb key "" then ret None
  else
    cache <- get_placeMem;;
    match cache !! key with
    | Some e => ret (Some e)
    | None =>
        record <- outside (CallPlaceCacheRead key) (readCacheRecord w key);;
        match record with
        | Some r => _ <- set_placeMem (<[key := r]> cache);; ret (Some r)
        | None => ret None
        end
    end.

Definition placeCache_set (key : string) (payload : place_entry) : M unit :=
  if String.eqb key "" then ret tt
  else
    cache <- get_placeMem;;
    _ <- set_placeMem (<[key := payload]> cache);;
    outside (CallPlaceCacheWrite key) (writeCacheRecord w key payload).

(** *** Place resolver ([backend/services/googlePlaceResolverService.js]) *)

Record resolver := {
  apiKey : value;
  maxAgeMs : number;
  seedPlaceIds : gmap string seed;
}.

Definition normalizeCcn (ccn : value) : option string :=
  if truthy ccn then Some (padStart0 6 (String_ ccn)) else None.

(** [parts.filter(Boolean).map(p => String(p).toLowerCase().trim())
         .filter(Boolean).join("|")] *)
Definition normalizeKeyParts (parts : list value) : string :=
  join "|"
    (List.filter (fun p => negb (String.eqb p ""))
       ((fun p => trim (toLowerCase (String_ p))) <$> List.filter truthy parts)).

Definition buildQuery (facility : obj) : value :=
  let pieces :=
    join ", "
      (String_ <$>
         List.filter truthy
           [ get facility "facility_name"; get facility "address";
             get facility "city"; get facility "state";
             get facility "zip_code" ]) in
  orElse (orElse (VString pieces) (get facility "facility_name")) VNull.

(** [`point:${lat},${lon}`] is kept as the pair it is printed from. *)
Definition buildLocationBias (facility : obj) : option (value * value) :=
  let lat := get facility "latitude" in
  let lon := get facility "longitude" in
  if (nullish lat || nullish lon || Number_isNaN lat || Number_isNaN lon)%bool
  then None else Some (lat, lon).

Definition keyForFacility (facility : obj) : string :=
  let ccn :=
    orElse (orElse (orElse (orElse (get facility "CCN") (get facility "provider_id"))
                           (get facility "federal_provider_number"))
                   (get facility "provider_number")) VNull in
  match normalizeCcn ccn with
  | Some normalizedCcn => "ccn:" ++ normalizedCcn
  | None =>
      "name:" ++ normalizeKeyParts
        [ get facility "facility_name"; get facility "address";
          get facility "city"; get facility "state"; get facility "zip_code" ]
  end.

Definition isFresh (cfg : resolver) (e : place_entry) : M bool :=
  match resolved_at e with
  | None => ret false
  | Some t =>
      if t =? 0 then ret false
      else
        n <- read_tick;;
        ret (num_lt (Num (inject_Z (now w n - t))) (maxAgeMs cfg))
  end.

(** [findPlaceId] ([backend/services/googlePlacesSearchClient.js]) *)
Definition findPlaceId (query : value) (locationBias : option (value * value))
    (key : value) : M (option found_place) :=
  if negb (truthy key)
  then throw (Error "GOOGLE_PLACES_API_KEY is required to find place IDs")
  else if negb (truthy query) then ret None
  else outside (CallFindPlace (String_ query))
                (findPlace w (String_ query) locationBias).

(** [cached || null] *)
Definition stale (cached : option place_entry) : option place_result :=
  (fun e => {| entry_of := e; source := None |}) <$> cached.

Definition getPlaceId (cfg : resolver) (facility : obj) : M (option place_result) :=
  let ccnKey :=
    orElse (orElse (get facility "CCN") (get facility "provider_id"))
           (get facility "federal_provider_number") in
  let seeded :=
    normalizedCcn ← normalizeCcn ccnKey;
    s ← seedPlaceIds cfg !! normalizedCcn;
    if truthy (google_place_id s) then Some s else None in
  match seeded with
  | Some s =>
      ret (Some {| entry_of :=
                     {| place_id := google_place_id s;
                        name := orElse (google_name s) VNull;
                        formatted_address := VUndefined;
                        location := VUndefined;
                        resolved_at := None |};
                   source := Some "seed" |})
  | None =>
      let cacheKey := keyForFacility facility in
      cached <- placeCache_get cacheKey;;
      fresh <- match cached with
               | Some e => isFresh cfg e
               | None => ret false
               end;;
      match cached, fresh with
      | Some e, true => ret (Some {| entry_of := e; source := Some "cache" |})
      | _, _ =>
          if negb (truthy (apiKey cfg)) then ret (stale cached)
          else
            try_catch
              (let query := buildQuery facility in
               let locationBias := buildLocationBias facility in
               found <- findPlaceId query locationBias (apiKey cfg);;
               match found with
               | None => ret (stale cached)
               | Some f =>
                   n <- read_tick;;
                   let payload :=
                     {| place_id := found_place_id f;
                        name := orElse (found_name f) VNull;
                        formatted_address := orElse (found_formatted_address f) VNull;
                        location := orElse (found_location f) VNull;
                        resolved_at := Some (now w n) |} in
                   _ <- placeCache_set cacheKey payload;;
                   ret (Some {| entry_of := payload; source := Some "fresh" |})
               end)
              (fun _ => ret (stale cached))
      end
  end.

(** *** Review cache and service ([googleReviewsCache.js],
    [googleReviewsService.js]) *)

Definition reviewCache_get (placeId : string) : M (option snapshot) :=
  if String.eqb placeId "" then ret None
  else
    cache <- get_reviewMem;;
    match cache !! placeId with
    | Some e => ret (Some e)
    | None =>
        record <- outside (CallReviewCacheRead placeId) (readSnapshot w placeId);;
        match record with
        | Some r => _ <- set_reviewMem (<[placeId := r]> cache);; ret (Some r)
        | None => ret None
        end
    end.

Definition reviewCache_set (placeId : string) (payload : snapshot) : M unit :=
  if String.eqb placeId "" then ret tt
  else
    cache <- get_reviewMem;;
    _ <- set_reviewMem (<[placeId := payload]> cache);;
    outside (CallReviewCacheWrite placeId) (writeSnapshot w placeId payload).

Record reviews_service := {
  reviews_apiKey : value;
  reviews_maxAgeMs : number;
}.

(** [getFreshness(entry) < maxAgeMs]; a missing [fetched_at] has
    infinite age. *)
Definition isRecent (cfg : reviews_service) (e : snapshot) : M bool :=
  match fetched_at e with
  | None => ret false
  | Some t =>
      if t =? 0 then ret false
      else
        n <- read_tick;;
        ret (num_lt (Num (inject_Z (now w n - t))) (reviews_maxAgeMs cfg))
  end.

Definition getReviewSnapshot (cfg : reviews_service) (placeId : value)
    : M (option snapshot) :=
  if negb (truthy placeId) then ret None
  else
    let key := String_ placeId in
    cached <- reviewCache_get key;;
    recent <- match cached with
              | Some e => isRecent cfg e
              | None => ret false
              end;;
    match cached, recent with
    | Some e, true => ret (Some e)
    | _, _ =>
        if negb (truthy (reviews_apiKey cfg)) then ret cached
        else
          try_catch
            (result <- outside (CallPlaceDetails key) (fetchPlaceDetails w key);;
             n <- read_tick;;
             let snap :=
               {| details := fst result; recent_reviews := snd result;
                  fetched_at := Some (now w n) |} in
             _ <- reviewCache_set key snap;;
             ret (Some snap))
            (fun _ => ret cached)
    end.

End Services.

(** ** Ranking and analysis engine ([backend/services/analyzeService.js]) *)

Section Engine.
Context `{Runtime}.
Variable w : world.

Definition DEFAULT_RADIUS_MILES : value := int 50.
Definition DEFAULT_LIMIT : value := int 5.

Record options := {
  mode : value;
  radiusMiles : value;
  limit : value;
  sortBy : value;
  order : value;
}.

(** The arguments of [performAnalysis], but for [hospitals]: that array
    is shared between requests and mutated, and lives in the state. *)
Record request := {
  hospitalName : value;
  snfs : list obj;
  historicalSnfTimelines : gmap string HistoricalSnf.timeline;
  historicalRegulatory : gmap string HistoricalRegulatory.timeline;
  googleReviewsService : option reviews_service;
  googlePlaceIds : gmap string seed;
  googlePlaceResolver : option resolver;
  opts : options;
}.

(** A returned facility.  [fields] is
    [{...facility, Local_Rank, ...quality}].  The four properties written
    after the spreads ([historical_metrics], [historical_years_available],
    [regulatory_history], [review_enrichment]) are not plain values and
    have fields of their own: the returned object is read through
    [fields] at every other property name, and through these four
    fields at theirs. *)
Record enriched := {
  fields : obj;
  historical_metrics : gmap Z (gmap string Q);
  historical_years_available : nat;
  regulatory_history : option HistoricalRegulatory.timeline;
  review_enrichment : option snapshot;
}.

Record hospital_summary := {
  summary_name : value;
  summary_city : value;
  summary_state : value;
  summary_latitude : value;
  summary_longitude : value;
}.

Record analysis := {
  hospital : hospital_summary;
  facilities : list enriched;
  totalWithinRadius : nat;
}.

(** [hospitals.find(h => h.hospital_name.toUpperCase().trim() ===
                         hospitalName.toUpperCase().trim())],
    with the position of the record found. *)
Fixpoint find_hospital (hospitalName : value) (hs : list obj) (i : nat)
    : outcome (option (nat * obj)) :=
  match hs with
  | [] => Ok None
  | h :: hs' =>
      a <~ toUpperCase_v (get h "hospital_name");;
      b <~ toUpperCase_v hospitalName;;
      if String.eqb (trim a) (trim b) then Ok (Some (i, h))
      else find_hospital hospitalName hs' (S i)
  end.

(** [a <= b] where one side is a number. *)
Definition lessEq (a b : value) : bool := num_le (ToNumber a) (ToNumber b).

Definition withDistance (hLat hLon radius : value) (fs : list obj) : list obj :=
  List.filter (fun f => lessEq (get f "distance") radius)
    ((fun f =>
        <["distance" :=
            VNumber (haversine (hLat, hLon) (get f "latitude", get f "longitude"))]> f)
       <$> List.filter
             (fun f => (negb (isNaN (get f "latitude"))
                        && negb (isNaN (get f "longitude")))%bool) fs).

Definition resolveSortBy (o : options) : outcome string :=
  s <~ toLowerCase_v (orElse (sortBy o) (VString ""));;
  Ok (if String.eqb s "" then
        match with_default (mode o) (VString "closest") with
        | VString "best" => "composite"
        | _ => "distance"
        end
      else s).

Definition resolveOrder (o : options) (resolvedSortBy : string) : outcome string :=
  let defaultOrder := if String.eqb resolvedSortBy "distance" then "asc" else "desc" in
  s <~ toLowerCase_v (orElse (order o) (VString ""));;
  Ok (if (String.eqb s "asc" || String.eqb s "desc")%bool then s else defaultOrder).

Definition valueFor (resolvedSortBy : string) (f : obj) : outcome value :=
  if (String.eqb resolvedSortBy "rating"
      || String.eqb resolvedSortBy "overall_rating")%bool then
    Ok (coalesce (coalesce (get f "overall_rating") (get f "Overall Rating")) VNull)
  else if (String.eqb resolvedSortBy "composite"
           || String.eqb resolvedSortBy "composite_score")%bool then
    Ok (coalesce (get f "Composite_Score") VNull)
  else if String.eqb resolvedSortBy "distance" then
    Ok (coalesce (get f "distance") VNull)
  else if String.eqb resolvedSortBy "name" then
    s <~ toLowerCase_v (orElse (get f "facility_name") (VString ""));;
    Ok (VString s)
  else Ok VNull.

(** [a.localeCompare(b)]: [a] must be a string, [b] is converted. *)
Definition localeCompare_v (a b : value) : outcome number :=
  match a with
  | VString s => Ok (Num (inject_Z (localeCompare s (String_ b))))
  | _ => Throw TypeError
  end.

(** The comparator handed to [sort]. *)
Definition comparator (resolvedSortBy resolvedOrder : string) (a b : obj)
    : outcome number :=
  valA <~ valueFor resolvedSortBy a;;
  valB <~ valueFor resolvedSortBy b;;
  if (nullish valA && nullish valB)%bool then Ok (Num 0)
  else if nullish valA then Ok (Num 1)
  else if nullish valB then Ok (Num (-1))
  else
    let isAscending := String.eqb resolvedOrder "asc" in
    if (is_string valA || is_string valB)%bool then
      if isAscending then localeCompare_v valA valB else localeCompare_v valB valA
    else
      Ok (if isAscending then num_sub (ToNumber valA) (ToNumber valB)
          else num_sub (ToNumber valB) (ToNumber valA)).

(** [Array.prototype.sort] is stable: for a comparator that orders the
    elements consistently the result is the one sorted arrangement that
    keeps equal elements in their original order.  That arrangement is
    computed here by insertion; [x] comes before the elements of [l] in
    the array and moves behind [y] only if [cmp x y > 0].  An exception
    of the comparator leaves [sort]. *)
Fixpoint insert_by {A} (cmp : A -> A -> outcome number) (x : A) (l : list A)
    : outcome (list A) :=
  match l with
  | [] => Ok [x]
  | y :: l' =>
      c <~ cmp x y;;
      if num_gt c (Num 0) then (r <~ insert_by cmp x l';; Ok (y :: r))
      else Ok (x :: l)
  end.

Fixpoint sort_by {A} (cmp : A -> A -> outcome number) (l : list A)
    : outcome (list A) :=
  match l with
  | [] => Ok []
  | x :: l' => s <~ sort_by cmp l';; insert_by cmp x s
  end.

(** [l.slice(0, end)] *)
Definition slice0 {A} (l : list A) (end_ : value) : list A :=
  let len := Z.of_nat (length l) in
  let relativeEnd :=
    match end_ with
    | VUndefined => len
    | _ => to_integer (ToNumber end_)
    end in
  let final := if relativeEnd <? 0 then Z.max (len + relativeEnd) 0
               else Z.min relativeEnd len in
  take (Z.to_nat final) l.

(** The CCN of a ranked facility as [performAnalysis] reads it. *)
Definition facility_ccn (facility : obj) : value :=
  orElse (orElse (orElse (get facility "CMS Certification Number (CCN)")
                         (get facility "CCN"))
                 (get facility "provider_id"))
         (get facility "federal_provider_number").

(** [ccn ? historicalSnfTimelines[ccn]?.years || {} : {}]; the property
    key is [String(ccn)]. *)
Definition historical_of (timelines : gmap string HistoricalSnf.timeline)
    (ccn : value) : gmap Z (gmap string Q) :=
  if truthy ccn then
    default ∅ (HistoricalSnf.years <$> timelines !! String_ ccn)
  else ∅.

(** [ccn ? historicalRegulatory[ccn] || null : null] *)
Definition regulatory_of (reg : gmap string HistoricalRegulatory.timeline)
    (ccn : value) : option HistoricalRegulatory.timeline :=
  if truthy ccn then reg !! String_ ccn else None.

(** The place id known before any lookup. *)
Definition initial_placeId (req : request) (facility : obj) : value :=
  let ccn := facility_ccn facility in
  orElse
    (orElse
       (orElse
          (orElse (orElse (get facility "google_place_id")
                          (get facility "google_placeid"))
                  (get facility "place_id"))
          (get facility "googlePlaceId"))
       (match normalizeCcn ccn with
        | Some normalizedCcn =>
            match googlePlaceIds req !! normalizedCcn with
            | Some s => google_place_id s
            | None => VUndefined
            end
        | None => VNull
        end))
    VNull.

(** One turn of the loop over [topFacilities.entries()]. *)
Definition enrich (req : request) (index : nat) (facility : obj) : M enriched :=
  let ccn := facility_ccn facility in
  let placeId0 := initial_placeId req facility in
  quality <- try_catch (fetchQualityMetrics w ccn) (fun _ => ret ∅);;
  let historical := historical_of (historicalSnfTimelines req) ccn in
  let regulatory := regulatory_of (historicalRegulatory req) ccn in
  placeId <-
    match googlePlaceResolver req with
    | Some r =>
        if negb (truthy placeId0) then
          resolved <- getPlaceId w r facility;;
          ret (match resolved with
               | Some p => if truthy (place_id (entry_of p))
                           then place_id (entry_of p) else placeId0
               | None => placeId0
               end)
        else ret placeId0
    | None => ret placeId0
    end;;
  reviewEnrichment <-
    match googleReviewsService req with
    | Some svc =>
        if truthy placeId then getReviewSnapshot w svc placeId else ret None
    | None => ret None
    end;;
  ret {| fields :=
           quality ∪ <["Local_Rank" := int (Z.of_nat index + 1)]> facility;
         historical_metrics := historical;
         historical_years_available := size historical;
         regulatory_history := regulatory;
         review_enrichment := reviewEnrichment |}.

Fixpoint enrich_all (req : request) (index : nat) (fs : list obj)
    : M (list enriched) :=
  match fs with
  | [] => ret []
  | facility :: rest =>
      e <- enrich req index facility;;
      es <- enrich_all req (S index) rest;;
      ret (e :: es)
  end.

(** Coordinates of the hospital found at position [i]: read from
    [Latitude] and [Longitude], else asked of the geocoder and stored on
    the shared record. *)
Definition hospital_coordinates (i : nat) (h : obj) : M (value * value) :=
  let hLat := VNumber (parseFloat (get h "Latitude")) in
  let hLon := VNumber (parseFloat (get h "Longitude")) in
  if (Number_isNaN hLat || Number_isNaN hLon)%bool then
    let q := (get h "hospital_name", get h "address", get h "city",
              get h "state", get h "zip_code") in
    geo <- outside (CallGeocode (get h "hospital_name") (get h "address")
                      (get h "city") (get h "state") (get h "zip_code"))
                   (geocodeHospitalAddress w q);;
    hs <- get_hospitals;;
    _ <- set_hospitals
           (<[i := <["longitude" := snd geo]> (<["latitude" := fst geo]> h)]> hs);;
    ret geo
  else ret (hLat, hLon).

(** The array [ranked]: the facilities within the radius, sorted. *)
Definition ranked (o : options) (hLat hLon : value) (fs : list obj)
    : outcome (list obj) :=
  let radius := with_default (radiusMiles o) DEFAULT_RADIUS_MILES in
  let inRadius := withDistance hLat hLon radius fs in
  resolvedSortBy <~ resolveSortBy o;;
  resolvedOrder <~ resolveOrder o resolvedSortBy;;
  sort_by (comparator resolvedSortBy resolvedOrder) inRadius.

(** Filtering, ranking and truncation: the part of [performAnalysis]
    between the coordinates and the enrichment loop; the second
    component is [withDistance.length]. *)
Definition rank (o : options) (hLat hLon : value) (fs : list obj)
    : outcome (list obj * nat) :=
  let radius := with_default (radiusMiles o) DEFAULT_RADIUS_MILES in
  let limit_ := with_default (limit o) DEFAULT_LIMIT in
  let inRadius := withDistance hLat hLon radius fs in
  sorted <~ ranked o hLat hLon fs;;
  Ok (slice0 sorted (orElse limit_ DEFAULT_LIMIT), length inRadius).

Definition performAnalysis (req : request) : M analysis :=
  if negb (truthy (hospitalName req)) then throw (Error "hospitalName required")
  else
    hs <- get_hospitals;;
    found <- lift (find_hospital (hospitalName req) hs 0);;
    match found with
    | None => throw {| message := "Hospital not found"; status := Some 404 |}
    | Some (i, h) =>
        coords <- hospital_coordinates i h;;
        let '(hLat, hLon) := coords in
        top <- lift (rank (opts req) hLat hLon (snfs req));;
        results <- enrich_all req 0 (fst top);;
        ret {| hospital :=
                 {| summary_name := get h "hospital_name";
                    summary_city := get h "city";
                    summary_state := get h "state";
                    summary_latitude := hLat;
                    summary_longitude := hLon |};
               facilities := results;
               totalWithinRadius := snd top |}
    end.

End Engine.

(** ** Record layout of the directory loaders

    [mapHospitalRow] ([backend/loaders/hospitalsLoader.js]) and
    [mapSNFRow] ([backend/loaders/snfsLoader.js]), from the point where
    the columns have been picked out of the raw row.  Both files repeat
    [toString] of the historical loader word for word. *)

Module Loaders.
Section Rows.
Context `{Runtime}.

Definition of_number (o : option Q) : value :=
  match o with
  | Some q => VNumber (Num q)
  | None => VNull
  end.

Definition mapHospitalRow
    (providerId name_ address city state zip county phone type ownership
       emergency : value) (latitude longitude : option Q) : option obj :=
  if negb (truthy name_) then None
  else
    let normalizedName := HistoricalSnf.toString name_ in
    let ccn := if truthy providerId
               then VString (HistoricalSnf.toString providerId) else VNull in
    let id := orElse ccn (VString (norm normalizedName)) in
    Some (list_to_map
      [ ("id", id);
        ("provider_id", ccn);
        ("hospital_name", VString normalizedName);
        ("address", VString (HistoricalSnf.toString address));
        ("city", VString (HistoricalSnf.toString city));
        ("state", VString (toUpperCase (HistoricalSnf.toString state)));
        ("zip_code", VString (HistoricalSnf.toString zip));
        ("county_name", VString (HistoricalSnf.toString county));
        ("phone_number", VString (HistoricalSnf.toString phone));
        ("hospital_type", VString (HistoricalSnf.toString type));
        ("hospital_ownership", VString (HistoricalSnf.toString ownership));
        ("emergency_services",
           VString (match emergency with VNull => "" | v => String_ v end));
        ("latitude", of_number latitude);
        ("longitude", of_number longitude);
        ("_key", VString (norm normalizedName)) ]).

(** [if (x !== null) { snf[k1] = x; snf[k2] = x; }] *)
Definition set_rating (k1 k2 : string) (x : option Q) (snf : obj) : obj :=
  match x with
  | Some q => <[k2 := VNumber (Num q)]> (<[k1 := VNumber (Num q)]> snf)
  | None => snf
  end.

Definition mapSNFRow
    (providerId name_ address city state zip county phone ownership : value)
    (latitude longitude compositeScore overall health staffing qm : option Q)
    : option obj :=
  if negb (truthy name_) then None
  else
    let ccn := if truthy providerId then HistoricalSnf.toString providerId
               else norm (HistoricalSnf.toString name_) in
    let snf0 : obj := list_to_map
      [ ("id", VString ccn);
        ("facility_name", VString (HistoricalSnf.toString name_));
        ("address", VString (HistoricalSnf.toString address));
        ("city", VString (HistoricalSnf.toString city));
        ("state", VString (toUpperCase (HistoricalSnf.toString state)));
        ("zip_code", VString (HistoricalSnf.toString zip));
        ("county_name", VString (HistoricalSnf.toString county));
        ("phone_number", VString (HistoricalSnf.toString phone));
        ("latitude", of_number latitude);
        ("longitude", of_number longitude);
        ("Composite_Score", of_number compositeScore);
        ("ownership_type", VString (HistoricalSnf.toString ownership)) ] in
    let snf1 :=
      if String.eqb ccn "" then snf0
      else <["provider_id" := VString ccn]>
             (<["CMS Certification Number (CCN)" := VString ccn]>
                (<["CCN" := VString ccn]> snf0)) in
    Some (set_rating "qm_rating" "QM Rating" qm
            (set_rating "staffing_rating" "Staffing Rating" staffing
               (set_rating "health_inspection_rating" "Health Inspection Rating" health
                  (set_rating "overall_rating" "Overall Rating" overall snf1)))).

End Rows.
End Loaders.

(** ** A concrete runtime and sample data

    [sample_runtime] fixes the runtime functions for the worked
    examples: the strings ["1.5"] and ["50"] convert to numbers, names
    compare byte-wise, and the distance is the difference of the
    latitudes (enough to place sample facilities at chosen distances). *)

Definition sample_distance (a b : value * value) : number :=
  match fst a, fst b with
  | VNumber (Num x), VNumber (Num y) => Num (Qabs (y - x))
  | VNumber (Num x), VNull => Num (Qabs x)
  | _, _ => NaN
  end.

Definition sample_compare (a b : string) : Z :=
  if String.eqb a b then 0 else if String.leb a b then -1 else 1.

#[local] Instance sample_runtime : Runtime := {|
  StringToNumber := fun s =>
    if String.eqb s "1.5" then Num (3 # 2)
    else if String.eqb s "50" then Num 50
    else NaN;
  parseFloat_string := fun s =>
    if String.eqb s "1.5" then Num (3 # 2) else NaN;
  localeCompare := sample_compare;
  haversine := sample_distance;
  norm := toLowerCase;
|}.

(** ** Vocabulary of the statements *)

(** *** Timelines *)

(** [y] is the latest (earliest) year of the timeline. *)
Definition latest_year (history : gmap Z (gmap string Q)) (y : Z) : Prop :=
  is_Some (history !! y) /\ forall y', is_Some (history !! y') -> y' <= y.

Definition earliest_year (history : gmap Z (gmap string Q)) (y : Z) : Prop :=
  is_Some (history !! y) /\ forall y', is_Some (history !! y') -> y <= y'.

(** The value a timeline holds for a metric in a given year. *)
Definition metric_in (history : gmap Z (gmap string Q)) (y : Z)
    (metric : Dashboard.metricDefinition) : option Q :=
  history !! y ≫= (fun m => m !! Dashboard.historicalKey metric).

Definition history_of (f : Dashboard.facility) : gmap Z (gmap string Q) :=
  default ∅ (Dashboard.historical_metrics f).

(** Every entry of an entry map sits under its own CCN, which is
    padded. *)
Definition keyed_by_ccn (m : list (string * HistoricalSnf.entry)) : Prop :=
  Forall (fun ke => HistoricalSnf.ccn (snd ke) = fst ke /\
                    (6 <= String.length (fst ke))%nat) m.

(** *** Sorting *)

(** [x] may stand before [y]: the comparator answers and its answer is
    not positive. *)
Definition keeps {A} (cmp : A -> A -> outcome number) (x y : A) : Prop :=
  exists c, cmp x y = Ok c /\ num_gt c (Num 0) = false.

(** No element without a value stands before an element with one. *)
Definition sunk {A} (missing : A -> bool) (l : list A) : Prop :=
  forall l1 x l2, l = (l1 ++ x :: l2)%list -> missing x = true ->
                  Forall (fun y => missing y = true) l2.

Section RankingVocabulary.
Context `{Runtime}.

(** The sort key of a facility is missing when [valueFor] yields
    [null]. *)
Definition missing_key (resolvedSortBy : string) (f : obj) : bool :=
  match valueFor resolvedSortBy f with
  | Ok v => nullish v
  | Throw _ => false
  end.

(** [k] is the numeric sort key of [f]: a finite number, or [None] when
    the value is missing. *)
Definition has_key (resolvedSortBy : string) (f : obj) (k : option Q) : Prop :=
  valueFor resolvedSortBy f = Ok (Loaders.of_number k).

Definition cmp_key (asc : bool) (ka kb : option Q) : number :=
  match ka, kb with
  | None, None => Num 0
  | None, Some _ => Num 1
  | Some _, None => Num (-1)
  | Some x, Some y => if asc then Num (x - y) else Num (y - x)
  end.

(** The order the comparator induces on numeric keys. *)
Definition key_le (asc : bool) (ka kb : option Q) : Prop :=
  match ka, kb with
  | _, None => True
  | None, Some _ => False
  | Some x, Some y => if asc then (x <= y)%Q else (y <= x)%Q
  end.

(** The name a facility is sorted under: its [facility_name] in lower
    case, the empty string when it has none. *)
Definition name_key (f : obj) : string :=
  match get f "facility_name" with
  | VString s => toLowerCase s
  | _ => ""
  end.

End RankingVocabulary.

(** *** Hospital names *)

(** [h] carries a name. *)
Definition named (h : obj) : Prop :=
  exists s, get h "hospital_name" = VString s.

(** [h] answers to [n]: a case-insensitive, whitespace-trimmed exact
    match of its name. *)
Definition answers_to (n : string) (h : obj) : Prop :=
  exists s, get h "hospital_name" = VString s /\
            trim (toUpperCase s) = trim (toUpperCase n).

(** *** Well-formed input *)

(** [(v || "").toLowerCase()] is defined: [v] is a string or falsy. *)
Definition lowerable (v : value) : bool := (is_string v || negb (truthy v))%bool.

Definition not_string (v : value) : bool := negb (is_string v).

(** A facility as the loaders build it: ratings and score are numbers
    or missing, the name is a string or missing. *)
Definition well_typed_facility (f : obj) : bool :=
  (not_string (get f "overall_rating")
   && not_string (get f "Overall Rating")
   && not_string (get f "Composite_Score")
   && lowerable (get f "facility_name"))%bool.

Definition well_typed_options (o : options) : bool :=
  (lowerable (sortBy o) && lowerable (order o))%bool.

(** A facility of the array [withDistance]. *)
Definition sortable (f : obj) : bool :=
  (well_typed_facility f && not_string (get f "distance"))%bool.

(** *** Effects *)

(** [m] never throws. *)
Definition safe {A} (m : M A) : Prop :=
  forall s, exists a s', m s = (Ok a, s').

Definition not_found : error :=
  {| message := "Hospital not found"; status := Some 404 |}.

(** The four properties written after the spreads of a returned
    facility. *)
Definition enrichment_keys : list string :=
  [ "historical_metrics"; "historical_years_available";
    "regulatory_history"; "review_enrichment" ].

(** The four property names of a quality object. *)
Definition quality_keys : list string :=
  [ "Mobility at Discharge"; "Discharge to Community Rate";
    "Fall with Major Injury Rate"; "Healthcare-Associated Infection Rate" ].

Definition reads_place_cache (w : world) : Prop :=
  forall key n, exists r, readCacheRecord w key n = Ok r.

Definition reads_review_cache (w : world) : Prop :=
  forall placeId n, exists r, readSnapshot w placeId n = Ok r.

(** The stores a request can reach are readable: a service that is not
    configured reads nothing. *)
Definition stores_readable (w : world) (req : request) : Prop :=
  (is_Some (googlePlaceResolver req) -> reads_place_cache w) /\
  (is_Some (googleReviewsService req) -> reads_review_cache w).

(** What one turn of the enrichment loop returns for the facility at
    position [index]. *)
Definition enriches (req : request) (index : nat) (facility : obj)
    (e : enriched) : Prop :=
  (exists quality,
      (forall k, k ∉ quality_keys -> quality !! k = None) /\
      fields e = quality ∪ <["Local_Rank" := int (Z.of_nat index + 1)]> facility) /\
  historical_metrics e
    = historical_of (historicalSnfTimelines req) (facility_ccn facility) /\
  historical_years_available e = size (historical_metrics e) /\
  regulatory_history e
    = regulatory_of (historicalRegulatory req) (facility_ccn facility).

(** The returned facilities are the enriched elements of [top], in
    order. *)
Definition enriched_from (req : request) (top : list obj) (es : list enriched)
    : Prop :=
  Forall2 (fun e if_ => enriches req (fst if_) (snd if_) e) es
          (zip (seq 0 (length top)) top).

Section ResolutionVocabulary.
Context `{Runtime}.

(** The hospital [h] at position [i] answers to the requested name and
    its coordinates are obtained, stored or geocoded, leaving state
    [s1]. *)
Definition resolves (w : world) (req : request) (s : state) (i : nat) (h : obj)
    (coords : value * value) (s1 : state) : Prop :=
  truthy (hospitalName req) = true /\
  find_hospital (hospitalName req) (hospitals s) 0 = Ok (Some (i, h)) /\
  hospital_coordinates w i h s = (Ok coords, s1).

(** The radius and the slice bound in effect. *)
Definition radius_of (o : options) : value :=
  with_default (radiusMiles o) DEFAULT_RADIUS_MILES.

Definition limit_of (o : options) : value :=
  orElse (with_default (limit o) DEFAULT_LIMIT) DEFAULT_LIMIT.

End ResolutionVocabulary.

(** A sort value that is a finite number or missing. *)
Definition finite_or_missing (v : value) : bool :=
  match v with
  | VUndefined | VNull | VNumber (Num _) => true
  | _ => false
  end.

(** *** Degradation of the enrichment *)

(** What [fetchQualityMetrics] keeps of one settled request: the field
    of the row, [null] when the request was rejected or brought no
    row. *)
Definition settled_value (r : outcome (option obj)) (field : string) : value :=
  match r with
  | Ok (Some o) => coalesce (get o field) VNull
  | Ok None | Throw _ => VNull
  end.

(** The property of a quality object, with the metric requested for it
    and the field read from the row. *)
Definition quality_sources : list (string * (string * string)) :=
  [ ("Mobility at Discharge", ("mobility", "mobility_percent"));
    ("Discharge to Community Rate", ("discharge", "discharge_to_community_percent"));
    ("Fall with Major Injury Rate", ("falls", "fall_with_major_injury_percent"));
    ("Healthcare-Associated Infection Rate", ("hai", "hai_percent")) ].

(** [s'] is reached from [s]: the calls made since are appended to the
    log, one for each instant that has passed. *)
Definition later (s s' : state) : Prop :=
  exists log, calls s' = (calls s ++ log)%list /\
              tick s' = (tick s + length log)%nat.

(** In a run from [s0] to [s'] the outside call made at instant [n] was
    [c]. *)
Definition logged (s0 s' : state) (n : nat) (c : call) : Prop :=
  (tick s0 <= n)%nat /\
  calls s' !! (length (calls s0) + (n - tick s0))%nat = Some c.

Section DegradationVocabulary.
Context `{Runtime}.
Variable w : world.

(** The entry built from a candidate found at instant [n]. *)
Definition found_entry (cand : found_place) (n : nat) : place_entry :=
  {| place_id := found_place_id cand;
     name := orElse (found_name cand) VNull;
     formatted_address := orElse (found_formatted_address cand) VNull;
     location := orElse (found_location cand) VNull;
     resolved_at := Some (now w (S n)) |}.

(** Where an entry of the place-id cache under [key] can come from in a
    request started in state [s0]: the memory layer as it was, a read of
    the store, or a live search that answered with a candidate. *)
Definition entry_known (s0 : state) (key : string) (ent : place_entry) : Prop :=
  placeMem s0 !! key = Some ent \/
  (exists n, (tick s0 <= n)%nat /\ readCacheRecord w key n = Ok (Some ent)) \/
  (exists facility n cand,
      (tick s0 <= n)%nat /\ keyForFacility facility = key /\
      findPlace w (String_ (buildQuery facility)) (buildLocationBias facility) n
        = Ok (Some cand) /\
      ent = found_entry cand n).

(** The same for a review snapshot under the place id [key]. *)
Definition review_known (s0 : state) (key : string) (snap : snapshot) : Prop :=
  reviewMem s0 !! key = Some snap \/
  (exists n, (tick s0 <= n)%nat /\ readSnapshot w key n = Ok (Some snap)) \/
  (exists n result,
      (tick s0 <= n)%nat /\ fetchPlaceDetails w key n = Ok result /\
      snap = {| details := fst result; recent_reviews := snd result;
                fetched_at := Some (now w (S n)) |}).

(** The place id a facility is enriched under: the one it came with, or,
    when it came with none and a resolver is configured, the id of its
    row in the seed table or of a cache entry under its key. *)
Definition place_known (req : request) (s0 : state) (facility : obj)
    (placeId : value) : Prop :=
  placeId = initial_placeId req facility \/
  (exists cfg,
      googlePlaceResolver req = Some cfg /\
      truthy (initial_placeId req facility) = false /\
      ((exists ccn sd,
           normalizeCcn (orElse (orElse (get facility "CCN")
                                        (get facility "provider_id"))
                                (get facility "federal_provider_number"))
             = Some ccn /\
           seedPlaceIds cfg !! ccn = Some sd /\
           placeId = google_place_id sd) \/
       (exists ent, entry_known s0 (keyForFacility facility) ent /\
                    placeId = place_id ent))).

(** The memory layers of the two caches hold nothing but what a request
    started in [s0] can have put there. *)
Definition grown (s0 s : state) : Prop :=
  later s0 s /\
  (forall key ent, placeMem s !! key = Some ent -> entry_known s0 key ent) /\
  (forall key snap, reviewMem s !! key = Some snap -> review_known s0 key snap).

(** What the enrichment of [facility] leaves in the returned object [e]
    in a run from [s0] to [s'], whatever fails: each quality field is
    what the request of its metric for the CCN of the facility, made in
    that run, brought, [null] when that request was rejected;
    [review_enrichment] is [null] or a snapshot of the review cache or
    of a live fetch that answered, under a place id known for the
    facility. *)
Definition degrades (req : request) (s0 s' : state) (facility : obj)
    (e : enriched) : Prop :=
  (forall key metric field,
      (key, (metric, field)) ∈ quality_sources ->
      exists n,
        logged s0 s' n (CallCMS (facility_ccn facility) metric) /\
        get (fields e) key
          = settled_value (fetchCMSMetric w (facility_ccn facility) metric n) field) /\
  (forall snap,
      review_enrichment e = Some snap ->
      exists svc placeId,
        googleReviewsService req = Some svc /\
        truthy placeId = true /\
        place_known req s0 facility placeId /\
        review_known s0 (String_ placeId) snap).

End DegradationVocabulary.

(** A yearly MDS extract whose only row has a measure and a score but no
    CCN column. *)
Definition mds_row_without_ccn : row :=
  [ ("Measure Code", VString "453");
    ("Four Quarter Average Score", VString "1.5") ].

Definition files_without_ccn : HistoricalSnf.year_files :=
  {| HistoricalSnf.providerInfo := None;
     HistoricalSnf.qualityMds := Some [mds_row_without_ccn];
     HistoricalSnf.qualityClaims := None;
     HistoricalSnf.qrpProvider := [None; None] |}.


(** A facility whose timeline holds a metric in 2022 but not in 2024. *)
Definition metric_gap : Dashboard.metricDefinition :=
  {| Dashboard.label := "Pressure Ulcer Rate"; Dashboard.currentKey := Some "Pressure Ulcer Rate";
     Dashboard.historicalKey := "pressure_ulcer_rate";
     Dashboard.higherIsBetter := false;
     Dashboard.unit_ := "%"; Dashboard.group := "safety" |}.

Definition facility_metric_gap : Dashboard.facility :=
  {| Dashboard.fields := {[ "facility_name" := VString "Oak Manor" ]};
     Dashboard.historical_metrics :=
       Some (<[2022 := {[ "pressure_ulcer_rate" := 10%Q ]}]>
               {[ 2024 := {[ "fall_with_major_injury_rate" := 2%Q ]} ]}) |}.

(** A hospital as [mapHospitalRow] builds it from a row with
    coordinates, and the same record with the coordinates also under the
    capitalised names that [performAnalysis] reads. *)
Definition mercy : obj :=
  default ∅
    (Loaders.mapHospitalRow (VString "010001") (VString "Mercy Hospital")
       (VString "1 Main St") (VString "Dothan") (VString "al")
       (VString "36301") (VString "Houston") (VString "3345550100")
       (VString "Acute Care") (VString "Private") (VString "Yes")
       (Some 31%Q) (Some (-85)%Q)).

Definition mercy_capitalised : obj :=
  <["Longitude" := int (-85)]> (<["Latitude" := int 31]> mercy).

(** Facilities as [mapSNFRow] builds them; the latitude places them at
    a chosen distance from the hospital. *)
Definition snf (ccn name_ : string) (lat : Q) (composite : option Q) : obj :=
  default ∅
    (Loaders.mapSNFRow (VString ccn) (VString name_) (VString "2 Oak Ave")
       (VString "Dothan") (VString "AL") (VString "36301") (VString "Houston")
       (VString "3345550111") (VString "For profit")
       (Some lat) (Some (-85)%Q) composite None None None None).

Definition oak_manor : obj := snf "15009" "Oak Manor" 33 (Some 80%Q).
Definition azalea : obj := snf "015010" "azalea Court" 32 None.
Definition far_pines : obj := snf "015011" "Far Pines" 90 (Some 90%Q).
Definition dogwood : obj := snf "015012" "Dogwood Place" (63 # 2) (Some 90%Q).

Definition no_options : options :=
  {| mode := VUndefined; radiusMiles := VUndefined; limit := VUndefined;
     sortBy := VUndefined; order := VUndefined |}.

Definition sort_options (by_ ord : string) (lim : value) : options :=
  {| mode := VUndefined; radiusMiles := VUndefined; limit := lim;
     sortBy := VString by_; order := VString ord |}.

(** Every outside call answers; the stores are empty and the live
    lookups find nothing. *)
Definition calm : world :=
  {| geocodeHospitalAddress := fun _ _ => Ok (int 31, int (-85));
     fetchCMSMetric := fun _ _ _ => Ok None;
     now := fun n => 1000 + Z.of_nat n;
     readCacheRecord := fun _ _ => Ok None;
     writeCacheRecord := fun _ _ _ => Ok tt;
     findPlace := fun _ _ _ => Ok None;
     readSnapshot := fun _ _ => Ok None;
     writeSnapshot := fun _ _ _ => Ok tt;
     fetchPlaceDetails := fun _ _ => Ok (∅, []) |}.

(** The geocoder has no cached record and every provider fails. *)
Definition geocoder_down : world :=
  {| geocodeHospitalAddress := fun '(_, address, city, state, zip) _ =>
       Throw (Error ("Geocoding failed for address: " ++ String_ address ++ ", "
                     ++ String_ city ++ ", " ++ String_ state ++ " "
                     ++ String_ zip));
     fetchCMSMetric := fetchCMSMetric calm;
     now := now calm;
     readCacheRecord := readCacheRecord calm;
     writeCacheRecord := writeCacheRecord calm;
     findPlace := findPlace calm;
     readSnapshot := readSnapshot calm;
     writeSnapshot := writeSnapshot calm;
     fetchPlaceDetails := fetchPlaceDetails calm |}.

(** Every live call and every cache write fails; cache reads answer. *)
Definition upstream_down : world :=
  {| geocodeHospitalAddress := geocodeHospitalAddress calm;
     fetchCMSMetric := fun _ _ _ => Throw (Error "CMS mobility fetch failed");
     now := now calm;
     readCacheRecord := readCacheRecord calm;
     writeCacheRecord := fun _ _ _ => Throw (Error "database unavailable");
     findPlace := fun _ _ _ => Throw (Error "FindPlace HTTP 503");
     readSnapshot := readSnapshot calm;
     writeSnapshot := fun _ _ _ => Throw (Error "database unavailable");
     fetchPlaceDetails := fun _ _ => Throw (Error "Places API HTTP 503") |}.

(** Reading the place-id store fails. *)
Definition place_store_down : world :=
  {| geocodeHospitalAddress := geocodeHospitalAddress calm;
     fetchCMSMetric := fetchCMSMetric calm;
     now := now calm;
     readCacheRecord := fun _ _ => Throw (Error "database unavailable");
     writeCacheRecord := writeCacheRecord calm;
     findPlace := findPlace calm;
     readSnapshot := readSnapshot calm;
     writeSnapshot := writeSnapshot calm;
     fetchPlaceDetails := fetchPlaceDetails calm |}.

Definition boot (hs : list obj) : state :=
  {| tick := 0; hospitals := hs; placeMem := ∅; reviewMem := ∅; calls := [] |}.

Definition sample_resolver : resolver :=
  {| apiKey := VString "key"; maxAgeMs := Num 2592000000; seedPlaceIds := ∅ |}.

Definition sample_reviews : reviews_service :=
  {| reviews_apiKey := VString "key"; reviews_maxAgeMs := Num 604800000 |}.

(** A timeline keyed by the padded CCN of Oak Manor. *)
Definition oak_timeline : HistoricalSnf.timeline :=
  {| HistoricalSnf.t_ccn := "015009";
     HistoricalSnf.t_facility_name := "Oak Manor";
     HistoricalSnf.t_address := ""; HistoricalSnf.t_city := "";
     HistoricalSnf.t_state := ""; HistoricalSnf.t_zip_code := "";
     HistoricalSnf.t_county_name := ""; HistoricalSnf.t_phone_number := "";
     HistoricalSnf.years := {[ 2023 := {[ "pressure_ulcer_rate" := 3 # 2 ]} ]} |}.

Definition sample_request (name_ : string) (fs : list obj) (o : options) : request :=
  {| hospitalName := VString name_;
     snfs := fs;
     historicalSnfTimelines := {[ "015009" := oak_timeline ]};
     historicalRegulatory :=
       {[ "015009" := {| HistoricalRegulatory.t_ccn := "015009";
                         HistoricalRegulatory.t_citations := ∅;
                         HistoricalRegulatory.t_penalties := ∅ |} ]};
     googleReviewsService := Some sample_reviews;
     googlePlaceIds := {[ "015009" := {| google_place_id := VString "ChIJoak";
                                          google_name := VString "Oak Manor" |} ]};
     googlePlaceResolver := Some sample_resolver;
     opts := o |}.

(** A hospital row without coordinates. *)
Definition county_general : obj :=
  default ∅
    (Loaders.mapHospitalRow (VString "010002") (VString "County General")
       (VString "9 Elm St") (VString "Ozark") (VString "AL")
       (VString "36360") (VString "Dale") (VString "3345550199")
       (VString "Acute Care") (VString "Government") (VString "Yes")
       None None).

(** Requests used in the worked examples. *)
Definition four_facilities : list obj := [oak_manor; azalea; far_pines; dogwood].

(** Eight facilities, seven of them within 50 miles of Mercy. *)
Definition eight_facilities : list obj :=
  four_facilities ++
  [ snf "015014" "Elm Court" 30 (Some 60%Q);
    snf "015015" "Birch Hill" 29 (Some 70%Q);
    snf "015016" "Cedar Grove" 34 None;
    snf "015017" "Maple Lane" 35 (Some 40%Q) ].

Definition mercy_request (o : options) : request :=
  sample_request " mercy hospital" four_facilities o.

(** The state after the coordinates of Mercy have been obtained. *)
Definition after_coordinates (w : world) (h : obj) : state :=
  snd (hospital_coordinates w 0 h (boot [h])).

(** The array [ranked] of the four facilities by composite score,
    highest first. *)
Definition by_composite : list obj :=
  match ranked (sort_options "composite" "desc" (int 0)) (int 31) (int (-85))
          four_facilities with
  | Ok sorted => sorted
  | Throw _ => []
  end.

(** Facilities as the dashboard receives them. *)
Definition mobility : Dashboard.metricDefinition :=
  {| Dashboard.label := "Mobility at Discharge";
     Dashboard.currentKey := Some "Mobility at Discharge";
     Dashboard.historicalKey := "mobility_at_discharge";
     Dashboard.higherIsBetter := true;
     Dashboard.unit_ := "%"; Dashboard.group := "outcomes" |}.

Definition facility_with_current : Dashboard.facility :=
  {| Dashboard.fields := {[ "Mobility at Discharge" := VNumber (Num 82) ]};
     Dashboard.historical_metrics :=
       Some {[ 2024 := {[ "mobility_at_discharge" := 14%Q ]} ]} |}.

Definition facility_two_years : Dashboard.facility :=
  {| Dashboard.fields := {[ "Mobility at Discharge" := VNull ]};
     Dashboard.historical_metrics :=
       Some (<[2022 := {[ "mobility_at_discharge" := 10%Q ]}]>
               {[ 2024 := {[ "mobility_at_discharge" := 14%Q ]} ]}) |}.

Definition value_of_current : value :=
  Dashboard.value_ (Dashboard.resolveMetricValue facility_with_current mobility).

(** * Further parts of the repository

    The loader of the seed table, the rating columns of the facility
    loader, the presentation helpers of the dashboard, the HTTP routes in
    front of [performAnalysis] and the paging loop of the CMS client. *)

(** ** Seed table of place ids ([backend/loaders/googlePlaceIdsLoader.js]) *)

Module GooglePlaceIds.

(** [!value && value !== 0] *)
Definition absent (v : value) : bool :=
  (negb (truthy v)
   && negb match v with
           | VNumber (Num q) => Qeq_bool q 0
           | _ => false
           end)%bool.

Definition toCCN (v : value) : value :=
  if absent v then VNull
  else
    let str := trim (String_ v) in
    if String.eqb str "" then VNull else VString (padStart0 6 str).

(** The body of the loop over [parsed.data]. *)
Definition seed_row (map : gmap string seed) (r : row) : gmap string seed :=
  let ccn :=
    orElse (orElse (orElse (orElse
      (toCCN (row_get r "CMS Certification Number (CCN)_x"))
      (toCCN (row_get r "CMS Certification Number (CCN)_y")))
      (toCCN (row_get r "federal_provider_number")))
      (toCCN (row_get r "provider_id")))
      (toCCN (row_get r "CCN")) in
  if negb (truthy ccn) then map
  else
    let placeId :=
      orElse (orElse (orElse (orElse (row_get r "google_place_id")
                                     (row_get r "google_placeid"))
                             (row_get r "place_id"))
                     (row_get r "googlePlaceId"))
             VNull in
    if negb (truthy placeId) then map
    else
      <[String_ ccn :=
          {| google_place_id := placeId;
             google_name := orElse (orElse (row_get r "google_name")
                                           (row_get r "googleName")) VNull |}]> map.

(** [rows] is the parsed seed file; [None] when no path is configured or
    the file cannot be read. *)
Definition loadGooglePlaceIds (rows : option (list row)) : gmap string seed :=
  match rows with
  | None => ∅
  | Some rs => foldl seed_row ∅ rs
  end.

End GooglePlaceIds.

(** ** Rating columns of [mapSNFRow] ([backend/loaders/snfsLoader.js]) *)

Module SnfRatings.
Section Ratings.
Context `{Runtime}.

(** [pick(...values)]: the first value that is neither [undefined], [null]
    nor the empty string. *)
Definition pick (values : list value) : value :=
  default VNull
    (List.find (fun v => match v with
                         | VUndefined | VNull | VString EmptyString => false
                         | _ => true
                         end) values).

(** [getField(row, candidates)]: as [pickField] of the quality loader,
    but an empty candidate is passed over. *)
Fixpoint getField_from (r : row) (normalizedKeys : gmap string string)
    (candidates : list string) : value :=
  match candidates with
  | [] => VUndefined
  | candidate :: rest =>
      if String.eqb candidate "" then getField_from r normalizedKeys rest
      else
        match normalizedKeys !! HistoricalSnf.normalizeFieldName candidate with
        | Some actualKey => row_get r actualKey
        | None => getField_from r normalizedKeys rest
        end
  end.

Definition getField (r : row) (candidates : list string) : value :=
  getField_from r (HistoricalSnf.normKeys r) candidates.

(** [average(numbers)] *)
Definition average (numbers : list Q) : option Q :=
  match numbers with
  | [] => None
  | _ => Some (foldl Qplus 0%Q numbers / inject_Z (Z.of_nat (length numbers)))%Q
  end.

(** The array [ratings] of [mapSNFRow], after [.filter(n => n !== null)]. *)
Definition ratings (r : row) : list Q :=
  omap id
    [ HistoricalSnf.toNumber
        (pick [getField r ["overall_rating"]; row_get r "Overall Rating"]);
      HistoricalSnf.toNumber
        (pick [getField r ["staffing_rating"]; row_get r "Staffing Rating"]);
      HistoricalSnf.toNumber
        (pick [getField r ["qm_rating"; "quality_measure_rating"];
               row_get r "QM Rating"; getField r ["short_stay_qm_rating"]]);
      HistoricalSnf.toNumber
        (pick [getField r ["health_inspection_rating"];
               row_get r "Health Inspection Rating"]) ].

(** [composite !== null ? composite * 20 : null] *)
Definition compositeScore (r : row) : option Q :=
  (fun composite => composite * 20)%Q <$> average (ratings r).

End Ratings.
End SnfRatings.

(** ** Presentation helpers of the dashboard
    ([snf-dashboard/src/SNFDashboard.js]) *)

Module DashboardCards.
Section Cards.
Context `{Runtime}.

(** [compositeBadge(score)]: the label and the style of the pill. *)
Definition compositeBadge (score : value) : string * string :=
  if nullish score then ("No score", "pill-neutral")
  else if num_le (Num 80) (ToNumber score) then ("Excellent", "pill-emerald")
  else if num_le (Num 60) (ToNumber score) then ("Strong", "pill-lime")
  else if num_le (Num 40) (ToNumber score) then ("Average", "pill-amber")
  else if num_le (Num 20) (ToNumber score) then ("Below Avg", "pill-orange")
  else ("High Risk", "pill-rose").

End Cards.

(** [str.replace(/c/g, by)] for a single character [c]. *)
Fixpoint replace_char (c : ascii) (by_ : string) (str : string) : string :=
  match str with
  | EmptyString => EmptyString
  | String d rest =>
      if Ascii.eqb d c then by_ ++ replace_char c by_ rest
      else String d (replace_char c by_ rest)
  end.

(** The function [escape] inside [formatMessageHtml]: five passes, the
    ampersand first. *)
Definition escape (str : string) : string :=
  replace_char "'" "&#39;"
    (replace_char "034" "&quot;"
       (replace_char ">" "&gt;"
          (replace_char "<" "&lt;"
             (replace_char "&" "&amp;" str)))).

End DashboardCards.

(** ** HTTP routes ([backend/routes/analyze.js], [backend/routes/chatRoutes.js]) *)

(** The datasets a router is created with; the hospitals are in the
    shared state. *)
Record datasets := {
  data_snfs : list obj;
  data_historicalSnfTimelines : gmap string HistoricalSnf.timeline;
  data_historicalRegulatory : gmap string HistoricalRegulatory.timeline;
  data_googleReviewsService : option reviews_service;
  data_googlePlaceIds : gmap string seed;
  data_googlePlaceResolver : option resolver;
}.

Definition request_of (d : datasets) (name_ : value) (o : options) : request :=
  {| hospitalName := name_;
     snfs := data_snfs d;
     historicalSnfTimelines := data_historicalSnfTimelines d;
     historicalRegulatory := data_historicalRegulatory d;
     googleReviewsService := data_googleReviewsService d;
     googlePlaceIds := data_googlePlaceIds d;
     googlePlaceResolver := data_googlePlaceResolver d;
     opts := o |}.

(** What [res.json] is given: the analysis, the analysis with the [sort]
    label of [/view], or [{ error }]. *)
Inductive reply :=
| Analysis (a : analysis)
| View (a : analysis) (by_ order_ : value)
| Failure (error_ : string).

Record response := {
  http_status : Z;
  json : reply;
}.

Section Routes.
Context `{Runtime}.
Variable w : world.

(** The [catch] block of the routes. *)
Definition on_error (fallback : string) (err : error) : M response :=
  if bool_decide (status err = Some 404)
  then ret {| http_status := 404; json := Failure (message err) |}
  else ret {| http_status := 500;
              json := Failure (if String.eqb (message err) "" then fallback
                               else message err) |}.

(** [POST /api/analyze]; [body] is [req.body || {}]. *)
Definition analyze_post (d : datasets) (body : obj) : M response :=
  try_catch
    (let name_ := get body "hospitalName" in
     if negb (truthy name_)
     then ret {| http_status := 400; json := Failure "hospitalName required" |}
     else
       result <- performAnalysis w
                   (request_of d name_
                      {| mode := get body "mode";
                         radiusMiles := get body "radiusMiles";
                         limit := get body "limit";
                         sortBy := VUndefined;
                         order := VUndefined |});;
       ret {| http_status := 200; json := Analysis result |})
    (on_error "Analyze failed").

(** The options [GET /api/chat/view] hands to [performAnalysis]. *)
Definition view_options (query : obj) : options :=
  let number_or_undefined v := if truthy v then VNumber (ToNumber v) else VUndefined in
  {| mode := get query "mode";
     radiusMiles := number_or_undefined (get query "radiusMiles");
     limit := number_or_undefined (get query "limit");
     sortBy := get query "sortBy";
     order := get query "order" |}.

(** The [sort] label of the reply:
    [by: sortBy || (mode === "best" ? "composite" : "distance")],
    [order: order || (sortBy === "distance" ? "asc" : "desc")]. *)
Definition view_label (query : obj) : value * value :=
  (orElse (get query "sortBy")
          (match get query "mode" with
           | VString "best" => VString "composite"
           | _ => VString "distance"
           end),
   orElse (get query "order")
          (match get query "sortBy" with
           | VString "distance" => VString "asc"
           | _ => VString "desc"
           end)).

(** [GET /api/chat/view]; [query] is [req.query || {}]. *)
Definition view_get (d : datasets) (query : obj) : M response :=
  try_catch
    (let name_ := get query "hospitalName" in
     if negb (truthy name_)
     then ret {| http_status := 400; json := Failure "hospitalName required" |}
     else
       result <- performAnalysis w (request_of d name_ (view_options query));;
       ret {| http_status := 200;
              json := View result (fst (view_label query)) (snd (view_label query)) |})
    (on_error "View fetch failed").

End Routes.

(** [inferSort(question, explicitSortBy, explicitOrder)] of the chat
    route: the pair [(inferredSortBy, inferredOrder)]. *)
Definition inferSort (question explicitSortBy explicitOrder : value)
    : outcome (value * value) :=
  if truthy explicitSortBy then Ok (explicitSortBy, explicitOrder)
  else
    q <~ toLowerCase_v (orElse question (VString ""));;
    let descHint :=
      (includes q "highest" || includes q "greatest" || includes q "top"
       || includes q "best" || includes q "high to low" || includes q "desc")%bool in
    let ascHint :=
      (includes q "lowest" || includes q "least" || includes q "low to high"
       || includes q "asc" || includes q "smallest")%bool in
    let inferredOrder :=
      if descHint then VString "desc"
      else if ascHint then VString "asc" else VUndefined in
    if includes q "composite" then
      Ok (VString "composite", orElse inferredOrder (VString "desc"))
    else if (includes q "rating" || includes q "stars")%bool then
      Ok (VString "rating", orElse inferredOrder (VString "desc"))
    else if (includes q "distance" || includes q "closest"
             || includes q "nearest")%bool then
      Ok (VString "distance", VString "asc")
    else Ok (explicitSortBy, explicitOrder).

(** ** Context of the chat reply ([backend/routes/chatRoutes.js])

    [summarizeRegulatory] is given the [regulatory_history] of a
    facility of the analysis: its timeline of the regulatory loader or
    [null]. *)

Module ChatContext.

Record regulatory_summary := {
  citations : option HistoricalRegulatory.citation_summary;
  penalties : option HistoricalRegulatory.penalty_summary;
}.

(** [Object.keys(o).map(Number).sort((a, b) => b - a)[0]]: the keys are
    years, pairwise different. *)
Definition latest {A} (o : gmap Z A) : option Z :=
  head (merge_sort Z.ge (elements (dom o))).

(** [summarizeRegulatory(regHistory)]; in [latestYear ? ... : null] a
    missing year and the year 0 are falsy. *)
Definition summarizeRegulatory (regHistory : option HistoricalRegulatory.timeline)
    : option regulatory_summary :=
  match regHistory with
  | None => None
  | Some t =>
      let latestYear := latest (HistoricalRegulatory.t_citations t) in
      let latestPenYear := latest (HistoricalRegulatory.t_penalties t) in
      Some {| citations :=
                match latestYear with
                | Some y =>
                    if y =? 0 then None else HistoricalRegulatory.t_citations t !! y
                | None => None
                end;
              penalties :=
                match latestPenYear with
                | Some y =>
                    if y =? 0 then None else HistoricalRegulatory.t_penalties t !! y
                | None => None
                end |}
  end.

End ChatContext.

(** ** Vocabulary of the further statements *)

(** The CCN [getPlaceId] looks up in the seed table, and the seed it
    finds there. *)
Definition ccnKey (facility : obj) : value :=
  orElse (orElse (get facility "CCN") (get facility "provider_id"))
         (get facility "federal_provider_number").

Definition seed_for (cfg : resolver) (facility : obj) : option seed :=
  normalizedCcn ← normalizeCcn (ccnKey facility);
  sd ← seedPlaceIds cfg !! normalizedCcn;
  if truthy (google_place_id sd) then Some sd else None.

(** A CCN as [toCCN] returns it. *)
Definition padded_or_null (v : value) : Prop :=
  v = VNull \/ exists str, v = VString (padStart0 6 str).

(** The entry [getPlaceId] stores for a place found at time [t]. *)
Definition payload_of (f : found_place) (t : Z) : place_entry :=
  {| place_id := found_place_id f;
     name := orElse (found_name f) VNull;
     formatted_address := orElse (found_formatted_address f) VNull;
     location := orElse (found_location f) VNull;
     resolved_at := Some t |}.

(** [t] is a time stamp younger than [maxAge] at instant [now_]. *)
Definition younger (now_ t : Z) (maxAge : number) : Prop :=
  t <> 0 /\ num_lt (Num (inject_Z (now_ - t))) maxAge = true.

(** The state after [n] outside calls [cs] were made from [s]. *)
Definition after_calls (s : state) (cs : list call) : state :=
  {| tick := length cs + tick s; hospitals := hospitals s;
     placeMem := placeMem s; reviewMem := reviewMem s;
     calls := calls s ++ cs |}.

(** [m] leaves the shared hospital records alone. *)
Definition keeps_hospitals {A} (m : M A) : Prop :=
  forall s, hospitals (snd (m s)) = hospitals s.

(** The sort keys [valueFor] knows. *)
Definition known_sort_keys : list string :=
  [ "rating"; "overall_rating"; "composite"; "composite_score"; "distance";
    "name" ].

(** The metric names of the three code tables of the quality loader. *)
Definition known_metric_keys : list string :=
  (fst <$> HistoricalSnf.MDS_METRIC_CODES)
  ++ (fst <$> HistoricalSnf.CLAIMS_METRIC_CODES)
  ++ (fst <$> HistoricalSnf.QRP_METRIC_CODES).

(** The entries of an entry map of year [y]: one per CCN, each under its
    own CCN, tagged with the year and holding known metrics only. *)
Definition entries_of_year (y : Z) (m : list (string * HistoricalSnf.entry)) : Prop :=
  NoDup (fst <$> m) /\
  Forall (fun ke =>
            HistoricalSnf.ccn (snd ke) = fst ke /\
            HistoricalSnf.year (snd ke) = y /\
            forall k, is_Some (HistoricalSnf.metrics (snd ke) !! k) ->
                      k ∈ known_metric_keys) m.

(** Every year of every timeline was requested and holds the metrics of
    the facility's entry in the extract of that year. *)
Definition timelines_from `{Runtime} (requested : list Z)
    (files : Z -> HistoricalSnf.year_files)
    (timelines : gmap string HistoricalSnf.timeline) : Prop :=
  forall k t, timelines !! k = Some t ->
    HistoricalSnf.t_ccn t = k /\
    HistoricalSnf.years t <> ∅ /\
    forall y m, HistoricalSnf.years t !! y = Some m ->
      y ∈ requested /\
      exists e, e ∈ HistoricalSnf.loadYear y (files y) /\
                HistoricalSnf.ccn e = k /\ HistoricalSnf.metrics e = m.

(** The number of rows filed under the CCN [c]. *)
Definition rows_under (c : string) (rs : list row) : nat :=
  length (List.filter
            (fun r => String.eqb (HistoricalRegulatory.normalizeCCN
                                    (HistoricalRegulatory.provider_number r)) c)
            rs).

(** A row as a CSV parser without type detection delivers it: every
    cell is a string. *)
Definition text_row (r : row) : Prop :=
  Forall (fun kv => is_string (snd kv) = true) r.

(** The counters of a citation summary add up. *)
Definition consistent_citations (e : HistoricalRegulatory.citation_summary) : Prop :=
  0 <= HistoricalRegulatory.immediateJeopardy e /\
  0 <= HistoricalRegulatory.actualHarm e /\
  0 <= HistoricalRegulatory.potentialHarm e /\
  0 <= HistoricalRegulatory.minimalHarm e /\
  0 <= HistoricalRegulatory.infectionControl e <= HistoricalRegulatory.total e /\
  HistoricalRegulatory.immediateJeopardy e + HistoricalRegulatory.actualHarm e
  + HistoricalRegulatory.potentialHarm e + HistoricalRegulatory.minimalHarm e
    <= HistoricalRegulatory.total e.

Definition consistent_penalties (e : HistoricalRegulatory.penalty_summary) : Prop :=
  0 <= HistoricalRegulatory.finesCount e <= HistoricalRegulatory.penalties e /\
  0 <= HistoricalRegulatory.paymentDenials e <= HistoricalRegulatory.penalties e /\
  (HistoricalRegulatory.finesCount e = 0 -> HistoricalRegulatory.finesTotal e = 0%Q).

(** The total a map holds for a CCN, 0 when it has no entry; in a
    well-formed map every entry has a positive total, consistent
    counters and a CCN of at least six characters. *)
Definition total_at (m : gmap string HistoricalRegulatory.citation_summary)
    (c : string) : Z :=
  default 0 (HistoricalRegulatory.total <$> m !! c).

Definition citations_ok (m : gmap string HistoricalRegulatory.citation_summary)
    : Prop :=
  forall c e, m !! c = Some e ->
    0 < HistoricalRegulatory.total e /\ consistent_citations e /\
    (6 <= String.length c)%nat.

Definition penalties_at (m : gmap string HistoricalRegulatory.penalty_summary)
    (c : string) : Z :=
  default 0 (HistoricalRegulatory.penalties <$> m !! c).

Definition penalties_ok (m : gmap string HistoricalRegulatory.penalty_summary)
    : Prop :=
  forall c e, m !! c = Some e ->
    0 < HistoricalRegulatory.penalties e /\ consistent_penalties e /\
    (6 <= String.length c)%nat.

(** Every timeline sits under its own CCN, and each of its yearly
    summaries is the summary the loader of that year computed for
    that CCN. *)
Definition regulatory_from `{Runtime} (requested : list Z)
    (files : Z -> HistoricalRegulatory.year_files)
    (timelines : gmap string HistoricalRegulatory.timeline) : Prop :=
  forall k t, timelines !! k = Some t ->
    HistoricalRegulatory.t_ccn t = k /\
    (forall y e, HistoricalRegulatory.t_citations t !! y = Some e ->
       y ∈ requested /\
       HistoricalRegulatory.loadCitations
         (HistoricalRegulatory.citationsCsv (files y)) !! k = Some e) /\
    (forall y e, HistoricalRegulatory.t_penalties t !! y = Some e ->
       y ∈ requested /\
       HistoricalRegulatory.loadPenalties
         (HistoricalRegulatory.penaltiesCsv (files y)) !! k = Some e).

(** The rank of a badge label, from the worst to the best. *)
Definition badge_level (label : string) : nat :=
  if String.eqb label "Excellent" then 4
  else if String.eqb label "Strong" then 3
  else if String.eqb label "Average" then 2
  else if String.eqb label "Below Avg" then 1
  else 0.

(** The characters [escape] rewrites. *)
Definition markup_char (c : ascii) : bool :=
  (Ascii.eqb c "<" || Ascii.eqb c ">" || Ascii.eqb c "034" || Ascii.eqb c "'")%bool.

(** What [escape] puts in place of one character. *)
Definition escape_char (c : ascii) : string :=
  if Ascii.eqb c "&" then "&amp;"
  else if Ascii.eqb c "<" then "&lt;"
  else if Ascii.eqb c ">" then "&gt;"
  else if Ascii.eqb c "034" then "&quot;"
  else if Ascii.eqb c "'" then "&#39;"
  else String c "".

Fixpoint escape_each (str : string) : string :=
  match str with
  | EmptyString => EmptyString
  | String c rest => escape_char c ++ escape_each rest
  end.

(** No character of [str] is a markup character. *)
Fixpoint free_of_markup (str : string) : bool :=
  match str with
  | EmptyString => true
  | String c rest => (negb (markup_char c) && free_of_markup rest)%bool
  end.

(** ** Sample data of the further worked instances *)

(** A cached place entry, resolved at instant 900. *)
Definition oak_place : place_entry :=
  {| place_id := VString "ChIJoak"; name := VString "Oak Manor";
     formatted_address := VNull; location := VNull; resolved_at := Some 900 |}.

(** The place-id store holds [oak_place] under every key. *)
Definition place_stored : world :=
  {| geocodeHospitalAddress := geocodeHospitalAddress calm;
     fetchCMSMetric := fetchCMSMetric calm;
     now := now calm;
     readCacheRecord := fun _ _ => Ok (Some oak_place);
     writeCacheRecord := writeCacheRecord calm;
     findPlace := findPlace calm;
     readSnapshot := readSnapshot calm;
     writeSnapshot := writeSnapshot calm;
     fetchPlaceDetails := fetchPlaceDetails calm |}.

Definition oak_candidate : found_place :=
  {| found_place_id := VString "ChIJoak"; found_name := VString "Oak Manor";
     found_formatted_address := VUndefined; found_location := VNull |}.

(** The live search finds [oak_candidate]; writing the store fails. *)
Definition place_found : world :=
  {| geocodeHospitalAddress := geocodeHospitalAddress calm;
     fetchCMSMetric := fetchCMSMetric calm;
     now := now calm;
     readCacheRecord := readCacheRecord calm;
     writeCacheRecord := fun _ _ _ => Throw (Error "database unavailable");
     findPlace := fun _ _ _ => Ok (Some oak_candidate);
     readSnapshot := readSnapshot calm;
     writeSnapshot := writeSnapshot calm;
     fetchPlaceDetails := fetchPlaceDetails calm |}.

Definition oak_snapshot : snapshot :=
  {| details := {[ "google_rating" := VNumber (Num (9 # 2)) ]};
     recent_reviews := []; fetched_at := Some 900 |}.

(** The review store holds [oak_snapshot] under every place id. *)
Definition snapshot_stored : world :=
  {| geocodeHospitalAddress := geocodeHospitalAddress calm;
     fetchCMSMetric := fetchCMSMetric calm;
     now := now calm;
     readCacheRecord := readCacheRecord calm;
     writeCacheRecord := writeCacheRecord calm;
     findPlace := findPlace calm;
     readSnapshot := fun _ _ => Ok (Some oak_snapshot);
     writeSnapshot := writeSnapshot calm;
     fetchPlaceDetails := fetchPlaceDetails calm |}.

(** A resolver without an API key. *)
Definition keyless_resolver : resolver :=
  {| apiKey := VUndefined; maxAgeMs := Num 2592000000; seedPlaceIds := ∅ |}.

(** A seed file with one row, for the unpadded CCN of Oak Manor. *)
Definition seed_rows : list row :=
  [ [ ("CCN", VString "15009"); ("google_place_id", VString "ChIJoak");
      ("google_name", VString "Oak Manor") ] ].

Definition seeded_resolver : resolver :=
  {| apiKey := VString "key"; maxAgeMs := Num 2592000000;
     seedPlaceIds := GooglePlaceIds.loadGooglePlaceIds (Some seed_rows) |}.

(** The timeline the quality loader builds from [files_without_ccn]. *)
Definition padded_timeline : HistoricalSnf.timeline :=
  {| HistoricalSnf.t_ccn := "000000";
     HistoricalSnf.t_facility_name := "";
     HistoricalSnf.t_address := ""; HistoricalSnf.t_city := "";
     HistoricalSnf.t_state := ""; HistoricalSnf.t_zip_code := "";
     HistoricalSnf.t_county_name := ""; HistoricalSnf.t_phone_number := "";
     HistoricalSnf.years := {[ 2023 := {[ "pressure_ulcer_rate" := 3 # 2 ]} ]} |}.

(** Two citations of Oak Manor in 2023, one of them for infection
    control, and no penalty file. *)
Definition citation_rows : list row :=
  [ [ ("Federal Provider Number", VString "015009");
      ("Scope Severity Code", VString "J");
      ("Infection Control Inspection Deficiency", VString "Y") ];
    [ ("Federal Provider Number", VString "015009");
      ("Scope Severity Code", VString "e");
      ("Infection Control Inspection Deficiency", VString "N") ] ].

Definition regulatory_files : HistoricalRegulatory.year_files :=
  {| HistoricalRegulatory.citationsCsv := Some citation_rows;
     HistoricalRegulatory.penaltiesCsv := None |}.

Definition oak_citations : HistoricalRegulatory.citation_summary :=
  {| HistoricalRegulatory.total := 2;
     HistoricalRegulatory.immediateJeopardy := 1;
     HistoricalRegulatory.actualHarm := 0;
     HistoricalRegulatory.potentialHarm := 1;
     HistoricalRegulatory.minimalHarm := 0;
     HistoricalRegulatory.infectionControl := 1 |}.

Definition oak_regulatory : HistoricalRegulatory.timeline :=
  {| HistoricalRegulatory.t_ccn := "015009";
     HistoricalRegulatory.t_citations := {[ 2023 := oak_citations ]};
     HistoricalRegulatory.t_penalties := ∅ |}.

(** A provider row with two star ratings. *)
Definition rated_row : row :=
  [ ("provider_name", VString "Oak Manor");
    ("Overall Rating", int 4); ("staffing_rating", int 5) ].

(** Two penalties of Oak Manor: a fine of 50 and a payment denial. *)
Definition penalty_rows : list row :=
  [ [ ("Federal Provider Number", VString "015009");
      ("Penalty Type", VString "Fine"); ("Fine Amount", VString "50") ];
    [ ("Federal Provider Number", VString "015009");
      ("Penalty Type", VString "Payment Denial"); ("Fine Amount", VString "") ] ].

Definition oak_penalties : HistoricalRegulatory.penalty_summary :=
  {| HistoricalRegulatory.penalties := 2;
     HistoricalRegulatory.finesCount := 1;
     HistoricalRegulatory.finesTotal := 0 + 50;
     HistoricalRegulatory.paymentDenials := 1 |}.

(** A row of a yearly extract as the CSV parser delivers it. *)
Definition titled_row : row :=
  [ ("Provider Name", VString "Oak Manor"); ("State", VString "AL") ].

(** The datasets the routers of the worked instances are created with. *)
Definition sample_datasets : datasets :=
  {| data_snfs := four_facilities;
     data_historicalSnfTimelines := ∅;
     data_historicalRegulatory := ∅;
     data_googleReviewsService := None;
     data_googlePlaceIds := ∅;
     data_googlePlaceResolver := None |}.

(** The body of a request for a hospital that is not loaded. *)
Definition nowhere_body : obj := {[ "hospitalName" := VString "Nowhere General" ]}.

(** The year [y] is the latest of [o], and [o] holds [e] for it. *)
Definition latest_entry {A} (o : gmap Z A) (y : Z) (e : A) : Prop :=
  o !! y = Some e /\ forall y', is_Some (o !! y') -> y' <= y.

(** ** Paging through the CMS datasets ([backend/services/cmsService.js])

    The paging options are numbers or absent, and the numbers are
    integers: [None] is an absent option.  The reply of the data API is
    not known: [fetchDataset n limit offset] is the reply to the [n]-th
    request of a run, made with [$limit] and [$offset]; the other
    parameters of a request are the same throughout a run. *)

Module CmsService.

Definition DEFAULT_LIMIT : Z := 50.
Definition MAX_PAGE_SIZE : Z := 500.

Record page_options := {
  pageSize : option Z;
  offset : option Z;
  maxPages : option Z;
  maxRecords : option Z;
  maxOffset : option Z;
}.

(** [v || d] on a number: 0 is falsy. *)
Definition or_number (v : option Z) (d : Z) : Z :=
  match v with
  | Some n => if n =? 0 then d else n
  | None => d
  end.

(** [options.maxPages || Infinity]: [None] is [Infinity]. *)
Definition cap_of (v : option Z) : option Z :=
  match v with
  | Some n => if n =? 0 then None else Some n
  | None => None
  end.

(** [pageCount < cap] *)
Definition below (pageCount : Z) (cap : option Z) : bool :=
  match cap with
  | Some c => pageCount <? c
  | None => true
  end.

(** [Number.parseInt] of an integer is that integer. *)
Definition normalizeLimit (value fallback : Z) : Z :=
  let parsed := value in
  if parsed <=? 0 then fallback else Z.min parsed 500.

(** [keyParts.map(...).join("|")] *)
Definition key_of (keyParts : list value) : string :=
  join "|" ((fun part => if truthy part then toUpperCase (trim (String_ part)) else "")
              <$> keyParts).

Definition hospital_keyParts (row : obj) : list value :=
  [ orElse (orElse (orElse (get row "provider_id") (get row "provider_number"))
              (get row "ccn")) (VString "");
    orElse (orElse (get row "hospital_name") (get row "facility_name")) (VString "");
    orElse (orElse (get row "address") (get row "provider_address")) (VString "");
    orElse (get row "city") (VString "");
    orElse (get row "state") (VString "") ].

Definition snf_keyParts (row : obj) : list value :=
  [ orElse (orElse (orElse (orElse (get row "provider_id") (get row "provider_number"))
                      (get row "ccn")) (get row "CCN")) (VString "");
    orElse (orElse (orElse (get row "provider_name") (get row "facility_name"))
              (get row "name")) (VString "");
    orElse (orElse (get row "address") (get row "provider_address")) (VString "");
    orElse (get row "city") (VString "");
    orElse (get row "state") (VString "") ].

Section Paging.
Variable fetchDataset : nat -> Z -> Z -> outcome (list obj).
(** The key parts and the defaults of [maxRecords] and [maxOffset] are
    what tells [fetchAllHospitals] from [fetchAllSNFs]. *)
Variable keyParts : obj -> list value.
Variable defaultMaxRecords defaultMaxOffset : Z.

(** [fetchHospitals] and [fetchSNFs] as the paging loop calls them:
    [limit] and [offset] are given. *)
Definition fetchPage (n : nat) (limit offset : Z) : outcome (list obj) :=
  fetchDataset n (normalizeLimit limit DEFAULT_LIMIT) offset.

(** The body of [for (const row of page)] on [seen] and [unique]. *)
Definition unique_step (acc : gset string * list obj) (row : obj)
  : gset string * list obj :=
  let key := key_of (keyParts row) in
  if (String.eqb (trim key) "" || bool_decide (key ∈ acc.1))%bool then acc
  else ({[ key ]} ∪ acc.1, (acc.2 ++ [row])%list).

(** The requests of a run, oldest first: [$limit] and [$offset]. *)
Definition requests := list (Z * Z).

(** The [while] loop; [None] when [fuel] iterations do not end it. *)
Fixpoint pages (fuel : nat) (pageSize : Z) (cap : option Z)
    (maxRecords maxOffset : Z) (pageCount offset : Z)
    (seen : gset string) (results : list obj) (log : requests)
  : option (outcome (list obj) * requests) :=
  match fuel with
  | O => None
  | S fuel' =>
      if negb (below pageCount cap) then Some (Ok results, log)
      else if maxOffset <=? offset then Some (Ok results, log)
      else
        let log' := (log ++ [(normalizeLimit pageSize DEFAULT_LIMIT, offset)])%list in
        match fetchPage (length log) pageSize offset with
        | Throw e => Some (Throw e, log')
        | Ok page =>
            if bool_decide (page = []) then Some (Ok results, log')
            else
              let '(seen', unique) := foldl unique_step (seen, []) page in
              if bool_decide (unique = []) then Some (Ok results, log')
              else
                let results' := (results ++ unique)%list in
                if maxRecords <=? Z.of_nat (length results')
                then Some (Ok results', log')
                else if Z.of_nat (length page) <? pageSize
                then Some (Ok results', log')
                else pages fuel' pageSize cap maxRecords maxOffset
                       (pageCount + 1) (offset + Z.of_nat (length page))
                       seen' results' log'
        end
  end.

Definition page_size (o : page_options) : Z :=
  normalizeLimit (or_number (pageSize o) MAX_PAGE_SIZE) MAX_PAGE_SIZE.

(** [fetchAllHospitals], [fetchAllSNFs].  The offset grows in every
    iteration that goes on and the loop ends once it has reached
    [maxOffset]: their distance bounds the iterations. *)
Definition fetchAll (o : page_options) : option (outcome (list obj) * requests) :=
  let pageSize := page_size o in
  let offset := or_number (offset o) 0 in
  let cap := cap_of (maxPages o) in
  let maxRecords := or_number (maxRecords o) defaultMaxRecords in
  let maxOffset := or_number (maxOffset o) defaultMaxOffset in
  pages (S (Z.to_nat (maxOffset - offset))) pageSize cap maxRecords maxOffset
    0 offset ∅ [] [].

End Paging.

Definition fetchAllHospitals (fetchDataset : nat -> Z -> Z -> outcome (list obj)) :=
  fetchAll fetchDataset hospital_keyParts 20000 50000.

Definition fetchAllSNFs (fetchDataset : nat -> Z -> Z -> outcome (list obj)) :=
  fetchAll fetchDataset snf_keyParts 25000 20000.

End CmsService.

(** *** Vocabulary of the paging statements *)

Section PagingVocabulary.
Variable fetchDataset : nat -> Z -> Z -> outcome (list obj).
Variable keyParts : obj -> list value.

(** The deduplication key of a row. *)
Definition row_key (row : obj) : string := CmsService.key_of (keyParts row).

(** [page] is the reply to one of the requests of [log]. *)
Definition replied (log : CmsService.requests) (page : list obj) : Prop :=
  exists i q, log !! i = Some q /\ fetchDataset i q.1 q.2 = Ok page.

(** Later requests start at least [limit] rows further. *)
Definition spaced (limit : Z) (log : CmsService.requests) : Prop :=
  forall i j q q', (i < j)%nat -> log !! i = Some q -> log !! j = Some q' ->
                   q.2 + limit <= q'.2.

(** Every request asks for [limit] rows from an offset between the
    first offset and [maxOffset]; there are at most [cap] requests. *)
Definition disciplined (limit first maxOffset : Z) (cap : option Z)
    (log : CmsService.requests) : Prop :=
  Forall (fun q => q.1 = limit /\ first <= q.2 < maxOffset) log /\
  spaced limit log /\
  (forall c, cap = Some c -> Z.of_nat (length log) <= Z.max c 0).

(** The rows returned after the requests of [log]: no key twice, every
    row from a reply, every key of a reply present, and fewer than
    [maxRecords] rows before the last page was added. *)
Definition paged (limit maxRecords : Z) (rows : list obj)
    (log : CmsService.requests) : Prop :=
  NoDup (row_key <$> rows) /\
  (forall row, row ∈ rows -> exists page, replied log page /\ row ∈ page) /\
  (forall page row, replied log page -> row ∈ page ->
                    row_key row ∈ (row_key <$> rows)) /\
  ((forall page, replied log page -> Z.of_nat (length page) <= limit) ->
   Z.of_nat (length rows) < Z.max maxRecords 1 + limit).

End PagingVocabulary.

(** *** Sample replies of the data API *)

Definition provider (id name_ : string) : obj :=
  {[ "provider_id" := VString id; "provider_name" := VString name_ ]}.

(** Two full pages of two rows, the second repeating a provider of the
    first in another spelling, then nothing. *)
Definition two_pages (n : nat) (limit offset : Z) : outcome (list obj) :=
  if offset =? 0
  then Ok [provider "015009" "Oak Manor"; provider "015010" "Pine View"]
  else if offset =? 2
  then Ok [provider "015010" " pine view"; provider "015011" "Elm Court"]
  else Ok [].

Definition pages_of_two : CmsService.page_options :=
  {| CmsService.pageSize := Some 2; CmsService.offset := None;
     CmsService.maxPages := None; CmsService.maxRecords := None;
     CmsService.maxOffset := Some 10 |}.

(** * Properties *)

(** ** Trimming *)

Lemma trimEnd_head c t :
  is_white c = false -> exists t', trimEnd (String c t) = String c t'.
Proof.
  intros Hc. simpl. destruct (trimEnd t); rewrite ?Hc; eauto.
Qed.

Lemma trimStart_head s :
  trimStart s = "" \/ exists c t, trimStart s = String c t /\ is_white c = false.
Proof.
  induction s as [|c s IH]; simpl; [by left|].
  destruct (is_white c) eqn:Hc; [exact IH|].
  right. eauto.
Qed.

(** A trimmed string is empty or starts with a character that is not
    white space. *)
Lemma trim_head s :
  trim s = "" \/ exists c t, trim s = String c t /\ is_white c = false.
Proof.
  unfold trim. destruct (trimStart_head s) as [->|(c & t & -> & Hc)].
  - by left.
  - right. destruct (trimEnd_head c t Hc) as [t' ->]. eauto.
Qed.

Lemma trim_nonwhite_head c t :
  is_white c = false -> trim (String c t) <> "".
Proof.
  intros Hc. unfold trim. simpl trimStart. rewrite Hc.
  destruct (trimEnd_head c t Hc) as [t' ->]. discriminate.
Qed.

Lemma padStart0_short n s :
  (String.length s < n)%nat -> exists t, padStart0 n s = String "0" t.
Proof.
  intros Hlt. unfold padStart0.
  destruct (n - String.length s)%nat as [|k] eqn:Hk; [lia|].
  simpl. eauto.
Qed.

Lemma padStart0_long n s :
  (n <= String.length s)%nat -> padStart0 n s = s.
Proof.
  intros Hle. unfold padStart0.
  replace (n - String.length s)%nat with 0%nat by lia. reflexivity.
Qed.

Section LoaderFacts.
Context `{Runtime}.
Import HistoricalSnf.

Lemma toString_head v :
  toString v = "" \/ exists c t, toString v = String c t /\ is_white c = false.
Proof.
  destruct v; simpl; auto using trim_head.
Qed.

(** The padded CCN of a row is never blank, whatever the row holds. *)
Lemma normalizeCCNFromRow_not_blank (r : row) :
  trim (normalizeCCNFromRow r) <> "".
Proof.
  unfold normalizeCCNFromRow.
  set (s := toString (pickField r ccn_candidates)).
  destruct (le_lt_dec 6 (String.length s)) as [Hlong|Hshort].
  - rewrite padStart0_long by exact Hlong.
    destruct (toString_head (pickField r ccn_candidates)) as [He|(c & t & He & Hc)];
      fold s in He; rewrite He in *.
    + simpl in Hlong. lia.
    + by apply trim_nonwhite_head.
  - destruct (padStart0_short 6 s Hshort) as [t ->].
    by apply trim_nonwhite_head.
Qed.

(** A row without any CCN column is given the CCN ["000000"]. *)
Lemma normalizeCCNFromRow_missing (r : row) :
  nullish (pickField r ccn_candidates) = true ->
  normalizeCCNFromRow r = "000000".
Proof.
  unfold normalizeCCNFromRow. intros Hn.
  destruct (pickField r ccn_candidates); try discriminate; reflexivity.
Qed.

End LoaderFacts.

(** C9 (evaluation of the loader): the guard [if (!ccn.trim()) continue]
    of [loadYear] never drops a row, because [normalizeCCNFromRow] pads
    before the test; a row without any identifier is kept under the CCN
    ["000000"] and reaches the timelines. *)
Theorem loadYear_keeps_row_without_ccn :
  (forall (R : Runtime) (r : row),
      trim (HistoricalSnf.normalizeCCNFromRow r) <> "") /\
  HistoricalSnf.pickField mds_row_without_ccn HistoricalSnf.ccn_candidates
    = VUndefined /\
  HistoricalSnf.ccn <$> HistoricalSnf.loadYear 2023 files_without_ccn = ["000000"] /\
  (HistoricalSnf.years <$>
     HistoricalSnf.loadHistoricalSNFQuality (Some [2023]) (fun _ => files_without_ccn)
       !! "000000")
    = Some {[ 2023 := {[ "pressure_ulcer_rate" := 3 # 2 ]} ]}.
Proof.
  split; [intros R r; apply normalizeCCNFromRow_not_blank|].
  repeat split; vm_compute; reflexivity.
Qed.

(** ** Metric resolver *)

Section ResolverFacts.
Import Dashboard.
Implicit Types (history : gmap Z (gmap string Q)) (f : facility)
  (metric : metricDefinition).

Lemma sorted_years_elem history y :
  y ∈ sorted_years history <-> is_Some (history !! y).
Proof.
  unfold sorted_years. rewrite merge_sort_Permutation, elem_of_elements.
  apply elem_of_dom.
Qed.

Lemma sorted_years_sorted history : StronglySorted Z.le (sorted_years history).
Proof.
  apply Sorted_StronglySorted; [intros x y z; lia|].
  unfold sorted_years. apply (Sorted_merge_sort Z.le).
Qed.

Lemma StronglySorted_last_max (l : list Z) x :
  StronglySorted Z.le l -> x ∈ l -> exists y, last l = Some y /\ x <= y.
Proof.
  intros Hs. revert x.
  induction Hs as [|a l Hs IH Hall]; intros x Hx; [by apply elem_of_nil in Hx|].
  apply elem_of_cons in Hx as [->|Hx].
  - destruct l as [|b l]; [exists a; split; [done|lia]|].
    destruct (IH b ltac:(left)) as (y & Hy & Hle).
    exists y. split; [exact Hy|].
    rewrite Forall_forall in Hall. specialize (Hall b ltac:(left)). lia.
  - destruct (IH x Hx) as (y & Hy & Hle). exists y. split; [|done].
    destruct l; [by apply elem_of_nil in Hx|exact Hy].
Qed.

Lemma StronglySorted_head_min (l : list Z) x :
  StronglySorted Z.le l -> x ∈ l -> exists y, head l = Some y /\ y <= x.
Proof.
  destruct 1 as [|a l Hs Hall]; intros Hx; [by apply elem_of_nil in Hx|].
  exists a. split; [done|].
  apply elem_of_cons in Hx as [->|Hx]; [lia|].
  rewrite Forall_forall in Hall. by apply Hall.
Qed.

Lemma last_elem_of {A} (l : list A) y : last l = Some y -> y ∈ l.
Proof.
  rewrite last_Some. intros [l' ->]. apply elem_of_app. right. left.
Qed.

Lemma head_elem_of {A} (l : list A) y : head l = Some y -> y ∈ l.
Proof. destruct l; simpl; [done|]. intros [= ->]. left. Qed.

Lemma last_sorted_years history y :
  latest_year history y -> last (sorted_years history) = Some y.
Proof.
  intros [Hin Hmax].
  destruct (StronglySorted_last_max _ y (sorted_years_sorted history))
    as (y' & Hlast & Hle); [by apply sorted_years_elem|].
  rewrite Hlast. f_equal.
  apply last_elem_of, sorted_years_elem, Hmax in Hlast. lia.
Qed.

Lemma head_sorted_years history y :
  earliest_year history y -> head (sorted_years history) = Some y.
Proof.
  intros [Hin Hmin].
  destruct (StronglySorted_head_min _ y (sorted_years_sorted history))
    as (y' & Hhead & Hle); [by apply sorted_years_elem|].
  rewrite Hhead. f_equal.
  apply head_elem_of, sorted_years_elem, Hmin in Hhead. lia.
Qed.

Lemma two_years_length history y0 y1 :
  is_Some (history !! y0) -> is_Some (history !! y1) -> y0 <> y1 ->
  (2 <=? length (sorted_years history))%nat = true.
Proof.
  intros H0 H1 Hne. apply Nat.leb_le.
  apply sorted_years_elem in H0, H1.
  destruct (sorted_years history) as [|a [|b l]]; simpl; [| |lia].
  - by apply elem_of_nil in H0.
  - apply list_elem_of_singleton in H0, H1. congruence.
Qed.

(** A current value wins over whatever the timeline holds. *)
Lemma resolve_current f metric :
  nullish (currentValueOf f metric) = false ->
  value_ (resolveMetricValue f metric) = currentValueOf f metric /\
  source_ (resolveMetricValue f metric) = Some current.
Proof.
  intros Hc. unfold resolveMetricValue.
  cbn [trend_ value_ source_ historicalLatestYear].
  unfold coalesce. rewrite Hc. done.
Qed.

(** Without a current value the answer is read from the latest year of
    the timeline, and from that year only. *)
Lemma resolve_latest f metric y :
  nullish (currentValueOf f metric) = true ->
  latest_year (history_of f) y ->
  value_ (resolveMetricValue f metric)
    = of_option (metric_in (history_of f) y metric) /\
  source_ (resolveMetricValue f metric)
    = (fun _ => historical) <$> metric_in (history_of f) y metric /\
  historicalLatestYear (resolveMetricValue f metric)
    = (fun _ => y) <$> metric_in (history_of f) y metric.
Proof.
  intros Hc Hy. unfold resolveMetricValue.
  cbn [trend_ value_ source_ historicalLatestYear].
  fold (history_of f). rewrite (last_sorted_years _ _ Hy).
  fold (metric_in (history_of f) y metric).
  unfold coalesce. rewrite Hc. simpl.
  destruct (metric_in (history_of f) y metric); done.
Qed.

Lemma resolve_trend f metric y0 y1 v0 v1 :
  earliest_year (history_of f) y0 -> latest_year (history_of f) y1 ->
  y0 <> y1 ->
  metric_in (history_of f) y0 metric = Some v0 ->
  metric_in (history_of f) y1 metric = Some v1 ->
  trend_ (resolveMetricValue f metric)
    = Some {| delta := v1 - v0;
              good := if higherIsBetter metric then negb (Qle_bool (v1 - v0) 0)
                      else negb (negb (Qle_bool (v1 - v0) 0));
              yearSpan := (y0, y1) |}.
Proof.
  intros Hy0 Hy1 Hne H0 H1. unfold resolveMetricValue.
  cbn [trend_ value_ source_ historicalLatestYear].
  fold (history_of f).
  rewrite (last_sorted_years _ _ Hy1), (head_sorted_years _ _ Hy0).
  rewrite (two_years_length _ y0 y1) by (done || apply Hy0 || apply Hy1).
  fold (metric_in (history_of f) y1 metric) (metric_in (history_of f) y0 metric).
  rewrite H0, H1. done.
Qed.

End ResolverFacts.

Section ResolverClaims.
Import Dashboard.

Lemma two_year_history (m22 m24 : gmap string Q) :
  let history : gmap Z (gmap string Q) := <[2022 := m22]> {[2024 := m24]} in
  earliest_year history 2022 /\ latest_year history 2024 /\
  history !! 2022 = Some m22 /\ history !! 2024 = Some m24.
Proof.
  intros history.
  assert (Hkeys : forall y, is_Some (history !! y) -> y = 2022 \/ y = 2024).
  { intros y [m Hm]. unfold history in Hm.
    apply lookup_insert_Some in Hm as [[-> _]|[_ Hm]]; [by left|].
    apply lookup_singleton_Some in Hm as [-> _]. by right. }
  assert (H22 : history !! 2022 = Some m22) by apply lookup_insert_eq.
  assert (H24 : history !! 2024 = Some m24).
  { unfold history. rewrite lookup_insert_ne by done. apply lookup_singleton_eq. }
  repeat split; try done; try (by eexists).
  - intros y Hy. destruct (Hkeys y Hy) as [-> | ->]; lia.
  - intros y Hy. destruct (Hkeys y Hy) as [-> | ->]; lia.
Qed.

(** C4: a current value is returned with source [current] whatever the
    timeline holds; with no current value and the years
    [{2022: 10, 2024: 14}] of a higher-is-better metric the resolver
    returns 14 from 2024 with source [historical] and a good trend of
    delta 4. *)
Theorem resolve_current_then_historical :
  (forall f metric k v,
      currentKey metric = Some k -> k <> "" ->
      fields f !! k = Some v -> nullish v = false ->
      value_ (resolveMetricValue f metric) = v /\
      source_ (resolveMetricValue f metric) = Some current) /\
  (forall f metric m22 m24,
      nullish (currentValueOf f metric) = true ->
      higherIsBetter metric = true ->
      historical_metrics f = Some (<[2022 := m22]> {[2024 := m24]}) ->
      m22 !! historicalKey metric = Some 10%Q ->
      m24 !! historicalKey metric = Some 14%Q ->
      value_ (resolveMetricValue f metric) = VNumber (Num 14) /\
      source_ (resolveMetricValue f metric) = Some historical /\
      historicalLatestYear (resolveMetricValue f metric) = Some 2024 /\
      trend_ (resolveMetricValue f metric)
        = Some {| delta := 4; good := true; yearSpan := (2022, 2024) |}).
Proof.
  split.
  - intros f metric k v Hk Hne Hv Hnn.
    assert (Hcur : currentValueOf f metric = v).
    { unfold currentValueOf. rewrite Hk.
      apply String.eqb_neq in Hne. rewrite Hne. simpl.
      rewrite bool_decide_eq_true_2 by (by eexists).
      unfold get. by rewrite Hv. }
    rewrite <- Hcur in Hnn |- *. by apply resolve_current.
  - intros f metric m22 m24 Hcur Hdir Hhist H22 H24.
    destruct (two_year_history m22 m24) as (Hmin & Hmax & L22 & L24).
    assert (Hh : history_of f = <[2022 := m22]> {[2024 := m24]})
      by (unfold history_of; by rewrite Hhist).
    rewrite <- Hh in Hmin, Hmax, L22, L24.
    assert (M22 : metric_in (history_of f) 2022 metric = Some 10%Q)
      by (unfold metric_in; rewrite L22; exact H22).
    assert (M24 : metric_in (history_of f) 2024 metric = Some 14%Q)
      by (unfold metric_in; rewrite L24; exact H24).
    destruct (resolve_latest f metric 2024 Hcur Hmax) as (-> & -> & ->).
    rewrite (resolve_trend f metric 2022 2024 10 14 Hmin Hmax ltac:(done) M22 M24).
    rewrite M24, Hdir. done.
Qed.

(** C5 (as stated, refuted): the metric is present in 2022 but not in
    2024, the latest year of the timeline; the resolver reports no
    value instead of falling back to 2022. *)
Lemma resolve_skips_earlier_years :
  currentValueOf facility_metric_gap metric_gap = VUndefined /\
  metric_in (history_of facility_metric_gap) 2022 metric_gap = Some 10%Q /\
  source_ (resolveMetricValue facility_metric_gap metric_gap) = None /\
  value_ (resolveMetricValue facility_metric_gap metric_gap) = VNull.
Proof. vm_compute. done. Qed.

(** C5 (amended): without a current value the resolver answers from the
    latest year of the timeline: the metric's value there with source
    [historical], or no value and no source when that year lacks the
    metric; and a trend is computed whenever the timeline has two
    distinct years with the metric present in its earliest and latest
    year. *)
Theorem resolve_reads_latest_timeline_year f metric y1 :
  nullish (currentValueOf f metric) = true ->
  latest_year (history_of f) y1 ->
  (forall v, metric_in (history_of f) y1 metric = Some v ->
     value_ (resolveMetricValue f metric) = VNumber (Num v) /\
     source_ (resolveMetricValue f metric) = Some historical /\
     historicalLatestYear (resolveMetricValue f metric) = Some y1) /\
  (metric_in (history_of f) y1 metric = None ->
     value_ (resolveMetricValue f metric) = VNull /\
     source_ (resolveMetricValue f metric) = None) /\
  (forall y0 v0 v1,
     earliest_year (history_of f) y0 -> y0 <> y1 ->
     metric_in (history_of f) y0 metric = Some v0 ->
     metric_in (history_of f) y1 metric = Some v1 ->
     exists t, trend_ (resolveMetricValue f metric) = Some t /\
               delta t = (v1 - v0)%Q /\ yearSpan t = (y0, y1) /\
               good t = if higherIsBetter metric
                        then negb (Qle_bool (v1 - v0) 0)
                        else Qle_bool (v1 - v0) 0).
Proof.
  intros Hcur Hmax.
  destruct (resolve_latest f metric y1 Hcur Hmax) as (Hv & Hs & Hy).
  repeat split.
  - rewrite Hv, H. done.
  - rewrite Hs, H. done.
  - rewrite Hy, H. done.
  - rewrite Hv, H. done.
  - rewrite Hs, H. done.
  - intros y0 v0 v1 Hmin Hne H0 H1.
    rewrite (resolve_trend f metric y0 y1 v0 v1 Hmin Hmax Hne H0 H1).
    eexists. split; [reflexivity|]. simpl. repeat split.
    destruct (higherIsBetter metric); [done|]. by rewrite negb_involutive.
Qed.

End ResolverClaims.

(** ** Sorting with a comparator that may throw *)

Section SortFacts.
Context {A : Type} (cmp : A -> A -> outcome number).

Lemma insert_by_perm x l r : insert_by cmp x l = Ok r -> r ≡ₚ x :: l.
Proof.
  revert r. induction l as [|y l IH]; intros r; cbn [insert_by sort_by obind].
  - by intros [= <-].
  - destruct (cmp x y) as [c|e]; cbn [insert_by sort_by obind]; [|done].
    destruct (num_gt c (Num 0)).
    + destruct (insert_by cmp x l) as [r'|e]; cbn [insert_by sort_by obind]; [|done].
      intros [= <-]. rewrite (IH r' eq_refl). apply Permutation_swap.
    + by intros [= <-].
Qed.

Lemma sort_by_perm l s : sort_by cmp l = Ok s -> s ≡ₚ l.
Proof.
  revert s. induction l as [|x l IH]; intros s; cbn [insert_by sort_by obind].
  - by intros [= <-].
  - destruct (sort_by cmp l) as [s'|e]; cbn [insert_by sort_by obind]; [|done].
    intros Hins. rewrite (insert_by_perm _ _ _ Hins). by rewrite (IH s').
Qed.

Lemma sort_by_length l s : sort_by cmp l = Ok s -> length s = length l.
Proof. intros Hs. by rewrite (sort_by_perm _ _ Hs). Qed.

(** A comparator that answers on the elements at hand lets [sort]
    finish. *)
Lemma insert_by_returns (P : A -> Prop) x l :
  (forall a b, P a -> P b -> exists c, cmp a b = Ok c) ->
  P x -> Forall P l -> exists r, insert_by cmp x l = Ok r.
Proof.
  intros Hcmp Hx. induction 1 as [|y l Hy Hl IH]; cbn [insert_by sort_by obind]; [eauto|].
  destruct (Hcmp x y Hx Hy) as [c ->]. cbn [obind].
  destruct (num_gt c (Num 0)); [|eauto].
  destruct IH as [r ->]. cbn [obind]. eauto.
Qed.

Lemma sort_by_returns (P : A -> Prop) l :
  (forall a b, P a -> P b -> exists c, cmp a b = Ok c) ->
  Forall P l -> exists s, sort_by cmp l = Ok s.
Proof.
  intros Hcmp. induction 1 as [|x l Hx Hl IH]; cbn [insert_by sort_by obind]; [eauto|].
  destruct IH as [s Hs]. rewrite Hs. cbn [obind].
  apply (insert_by_returns P); [done..|].
  apply sort_by_perm in Hs. by rewrite Hs.
Qed.

(** Sortedness, for a comparator that is consistent on [P]: a positive
    answer one way means [keeps] the other way, and [keeps] is
    transitive. *)
Section Consistent.
Variable P : A -> Prop.
Hypothesis flip : forall a b c,
  P a -> P b -> cmp a b = Ok c -> num_gt c (Num 0) = true -> keeps cmp b a.
Hypothesis trans : forall a b c,
  P a -> P b -> P c -> keeps cmp a b -> keeps cmp b c -> keeps cmp a c.

Lemma insert_by_sorted x l r :
  P x -> Forall P l -> StronglySorted (keeps cmp) l ->
  insert_by cmp x l = Ok r -> StronglySorted (keeps cmp) r.
Proof.
  intros Hx Hl Hs. revert r.
  induction Hs as [|y l Hs IH Hall]; intros r; cbn [insert_by sort_by obind].
  - intros [= <-]. repeat constructor.
  - apply Forall_cons in Hl as [Hy Hl].
    destruct (cmp x y) as [c|e] eqn:Hc; cbn [insert_by sort_by obind]; [|done].
    destruct (num_gt c (Num 0)) eqn:Hgt.
    + destruct (insert_by cmp x l) as [r'|e] eqn:Hr; cbn [insert_by sort_by obind]; [|done].
      intros [= <-]. constructor; [by apply IH|].
      rewrite (insert_by_perm _ _ _ Hr). constructor; [|done].
      by apply (flip x y c).
    + intros [= <-]. constructor; [by constructor|].
      assert (Hxy : keeps cmp x y) by (by exists c).
      constructor; [done|].
      rewrite Forall_forall in Hall, Hl |- *. intros z Hz.
      apply (trans x y z); auto.
Qed.

Lemma sort_by_sorted l s :
  Forall P l -> sort_by cmp l = Ok s -> StronglySorted (keeps cmp) s.
Proof.
  intros Hl. revert s. induction Hl as [|x l Hx Hl IH]; intros s; cbn [insert_by sort_by obind].
  - intros [= <-]. constructor.
  - destruct (sort_by cmp l) as [s'|e] eqn:Hs; cbn [insert_by sort_by obind]; [|done].
    apply insert_by_sorted; [done| |by apply IH].
    by rewrite (sort_by_perm _ _ Hs).
Qed.

End Consistent.

(** Sinking: when the elements are split into those with a value and
    those without ([missing]), and the comparator puts every element
    without a value behind every element with one, the sorted array is
    the valued elements followed by the others.  Nothing is asked of
    the comparator between two elements of the same kind. *)
Section Sinking.
Variable missing : A -> bool.
Hypothesis left_missing : forall a b c,
  missing a = true -> missing b = false -> cmp a b = Ok c ->
  num_gt c (Num 0) = true.
Hypothesis right_missing : forall a b c,
  missing a = false -> missing b = true -> cmp a b = Ok c ->
  num_gt c (Num 0) = false.

Lemma sunk_cons_inv x l : sunk missing (x :: l) -> sunk missing l.
Proof. intros Hs l1 y l2 -> Hy. by apply (Hs (x :: l1) y l2). Qed.

Lemma sunk_cons_valued x l : missing x = false -> sunk missing l -> sunk missing (x :: l).
Proof.
  intros Hx Hs [|z l1] y l2; simpl; intros [= -> ->] Hy; [congruence|].
  by apply (Hs l1 y l2).
Qed.

Lemma sunk_cons_missing x l :
  Forall (fun y => missing y = true) l -> sunk missing (x :: l).
Proof.
  intros Hall [|z l1] y l2; simpl; intros [= -> Hl] Hy; [by subst|].
  subst l. apply Forall_app in Hall as [_ Hall]. by apply Forall_cons in Hall as [_ ?].
Qed.

Lemma sunk_head_missing x l :
  missing x = true -> sunk missing (x :: l) -> Forall (fun y => missing y = true) l.
Proof. intros Hx Hs. by apply (Hs [] x l). Qed.

Lemma insert_by_sunk x l r :
  sunk missing l -> insert_by cmp x l = Ok r -> sunk missing r.
Proof.
  revert r. induction l as [|y l IH]; intros r Hs; cbn [insert_by sort_by obind].
  - intros [= <-]. apply sunk_cons_missing. constructor.
  - destruct (cmp x y) as [c|e] eqn:Hc; cbn [insert_by sort_by obind]; [|done].
    destruct (num_gt c (Num 0)) eqn:Hgt.
    + destruct (insert_by cmp x l) as [r'|e] eqn:Hr; cbn [insert_by sort_by obind]; [|done].
      intros [= <-].
      destruct (missing y) eqn:Hy.
      * (* [y] has no value: neither has anything behind it, nor [x] *)
        apply sunk_cons_missing.
        rewrite (insert_by_perm _ _ _ Hr). constructor.
        -- destruct (missing x) eqn:Hx; [done|].
           by rewrite (right_missing x y c Hx Hy Hc) in Hgt.
        -- by apply (sunk_head_missing y).
      * apply sunk_cons_valued; [done|].
        apply IH; [by apply sunk_cons_inv in Hs|done].
    + intros [= <-].
      destruct (missing x) eqn:Hx.
      * apply sunk_cons_missing.
        destruct (missing y) eqn:Hy.
        -- constructor; [done|]. by apply (sunk_head_missing y).
        -- by rewrite (left_missing x y c Hx Hy Hc) in Hgt.
      * by apply sunk_cons_valued.
Qed.

Lemma sort_by_sunk l s : sort_by cmp l = Ok s -> sunk missing s.
Proof.
  revert s. induction l as [|x l IH]; intros s; cbn [insert_by sort_by obind].
  - intros [= <-] [|? ?] ? ? ?; discriminate.
  - destruct (sort_by cmp l) as [s'|e]; cbn [insert_by sort_by obind]; [|done].
    apply insert_by_sunk. by apply IH.
Qed.

End Sinking.
End SortFacts.

(** ** Ranking *)

Lemma num_gt_diff x y :
  num_gt (Num (x - y)) (Num 0) = negb (Qle_bool x y).
Proof.
  unfold num_gt, num_lt. f_equal.
  destruct (Qle_bool x y) eqn:Hxy.
  - apply Qle_bool_iff. apply Qle_bool_iff in Hxy. lra.
  - destruct (Qle_bool (x - y) 0) eqn:Hd; [|done].
    apply Qle_bool_iff in Hd.
    assert (Hle : (x <= y)%Q) by lra.
    apply Qle_bool_iff in Hle. congruence.
Qed.

Section RankingFacts.
Context `{Runtime}.

Lemma comparator_cases resolvedSortBy resolvedOrder a b c :
  comparator resolvedSortBy resolvedOrder a b = Ok c ->
  exists valA valB,
    valueFor resolvedSortBy a = Ok valA /\
    valueFor resolvedSortBy b = Ok valB /\
    (nullish valA = true -> nullish valB = true -> c = Num 0) /\
    (nullish valA = true -> nullish valB = false -> c = Num 1) /\
    (nullish valA = false -> nullish valB = true -> c = Num (-1)).
Proof.
  unfold comparator.
  destruct (valueFor resolvedSortBy a) as [valA|]; cbn [obind]; [|done].
  destruct (valueFor resolvedSortBy b) as [valB|]; cbn [obind]; [|done].
  intros Hc. exists valA, valB.
  destruct (nullish valA), (nullish valB); simpl in Hc;
    repeat split; try done; intros; congruence.
Qed.

(** Facilities without a value for the sort key end up behind all the
    others, for every key and both orders. *)
Lemma sort_sinks_missing resolvedSortBy resolvedOrder l s :
  sort_by (comparator resolvedSortBy resolvedOrder) l = Ok s ->
  sunk (missing_key resolvedSortBy) s.
Proof.
  apply sort_by_sunk; intros a b c Ha Hb Hc;
    destruct (comparator_cases _ _ _ _ _ Hc) as (va & vb & Hva & Hvb & _ & H10 & H01);
    unfold missing_key in Ha, Hb; rewrite Hva in Ha; rewrite Hvb in Hb.
  - rewrite H10 by done. reflexivity.
  - rewrite H01 by done. reflexivity.
Qed.

(** *** Numeric keys *)

Lemma comparator_keyed resolvedSortBy resolvedOrder a b ka kb :
  has_key resolvedSortBy a ka -> has_key resolvedSortBy b kb ->
  comparator resolvedSortBy resolvedOrder a b
    = Ok (cmp_key (String.eqb resolvedOrder "asc") ka kb).
Proof.
  unfold has_key, comparator. intros -> ->. cbn [obind].
  destruct ka as [x|], kb as [y|]; simpl; done.
Qed.

Lemma cmp_key_le asc ka kb :
  num_gt (cmp_key asc ka kb) (Num 0) = false <-> key_le asc ka kb.
Proof.
  destruct ka as [x|], kb as [y|]; cbn [cmp_key key_le].
  - destruct asc; rewrite num_gt_diff, negb_false_iff; apply Qle_bool_iff.
  - split; [done|reflexivity].
  - split; [discriminate|done].
  - split; [done|reflexivity].
Qed.

Lemma Qle_bool_false x y : Qle_bool x y = false -> (y <= x)%Q.
Proof.
  intros Hn. destruct (Qlt_le_dec y x) as [Hlt|Hle]; [lra|].
  apply Qle_bool_iff in Hle. congruence.
Qed.

Lemma cmp_key_gt asc ka kb :
  num_gt (cmp_key asc ka kb) (Num 0) = true -> key_le asc kb ka.
Proof.
  destruct ka as [x|], kb as [y|]; cbn [cmp_key key_le]; try done.
  destruct asc; rewrite num_gt_diff, negb_true_iff; apply Qle_bool_false.
Qed.

Lemma key_le_trans asc ka kb kc :
  key_le asc ka kb -> key_le asc kb kc -> key_le asc ka kc.
Proof.
  destruct ka, kb, kc; simpl; try done.
  destruct asc; intros; lra.
Qed.

Lemma keeps_keyed resolvedSortBy resolvedOrder a b ka kb :
  has_key resolvedSortBy a ka -> has_key resolvedSortBy b kb ->
  keeps (comparator resolvedSortBy resolvedOrder) a b
    <-> key_le (String.eqb resolvedOrder "asc") ka kb.
Proof.
  intros Ha Hb. unfold keeps. rewrite (comparator_keyed _ _ _ _ _ _ Ha Hb).
  rewrite <- cmp_key_le. split.
  - by intros (c & [= <-] & Hc).
  - eauto.
Qed.

(** When every element has a numeric key the sorted array is ordered by
    [key_le]: its head precedes every element. *)
Lemma sort_head_first resolvedSortBy resolvedOrder l s h f kh kf :
  Forall (fun g => exists k, has_key resolvedSortBy g k) l ->
  sort_by (comparator resolvedSortBy resolvedOrder) l = Ok s ->
  head s = Some h -> f ∈ s ->
  has_key resolvedSortBy h kh -> has_key resolvedSortBy f kf ->
  key_le (String.eqb resolvedOrder "asc") kh kf.
Proof.
  intros Hl Hs Hh Hf Hkh Hkf.
  set (asc := String.eqb resolvedOrder "asc").
  assert (Hsorted :
    StronglySorted (keeps (comparator resolvedSortBy resolvedOrder)) s).
  { apply (sort_by_sorted _ (fun g => exists k, has_key resolvedSortBy g k))
      with (l := l); [| |done..].
    - intros a b c [ka Ha] [kb Hb] Hc Hgt.
      rewrite (comparator_keyed _ _ _ _ _ _ Ha Hb) in Hc. injection Hc as <-.
      apply (keeps_keyed _ _ _ _ _ _ Hb Ha). by apply cmp_key_gt.
    - intros a b c [ka Ha] [kb Hb] [kc Hc] Hab Hbc.
      apply (keeps_keyed _ _ _ _ _ _ Ha Hc).
      apply (key_le_trans _ ka kb kc).
      + by apply (keeps_keyed _ _ _ _ _ _ Ha Hb).
      + by apply (keeps_keyed _ _ _ _ _ _ Hb Hc). }
  apply head_Some in Hh as [s' ->].
  apply StronglySorted_inv in Hsorted as [_ Hall].
  apply elem_of_cons in Hf as [->|Hf].
  - unfold has_key in Hkh, Hkf. rewrite Hkh in Hkf.
    assert (kh = kf) as ->.
    { destruct kh, kf; simpl in Hkf; congruence. }
    destruct kf; simpl; [|done]. destruct asc; lra.
  - rewrite Forall_forall in Hall.
    by apply (keeps_keyed _ _ _ _ _ _ Hkh Hkf), Hall.
Qed.

End RankingFacts.

(** ** The state monad *)

Lemma safe_ret {A} (a : A) : safe (ret a).
Proof. intros s. by exists a, s. Qed.

Lemma safe_bind {A B} (m : M A) (k : A -> M B) :
  safe m -> (forall a, safe (k a)) -> safe (bind m k).
Proof.
  intros Hm Hk s. unfold bind.
  destruct (Hm s) as (a & s1 & ->). apply Hk.
Qed.

(** A [try] whose handler never throws never throws. *)
Lemma safe_try_catch {A} (m : M A) (h : error -> M A) :
  (forall e, safe (h e)) -> safe (try_catch m h).
Proof.
  intros Hh s. unfold try_catch.
  destruct (m s) as [[a|e] s1]; [by exists a, s1|apply Hh].
Qed.

Lemma safe_outside {A} (c : call) (f : nat -> outcome A) :
  (forall n, exists a, f n = Ok a) -> safe (outside c f).
Proof.
  intros Hf s. unfold outside. destruct (Hf (tick s)) as [a ->]. eauto.
Qed.

Lemma bind_Ok {A B} (m : M A) (k : A -> M B) s b s' :
  bind m k s = (Ok b, s') <->
  exists a s1, m s = (Ok a, s1) /\ k a s1 = (Ok b, s').
Proof.
  unfold bind. destruct (m s) as [[a|e] s1]; split.
  - eauto.
  - by intros (a' & s1' & [= -> ->] & ?).
  - done.
  - by intros (a' & s1' & [=] & ?).
Qed.

(** ** Enrichment *)

Section EnrichmentFacts.
Context `{Runtime}.
Variable w : world.

Lemma settled_returns ccn metric field : safe (settled w ccn metric field).
Proof. unfold settled. apply safe_try_catch. intros e. apply safe_ret. Qed.

(** The inner [try] of [fetchQualityMetrics] never reaches its handler:
    the result always carries the four keys and no other. *)
Lemma fetchQualityMetrics_shape ccn s :
  exists q s', fetchQualityMetrics w ccn s = (Ok q, s') /\
    forall k, k ∉ quality_keys -> q !! k = None.
Proof.
  unfold fetchQualityMetrics, try_catch, bind.
  destruct (settled_returns ccn "mobility" "mobility_percent" s) as (v1 & s1 & ->).
  destruct (settled_returns ccn "discharge" "discharge_to_community_percent" s1)
    as (v2 & s2 & ->).
  destruct (settled_returns ccn "falls" "fall_with_major_injury_percent" s2)
    as (v3 & s3 & ->).
  destruct (settled_returns ccn "hai" "hai_percent" s3) as (v4 & s4 & ->).
  eexists _, _. split; [reflexivity|].
  intros k Hk. unfold quality_keys in Hk.
  rewrite !not_elem_of_cons in Hk. destruct Hk as (? & ? & ? & ? & _).
  by rewrite !lookup_insert_ne.
Qed.

(** *** Caches and services under reads that do not throw *)

Lemma placeCache_get_safe key : reads_place_cache w -> safe (placeCache_get w key).
Proof.
  intros Hr. unfold placeCache_get, get_placeMem, set_placeMem.
  destruct (String.eqb key ""); [apply safe_ret|].
  apply safe_bind; [intros s; eauto|]. intros cache.
  destruct (cache !! key); [apply safe_ret|].
  apply safe_bind; [apply safe_outside, Hr|]. intros [r|]; [|apply safe_ret].
  apply safe_bind; [intros s; eauto|]. intros _. apply safe_ret.
Qed.

Lemma isFresh_safe cfg e : safe (isFresh w cfg e).
Proof.
  unfold isFresh, read_tick. destruct (resolved_at e) as [t|]; [|apply safe_ret].
  destruct (t =? 0); [apply safe_ret|].
  apply safe_bind; [intros s; eauto|]. intros n. apply safe_ret.
Qed.

(** [getPlaceId] throws only if reading the cache store throws: the
    live lookup and the write-back sit inside the [try]. *)
Lemma getPlaceId_safe cfg facility :
  reads_place_cache w -> safe (getPlaceId w cfg facility).
Proof.
  intros Hr. unfold getPlaceId.
  destruct (_ ≫= _) as [sd|]; [apply safe_ret|].
  apply safe_bind; [by apply placeCache_get_safe|]. intros cached.
  apply safe_bind.
  { destruct cached; [apply isFresh_safe|apply safe_ret]. }
  intros fresh.
  destruct cached as [e|], fresh; try apply safe_ret;
    (destruct (negb (truthy (apiKey cfg))); [apply safe_ret|]);
    apply safe_try_catch; intros; apply safe_ret.
Qed.

Lemma reviewCache_get_safe key : reads_review_cache w -> safe (reviewCache_get w key).
Proof.
  intros Hr. unfold reviewCache_get, get_reviewMem, set_reviewMem.
  destruct (String.eqb key ""); [apply safe_ret|].
  apply safe_bind; [intros s; eauto|]. intros cache.
  destruct (cache !! key); [apply safe_ret|].
  apply safe_bind; [apply safe_outside, Hr|]. intros [r|]; [|apply safe_ret].
  apply safe_bind; [intros s; eauto|]. intros _. apply safe_ret.
Qed.

Lemma isRecent_safe cfg e : safe (isRecent w cfg e).
Proof.
  unfold isRecent, read_tick. destruct (fetched_at e) as [t|]; [|apply safe_ret].
  destruct (t =? 0); [apply safe_ret|].
  apply safe_bind; [intros s; eauto|]. intros n. apply safe_ret.
Qed.

Lemma getReviewSnapshot_safe cfg placeId :
  reads_review_cache w -> safe (getReviewSnapshot w cfg placeId).
Proof.
  intros Hr. unfold getReviewSnapshot.
  destruct (negb (truthy placeId)); [apply safe_ret|].
  apply safe_bind; [by apply reviewCache_get_safe|]. intros cached.
  apply safe_bind.
  { destruct cached; [apply isRecent_safe|apply safe_ret]. }
  intros recent.
  destruct cached as [e|], recent; try apply safe_ret;
    (destruct (negb (truthy (reviews_apiKey cfg))); [apply safe_ret|]);
    apply safe_try_catch; intros; apply safe_ret.
Qed.

Lemma enrich_Ok req index facility s e s' :
  enrich w req index facility s = (Ok e, s') -> enriches req index facility e.
Proof.
  unfold enrich. rewrite bind_Ok. intros (quality & s1 & Hq & Hrest).
  apply bind_Ok in Hrest as (placeId & s2 & _ & Hrest).
  apply bind_Ok in Hrest as (review & s3 & _ & Hret).
  injection Hret as <- <-. unfold enriches. cbn.
  repeat split; try done.
  exists quality. split; [|done].
  unfold try_catch in Hq.
  destruct (fetchQualityMetrics_shape (facility_ccn facility) s)
    as (q & sq & Hfq & Hkeys).
  rewrite Hfq in Hq. by injection Hq as <- <-.
Qed.

Lemma enrich_safe req index facility :
  stores_readable w req -> safe (enrich w req index facility).
Proof.
  intros [Hplace Hreview]. unfold enrich.
  apply safe_bind; [apply safe_try_catch; intros; apply safe_ret|]. intros quality.
  apply safe_bind.
  { destruct (googlePlaceResolver req) as [r|]; [|apply safe_ret].
    destruct (negb (truthy _)); [|apply safe_ret].
    apply safe_bind; [apply getPlaceId_safe, Hplace; by eexists|].
    intros resolved. apply safe_ret. }
  intros placeId. apply safe_bind; [|intros; apply safe_ret].
  destruct (googleReviewsService req) as [svc|]; [|apply safe_ret].
  destruct (truthy placeId); [|apply safe_ret].
  apply getReviewSnapshot_safe, Hreview. by eexists.
Qed.

Lemma enrich_all_Ok req fs : forall index s es s',
  enrich_all w req index fs s = (Ok es, s') ->
  Forall2 (fun e if_ => enriches req (fst if_) (snd if_) e) es
          (zip (seq index (length fs)) fs).
Proof.
  induction fs as [|f fs IH]; intros index s es s'; cbn [enrich_all].
  - intros [= <- <-]. constructor.
  - rewrite bind_Ok. intros (e & s1 & He & Hrest).
    apply bind_Ok in Hrest as (es' & s2 & Hes & Hret).
    injection Hret as <- <-. cbn. constructor.
    + by apply enrich_Ok in He.
    + by apply IH in Hes.
Qed.

Lemma enrich_all_length req fs index s es s' :
  enrich_all w req index fs s = (Ok es, s') -> length es = length fs.
Proof.
  intros Hes. apply enrich_all_Ok, Forall2_length in Hes.
  rewrite Hes, length_zip, length_seq. lia.
Qed.

Lemma enrich_all_safe req fs index :
  stores_readable w req -> safe (enrich_all w req index fs).
Proof.
  intros Hr. revert index. induction fs as [|f fs IH]; intros index;
    cbn [enrich_all]; [apply safe_ret|].
  apply safe_bind; [by apply enrich_safe|]. intros e.
  apply safe_bind; [apply IH|]. intros es. apply safe_ret.
Qed.

End EnrichmentFacts.

(** ** The analysis as a whole *)

Section AnalysisFacts.
Context `{Runtime}.
Variable w : world.

Lemma withDistance_elem hLat hLon radius fs f' :
  f' ∈ withDistance hLat hLon radius fs ->
  lessEq (get f' "distance") radius = true /\
  exists f d, f ∈ fs /\ f' = <["distance" := VNumber d]> f.
Proof.
  unfold withDistance. rewrite list_elem_of_In, filter_In, <- list_elem_of_In.
  intros [Hin Hle]. split; [done|].
  apply list_elem_of_fmap in Hin as (f & -> & Hf).
  apply list_elem_of_In, filter_In in Hf as [Hf _].
  eexists f, _. by rewrite list_elem_of_In.
Qed.

(** A distance within the radius is a finite number. *)
Lemma lessEq_finite d radius :
  lessEq (VNumber d) radius = true -> exists q, d = Num q.
Proof. unfold lessEq. destruct d as [|q]; simpl; [done|eauto]. Qed.

Lemma well_typed_sortable f d :
  well_typed_facility f = true ->
  sortable (<["distance" := VNumber d]> f) = true.
Proof.
  unfold sortable, well_typed_facility, get. intros Hwt.
  rewrite lookup_insert_eq, !lookup_insert_ne by done.
  by rewrite Hwt.
Qed.

Lemma withDistance_sortable hLat hLon radius fs :
  Forall (fun f => well_typed_facility f = true) fs ->
  Forall (fun f => sortable f = true) (withDistance hLat hLon radius fs).
Proof.
  rewrite !Forall_forall. intros Hwt f' Hf'.
  apply withDistance_elem in Hf' as (_ & f & d & Hf & ->).
  apply well_typed_sortable, Hwt, Hf.
Qed.

Lemma lowerable_toLowerCase v :
  lowerable v = true ->
  exists s, toLowerCase_v (orElse v (VString "")) = Ok s.
Proof.
  unfold lowerable, orElse.
  destruct v as [| |n|s]; simpl; eauto; try done.
  - destruct n as [|q]; simpl; [eauto|].
    destruct (Qeq_bool q 0); simpl; [eauto|done].
  - destruct (String.eqb s ""); simpl; eauto.
Qed.

(** On facilities of [withDistance] built from well-typed records the
    comparator answers for every key and order. *)
Lemma comparator_returns resolvedSortBy resolvedOrder a b :
  sortable a = true -> sortable b = true ->
  exists c, comparator resolvedSortBy resolvedOrder a b = Ok c.
Proof.
  unfold sortable, well_typed_facility, not_string.
  rewrite !andb_true_iff, !negb_true_iff.
  intros [[[[Ha1 Ha2] Ha3] Ha4] Ha5] [[[[Hb1 Hb2] Hb3] Hb4] Hb5].
  destruct (lowerable_toLowerCase _ Ha4) as [sa Hsa].
  destruct (lowerable_toLowerCase _ Hb4) as [sb Hsb].
  unfold comparator, valueFor.
  repeat (destruct (_ || _)%bool || destruct (String.eqb resolvedSortBy _));
    rewrite ?Hsa, ?Hsb; cbn [obind];
    repeat match goal with
    | |- context [get ?f ?k] =>
        let v := fresh "v" in
        remember (get f k) as v; destruct v as [| |?|?]; try discriminate
    end;
    cbn; try destruct (String.eqb resolvedOrder "asc"); eauto.
Qed.

Lemma ranked_returns o hLat hLon fs :
  well_typed_options o = true ->
  Forall (fun f => well_typed_facility f = true) fs ->
  exists s, ranked o hLat hLon fs = Ok s.
Proof.
  unfold well_typed_options. rewrite andb_true_iff. intros [Hs Ho] Hwt.
  unfold ranked, resolveSortBy, resolveOrder.
  destruct (lowerable_toLowerCase _ Hs) as [s1 ->]. cbn [obind].
  destruct (lowerable_toLowerCase _ Ho) as [s2 ->]. cbn [obind].
  apply (sort_by_returns _ (fun f => sortable f = true)).
  - intros a b. apply comparator_returns.
  - by apply withDistance_sortable.
Qed.

Lemma ranked_perm o hLat hLon fs s :
  ranked o hLat hLon fs = Ok s ->
  s ≡ₚ withDistance hLat hLon (radius_of o) fs.
Proof.
  unfold ranked.
  destruct (resolveSortBy o) as [by_|]; cbn [obind]; [|done].
  destruct (resolveOrder o by_) as [ord|]; cbn [obind]; [|done].
  apply sort_by_perm.
Qed.

Lemma rank_Ok o hLat hLon fs top n :
  rank o hLat hLon fs = Ok (top, n) <->
  exists s, ranked o hLat hLon fs = Ok s /\
            top = slice0 s (limit_of o) /\
            n = length (withDistance hLat hLon (radius_of o) fs).
Proof.
  unfold rank. destruct (ranked o hLat hLon fs) as [s|e]; cbn [obind]; split.
  - intros [= <- <-]. eauto.
  - by intros (s' & [= <-] & -> & ->).
  - done.
  - by intros (s' & [=] & _).
Qed.

Lemma slice0_take {A} (l : list A) v : exists k, slice0 l v = take k l.
Proof. unfold slice0. eauto. Qed.

Lemma slice0_length {A} (l : list A) v : (length (slice0 l v) <= length l)%nat.
Proof.
  destruct (slice0_take l v) as [k ->]. rewrite length_take. lia.
Qed.

Lemma slice0_elem {A} (l : list A) v x : x ∈ slice0 l v -> x ∈ l.
Proof.
  destruct (slice0_take l v) as [k ->]. apply subseteq_take.
Qed.

(** [slice(0, 5)] *)
Lemma slice0_default {A} (l : list A) :
  slice0 l DEFAULT_LIMIT = take 5 l.
Proof.
  unfold slice0, DEFAULT_LIMIT, int. cbn [ToNumber to_integer inject_Z Qnum Qden].
  change (Z.quot 5 1) with 5. change (5 <? 0) with false. cbv iota.
  destruct (Z.min_spec 5 (Z.of_nat (length l))) as [[Hlt ->]|[Hge ->]].
  - reflexivity.
  - rewrite Nat2Z.id. rewrite take_ge by lia. by rewrite take_ge by lia.
Qed.

(** A falsy [limit] is replaced by the default before the slice. *)
Lemma limit_of_falsy o : truthy (limit o) = false -> limit_of o = DEFAULT_LIMIT.
Proof.
  unfold limit_of, with_default, orElse. intros Hf.
  destruct (limit o); try done; by rewrite Hf.
Qed.

(** Unfolding of [performAnalysis] on a run that returns. *)
Lemma performAnalysis_Ok req s r s' :
  performAnalysis w req s = (Ok r, s') <->
  exists i h hLat hLon s1 top,
    resolves w req s i h (hLat, hLon) s1 /\
    rank (opts req) hLat hLon (snfs req) = Ok (top, totalWithinRadius r) /\
    enrich_all w req 0 top s1 = (Ok (facilities r), s') /\
    hospital r = {| summary_name := get h "hospital_name";
                    summary_city := get h "city";
                    summary_state := get h "state";
                    summary_latitude := hLat;
                    summary_longitude := hLon |}.
Proof.
  unfold performAnalysis, resolves.
  destruct (truthy (hospitalName req)); cbn [negb].
  2:{ split; [done|]. by intros (? & ? & ? & ? & ? & ? & (? & _) & _). }
  unfold bind at 1. unfold get_hospitals. unfold bind at 1. unfold lift.
  destruct (find_hospital (hospitalName req) (hospitals s) 0) as [[[i h]|]|e].
  2,3: split; [done|]; by intros (? & ? & ? & ? & ? & ? & (_ & ? & _) & _).
  rewrite bind_Ok. split.
  - intros ([hLat hLon] & s1 & Hc & Hrest).
    apply bind_Ok in Hrest as ([top n] & s2 & Hrank & Hrest).
    unfold lift in Hrank. injection Hrank as Hrank <-.
    apply bind_Ok in Hrest as (results & s3 & Henrich & Hret).
    injection Hret as <- <-. cbn in *.
    exists i, h, hLat, hLon, s1, top. done.
  - intros (i' & h' & hLat & hLon & s1 & top & (_ & [= <- <-] & Hc) & Hrank & Hen & Hh).
    exists (hLat, hLon), s1. split; [done|].
    apply bind_Ok. exists (top, totalWithinRadius r), s1.
    split; [unfold lift; by rewrite Hrank|].
    apply bind_Ok. exists (facilities r), s'. split; [done|].
    unfold ret. destruct r. cbn in *. by rewrite Hh.
Qed.

(** A request whose hospital resolves returns as soon as its input is
    well typed and the cache stores can be read. *)
Lemma performAnalysis_returns req s i h coords s1 :
  resolves w req s i h coords s1 ->
  well_typed_options (opts req) = true ->
  Forall (fun f => well_typed_facility f = true) (snfs req) ->
  stores_readable w req ->
  exists r s', performAnalysis w req s = (Ok r, s').
Proof.
  intros Hres Ho Hfs Hst. destruct coords as [hLat hLon].
  destruct (ranked_returns (opts req) hLat hLon (snfs req) Ho Hfs) as [sorted Hs].
  set (top := slice0 sorted (limit_of (opts req))).
  set (n := length (withDistance hLat hLon (radius_of (opts req)) (snfs req))).
  destruct (enrich_all_safe w req top 0 Hst s1) as (es & s' & Hes).
  exists {| hospital := {| summary_name := get h "hospital_name";
                           summary_city := get h "city";
                           summary_state := get h "state";
                           summary_latitude := hLat;
                           summary_longitude := hLon |};
            facilities := es; totalWithinRadius := n |}, s'.
  apply performAnalysis_Ok. exists i, h, hLat, hLon, s1, top. cbn.
  split; [exact Hres|]. split; [apply rank_Ok; eauto|]. done.
Qed.

(** The facilities of a returned analysis are the enriched head of the
    ranked array. *)
Lemma performAnalysis_facilities req s r s' :
  performAnalysis w req s = (Ok r, s') ->
  exists i h hLat hLon s1 sorted,
    resolves w req s i h (hLat, hLon) s1 /\
    ranked (opts req) hLat hLon (snfs req) = Ok sorted /\
    enriched_from req (slice0 sorted (limit_of (opts req))) (facilities r) /\
    totalWithinRadius r
      = length (withDistance hLat hLon (radius_of (opts req)) (snfs req)).
Proof.
  rewrite performAnalysis_Ok.
  intros (i & h & hLat & hLon & s1 & top & Hres & Hrank & Hen & _).
  apply rank_Ok in Hrank as (sorted & Hs & -> & Hn).
  exists i, h, hLat, hLon, s1, sorted. split; [exact Hres|].
  split; [done|]. split; [|done]. by apply enrich_all_Ok in Hen.
Qed.

(** Enrichment leaves the fields of the ranked facility in place,
    except for the rank and the four quality keys. *)
Lemma enriches_field req index facility e k :
  enriches req index facility e -> k ∉ quality_keys -> k <> "Local_Rank" ->
  get (fields e) k = get facility k.
Proof.
  intros ((quality & Hq & ->) & _) Hk Hrank. unfold get.
  rewrite lookup_union_r by (by apply Hq). by rewrite lookup_insert_ne.
Qed.

Lemma enriched_from_elem req top es e :
  enriched_from req top es -> e ∈ es ->
  exists index f, f ∈ top /\ enriches req index f e.
Proof.
  unfold enriched_from. intros Hall He.
  apply list_elem_of_lookup in He as [j Hj].
  destruct (Forall2_lookup_l _ _ _ _ _ Hall Hj) as ([index f] & Hz & Hen).
  exists index, f. split; [|done].
  apply list_elem_of_lookup_2 in Hz. by apply elem_of_zip_r in Hz.
Qed.

Lemma enriched_from_length req top es :
  enriched_from req top es -> length es = length top.
Proof.
  intros Hall. apply Forall2_length in Hall.
  rewrite Hall, length_zip, length_seq. lia.
Qed.

(** [Local_Rank] is the position in the returned list, counted from 1. *)
Lemma enriched_from_rank req top es j e :
  enriched_from req top es -> es !! j = Some e ->
  get (fields e) "Local_Rank" = int (Z.of_nat j + 1).
Proof.
  unfold enriched_from. intros Hall Hj.
  destruct (Forall2_lookup_l _ _ _ _ _ Hall Hj) as ([index f] & Hz & Hen).
  apply lookup_zip_Some in Hz as [Hseq _]. cbn [fst snd] in *.
  apply lookup_seq in Hseq as [-> _].
  destruct Hen as ((quality & Hq & ->) & _). unfold get.
  rewrite lookup_union_r.
  - by rewrite lookup_insert_eq.
  - apply Hq. unfold quality_keys. rewrite !not_elem_of_cons.
    repeat split; try done. apply not_elem_of_nil.
Qed.

Lemma performAnalysis_local_rank req s r s' j e :
  performAnalysis w req s = (Ok r, s') -> facilities r !! j = Some e ->
  get (fields e) "Local_Rank" = int (Z.of_nat j + 1).
Proof.
  intros Hrun.
  destruct (performAnalysis_facilities req s r s' Hrun)
    as (_ & _ & _ & _ & _ & sorted & _ & _ & Hen & _).
  by apply (enriched_from_rank req _ _ j e Hen).
Qed.

(** The coordinates a returned analysis reports are those the hospital
    resolved to. *)
Lemma performAnalysis_coordinates req s r s' i h coords s1 :
  performAnalysis w req s = (Ok r, s') ->
  resolves w req s i h coords s1 ->
  summary_latitude (hospital r) = fst coords /\
  summary_longitude (hospital r) = snd coords.
Proof.
  intros Hrun (_ & Hfind & Hcoord).
  apply performAnalysis_Ok in Hrun
    as (i' & h' & hLat & hLon & s1' & top & (_ & Hfind' & Hcoord') & _ & _ & ->).
  rewrite Hfind in Hfind'. injection Hfind' as <- <-.
  rewrite Hcoord in Hcoord'. by injection Hcoord' as -> _.
Qed.

End AnalysisFacts.

(** ** Claims on the analysis *)

Section AnalysisClaims.
Context `{Runtime}.
Variable w : world.

(** C1: every analysis that [performAnalysis] returns counts at least as
    many facilities within the radius as it lists, and every listed
    facility has [distance <= radiusMiles]; and an analysis is returned
    whenever the hospital resolves, for well-typed input and readable
    cache stores. *)
Theorem analysis_within_radius req s :
  (forall r s',
      performAnalysis w req s = (Ok r, s') ->
      (length (facilities r) <= totalWithinRadius r)%nat /\
      forall e, e ∈ facilities r ->
        lessEq (get (fields e) "distance") (radius_of (opts req)) = true) /\
  (forall i h coords s1,
      resolves w req s i h coords s1 ->
      well_typed_options (opts req) = true ->
      Forall (fun f => well_typed_facility f = true) (snfs req) ->
      stores_readable w req ->
      exists r s', performAnalysis w req s = (Ok r, s')).
Proof.
  split; [|apply performAnalysis_returns].
  intros r s' Hrun.
  destruct (performAnalysis_facilities w req s r s' Hrun)
    as (i & h & hLat & hLon & s1 & sorted & _ & Hsorted & Hen & Hn).
  pose proof (ranked_perm _ _ _ _ _ Hsorted) as Hperm.
  split.
  - rewrite (enriched_from_length _ _ _ Hen), Hn, <- Hperm.
    apply slice0_length.
  - intros e He.
    destruct (enriched_from_elem _ _ _ _ Hen He) as (index & f & Hf & Hef).
    rewrite (enriches_field _ _ _ _ "distance" Hef).
    + apply slice0_elem in Hf. rewrite Hperm in Hf.
      by apply withDistance_elem in Hf as [Hle _].
    + unfold quality_keys. rewrite !not_elem_of_cons.
      repeat split; try done. apply not_elem_of_nil.
    + done.
Qed.

(** C10: with a falsy [limit] (0, [null], the empty string, [NaN] or
    absent) every returned analysis lists [min(5, totalWithinRadius)]
    facilities, where [totalWithinRadius] counts the facilities of the
    request that lie within the radius of the coordinates it reports; it
    lists none only when none lies within the radius, and those it
    lists are the enriched first five of the ranking of these
    facilities.  An analysis is returned whenever the hospital
    resolves, for well-typed input and readable cache stores. *)
Theorem falsy_limit_means_five req s :
  truthy (limit (opts req)) = false ->
  (forall r s',
      performAnalysis w req s = (Ok r, s') ->
      let hLat := summary_latitude (hospital r) in
      let hLon := summary_longitude (hospital r) in
      let inRadius := withDistance hLat hLon (radius_of (opts req)) (snfs req) in
      length (facilities r) = Nat.min 5 (totalWithinRadius r) /\
      totalWithinRadius r = length inRadius /\
      (facilities r = [] -> inRadius = []) /\
      exists sorted,
        ranked (opts req) hLat hLon (snfs req) = Ok sorted /\
        sorted ≡ₚ inRadius /\
        enriched_from req (take 5 sorted) (facilities r)) /\
  (forall i h coords s1,
      resolves w req s i h coords s1 ->
      well_typed_options (opts req) = true ->
      Forall (fun f => well_typed_facility f = true) (snfs req) ->
      stores_readable w req ->
      exists r s', performAnalysis w req s = (Ok r, s')).
Proof.
  intros Hfalsy. split; [|apply performAnalysis_returns].
  intros r s' Hrun.
  destruct (performAnalysis_facilities w req s r s' Hrun)
    as (i & h & hLat & hLon & s1 & sorted & Hres & Hsorted & Hen & Hn).
  destruct (performAnalysis_coordinates w req s r s' i h (hLat, hLon) s1 Hrun Hres)
    as [-> ->]. cbn [fst snd]. cbv zeta.
  pose proof (ranked_perm _ _ _ _ _ Hsorted) as Hperm.
  rewrite (limit_of_falsy _ Hfalsy), slice0_default in Hen.
  assert (length (facilities r)
          = Nat.min 5 (length (withDistance hLat hLon (radius_of (opts req))
                                 (snfs req)))) as Hlen.
  { by rewrite (enriched_from_length _ _ _ Hen), length_take, Hperm. }
  split; [by rewrite Hn|]. split; [done|]. split.
  - intros Hnone. rewrite Hnone in Hlen. cbn in Hlen.
    destruct (withDistance hLat hLon (radius_of (opts req)) (snfs req)); [done|].
    cbn in Hlen. lia.
  - by exists sorted.
Qed.

(** [find_hospital] returns the first hospital that answers to the
    name, and nothing when none does. *)
Lemma find_hospital_none n hs i :
  Forall named hs -> Forall (fun h => ~ answers_to n h) hs ->
  find_hospital (VString n) hs i = Ok None.
Proof.
  intros Hnamed. revert i.
  induction Hnamed as [|h hs [s Hs] _ IH]; intros i Hno; [done|].
  apply Forall_cons in Hno as [Hh Hno]. cbn [find_hospital].
  rewrite Hs. cbn [toUpperCase_v obind].
  destruct (String.eqb (trim (toUpperCase s)) (trim (toUpperCase n))) eqn:Heq.
  - apply String.eqb_eq in Heq. destruct Hh. by exists s.
  - by apply IH.
Qed.

Lemma find_hospital_some n hs i j h :
  find_hospital (VString n) hs i = Ok (Some (j, h)) ->
  answers_to n h /\ h ∈ hs.
Proof.
  revert i. induction hs as [|h0 hs IH]; intros i; cbn [find_hospital]; [done|].
  destruct (get h0 "hospital_name") as [| | |s] eqn:Hs; cbn [toUpperCase_v obind];
    try done.
  destruct (String.eqb (trim (toUpperCase s)) (trim (toUpperCase n))) eqn:Heq.
  - intros [= <- <-]. apply String.eqb_eq in Heq.
    split; [by exists s|left].
  - intros Hrest. destruct (IH _ Hrest) as [Ha Hin]. split; [done|by right].
Qed.

Lemma find_hospital_match n hs i :
  Forall named hs -> Exists (answers_to n) hs ->
  exists j h, find_hospital (VString n) hs i = Ok (Some (j, h)).
Proof.
  intros Hnamed. revert i.
  induction Hnamed as [|h hs [s Hs] _ IH]; intros i Hex;
    [by apply Exists_nil in Hex|].
  cbn [find_hospital]. rewrite Hs. cbn [toUpperCase_v obind].
  destruct (String.eqb (trim (toUpperCase s)) (trim (toUpperCase n))) eqn:Heq;
    [eauto|].
  apply Exists_cons in Hex as [(s' & Hs' & Heq')|Hex]; [|by apply IH].
  rewrite Hs in Hs'. injection Hs' as <-.
  apply String.eqb_neq in Heq. done.
Qed.

(** Unfolding of a request whose hospital is not found. *)
Lemma performAnalysis_not_found req s :
  truthy (hospitalName req) = true ->
  find_hospital (hospitalName req) (hospitals s) 0 = Ok None ->
  performAnalysis w req s = (Throw not_found, s).
Proof.
  intros Hname Hfind. unfold performAnalysis. rewrite Hname. cbn [negb].
  unfold bind, get_hospitals, lift. by rewrite Hfind.
Qed.

(** A geocoder failure on a matched hospital leaves the request. *)
Lemma performAnalysis_geocoding_failed req s i h e :
  truthy (hospitalName req) = true ->
  find_hospital (hospitalName req) (hospitals s) 0 = Ok (Some (i, h)) ->
  (Number_isNaN (VNumber (parseFloat (get h "Latitude")))
   || Number_isNaN (VNumber (parseFloat (get h "Longitude"))))%bool = true ->
  geocodeHospitalAddress w
    (get h "hospital_name", get h "address", get h "city", get h "state",
     get h "zip_code") (tick s) = Throw e ->
  fst (performAnalysis w req s) = Throw e.
Proof.
  intros Hname Hfind Hnan Hgeo. unfold performAnalysis. rewrite Hname. cbn [negb].
  unfold bind at 1. unfold get_hospitals. unfold bind at 1. unfold lift.
  rewrite Hfind. unfold bind at 1. unfold hospital_coordinates. rewrite Hnan.
  unfold bind at 1. unfold outside. by rewrite Hgeo.
Qed.

(** C2 (amended): a non-empty [hospitalName] that no loaded hospital
    answers to (case-insensitive, whitespace-trimmed exact match) fails
    with "Hospital not found" and status 404, leaving the state as it
    was; when some hospital answers, the first such hospital is
    selected, and the request can still fail: it does when the
    coordinates must be geocoded and the geocoder fails; and a hospital
    that resolves with no facility within the radius gets the empty
    list and a count of 0. *)
Theorem analysis_failure_modes req s n :
  hospitalName req = VString n -> n <> "" ->
  Forall named (hospitals s) ->
  (Forall (fun h => ~ answers_to n h) (hospitals s) ->
     performAnalysis w req s = (Throw not_found, s)) /\
  (Exists (answers_to n) (hospitals s) ->
     exists i h, find_hospital (hospitalName req) (hospitals s) 0
                   = Ok (Some (i, h)) /\ answers_to n h) /\
  (forall i h e,
     find_hospital (hospitalName req) (hospitals s) 0 = Ok (Some (i, h)) ->
     (Number_isNaN (VNumber (parseFloat (get h "Latitude")))
      || Number_isNaN (VNumber (parseFloat (get h "Longitude"))))%bool = true ->
     geocodeHospitalAddress w
       (get h "hospital_name", get h "address", get h "city", get h "state",
        get h "zip_code") (tick s) = Throw e ->
     fst (performAnalysis w req s) = Throw e) /\
  (forall i h hLat hLon s1,
     resolves w req s i h (hLat, hLon) s1 ->
     well_typed_options (opts req) = true ->
     withDistance hLat hLon (radius_of (opts req)) (snfs req) = [] ->
     exists r, performAnalysis w req s = (Ok r, s1) /\
               facilities r = [] /\ totalWithinRadius r = 0%nat).
Proof.
  intros Hn Hne Hnamed.
  assert (Hname : truthy (hospitalName req) = true).
  { rewrite Hn. cbn. apply String.eqb_neq in Hne. by rewrite Hne. }
  split.
  { intros Hno. apply performAnalysis_not_found; [done|].
    rewrite Hn. by apply find_hospital_none. }
  split.
  { intros Hex. rewrite Hn.
    destruct (find_hospital_match n (hospitals s) 0 Hnamed Hex) as (i & h & Hf).
    exists i, h. split; [done|]. by apply find_hospital_some in Hf as [? _]. }
  split; [intros i h e; by apply performAnalysis_geocoding_failed|].
  intros i h hLat hLon s1 Hres Ho Hnone.
  exists {| hospital := {| summary_name := get h "hospital_name";
                           summary_city := get h "city";
                           summary_state := get h "state";
                           summary_latitude := hLat;
                           summary_longitude := hLon |};
            facilities := []; totalWithinRadius := 0 |}.
  split; [|done].
  apply performAnalysis_Ok. exists i, h, hLat, hLon, s1, []. cbn.
  split; [exact Hres|]. split; [|done].
  apply rank_Ok. exists []. rewrite Hnone.
  split; [|split; [unfold slice0; by rewrite take_nil|done]].
  unfold ranked. fold (radius_of (opts req)). rewrite Hnone.
  unfold well_typed_options in Ho. apply andb_true_iff in Ho as [Hs Hord].
  unfold resolveSortBy, resolveOrder.
  destruct (lowerable_toLowerCase _ Hs) as [s2 ->]. cbn [obind].
  destruct (lowerable_toLowerCase _ Hord) as [s3 ->]. done.
Qed.

End AnalysisClaims.

(** ** Degradation of the enrichment steps *)

Lemma later_refl s : later s s.
Proof. exists []. split; [by rewrite app_nil_r|cbn; lia]. Qed.

Lemma later_trans s1 s2 s3 : later s1 s2 -> later s2 s3 -> later s1 s3.
Proof.
  intros (l1 & Hc1 & Ht1) (l2 & Hc2 & Ht2). exists (l1 ++ l2)%list.
  rewrite Hc2, Hc1, Ht2, Ht1, length_app. split; [by rewrite <- app_assoc|lia].
Qed.

Lemma later_tick s s' : later s s' -> (tick s <= tick s')%nat.
Proof. intros (l & _ & ->). lia. Qed.

(** A state that differs in the memory layers only. *)
Lemma later_same s s' :
  tick s' = tick s -> calls s' = calls s -> later s s'.
Proof. intros Ht Hc. exists []. rewrite Ht, Hc, app_nil_r. cbn. split; [done|lia]. Qed.

Ltac later_step :=
  first [ apply later_refl
        | by apply later_same
        | by (eexists [_]; cbn; split; [reflexivity|lia])
        | by (eapply later_trans; [eassumption|];
              first [ apply later_refl
                    | by (eexists [_]; cbn; split; [reflexivity|lia]) ])
        | by (eapply later_trans; [|eassumption];
              first [ apply later_refl
                    | by (eexists [_]; cbn; split; [reflexivity|lia]) ])
        | by (eapply later_trans; eassumption) ].

Section DegradationStates.
Context `{Runtime}.
Variable w : world.

Lemma grown_refl s : grown w s s.
Proof. split; [apply later_refl|]. split; intros key x Hx; by left. Qed.

Lemma grown_tick s0 s : grown w s0 s -> (tick s0 <= tick s)%nat.
Proof. intros [Hl _]. by apply later_tick. Qed.

Lemma grown_same s0 s s' :
  grown w s0 s -> later s s' ->
  placeMem s' = placeMem s -> reviewMem s' = reviewMem s -> grown w s0 s'.
Proof.
  intros (Ht & Hp & Hr) Htick Hpm Hrm. split; [by apply (later_trans _ s)|].
  rewrite Hpm, Hrm. by split.
Qed.

Lemma grown_place s0 s s' key ent :
  grown w s0 s -> later s s' ->
  placeMem s' = <[key := ent]> (placeMem s) -> reviewMem s' = reviewMem s ->
  entry_known w s0 key ent -> grown w s0 s'.
Proof.
  intros (Ht & Hp & Hr) Htick Hpm Hrm Hent. split; [by apply (later_trans _ s)|].
  rewrite Hpm, Hrm. split; [|done].
  intros key' ent' [[-> ->]|[_ Hold]]%lookup_insert_Some; [done|by apply Hp].
Qed.

Lemma grown_review s0 s s' key snap :
  grown w s0 s -> later s s' ->
  placeMem s' = placeMem s -> reviewMem s' = <[key := snap]> (reviewMem s) ->
  review_known w s0 key snap -> grown w s0 s'.
Proof.
  intros (Ht & Hp & Hr) Htick Hpm Hrm Hsnap. split; [by apply (later_trans _ s)|].
  rewrite Hpm, Hrm. split; [done|].
  intros key' snap' [[-> ->]|[_ Hold]]%lookup_insert_Some; [done|by apply Hr].
Qed.

Lemma settled_value_at ccn metric field s :
  settled w ccn metric field s
    = (Ok (settled_value (fetchCMSMetric w ccn metric (tick s)) field),
       {| tick := S (tick s); hospitals := hospitals s; placeMem := placeMem s;
          reviewMem := reviewMem s;
          calls := (calls s ++ [CallCMS ccn metric])%list |}).
Proof.
  unfold settled, try_catch, bind, outside, ret, settled_value.
  by destruct (fetchCMSMetric w ccn metric (tick s)) as [[o|]|e].
Qed.

End DegradationStates.

Section DegradationCaches.
Context `{Runtime}.
Variable w : world.

Lemma placeCache_get_grown key s0 s r s' :
  grown w s0 s -> placeCache_get w key s = (r, s') ->
  grown w s0 s' /\ later s s' /\
  forall ent, r = Ok (Some ent) -> entry_known w s0 key ent.
Proof.
  intros Hg. unfold placeCache_get, bind, get_placeMem, set_placeMem, outside, ret.
  destruct (String.eqb key "").
  { intros [= <- <-]. split; [done|]. split; [later_step|done]. }
  destruct (placeMem s !! key) as [e|] eqn:Hmem.
  { intros [= <- <-]. split; [done|]. split; [later_step|].
    intros ent [= <-]. by apply Hg. }
  destruct (readCacheRecord w key (tick s)) as [[rec|]|err] eqn:Hread;
    cbn; intros [= <- <-]; cbn.
  - assert (entry_known w s0 key rec) as Hrec.
    { right; left. exists (tick s). split; [by apply (grown_tick w)|done]. }
    split; [|split; [later_step|by intros ent [= <-]]].
    apply (grown_place w s0 s _ key rec); cbn; try done. later_step.
  - split; [|split; [later_step|done]].
    apply (grown_same w s0 s); cbn; try done. later_step.
  - split; [|split; [later_step|done]].
    apply (grown_same w s0 s); cbn; try done. later_step.
Qed.

Lemma placeCache_set_grown key ent s0 s r s' :
  grown w s0 s -> entry_known w s0 key ent ->
  placeCache_set w key ent s = (r, s') ->
  grown w s0 s' /\ later s s'.
Proof.
  intros Hg Hent.
  unfold placeCache_set, bind, get_placeMem, set_placeMem, outside, ret.
  destruct (String.eqb key "").
  { intros [= <- <-]. split; [done|later_step]. }
  cbn. intros [= <- <-]. cbn. split; [|later_step].
  apply (grown_place w s0 s _ key ent); cbn; try done. later_step.
Qed.

Lemma isFresh_state cfg e s r s' : isFresh w cfg e s = (r, s') -> s' = s.
Proof.
  unfold isFresh, bind, read_tick, ret.
  destruct (resolved_at e) as [t|]; [|by intros [= _ <-]].
  destruct (t =? 0); by intros [= _ <-].
Qed.

Lemma isRecent_state cfg e s r s' : isRecent w cfg e s = (r, s') -> s' = s.
Proof.
  unfold isRecent, bind, read_tick, ret.
  destruct (fetched_at e) as [t|]; [|by intros [= _ <-]].
  destruct (t =? 0); by intros [= _ <-].
Qed.

(** The live search of [getPlaceId] and its write-back. *)
Lemma findPlace_grown cfg facility cached s0 s r s' :
  grown w s0 s ->
  (forall ent, cached = Some ent -> entry_known w s0 (keyForFacility facility) ent) ->
  try_catch
    (found <- findPlaceId w (buildQuery facility) (buildLocationBias facility)
                (apiKey cfg);;
     match found with
     | None => ret (stale cached)
     | Some f =>
         n <- read_tick;;
         let payload :=
           {| place_id := found_place_id f;
              name := orElse (found_name f) VNull;
              formatted_address := orElse (found_formatted_address f) VNull;
              location := orElse (found_location f) VNull;
              resolved_at := Some (now w n) |} in
         _ <- placeCache_set w (keyForFacility facility) payload;;
         ret (Some {| entry_of := payload; source := Some "fresh" |})
     end)
    (fun _ => ret (stale cached)) s = (r, s') ->
  grown w s0 s' /\ later s s' /\
  forall p, r = Ok (Some p) -> entry_known w s0 (keyForFacility facility) (entry_of p).
Proof.
  intros Hg Hcached.
  assert (Hstale : forall p, stale cached = Some p ->
            entry_known w s0 (keyForFacility facility) (entry_of p)).
  { intros p. destruct cached as [ent|]; [|done]. intros [= <-]. by apply Hcached. }
  unfold try_catch, findPlaceId.
  destruct (negb (truthy (apiKey cfg))).
  { cbn. intros [= <- <-]. split; [done|]. split; [later_step|].
    intros p [= Hp]; exact (Hstale p Hp). }
  destruct (negb (truthy (buildQuery facility))).
  { cbn. intros [= <- <-]. split; [done|]. split; [later_step|].
    intros p [= Hp]; exact (Hstale p Hp). }
  unfold bind at 1. unfold outside at 1.
  set (s1 := {| tick := S (tick s); hospitals := hospitals s;
                placeMem := placeMem s; reviewMem := reviewMem s;
                calls := _ |}).
  assert (later s s1) as Hl1 by later_step.
  assert (grown w s0 s1) as Hg1 by (by apply (grown_same w s0 s)).
  destruct (findPlace w (String_ (buildQuery facility)) (buildLocationBias facility)
              (tick s)) as [[cand|]|err] eqn:Hfind.
  2,3: cbn; intros [= <- <-]; split; [done|]; split; [done|];
       intros p [= Hp]; exact (Hstale p Hp).
  unfold bind at 1. unfold read_tick at 1. cbn [tick s1].
  assert (entry_known w s0 (keyForFacility facility) (found_entry w cand (tick s)))
    as Hent.
  { right; right. exists facility, (tick s), cand.
    split; [by apply (grown_tick w)|]. done. }
  unfold bind at 1.
  destruct (placeCache_set w (keyForFacility facility) _ s1) as [[[]|err] s2] eqn:Hset;
    apply (placeCache_set_grown _ _ s0 s1 _ s2 Hg1 Hent) in Hset as [Hg2 Ht2];
    cbn; intros [= <- <-].
  - split; [done|]. split; [later_step|]. by intros p [= <-].
  - split; [done|]. split; [later_step|]. intros p [= Hp]; exact (Hstale p Hp).
Qed.

(** [getPlaceId] answers from the seed table or with an entry known
    under the key of the facility, whatever fails. *)
Lemma getPlaceId_grown cfg facility s0 s r s' :
  grown w s0 s -> getPlaceId w cfg facility s = (r, s') ->
  grown w s0 s' /\ later s s' /\
  forall p, r = Ok (Some p) ->
    (exists ccn sd,
        normalizeCcn (orElse (orElse (get facility "CCN")
                                     (get facility "provider_id"))
                             (get facility "federal_provider_number")) = Some ccn /\
        seedPlaceIds cfg !! ccn = Some sd /\
        place_id (entry_of p) = google_place_id sd) \/
    entry_known w s0 (keyForFacility facility) (entry_of p).
Proof.
  intros Hg. unfold getPlaceId.
  destruct (_ ≫= _) as [sd|] eqn:Hseed.
  { intros [= <- <-]. split; [done|]. split; [later_step|]. intros p [= <-]. left.
    apply bind_Some in Hseed as (ccn & Hccn & Hseed).
    apply bind_Some in Hseed as (sd' & Hsd & Hif).
    destruct (truthy (google_place_id sd')); [|done]. injection Hif as ->.
    by exists ccn, sd. }
  unfold bind at 1.
  destruct (placeCache_get w (keyForFacility facility) s) as [[cached|err] s1] eqn:Hget;
    apply (placeCache_get_grown _ s0) in Hget as (Hg1 & Ht1 & Hc); try done.
  2:{ intros [= <- <-]. by split. }
  assert (Hcached : forall ent, cached = Some ent ->
            entry_known w s0 (keyForFacility facility) ent).
  { intros ent ->. by apply Hc. }
  assert (Hstale : forall p, stale cached = Some p ->
            entry_known w s0 (keyForFacility facility) (entry_of p)).
  { intros p. destruct cached as [ent|]; [|done]. intros [= <-]. by apply Hcached. }
  unfold bind at 1.
  destruct (match cached with Some e => isFresh w cfg e | None => ret false end s1)
    as [[fresh|err] s2] eqn:Hfresh.
  2:{ intros [= <- <-]. destruct cached as [e|]; [|done].
      apply isFresh_state in Hfresh as ->. done. }
  assert (s2 = s1) as ->.
  { destruct cached as [e|]; [by apply isFresh_state in Hfresh|].
    by injection Hfresh as _ <-. }
  assert (Hlive : forall r s',
    (if negb (truthy (apiKey cfg)) then ret (stale cached)
     else
       try_catch
         (found <- findPlaceId w (buildQuery facility) (buildLocationBias facility)
                     (apiKey cfg);;
          match found with
          | None => ret (stale cached)
          | Some f =>
              n <- read_tick;;
              let payload :=
                {| place_id := found_place_id f;
                   name := orElse (found_name f) VNull;
                   formatted_address := orElse (found_formatted_address f) VNull;
                   location := orElse (found_location f) VNull;
                   resolved_at := Some (now w n) |} in
              _ <- placeCache_set w (keyForFacility facility) payload;;
              ret (Some {| entry_of := payload; source := Some "fresh" |})
          end)
         (fun _ => ret (stale cached))) s1 = (r, s') ->
    grown w s0 s' /\ later s s' /\
    forall p, r = Ok (Some p) ->
      entry_known w s0 (keyForFacility facility) (entry_of p)).
  { intros r0 s0'. destruct (negb (truthy (apiKey cfg))).
    - intros [= <- <-]. split; [done|]. split; [done|].
      intros p [= Hp]. exact (Hstale p Hp).
    - intros Hrun.
      apply (findPlace_grown cfg facility cached s0 s1 r0 s0' Hg1 Hcached) in Hrun
        as (Hg2 & Ht2 & Hp).
      split; [done|]. split; [later_step|done]. }
  destruct cached as [e|], fresh.
  - intros [= <- <-]. split; [done|]. split; [done|].
    intros p [= <-]. right. by apply Hcached.
  - intros Hrun. apply Hlive in Hrun as (Hg2 & Ht2 & Hp).
    split; [done|]. split; [done|]. intros p Hr. right. by apply Hp.
  - intros Hrun. apply Hlive in Hrun as (Hg2 & Ht2 & Hp).
    split; [done|]. split; [done|]. intros p Hr. right. by apply Hp.
  - intros Hrun. apply Hlive in Hrun as (Hg2 & Ht2 & Hp).
    split; [done|]. split; [done|]. intros p Hr. right. by apply Hp.
Qed.

(** *** The review cache *)

Lemma reviewCache_get_grown key s0 s r s' :
  grown w s0 s -> reviewCache_get w key s = (r, s') ->
  grown w s0 s' /\ later s s' /\
  forall snap, r = Ok (Some snap) -> review_known w s0 key snap.
Proof.
  intros Hg. unfold reviewCache_get, bind, get_reviewMem, set_reviewMem, outside, ret.
  destruct (String.eqb key "").
  { intros [= <- <-]. split; [done|]. split; [later_step|done]. }
  destruct (reviewMem s !! key) as [e|] eqn:Hmem.
  { intros [= <- <-]. split; [done|]. split; [later_step|].
    intros snap [= <-]. by apply Hg. }
  destruct (readSnapshot w key (tick s)) as [[rec|]|err] eqn:Hread;
    cbn; intros [= <- <-]; cbn.
  - assert (review_known w s0 key rec) as Hrec.
    { right; left. exists (tick s). split; [by apply (grown_tick w)|done]. }
    split; [|split; [later_step|by intros snap [= <-]]].
    apply (grown_review w s0 s _ key rec); cbn; try done. later_step.
  - split; [|split; [later_step|done]].
    apply (grown_same w s0 s); cbn; try done. later_step.
  - split; [|split; [later_step|done]].
    apply (grown_same w s0 s); cbn; try done. later_step.
Qed.

Lemma reviewCache_set_grown key snap s0 s r s' :
  grown w s0 s -> review_known w s0 key snap ->
  reviewCache_set w key snap s = (r, s') ->
  grown w s0 s' /\ later s s'.
Proof.
  intros Hg Hsnap.
  unfold reviewCache_set, bind, get_reviewMem, set_reviewMem, outside, ret.
  destruct (String.eqb key "").
  { intros [= <- <-]. split; [done|later_step]. }
  cbn. intros [= <- <-]. cbn. split; [|later_step].
  apply (grown_review w s0 s _ key snap); cbn; try done. later_step.
Qed.

(** The live fetch of [getReviewSnapshot] and its write-back. *)
Lemma fetchPlaceDetails_grown key cached s0 s r s' :
  grown w s0 s ->
  (forall snap, cached = Some snap -> review_known w s0 key snap) ->
  try_catch
    (result <- outside (CallPlaceDetails key) (fetchPlaceDetails w key);;
     n <- read_tick;;
     let snap :=
       {| details := fst result; recent_reviews := snd result;
          fetched_at := Some (now w n) |} in
     _ <- reviewCache_set w key snap;;
     ret (Some snap))
    (fun _ => ret cached) s = (r, s') ->
  grown w s0 s' /\ later s s' /\
  forall snap, r = Ok (Some snap) -> review_known w s0 key snap.
Proof.
  intros Hg Hcached. unfold try_catch.
  unfold bind at 1. unfold outside at 1.
  set (s1 := {| tick := S (tick s); hospitals := hospitals s;
                placeMem := placeMem s; reviewMem := reviewMem s;
                calls := _ |}).
  assert (later s s1) as Hl1 by later_step.
  assert (grown w s0 s1) as Hg1 by (by apply (grown_same w s0 s)).
  destruct (fetchPlaceDetails w key (tick s)) as [result|err] eqn:Hfetch.
  2:{ cbn. intros [= <- <-]. split; [done|]. split; [done|].
      intros snap [= Hc]. by apply Hcached. }
  unfold bind at 1. unfold read_tick at 1. cbn [tick s1].
  set (snap := {| details := fst result; recent_reviews := snd result;
                  fetched_at := Some (now w (S (tick s))) |}).
  assert (review_known w s0 key snap) as Hsnap.
  { right; right. exists (tick s), result. split; [by apply (grown_tick w)|]. done. }
  unfold bind at 1.
  destruct (reviewCache_set w key snap s1) as [[[]|err] s2] eqn:Hset;
    apply (reviewCache_set_grown _ _ s0 s1 _ s2 Hg1 Hsnap) in Hset as [Hg2 Ht2];
    cbn; intros [= <- <-].
  - split; [done|]. split; [later_step|]. by intros snap' [= <-].
  - split; [done|]. split; [later_step|]. intros snap' [= Hc]. by apply Hcached.
Qed.

(** [getReviewSnapshot] answers with [null] or a snapshot known under
    the place id, whatever fails. *)
Lemma getReviewSnapshot_grown cfg placeId s0 s r s' :
  grown w s0 s -> getReviewSnapshot w cfg placeId s = (r, s') ->
  grown w s0 s' /\ later s s' /\
  forall snap, r = Ok (Some snap) ->
    truthy placeId = true /\ review_known w s0 (String_ placeId) snap.
Proof.
  intros Hg. unfold getReviewSnapshot.
  destruct (truthy placeId) eqn:Hpid; cbn [negb].
  2:{ intros [= <- <-]. split; [done|]. split; [later_step|done]. }
  unfold bind at 1.
  destruct (reviewCache_get w (String_ placeId) s) as [[cached|err] s1] eqn:Hget;
    apply (reviewCache_get_grown _ s0) in Hget as (Hg1 & Ht1 & Hc); try done.
  2:{ intros [= <- <-]. by split. }
  assert (Hcached : forall snap, cached = Some snap ->
            review_known w s0 (String_ placeId) snap).
  { intros snap ->. by apply Hc. }
  unfold bind at 1.
  destruct (match cached with Some e => isRecent w cfg e | None => ret false end s1)
    as [[recent|err] s2] eqn:Hrecent.
  2:{ intros [= <- <-]. destruct cached as [e|]; [|done].
      apply isRecent_state in Hrecent as ->. done. }
  assert (s2 = s1) as ->.
  { destruct cached as [e|]; [by apply isRecent_state in Hrecent|].
    by injection Hrecent as _ <-. }
  assert (Hlive : forall r s',
    (if negb (truthy (reviews_apiKey cfg)) then ret cached
     else
       try_catch
         (result <- outside (CallPlaceDetails (String_ placeId))
                      (fetchPlaceDetails w (String_ placeId));;
          n <- read_tick;;
          let snap :=
            {| details := fst result; recent_reviews := snd result;
               fetched_at := Some (now w n) |} in
          _ <- reviewCache_set w (String_ placeId) snap;;
          ret (Some snap))
         (fun _ => ret cached)) s1 = (r, s') ->
    grown w s0 s' /\ later s s' /\
    forall snap, r = Ok (Some snap) ->
      truthy placeId = true /\ review_known w s0 (String_ placeId) snap).
  { intros r0 s0'. destruct (negb (truthy (reviews_apiKey cfg))).
    - intros [= <- <-]. split; [done|]. split; [done|].
      intros snap [= Hp]. split; [done|]. by apply Hcached.
    - intros Hrun.
      apply (fetchPlaceDetails_grown _ cached s0 s1 r0 s0' Hg1 Hcached) in Hrun
        as (Hg2 & Ht2 & Hp).
      split; [done|]. split; [later_step|]. intros snap Hr. split; [done|]. by apply Hp. }
  destruct cached as [e|], recent.
  - intros [= <- <-]. split; [done|]. split; [done|].
    intros snap [= <-]. split; [done|]. by apply Hcached.
  - intros Hrun. apply Hlive in Hrun as (Hg2 & Ht2 & Hp).
    split; [done|]. split; [done|]. intros snap Hr. split; [done|]. by apply Hp.
  - intros Hrun. apply Hlive in Hrun as (Hg2 & Ht2 & Hp).
    split; [done|]. split; [done|]. intros snap Hr. split; [done|]. by apply Hp.
  - intros Hrun. apply Hlive in Hrun as (Hg2 & Ht2 & Hp).
    split; [done|]. split; [done|]. intros snap Hr. split; [done|]. by apply Hp.
Qed.

End DegradationCaches.

Section DegradationFacts.
Context `{Runtime}.
Variable w : world.

(** A call made in between stays in the log at its instant. *)
Lemma logged_at s0 s s1 s' l1 c l2 :
  later s0 s -> calls s1 = (calls s ++ l1 ++ c :: l2)%list -> later s1 s' ->
  logged s0 s' (tick s + length l1) c.
Proof.
  intros (l0 & Hc0 & Ht0) Hc1 (l3 & Hc' & _). split; [lia|].
  rewrite Hc', Hc1, Hc0, Ht0, <- !app_assoc.
  rewrite lookup_app_r by lia.
  replace (length (calls s0) + (tick s0 + length l0 + length l1 - tick s0)
           - length (calls s0))%nat with (length l0 + length l1)%nat by lia.
  rewrite lookup_app_r by lia.
  replace (length l0 + length l1 - length l0)%nat with (length l1 + 0)%nat by lia.
  rewrite lookup_app_r by lia.
  by replace (length l1 + 0 - length l1)%nat with 0%nat by lia.
Qed.

(** The four requests of [fetchQualityMetrics] and what it keeps of
    them. *)
Lemma fetchQualityMetrics_at ccn s :
  exists s',
    fetchQualityMetrics w ccn s
      = (Ok (<["Mobility at Discharge" :=
                 settled_value (fetchCMSMetric w ccn "mobility" (tick s))
                   "mobility_percent"]>
             (<["Discharge to Community Rate" :=
                  settled_value (fetchCMSMetric w ccn "discharge" (tick s + 1))
                    "discharge_to_community_percent"]>
              (<["Fall with Major Injury Rate" :=
                   settled_value (fetchCMSMetric w ccn "falls" (tick s + 2))
                     "fall_with_major_injury_percent"]>
               (<["Healthcare-Associated Infection Rate" :=
                    settled_value (fetchCMSMetric w ccn "hai" (tick s + 3))
                      "hai_percent"]> ∅)))), s') /\
    tick s' = (tick s + 4)%nat /\
    calls s' = (calls s ++ [CallCMS ccn "mobility"; CallCMS ccn "discharge";
                            CallCMS ccn "falls"; CallCMS ccn "hai"])%list /\
    placeMem s' = placeMem s /\ reviewMem s' = reviewMem s.
Proof.
  unfold fetchQualityMetrics, try_catch, bind.
  rewrite !settled_value_at. cbn [tick calls placeMem reviewMem hospitals].
  eexists. split.
  - unfold ret. repeat f_equal; lia.
  - cbn. rewrite <- !app_assoc. repeat split; try done. lia.
Qed.

(** One turn of the enrichment loop, whatever fails in it. *)
Lemma enrich_degrades req index facility s0 s e s1 sf :
  grown w s0 s -> enrich w req index facility s = (Ok e, s1) -> later s1 sf ->
  grown w s0 s1 /\ later s s1 /\ degrades w req s0 sf facility e.
Proof.
  intros Hg. unfold enrich. rewrite bind_Ok.
  intros (quality & sq & Hq & Hrest) Hlater.
  destruct (fetchQualityMetrics_at (facility_ccn facility) s)
    as (sq' & Hfq & Htq & Hcq & Hpq & Hrq).
  unfold try_catch in Hq. rewrite Hfq in Hq. injection Hq as <- <-.
  assert (later s sq') as Hlq.
  { eexists. split; [exact Hcq|]. rewrite Htq. cbn. lia. }
  assert (grown w s0 sq') as Hgq by (by apply (grown_same w s0 s)).
  apply bind_Ok in Hrest as (placeId & s2 & Hplace & Hrest).
  assert (grown w s0 s2 /\ later sq' s2 /\ place_known w req s0 facility placeId)
    as (Hg2 & Hl2 & Hpk).
  { destruct (googlePlaceResolver req) as [cfg|] eqn:Hcfg.
    2:{ injection Hplace as <- <-. split; [done|]. split; [apply later_refl|].
        by left. }
    destruct (truthy (initial_placeId req facility)) eqn:Hinit;
      cbn [negb] in Hplace.
    { injection Hplace as <- <-. split; [done|]. split; [apply later_refl|].
      by left. }
    apply bind_Ok in Hplace as (resolved & s2' & Hres & Hret).
    injection Hret as <- <-.
    apply (getPlaceId_grown w cfg facility s0) in Hres as (Hg2 & Hl2 & Hp);
      [|done].
    split; [done|]. split; [done|].
    destruct resolved as [p|]; [|by left].
    destruct (truthy (place_id (entry_of p))); [|by left].
    right. exists cfg. split; [done|]. split; [done|].
    destruct (Hp p eq_refl) as [(ccn & sd & Hccn & Hsd & Hid)|Hent].
    - left. by exists ccn, sd.
    - right. by exists (entry_of p). }
  apply bind_Ok in Hrest as (review & s3 & Hrev & Hret).
  injection Hret as <- <-.
  assert (grown w s0 s3 /\ later s2 s3 /\
          forall snap, review = Some snap ->
            exists svc, googleReviewsService req = Some svc /\
                        truthy placeId = true /\
                        review_known w s0 (String_ placeId) snap)
    as (Hg3 & Hl3 & Hsnap).
  { destruct (googleReviewsService req) as [svc|] eqn:Hsvc.
    2:{ injection Hrev as <- <-. split; [done|]. split; [apply later_refl|done]. }
    destruct (truthy placeId) eqn:Hpid.
    2:{ injection Hrev as <- <-. split; [done|]. split; [apply later_refl|done]. }
    apply (getReviewSnapshot_grown w svc placeId s0) in Hrev as (Hg3 & Hl3 & Hp);
      [|done].
    split; [done|]. split; [done|]. intros snap ->.
    exists svc. split; [done|]. split; [done|]. by apply Hp. }
  split; [done|].
  split; [apply (later_trans _ sq'); [done|]; by apply (later_trans _ s2)|].
  assert (later sq' sf) as Hqf.
  { apply (later_trans _ s2); [done|]. by apply (later_trans _ s3). }
  split.
  - intros key metric field. unfold quality_sources.
    rewrite !elem_of_cons, elem_of_nil.
    intros [[= -> -> ->]|[[= -> -> ->]|[[= -> -> ->]|[[= -> -> ->]|[]]]]].
    + exists (tick s + 0)%nat. split.
      * by apply (logged_at s0 s sq' sf [] _ _ (proj1 Hg) Hcq).
      * rewrite Nat.add_0_r. cbn [fields]. unfold get.
        by erewrite lookup_union_Some_l by (by simplify_map_eq).
    + exists (tick s + 1)%nat. split.
      * by apply (logged_at s0 s sq' sf [_] _ _ (proj1 Hg) Hcq).
      * cbn [fields]. unfold get.
        by erewrite lookup_union_Some_l by (by simplify_map_eq).
    + exists (tick s + 2)%nat. split.
      * by apply (logged_at s0 s sq' sf [_; _] _ _ (proj1 Hg) Hcq).
      * cbn [fields]. unfold get.
        by erewrite lookup_union_Some_l by (by simplify_map_eq).
    + exists (tick s + 3)%nat. split.
      * by apply (logged_at s0 s sq' sf [_; _; _] _ _ (proj1 Hg) Hcq).
      * cbn [fields]. unfold get.
        by erewrite lookup_union_Some_l by (by simplify_map_eq).
  - cbn [review_enrichment]. intros snap Hrv.
    destruct (Hsnap snap Hrv) as (svc & Hsvc & Hpid & Hknown).
    by exists svc, placeId.
Qed.

Lemma enrich_all_degrades req fs : forall index s0 s es s' sf,
  grown w s0 s -> enrich_all w req index fs s = (Ok es, s') -> later s' sf ->
  grown w s0 s' /\ later s s' /\
  Forall2 (fun e f => degrades w req s0 sf f e) es fs.
Proof.
  induction fs as [|f fs IH]; intros index s0 s es s' sf Hg; cbn [enrich_all].
  - intros [= <- <-] _. split; [done|]. split; [apply later_refl|constructor].
  - rewrite bind_Ok. intros (e & s1 & He & Hrest) Hlater.
    apply bind_Ok in Hrest as (es' & s2 & Hes & Hret).
    injection Hret as <- <-.
    assert (later s1 s2 /\ grown w s0 s1) as [Hl12 Hg1].
    { destruct (enrich_degrades req index f s0 s e s1 s1 Hg He (later_refl _))
        as (Hg1 & _ & _).
      destruct (IH (S index) s0 s1 es' s2 s2 Hg1 Hes (later_refl _))
        as (_ & Hl & _). done. }
    destruct (enrich_degrades req index f s0 s e s1 sf Hg He
                (later_trans _ _ _ Hl12 Hlater)) as (_ & Hl01 & Hd).
    destruct (IH (S index) s0 s1 es' s2 sf Hg1 Hes Hlater) as (Hg2 & _ & Hds).
    split; [done|]. split; [by apply (later_trans _ s1)|]. by constructor.
Qed.

Lemma hospital_coordinates_grown i h s r s1 :
  hospital_coordinates w i h s = (r, s1) -> grown w s s1.
Proof.
  unfold hospital_coordinates. destruct (_ || _)%bool.
  - unfold bind, outside, get_hospitals, set_hospitals, ret.
    destruct (geocodeHospitalAddress w _ (tick s)); cbn; intros [= <- <-];
      (apply (grown_same w s s); cbn; try done; [apply grown_refl|later_step]).
  - intros [= _ <-]. apply grown_refl.
Qed.

(** A metric whose request is rejected at every instant leaves [null]. *)
Lemma degrades_rejected req s0 s' facility e key metric field :
  degrades w req s0 s' facility e ->
  (key, (metric, field)) ∈ quality_sources ->
  (forall n, exists err,
      fetchCMSMetric w (facility_ccn facility) metric n = Throw err) ->
  get (fields e) key = VNull.
Proof.
  intros [Hq _] Hin Hout. destruct (Hq key metric field Hin) as (n & _ & ->).
  by destruct (Hout n) as [err ->].
Qed.

(** With no snapshot in the cache and no live fetch that answers there
    is no review. *)
Lemma degrades_unfetched req s0 s' facility e :
  degrades w req s0 s' facility e ->
  reviewMem s0 = ∅ ->
  (forall key n, readSnapshot w key n = Ok None) ->
  (forall key n, exists err, fetchPlaceDetails w key n = Throw err) ->
  review_enrichment e = None.
Proof.
  intros [_ Hr] Hmem Hstore Hlive.
  destruct (review_enrichment e) as [snap|]; [|done].
  destruct (Hr snap eq_refl) as (svc & pid & _ & _ & _ & Hknown).
  destruct Hknown as [Hm|[(n & _ & Hs)|(n & result & _ & Hf & _)]].
  - by rewrite Hmem, lookup_empty in Hm.
  - by rewrite Hstore in Hs.
  - destruct (Hlive (String_ pid) n) as [err Herr]. by rewrite Herr in Hf.
Qed.

End DegradationFacts.

Section DegradationClaims.
Context `{Runtime}.
Variable w : world.

(** C6 (amended): for a hospital that resolves and well-typed input,
    whatever the live calls (quality metrics, place search, place
    details) and the cache writes do, [performAnalysis] returns the
    whole ranked list as long as the reads of the place-id and review
    stores do not throw.  Each returned facility is the enriched ranked
    facility of its position, and, for each of them: every quality field
    holds what the request of its metric for that facility, logged in
    this run, brought, and [null] if that request was rejected; its
    [review_enrichment] is [null], or a snapshot that the review cache
    held or read or that a live fetch which answered built, under a
    place id that is the one of the facility, of its row in the seed
    table, or of an entry that the place-id cache held or read or that a
    live search which answered built. *)
Theorem enrichment_failures_degrade req s i h coords s1 :
  resolves w req s i h coords s1 ->
  well_typed_options (opts req) = true ->
  Forall (fun f => well_typed_facility f = true) (snfs req) ->
  stores_readable w req ->
  exists r s' sorted,
    performAnalysis w req s = (Ok r, s') /\
    ranked (opts req) (fst coords) (snd coords) (snfs req) = Ok sorted /\
    enriched_from req (slice0 sorted (limit_of (opts req))) (facilities r) /\
    Forall2 (fun e f => degrades w req s s' f e)
      (facilities r) (slice0 sorted (limit_of (opts req))).
Proof.
  intros Hres Ho Hfs Hst.
  destruct (performAnalysis_returns w req s i h coords s1 Hres Ho Hfs Hst)
    as (r & s' & Hrun).
  pose proof Hrun as Hrun'.
  apply performAnalysis_Ok in Hrun'
    as (i' & h' & hLat & hLon & s1' & top & Hres' & Hrank & Hen & _).
  destruct Hres as (_ & Hfind & Hcoord), Hres' as (_ & Hfind' & Hcoord').
  rewrite Hfind in Hfind'. injection Hfind' as <- <-.
  rewrite Hcoord in Hcoord'. injection Hcoord' as -> <-.
  apply rank_Ok in Hrank as (sorted & Hsorted & -> & Hn).
  exists r, s', sorted. cbn [fst snd].
  split; [done|]. split; [done|]. split.
  - by apply enrich_all_Ok in Hen.
  - pose proof (hospital_coordinates_grown w _ _ _ _ _ Hcoord) as Hg1.
    by destruct (enrich_all_degrades w req _ 0 s s1 (facilities r) s' s' Hg1 Hen
                   (later_refl _)) as (_ & _ & Hd).
Qed.

End DegradationClaims.

(** ** Order of the ranked array *)

Lemma StronglySorted_lookup_lt {A} (R : A -> A -> Prop) l i j a b :
  StronglySorted R l -> (i < j)%nat ->
  l !! i = Some a -> l !! j = Some b -> R a b.
Proof.
  intros Hs. revert i j. induction Hs as [|x l Hs IH Hall]; intros i j Hij Hi Hj.
  - by rewrite lookup_nil in Hi.
  - destruct j as [|j]; [lia|]. destruct i as [|i].
    + injection Hi as ->. rewrite Forall_forall in Hall. apply Hall.
      by eapply list_elem_of_lookup_2.
    + apply (IH i j); [lia|done..].
Qed.

Lemma num_gt_inject_Z z :
  num_gt (Num (inject_Z z)) (Num 0) = false <-> z <= 0.
Proof.
  unfold num_gt, num_lt. rewrite negb_false_iff, Qle_bool_iff.
  unfold Qle. cbn. lia.
Qed.

Section OrderClaims.
Context `{Runtime}.

Lemma ranked_sorted o hLat hLon fs sorted by_ ord :
  resolveSortBy o = Ok by_ -> resolveOrder o by_ = Ok ord ->
  ranked o hLat hLon fs = Ok sorted ->
  sort_by (comparator by_ ord)
    (withDistance hLat hLon (radius_of o) fs) = Ok sorted.
Proof.
  intros Hby Hord. unfold ranked. rewrite Hby. cbn [obind].
  rewrite Hord. cbn [obind]. done.
Qed.

Lemma withDistance_distance_key hLat hLon radius fs f :
  f ∈ withDistance hLat hLon radius fs ->
  exists d, get f "distance" = VNumber (Num d) /\ has_key "distance" f (Some d).
Proof.
  intros Hf. apply withDistance_elem in Hf as (Hle & f0 & d & _ & ->).
  unfold get in *. rewrite lookup_insert_eq in *. cbn [default] in *.
  apply lessEq_finite in Hle as [q ->]. exists q. split; [done|].
  unfold has_key, valueFor, get. rewrite lookup_insert_eq. done.
Qed.

Lemma withDistance_composite_key hLat hLon radius fs f :
  Forall (fun f => finite_or_missing (get f "Composite_Score") = true) fs ->
  f ∈ withDistance hLat hLon radius fs ->
  exists k, has_key "composite" f k /\
            forall y, get f "Composite_Score" = VNumber (Num y) -> k = Some y.
Proof.
  rewrite Forall_forall. intros Hfin Hf.
  apply withDistance_elem in Hf as (_ & f0 & d & Hf0 & ->).
  specialize (Hfin f0 Hf0). unfold has_key, valueFor. cbn.
  unfold get in *. rewrite lookup_insert_ne by done.
  destruct (f0 !! "Composite_Score") as [[| |[|q]|s]|]; cbn in *; try done.
  - by exists None.
  - by exists None.
  - exists (Some q). split; [done|]. by intros y [= ->].
  - by exists None.
Qed.

(** With numeric keys throughout, the sorted array is ordered by
    [key_le] from every element to every later one. *)
Lemma sort_by_keyed resolvedSortBy resolvedOrder l s :
  Forall (fun g => exists k, has_key resolvedSortBy g k) l ->
  sort_by (comparator resolvedSortBy resolvedOrder) l = Ok s ->
  forall i j a b ka kb, (i < j)%nat -> s !! i = Some a -> s !! j = Some b ->
    has_key resolvedSortBy a ka -> has_key resolvedSortBy b kb ->
    key_le (String.eqb resolvedOrder "asc") ka kb.
Proof.
  intros Hl Hs i j a b ka kb Hij Hi Hj Hka Hkb.
  assert (Hsorted :
    StronglySorted (keeps (comparator resolvedSortBy resolvedOrder)) s).
  { apply (sort_by_sorted _ (fun g => exists k, has_key resolvedSortBy g k))
      with (l := l); [| |done..].
    - intros x y c [kx Hx] [ky Hy] Hc Hgt.
      rewrite (comparator_keyed _ _ _ _ _ _ Hx Hy) in Hc. injection Hc as <-.
      apply (keeps_keyed _ _ _ _ _ _ Hy Hx). by apply cmp_key_gt.
    - intros x y z [kx Hx] [ky Hy] [kz Hz] Hxy Hyz.
      apply (keeps_keyed _ _ _ _ _ _ Hx Hz).
      apply (key_le_trans _ kx ky kz).
      + by apply (keeps_keyed _ _ _ _ _ _ Hx Hy).
      + by apply (keeps_keyed _ _ _ _ _ _ Hy Hz). }
  apply (keeps_keyed _ _ _ _ _ _ Hka Hkb).
  by apply (StronglySorted_lookup_lt _ s i j).
Qed.

(** The name a facility is sorted under. *)
Lemma valueFor_name f :
  lowerable (get f "facility_name") = true ->
  valueFor "name" f = Ok (VString (name_key f)).
Proof.
  intros Hf. unfold valueFor, name_key. cbn [String.eqb Ascii.eqb Bool.eqb orb].
  unfold lowerable, orElse, truthy in *.
  destruct (get f "facility_name") as [| |[|q]|s]; try done.
  - by destruct (Qeq_bool q 0).
  - destruct (String.eqb s "") eqn:Hs; [|done].
    by apply String.eqb_eq in Hs as ->.
Qed.

Lemma comparator_name ord a b :
  lowerable (get a "facility_name") = true ->
  lowerable (get b "facility_name") = true ->
  comparator "name" ord a b
    = Ok (Num (inject_Z
            (if String.eqb ord "asc"
             then localeCompare (name_key a) (name_key b)
             else localeCompare (name_key b) (name_key a)))).
Proof.
  intros Ha Hb. unfold comparator.
  rewrite (valueFor_name a Ha), (valueFor_name b Hb). cbn.
  by destruct (String.eqb ord "asc").
Qed.

Lemma withDistance_name hLat hLon radius fs :
  Forall (fun f => lowerable (get f "facility_name") = true) fs ->
  Forall (fun f => lowerable (get f "facility_name") = true)
    (withDistance hLat hLon radius fs).
Proof.
  rewrite !Forall_forall. intros Hfs f' Hf'.
  apply withDistance_elem in Hf' as (_ & f & d & Hf & ->).
  unfold get. rewrite lookup_insert_ne by done. by apply Hfs.
Qed.

(** Sorting by name, for a [localeCompare] that orders the strings. *)
Lemma sort_by_name ord l s :
  (forall x y, 0 < localeCompare x y -> localeCompare y x <= 0) ->
  (forall x y z, localeCompare x y <= 0 -> localeCompare y z <= 0 ->
                 localeCompare x z <= 0) ->
  Forall (fun f => lowerable (get f "facility_name") = true) l ->
  sort_by (comparator "name" ord) l = Ok s ->
  forall i j a b, (i < j)%nat -> s !! i = Some a -> s !! j = Some b ->
    if String.eqb ord "asc"
    then localeCompare (name_key a) (name_key b) <= 0
    else localeCompare (name_key b) (name_key a) <= 0.
Proof.
  intros Hflip Htrans Hl Hs i j a b Hij Hi Hj.
  assert (Hkeeps : forall x y,
            lowerable (get x "facility_name") = true ->
            lowerable (get y "facility_name") = true ->
            keeps (comparator "name" ord) x y <->
            if String.eqb ord "asc"
            then localeCompare (name_key x) (name_key y) <= 0
            else localeCompare (name_key y) (name_key x) <= 0).
  { intros x y Hx Hy. unfold keeps. rewrite (comparator_name ord x y Hx Hy).
    split.
    - intros (c & [= <-] & Hc). apply num_gt_inject_Z in Hc.
      by destruct (String.eqb ord "asc").
    - intros Hle. eexists. split; [reflexivity|]. apply num_gt_inject_Z.
      by destruct (String.eqb ord "asc"). }
  assert (Hsorted : StronglySorted (keeps (comparator "name" ord)) s).
  { apply (sort_by_sorted _ (fun f => lowerable (get f "facility_name") = true))
      with (l := l); [| |done..].
    - intros x y c Hx Hy Hc Hgt. apply (Hkeeps y x Hy Hx).
      rewrite (comparator_name ord x y Hx Hy) in Hc. injection Hc as <-.
      assert (0 < (if String.eqb ord "asc"
                   then localeCompare (name_key x) (name_key y)
                   else localeCompare (name_key y) (name_key x))) as Hpos.
      { destruct (Z_lt_le_dec 0 (if String.eqb ord "asc"
                   then localeCompare (name_key x) (name_key y)
                   else localeCompare (name_key y) (name_key x))) as [|Hle];
          [done|].
        apply num_gt_inject_Z in Hle. congruence. }
      destruct (String.eqb ord "asc"); by apply Hflip.
    - intros x y z Hx Hy Hz Hxy%(Hkeeps x y Hx Hy) Hyz%(Hkeeps y z Hy Hz).
      apply (Hkeeps x z Hx Hz).
      destruct (String.eqb ord "asc"); eauto. }
  assert (Hin : forall k f, s !! k = Some f ->
                  lowerable (get f "facility_name") = true).
  { intros k f Hk. apply list_elem_of_lookup_2 in Hk.
    rewrite (sort_by_perm _ _ _ Hs) in Hk.
    rewrite Forall_forall in Hl. by apply Hl. }
  apply (Hkeeps a b (Hin _ _ Hi) (Hin _ _ Hj)).
  by apply (StronglySorted_lookup_lt _ s i j).
Qed.

(** C3: the array [ranked] holds the facilities within the radius, and
    (1) for every key and order no facility whose sort value is [null]
    stands before one that has a value; (2) under the key [distance]
    every facility is at most as far as those behind it when the order
    is ascending (at least as far when descending), so the first is the
    nearest of all facilities within the radius; (3) under the key
    [composite], for scores that are finite numbers or missing, a
    facility behind which one with a score stands has a score itself,
    at least as high when the order is descending (at most as high when
    ascending), so the first has the highest score of all facilities
    within the radius; (4) under the key [name] no sort value is
    [null], facilities whose names agree in lower case are compared
    alike, and, for a [localeCompare] that orders the strings, the
    array is ordered by the names in lower case. *)
Theorem ranked_order o hLat hLon fs sorted by_ ord :
  resolveSortBy o = Ok by_ -> resolveOrder o by_ = Ok ord ->
  ranked o hLat hLon fs = Ok sorted ->
  let inRadius := withDistance hLat hLon (radius_of o) fs in
  sorted ≡ₚ inRadius /\
  sunk (missing_key by_) sorted /\
  (by_ = "distance" ->
     (forall i j a b,
        (i < j)%nat -> sorted !! i = Some a -> sorted !! j = Some b ->
        exists da db, get a "distance" = VNumber (Num da) /\
                      get b "distance" = VNumber (Num db) /\
                      if String.eqb ord "asc" then (da <= db)%Q else (db <= da)%Q) /\
     (forall first f, head sorted = Some first -> f ∈ inRadius ->
        exists d1 d, get first "distance" = VNumber (Num d1) /\
                     get f "distance" = VNumber (Num d) /\
                     if String.eqb ord "asc" then (d1 <= d)%Q else (d <= d1)%Q)) /\
  (by_ = "composite" ->
     Forall (fun f => finite_or_missing (get f "Composite_Score") = true) fs ->
     (forall i j a b y,
        (i < j)%nat -> sorted !! i = Some a -> sorted !! j = Some b ->
        get b "Composite_Score" = VNumber (Num y) ->
        exists x, get a "Composite_Score" = VNumber (Num x) /\
                  if String.eqb ord "asc" then (x <= y)%Q else (y <= x)%Q) /\
     (forall first f y, head sorted = Some first -> f ∈ inRadius ->
        get f "Composite_Score" = VNumber (Num y) ->
        exists x, get first "Composite_Score" = VNumber (Num x) /\
                  if String.eqb ord "asc" then (x <= y)%Q else (y <= x)%Q)) /\
  (by_ = "name" ->
     Forall (fun f => lowerable (get f "facility_name") = true) fs ->
     Forall (fun f => missing_key by_ f = false) sorted /\
     (forall a a' b,
        lowerable (get a "facility_name") = true ->
        lowerable (get a' "facility_name") = true ->
        lowerable (get b "facility_name") = true ->
        name_key a = name_key a' ->
        comparator by_ ord a b = comparator by_ ord a' b /\
        comparator by_ ord b a = comparator by_ ord b a') /\
     ((forall x y, 0 < localeCompare x y -> localeCompare y x <= 0) ->
      (forall x y z, localeCompare x y <= 0 -> localeCompare y z <= 0 ->
                     localeCompare x z <= 0) ->
      forall i j a b,
        (i < j)%nat -> sorted !! i = Some a -> sorted !! j = Some b ->
        if String.eqb ord "asc"
        then localeCompare (name_key a) (name_key b) <= 0
        else localeCompare (name_key b) (name_key a) <= 0)).
Proof.
  intros Hby Hord Hranked inRadius.
  pose proof (ranked_sorted _ _ _ _ _ _ _ Hby Hord Hranked) as Hsort.
  pose proof (sort_by_perm _ _ _ Hsort) as Hperm.
  fold inRadius in Hsort, Hperm.
  split; [done|].
  split; [by apply (sort_sinks_missing _ ord _ _ Hsort)|].
  split; [|split].
  - intros ->.
    assert (Hkeys : Forall (fun g => exists k, has_key "distance" g k) inRadius).
    { apply Forall_forall. intros g Hg.
      destruct (withDistance_distance_key _ _ _ _ _ Hg) as (dg & _ & Hkg). eauto. }
    split.
    + intros i j a b Hij Hi Hj.
      assert (Ha : a ∈ inRadius)
        by (rewrite <- Hperm; by eapply list_elem_of_lookup_2).
      assert (Hb : b ∈ inRadius)
        by (rewrite <- Hperm; by eapply list_elem_of_lookup_2).
      destruct (withDistance_distance_key _ _ _ _ _ Ha) as (da & Hda & Hka).
      destruct (withDistance_distance_key _ _ _ _ _ Hb) as (db & Hdb & Hkb).
      exists da, db. split; [done|]. split; [done|].
      apply (sort_by_keyed "distance" ord inRadius sorted Hkeys Hsort i j a b
               (Some da) (Some db)); done.
    + intros first f Hfirst Hf.
      assert (Hin1 : first ∈ inRadius)
        by (rewrite <- Hperm; by apply head_elem_of).
      destruct (withDistance_distance_key _ _ _ _ _ Hin1) as (d1 & Hd1 & Hk1).
      destruct (withDistance_distance_key _ _ _ _ _ Hf) as (d & Hd & Hk).
      exists d1, d. split; [done|]. split; [done|].
      apply (sort_head_first "distance" ord inRadius sorted first f
               (Some d1) (Some d)); try done. by rewrite Hperm.
  - intros -> Hfin.
    assert (Hkeys : Forall (fun g => exists k, has_key "composite" g k) inRadius).
    { apply Forall_forall. intros g Hg.
      destruct (withDistance_composite_key _ _ _ _ _ Hfin Hg) as (kg & Hkg & _).
      eauto. }
    assert (Hscore : forall g k x, has_key "composite" g k -> k = Some x ->
              get g "Composite_Score" = VNumber (Num x)).
    { intros g k x Hk ->. unfold has_key, valueFor in Hk. cbn in Hk.
      destruct (get g "Composite_Score") as [| |[|q]|s]; cbn in Hk; congruence. }
    split.
    + intros i j a b y Hij Hi Hj Hy.
      assert (Ha : a ∈ inRadius)
        by (rewrite <- Hperm; by eapply list_elem_of_lookup_2).
      assert (Hb : b ∈ inRadius)
        by (rewrite <- Hperm; by eapply list_elem_of_lookup_2).
      destruct (withDistance_composite_key _ _ _ _ _ Hfin Ha) as (ka & Hka & _).
      destruct (withDistance_composite_key _ _ _ _ _ Hfin Hb) as (kb & Hkb & Hyb).
      rewrite (Hyb y Hy) in Hkb.
      pose proof (sort_by_keyed "composite" ord inRadius sorted Hkeys Hsort
                    i j a b ka (Some y) Hij Hi Hj Hka Hkb) as Hle.
      destruct ka as [x|]; [|done]. exists x. split; [|done].
      by apply (Hscore a (Some x)).
    + intros first f y Hfirst Hf Hy.
      assert (Hin1 : first ∈ inRadius)
        by (rewrite <- Hperm; by apply head_elem_of).
      destruct (withDistance_composite_key _ _ _ _ _ Hfin Hin1) as (k1 & Hk1 & _).
      destruct (withDistance_composite_key _ _ _ _ _ Hfin Hf) as (k & Hk & Hyk).
      rewrite (Hyk y Hy) in Hk.
      assert (Hle : key_le (String.eqb ord "asc") k1 (Some y)).
      { apply (sort_head_first "composite" ord inRadius sorted first f
                 k1 (Some y)); try done. by rewrite Hperm. }
      destruct k1 as [x|]; [|done]. exists x. split; [|done].
      by apply (Hscore first (Some x)).
  - intros -> Hnames.
    pose proof (withDistance_name hLat hLon (radius_of o) fs Hnames) as Hin.
    fold inRadius in Hin.
    split; [|split].
    + rewrite Hperm. eapply Forall_impl; [exact Hin|]. cbn. intros f Hf.
      unfold missing_key. by rewrite (valueFor_name f Hf).
    + intros a a' b Ha Ha' Hb Heq.
      rewrite !comparator_name by done. by rewrite Heq.
    + intros Hflip Htrans. by apply (sort_by_name ord inRadius sorted).
Qed.

End OrderClaims.

(** ** Hospital coordinates *)

Section CoordinateClaims.
Context `{Runtime}.
Variable w : world.

(** The record of [mapHospitalRow] holds the coordinates under
    [latitude] and [longitude]; it has no [Latitude] or [Longitude]. *)
Lemma mapHospitalRow_coordinates
    providerId name_ address city state zip county phone type ownership
    emergency lat lon h :
  Loaders.mapHospitalRow providerId name_ address city state zip county phone
    type ownership emergency (Some lat) (Some lon) = Some h ->
  get h "latitude" = VNumber (Num lat) /\
  get h "longitude" = VNumber (Num lon) /\
  get h "Latitude" = VUndefined /\
  get h "Longitude" = VUndefined.
Proof.
  unfold Loaders.mapHospitalRow. destruct (negb (truthy name_)); [done|].
  intros [= <-]. unfold get. cbn [list_to_map foldr uncurry Datatypes.uncurry].
  repeat split; by simplify_map_eq.
Qed.

(** C8 (evaluation of the engine): for every record that
    [mapHospitalRow] builds from a row with numeric coordinates,
    [performAnalysis] reads [Latitude] and [Longitude], finds them
    undefined and calls the geocoder; a geocoder failure then fails the
    request although the coordinates are stored on the record. *)
Theorem loader_hospital_is_geocoded
    providerId name_ address city state zip county phone type ownership
    emergency lat lon h i s :
  Loaders.mapHospitalRow providerId name_ address city state zip county phone
    type ownership emergency (Some lat) (Some lon) = Some h ->
  get h "latitude" = VNumber (Num lat) /\
  get h "longitude" = VNumber (Num lon) /\
  calls (snd (hospital_coordinates w i h s))
    = (calls s ++ [CallGeocode (get h "hospital_name") (get h "address")
                     (get h "city") (get h "state") (get h "zip_code")])%list /\
  forall req e,
    truthy (hospitalName req) = true ->
    find_hospital (hospitalName req) (hospitals s) 0 = Ok (Some (i, h)) ->
    geocodeHospitalAddress w
      (get h "hospital_name", get h "address", get h "city", get h "state",
       get h "zip_code") (tick s) = Throw e ->
    fst (performAnalysis w req s) = Throw e.
Proof.
  intros Hrow.
  destruct (mapHospitalRow_coordinates _ _ _ _ _ _ _ _ _ _ _ _ _ _ Hrow)
    as (Hlat & Hlon & HLat & HLon).
  split; [done|]. split; [done|].
  assert (Hnan : (Number_isNaN (VNumber (parseFloat (get h "Latitude")))
                  || Number_isNaN (VNumber (parseFloat (get h "Longitude"))))%bool
                 = true) by (by rewrite HLat).
  split.
  - unfold hospital_coordinates. rewrite Hnan.
    unfold bind, outside, get_hospitals, set_hospitals, ret.
    by destruct (geocodeHospitalAddress w _ (tick s)).
  - intros req e Hname Hfind Hgeo.
    by apply (performAnalysis_geocoding_failed w req s i h e).
Qed.

End CoordinateClaims.

(** ** Records of the loaders are well typed *)

Section LoaderRecords.
Context `{Runtime}.

Lemma set_rating_other k1 k2 x (snf : obj) k :
  k <> k1 -> k <> k2 -> Loaders.set_rating k1 k2 x snf !! k = snf !! k.
Proof.
  intros H1 H2. unfold Loaders.set_rating. destruct x; [|done].
  by rewrite !lookup_insert_ne.
Qed.

Lemma set_rating_not_string k1 k2 x (snf : obj) k :
  not_string (get snf k) = true ->
  not_string (get (Loaders.set_rating k1 k2 x snf) k) = true.
Proof.
  intros Hk. unfold Loaders.set_rating, get in *. destruct x as [q|]; [|done].
  destruct (decide (k2 = k)) as [->|]; [by rewrite lookup_insert_eq|].
  rewrite lookup_insert_ne by done.
  destruct (decide (k1 = k)) as [->|]; [by rewrite lookup_insert_eq|].
  by rewrite lookup_insert_ne.
Qed.

(** Every facility that [mapSNFRow] builds is well typed. *)
Lemma mapSNFRow_well_typed
    providerId name_ address city state zip county phone ownership
    latitude longitude compositeScore overall health staffing qm f :
  Loaders.mapSNFRow providerId name_ address city state zip county phone
    ownership latitude longitude compositeScore overall health staffing qm
    = Some f ->
  well_typed_facility f = true.
Proof.
  unfold Loaders.mapSNFRow. destruct (negb (truthy name_)); [done|].
  intros [= <-]. unfold well_typed_facility.
  rewrite !andb_true_iff. repeat split.
  - do 4 apply set_rating_not_string.
    unfold get. destruct (String.eqb _ ""); by simplify_map_eq.
  - do 4 apply set_rating_not_string.
    unfold get. destruct (String.eqb _ ""); by simplify_map_eq.
  - do 4 apply set_rating_not_string.
    unfold get. destruct (String.eqb _ ""); simplify_map_eq;
      by destruct compositeScore.
  - unfold get. rewrite !set_rating_other by done.
    destruct (String.eqb _ ""); by simplify_map_eq.
Qed.

(** Every hospital that [mapHospitalRow] builds carries a name. *)
Lemma mapHospitalRow_named
    providerId name_ address city state zip county phone type ownership
    emergency latitude longitude h :
  Loaders.mapHospitalRow providerId name_ address city state zip county phone
    type ownership emergency latitude longitude = Some h ->
  named h.
Proof.
  unfold Loaders.mapHospitalRow. destruct (negb (truthy name_)); [done|].
  intros [= <-]. eexists. unfold get. by simplify_map_eq.
Qed.

End LoaderRecords.

(** ** Keys of the historical timelines *)

Section TimelineKeys.
Context `{Runtime}.
Import HistoricalSnf.

Lemma length_repeat_zero n :
  String.length (repeat_string n "0") = n.
Proof. induction n; simpl; auto. Qed.

Lemma length_append (a b : string) :
  String.length (a ++ b) = (String.length a + String.length b)%nat.
Proof. induction a; simpl; auto. Qed.

Lemma padStart0_length n s : (n <= String.length (padStart0 n s))%nat.
Proof.
  unfold padStart0. rewrite length_append, length_repeat_zero. lia.
Qed.

Lemma em_get_keyed m c e :
  keyed_by_ccn m -> em_get m c = Some e -> ccn e = c.
Proof.
  induction 1 as [|[k e0] m [Hk _] _ IH]; cbn [em_get]; [done|].
  destruct (String.eqb k c) eqn:Hkc; [|done].
  intros [= <-]. apply String.eqb_eq in Hkc. by subst.
Qed.

Lemma em_set_keyed m c e :
  keyed_by_ccn m -> ccn e = c -> (6 <= String.length c)%nat ->
  keyed_by_ccn (em_set m c e).
Proof.
  intros Hm Hc Hlen. induction Hm as [|[k e0] m Hk Hm IH]; cbn [em_set].
  - by repeat constructor.
  - destruct (String.eqb k c); constructor; done.
Qed.

Lemma ensureEntry_ccn m c providerInfoMap sourceRow y :
  keyed_by_ccn m -> ccn (ensureEntry m c providerInfoMap sourceRow y) = c.
Proof.
  intros Hm. unfold ensureEntry, mergeProviderInfo.
  destruct (providerInfoMap !! c); cbn [mergeEntryDetails ccn];
    (destruct (em_get m c) as [e|] eqn:He; [by apply (em_get_keyed m)|done]).
Qed.

Lemma ingest_row_keyed metricKeyOf score1 score2 providerInfoMap y m r :
  keyed_by_ccn m ->
  keyed_by_ccn (ingest_row metricKeyOf score1 score2 providerInfoMap y m r).
Proof.
  intros Hm. unfold ingest_row.
  destruct (String.eqb _ ""); [done|].
  destruct (metricKeyOf _); [|done].
  destruct (toNumber _); [|done].
  apply em_set_keyed; [done| |apply padStart0_length].
  cbn [set_metric ccn]. by apply ensureEntry_ccn.
Qed.

Lemma foldl_keyed (handler : list (string * entry) -> row -> list (string * entry))
    (rows : list row) m :
  (forall m r, keyed_by_ccn m -> keyed_by_ccn (handler m r)) ->
  keyed_by_ccn m -> keyed_by_ccn (foldl handler m rows).
Proof.
  intros Hh. revert m. induction rows as [|r rows IH]; intros m Hm; [done|].
  cbn [foldl]. by apply IH, Hh.
Qed.

Lemma ingest_qrp_paths_keyed paths
    (handler : list (string * entry) -> row -> list (string * entry)) m :
  (forall m r, keyed_by_ccn m -> keyed_by_ccn (handler m r)) ->
  keyed_by_ccn m -> keyed_by_ccn (ingest_qrp_paths paths handler m).
Proof.
  intros Hh. revert m. induction paths as [|p paths IH]; intros m Hm; [done|].
  cbn [ingest_qrp_paths ingestFile]. destruct p as [rows|]; [|by apply IH].
  by apply foldl_keyed.
Qed.

Lemma loadYear_ccn y files e :
  e ∈ loadYear y files -> (6 <= String.length (ccn e))%nat.
Proof.
  unfold loadYear. rewrite list_elem_of_In, filter_In, <- list_elem_of_In.
  intros [He _]. apply list_elem_of_fmap in He as ([k e'] & -> & Hin).
  assert (Hkeyed : keyed_by_ccn
    (ingest_qrp_paths (qrpProvider files) (ingest_qrp (loadProviderInfo files) y)
       (ingestFile (qualityClaims files) (ingest_claims (loadProviderInfo files) y)
          (ingestFile (qualityMds files) (ingest_mds (loadProviderInfo files) y)
             []).1).1)).
  { apply ingest_qrp_paths_keyed; [intros; by apply ingest_row_keyed|].
    unfold ingestFile.
    destruct (qualityClaims files), (qualityMds files); cbn [fst];
      repeat (apply foldl_keyed; [intros; by apply ingest_row_keyed|]);
      constructor. }
  unfold keyed_by_ccn in Hkeyed. rewrite Forall_forall in Hkeyed.
  destruct (Hkeyed _ Hin) as [Hc Hlen]. cbn in *. by rewrite Hc.
Qed.

Lemma add_year_keys y timelines e k :
  is_Some (add_year y timelines e !! k) ->
  k = ccn e \/ is_Some (timelines !! k).
Proof.
  unfold add_year. destruct (decide (ccn e = k)) as [<-|Hne]; [by left|].
  rewrite lookup_insert_ne by done. by right.
Qed.

(** The timelines are keyed by padded CCNs: no key is shorter than six
    characters. *)
Lemma loadHistoricalSNFQuality_keys ys files k :
  is_Some (loadHistoricalSNFQuality ys files !! k) ->
  (6 <= String.length k)%nat.
Proof.
  unfold loadHistoricalSNFQuality. generalize (default DEFAULT_YEARS ys).
  clear ys. intros ys.
  assert (Hgen : forall timelines : gmap string timeline,
    (forall k, is_Some (timelines !! k) -> (6 <= String.length k)%nat) ->
    forall k,
      is_Some (foldl (fun t y => foldl (add_year y) t (loadYear y (files y)))
                 timelines ys !! k) ->
      (6 <= String.length k)%nat).
  { induction ys as [|y ys IH]; intros timelines Ht k'; cbn [foldl]; [apply Ht|].
    apply IH. clear k'. intros k'.
    assert (Hin : forall e, e ∈ loadYear y (files y) ->
              (6 <= String.length (ccn e))%nat) by apply loadYear_ccn.
    revert timelines Ht Hin.
    induction (loadYear y (files y)) as [|e es IHes]; intros timelines Ht Hin;
      cbn [foldl]; [apply Ht|].
    apply IHes.
    - intros k2 Hk2. apply add_year_keys in Hk2 as [->|Hk2]; [|by apply Ht].
      apply Hin. left.
    - intros e' He'. apply Hin. by right. }
  apply Hgen. intros k' Hk'. rewrite lookup_empty in Hk'. by destruct Hk'.
Qed.

End TimelineKeys.

(** ** CCN joins *)

Section CcnFacts.
Context `{Runtime}.

(** A CCN shorter than six characters never finds a timeline whose keys
    are all padded. *)
Lemma historical_of_unpadded (timelines : gmap string HistoricalSnf.timeline) s :
  (forall k, is_Some (timelines !! k) -> (6 <= String.length k)%nat) ->
  (String.length s < 6)%nat ->
  historical_of timelines (VString s) = ∅.
Proof.
  intros Hkeys Hshort. unfold historical_of.
  destruct (truthy (VString s)); [|done]. cbn [String_].
  destruct (timelines !! s) as [t|] eqn:Ht; [|done].
  specialize (Hkeys s ltac:(by eexists)). lia.
Qed.

(** Whatever the yearly extracts hold, a facility whose stored CCN is
    shorter than six characters finds no timeline. *)
Lemma loader_timelines_miss_unpadded ys files s :
  (String.length s < 6)%nat ->
  historical_of (HistoricalSnf.loadHistoricalSNFQuality ys files) (VString s) = ∅.
Proof.
  apply historical_of_unpadded. intros k. apply loadHistoricalSNFQuality_keys.
Qed.

End CcnFacts.

(** C7 (evaluation of the engine): the three spellings of the CCN
    normalize to ["015009"], and the place-id seed table is read under
    the normalized CCN; but [mapSNFRow] stores the CCN as it came, and
    [performAnalysis] reads the quality and regulatory timelines under
    the CCN as stored, so a facility loaded as ["15009"] (or 15009) gets
    no timeline although one exists under ["015009"]; in general no CCN
    stored with fewer than six characters finds a timeline of the
    historical loader. *)
Theorem unpadded_ccn_misses_timelines :
  (forall (R : Runtime) ys files s,
      (String.length s < 6)%nat ->
      historical_of (HistoricalSnf.loadHistoricalSNFQuality ys files) (VString s)
        = ∅) /\
  normalizeCcn (VString "15009") = Some "015009" /\
  normalizeCcn (int 15009) = Some "015009" /\
  normalizeCcn (VString "015009") = Some "015009" /\
  facility_ccn oak_manor = VString "15009" /\
  initial_placeId (mercy_request no_options) oak_manor = VString "ChIJoak" /\
  historical_of {[ "015009" := oak_timeline ]} (VString "015009")
    = HistoricalSnf.years oak_timeline /\
  historical_of {[ "015009" := oak_timeline ]} (VString "15009") = ∅ /\
  historical_of {[ "015009" := oak_timeline ]} (int 15009) = ∅ /\
  match fst (performAnalysis calm
               (sample_request "Mercy Hospital" [oak_manor] no_options)
               (boot [mercy_capitalised])) with
  | Ok a =>
      (fun e => (historical_years_available e, regulatory_history e))
        <$> facilities a = [(0%nat, None)]
  | Throw _ => False
  end.
Proof.
  split; [intros R ys files s; apply loader_timelines_miss_unpadded|].
  repeat split; vm_compute; reflexivity.
Qed.

(** ** Refutations of the claims as stated *)

(** C2 (as stated, refuted): the hospital name matches a loaded
    hospital, which has no coordinates; the geocoder fails and so does
    the request, with the geocoder's error. *)
Lemma matched_hospital_can_fail :
  find_hospital (VString "county general") [county_general] 0
    = Ok (Some (0%nat, county_general)) /\
  fst (performAnalysis geocoder_down
         (sample_request "county general" four_facilities no_options)
         (boot [county_general]))
    = Throw (Error "Geocoding failed for address: 9 Elm St, Ozark, AL 36360").
Proof. split; vm_compute; reflexivity. Qed.

(** C6 (as stated, refuted): the hospital resolves from stored
    coordinates, but reading the place-id store fails inside
    [getPlaceId], outside its [try]; the failure leaves
    [performAnalysis]. *)
Lemma place_store_failure_aborts :
  fst (hospital_coordinates place_store_down 0 mercy_capitalised
         (boot [mercy_capitalised])) = Ok (int 31, int (-85)) /\
  fst (performAnalysis place_store_down
         (sample_request "Mercy Hospital" [dogwood] no_options)
         (boot [mercy_capitalised]))
    = Throw (Error "database unavailable").
Proof. split; vm_compute; reflexivity. Qed.

(** ** Worked instances *)

Lemma four_facilities_well_typed :
  Forall (fun f => well_typed_facility f = true) four_facilities.
Proof. repeat constructor. Qed.

Lemma calm_stores_readable req : stores_readable calm req.
Proof. split; intros _ key n; by eexists. Qed.

Lemma upstream_down_stores_readable req : stores_readable upstream_down req.
Proof. split; intros _ key n; by eexists. Qed.

Lemma mercy_named : Forall named [mercy].
Proof. repeat constructor. by eexists. Qed.

Lemma mercy_capitalised_named : Forall named [mercy_capitalised].
Proof. repeat constructor. by eexists. Qed.

Lemma county_general_named : Forall named [county_general].
Proof. repeat constructor. by eexists. Qed.

Lemma mercy_resolves_calm o :
  resolves calm (mercy_request o) (boot [mercy]) 0 mercy (int 31, int (-85))
    (after_coordinates calm mercy).
Proof. repeat split; vm_compute; reflexivity. Qed.

Lemma mercy_resolves_upstream_down o :
  resolves upstream_down (mercy_request o) (boot [mercy]) 0 mercy
    (int 31, int (-85)) (after_coordinates upstream_down mercy).
Proof. repeat split; vm_compute; reflexivity. Qed.

(** Instance of C1: the analysis of Mercy against the four sample
    facilities. *)
Lemma analysis_within_radius_at_mercy :
  exists r s',
    performAnalysis calm (mercy_request no_options) (boot [mercy]) = (Ok r, s') /\
    (length (facilities r) <= totalWithinRadius r)%nat /\
    forall e, e ∈ facilities r ->
      lessEq (get (fields e) "distance") (int 50) = true.
Proof.
  destruct (proj2 (analysis_within_radius calm (mercy_request no_options)
                     (boot [mercy]))
              0%nat mercy (int 31, int (-85)) (after_coordinates calm mercy)
              (mercy_resolves_calm no_options) eq_refl
              four_facilities_well_typed
              (calm_stores_readable (mercy_request no_options)))
    as (r & s' & Hrun).
  exists r, s'. split; [exact Hrun|].
  exact (proj1 (analysis_within_radius calm (mercy_request no_options)
                  (boot [mercy])) r s' Hrun).
Defined.

Lemma eight_facilities_well_typed :
  Forall (fun f => well_typed_facility f = true) eight_facilities.
Proof. repeat constructor. Qed.

Lemma mercy_resolves_among_eight o :
  resolves calm (sample_request " mercy hospital" eight_facilities o)
    (boot [mercy]) 0 mercy (int 31, int (-85)) (after_coordinates calm mercy).
Proof. repeat split; vm_compute; reflexivity. Qed.

(** Instance of C10: [limit: 0] with seven facilities within the radius;
    five of them are returned. *)
Lemma falsy_limit_at_mercy :
  exists r s',
    performAnalysis calm
      (sample_request " mercy hospital" eight_facilities
         (sort_options "composite" "desc" (int 0)))
      (boot [mercy]) = (Ok r, s') /\
    totalWithinRadius r = 7%nat /\ length (facilities r) = 5%nat.
Proof.
  pose (req := sample_request " mercy hospital" eight_facilities
                 (sort_options "composite" "desc" (int 0))).
  destruct (proj2 (falsy_limit_means_five calm req (boot [mercy]) eq_refl)
              0%nat mercy (int 31, int (-85)) (after_coordinates calm mercy)
              (mercy_resolves_among_eight _) eq_refl eight_facilities_well_typed
              (calm_stores_readable req))
    as (r & s' & Hrun).
  exists r, s'. split; [exact Hrun|].
  destruct (proj1 (falsy_limit_means_five calm req (boot [mercy]) eq_refl) r s' Hrun)
    as (Hlen & Htotal & _).
  destruct (performAnalysis_coordinates calm req (boot [mercy]) r s' 0%nat mercy
              (int 31, int (-85)) (after_coordinates calm mercy) Hrun
              (mercy_resolves_among_eight _)) as [Hlat Hlon].
  rewrite Hlat, Hlon in Htotal. split; [exact Htotal|].
  rewrite Hlen, Htotal. reflexivity.
Defined.

(** Instance of C2 (amended): an unknown name, a geocoder failure, and
    a hospital with no facility within 50 miles. *)
Lemma analysis_failure_modes_at_samples :
  performAnalysis calm
    (sample_request "Nonexistent Hospital" four_facilities no_options)
    (boot [mercy]) = (Throw not_found, boot [mercy]) /\
  fst (performAnalysis geocoder_down
         (sample_request "county general" four_facilities no_options)
         (boot [county_general]))
    = Throw (Error "Geocoding failed for address: 9 Elm St, Ozark, AL 36360") /\
  exists r,
    performAnalysis calm (sample_request "Mercy Hospital" [far_pines] no_options)
      (boot [mercy_capitalised]) = (Ok r, boot [mercy_capitalised]) /\
    facilities r = [] /\ totalWithinRadius r = 0%nat.
Proof.
  split; [|split].
  - apply (proj1 (analysis_failure_modes calm
                    (sample_request "Nonexistent Hospital" four_facilities no_options)
                    (boot [mercy]) "Nonexistent Hospital" eq_refl
                    ltac:(discriminate) mercy_named)).
    repeat constructor. intros (s & Hs & Heq). vm_compute in Hs.
    injection Hs as <-. vm_compute in Heq. discriminate.
  - apply (proj1 (proj2 (proj2 (analysis_failure_modes geocoder_down
                    (sample_request "county general" four_facilities no_options)
                    (boot [county_general]) "county general" eq_refl
                    ltac:(discriminate) county_general_named)))
             0%nat county_general); vm_compute; reflexivity.
  - apply (proj2 (proj2 (proj2 (analysis_failure_modes calm
                    (sample_request "Mercy Hospital" [far_pines] no_options)
                    (boot [mercy_capitalised]) "Mercy Hospital" eq_refl
                    ltac:(discriminate) mercy_capitalised_named)))
             0%nat mercy_capitalised (int 31) (int (-85)) (boot [mercy_capitalised])).
    + repeat split; vm_compute; reflexivity.
    + reflexivity.
    + vm_compute. reflexivity.
Defined.

(** Instance of C3: the four sample facilities by composite score,
    descending.  Dogwood Place (90) comes before Oak Manor (80); Azalea
    Court, which has no score, is last; Far Pines lies outside the
    radius. *)
Lemma ranked_order_by_composite :
  by_composite ≡ₚ withDistance (int 31) (int (-85)) (int 50) four_facilities /\
  sunk (missing_key "composite") by_composite /\
  (forall i j a b y,
      (i < j)%nat -> by_composite !! i = Some a -> by_composite !! j = Some b ->
      get b "Composite_Score" = VNumber (Num y) ->
      exists x, get a "Composite_Score" = VNumber (Num x) /\ (y <= x)%Q) /\
  (fun f => (get f "facility_name", get f "Composite_Score")) <$> by_composite
    = [ (VString "Dogwood Place", VNumber (Num 90));
        (VString "Oak Manor", VNumber (Num 80));
        (VString "azalea Court", VNull) ].
Proof.
  pose proof (ranked_order (sort_options "composite" "desc" (int 0))
                (int 31) (int (-85)) four_facilities by_composite
                "composite" "desc" eq_refl eq_refl eq_refl)
    as (Hperm & Hsunk & _ & Hcomposite & _).
  split; [exact Hperm|]. split; [exact Hsunk|]. split.
  - apply (proj1 (Hcomposite eq_refl ltac:(repeat constructor))).
  - reflexivity.
Defined.

(** Sorted by name in ascending order, the three facilities within the
    radius come in the order of their names in lower case: [azalea
    Court] is first, which in the order of the code units would be
    last. *)
Lemma ranked_by_name_at_mercy :
  (fun f => get f "facility_name")
    <$> match ranked (sort_options "name" "asc" (int 0)) (int 31) (int (-85))
                four_facilities with
        | Ok sorted => sorted
        | Throw _ => []
        end
    = [VString "azalea Court"; VString "Dogwood Place"; VString "Oak Manor"].
Proof. reflexivity. Qed.

(** Instance of C4. *)
Lemma resolve_at_samples :
  (value_of_current = VNumber (Num 82) /\
   Dashboard.source_ (Dashboard.resolveMetricValue facility_with_current mobility)
     = Some Dashboard.current) /\
  Dashboard.value_ (Dashboard.resolveMetricValue facility_two_years mobility)
    = VNumber (Num 14) /\
  Dashboard.source_ (Dashboard.resolveMetricValue facility_two_years mobility)
    = Some Dashboard.historical /\
  Dashboard.historicalLatestYear
    (Dashboard.resolveMetricValue facility_two_years mobility) = Some 2024 /\
  Dashboard.trend_ (Dashboard.resolveMetricValue facility_two_years mobility)
    = Some {| Dashboard.delta := 4; Dashboard.good := true;
              Dashboard.yearSpan := (2022, 2024) |}.
Proof.
  split.
  - exact (proj1 resolve_current_then_historical facility_with_current mobility
             "Mobility at Discharge" (VNumber (Num 82)) eq_refl
             ltac:(discriminate) eq_refl eq_refl).
  - exact (proj2 resolve_current_then_historical facility_two_years mobility
             {[ "mobility_at_discharge" := 10%Q ]}
             {[ "mobility_at_discharge" := 14%Q ]}
             eq_refl eq_refl eq_refl eq_refl eq_refl).
Defined.

(** Instance of C5 (amended): the timeline of [facility_metric_gap] ends
    in 2024, which lacks the metric. *)
Lemma resolve_reads_latest_at_gap :
  Dashboard.value_ (Dashboard.resolveMetricValue facility_metric_gap metric_gap)
    = VNull /\
  Dashboard.source_ (Dashboard.resolveMetricValue facility_metric_gap metric_gap)
    = None.
Proof.
  assert (Hlatest : latest_year (history_of facility_metric_gap) 2024).
  { apply (two_year_history {[ "pressure_ulcer_rate" := 10%Q ]}
             {[ "fall_with_major_injury_rate" := 2%Q ]}). }
  exact (proj1 (proj2 (resolve_reads_latest_timeline_year facility_metric_gap
                         metric_gap 2024 eq_refl Hlatest)) eq_refl).
Defined.

(** Instance of C6 (amended): every live call and every cache write
    fails; the three facilities within the radius are returned all the
    same, each with its four quality fields [null] and without
    reviews. *)
Lemma enrichment_failures_at_mercy :
  exists r s' sorted,
    performAnalysis upstream_down (mercy_request no_options) (boot [mercy])
      = (Ok r, s') /\
    ranked no_options (int 31) (int (-85)) four_facilities = Ok sorted /\
    enriched_from (mercy_request no_options) (slice0 sorted (int 5)) (facilities r) /\
    length (facilities r) = 3%nat /\
    forall e, e ∈ facilities r ->
      (forall k, k ∈ quality_keys -> get (fields e) k = VNull) /\
      review_enrichment e = None.
Proof.
  destruct (enrichment_failures_degrade upstream_down
              (mercy_request no_options) (boot [mercy]) 0%nat mercy
              (int 31, int (-85)) (after_coordinates upstream_down mercy)
              (mercy_resolves_upstream_down no_options) eq_refl
              four_facilities_well_typed
              (upstream_down_stores_readable (mercy_request no_options)))
    as (r & s' & sorted & Hrun & Hsorted & Hfrom & Hdeg).
  exists r, s', sorted. split; [exact Hrun|]. split; [exact Hsorted|].
  split; [exact Hfrom|]. split.
  - rewrite (enriched_from_length _ _ _ Hfrom).
    change (limit_of (opts (mercy_request no_options))) with DEFAULT_LIMIT.
    rewrite slice0_default, length_take.
    by rewrite (ranked_perm _ _ _ _ _ Hsorted).
  - intros e He. apply list_elem_of_lookup in He as [j Hj].
    destruct (Forall2_lookup_l _ _ _ _ _ Hdeg Hj) as (f & _ & Hd). split.
    + intros k. unfold quality_keys. rewrite !elem_of_cons, elem_of_nil.
      intros [->|[->|[->|[->|[]]]]].
      * apply (degrades_rejected upstream_down _ _ _ f e _ "mobility"
                 "mobility_percent" Hd); [|by eexists].
        unfold quality_sources. rewrite !elem_of_cons. tauto.
      * apply (degrades_rejected upstream_down _ _ _ f e _ "discharge"
                 "discharge_to_community_percent" Hd); [|by eexists].
        unfold quality_sources. rewrite !elem_of_cons. tauto.
      * apply (degrades_rejected upstream_down _ _ _ f e _ "falls"
                 "fall_with_major_injury_percent" Hd); [|by eexists].
        unfold quality_sources. rewrite !elem_of_cons. tauto.
      * apply (degrades_rejected upstream_down _ _ _ f e _ "hai"
                 "hai_percent" Hd); [|by eexists].
        unfold quality_sources. rewrite !elem_of_cons. tauto.
    + apply (degrades_unfetched upstream_down _ _ _ f e Hd); [done|done|].
      intros key n. by eexists.
Defined.

(** Instance of C8: the record built for Mercy Hospital. *)
Lemma mercy_is_geocoded :
  get mercy "latitude" = VNumber (Num 31) /\
  get mercy "longitude" = VNumber (Num (-85)) /\
  calls (snd (hospital_coordinates geocoder_down 0 mercy (boot [mercy])))
    = [CallGeocode (VString "Mercy Hospital") (VString "1 Main St")
         (VString "Dothan") (VString "AL") (VString "36301")] /\
  fst (performAnalysis geocoder_down (mercy_request no_options) (boot [mercy]))
    = Throw (Error "Geocoding failed for address: 1 Main St, Dothan, AL 36301").
Proof.
  destruct (loader_hospital_is_geocoded geocoder_down
              (VString "010001") (VString "Mercy Hospital")
              (VString "1 Main St") (VString "Dothan") (VString "al")
              (VString "36301") (VString "Houston") (VString "3345550100")
              (VString "Acute Care") (VString "Private") (VString "Yes")
              31 (-85) mercy 0%nat (boot [mercy]) eq_refl)
    as (Hlat & Hlon & Hcalls & Hfail).
  split; [exact Hlat|]. split; [exact Hlon|]. split; [exact Hcalls|].
  apply Hfail; vm_compute; reflexivity.
Defined.

(** * Properties of the further parts *)

(** ** In-process cache layers *)

Section CacheFacts.
Variable w : world.

(** X1 (place-id cache, [set] then [get]): for a non-empty key, after
    [set(key, payload)] the payload is in the in-process layer whether or
    not the store write succeeded, and the next [get(key)] returns it
    without reading the store; [set] itself makes one store write. *)
Theorem place_cache_set_then_get key payload s :
  key <> "" ->
  let s1 := snd (placeCache_set w key payload s) in
  placeMem s1 !! key = Some payload /\
  placeCache_get w key s1 = (Ok (Some payload), s1) /\
  calls s1 = (calls s ++ [CallPlaceCacheWrite key])%list.
Proof.
  intros Hkey. apply String.eqb_neq in Hkey.
  unfold placeCache_set, placeCache_get. rewrite Hkey.
  unfold bind, get_placeMem, set_placeMem, outside, ret. cbn.
  rewrite lookup_insert_eq. done.
Qed.

(** X2 (place-id cache, read-through): a record found in the store is
    kept in the in-process layer, so a second [get] of the same key
    reads nothing; a miss is not kept, and the next [get] reads the
    store again. *)
Theorem place_cache_keeps_hits_only key s :
  key <> "" -> placeMem s !! key = None ->
  (forall r, readCacheRecord w key (tick s) = Ok (Some r) ->
     exists s1, placeCache_get w key s = (Ok (Some r), s1) /\
                calls s1 = (calls s ++ [CallPlaceCacheRead key])%list /\
                placeCache_get w key s1 = (Ok (Some r), s1)) /\
  (readCacheRecord w key (tick s) = Ok None ->
     exists s1, placeCache_get w key s = (Ok None, s1) /\
                placeMem s1 = placeMem s /\
                calls (snd (placeCache_get w key s1))
                  = (calls s ++ [CallPlaceCacheRead key; CallPlaceCacheRead key])%list).
Proof.
  intros Hkey Hmem. apply String.eqb_neq in Hkey.
  unfold placeCache_get. rewrite Hkey. split.
  - intros r Hr. eexists.
    unfold bind, get_placeMem, set_placeMem, outside, ret. cbn.
    rewrite Hmem, Hr. cbn. split; [reflexivity|]. cbn.
    rewrite lookup_insert_eq. done.
  - intros Hr. eexists.
    unfold bind, get_placeMem, set_placeMem, outside, ret. cbn.
    rewrite Hmem, Hr. cbn. split; [reflexivity|]. cbn. rewrite Hmem.
    split; [done|].
    repeat case_match; cbn; by rewrite <- app_assoc.
Qed.

(** X3 (review cache): the same two layers for review snapshots.  After
    [set(placeId, payload)] the next [get] returns the payload without
    reading the store, whatever became of the store write; a snapshot
    read from the store is served from memory afterwards. *)
Theorem review_cache_set_then_get placeId payload s :
  placeId <> "" ->
  (let s1 := snd (reviewCache_set w placeId payload s) in
   reviewCache_get w placeId s1 = (Ok (Some payload), s1) /\
   calls s1 = (calls s ++ [CallReviewCacheWrite placeId])%list) /\
  (forall r, reviewMem s !! placeId = None ->
     readSnapshot w placeId (tick s) = Ok (Some r) ->
     exists s1, reviewCache_get w placeId s = (Ok (Some r), s1) /\
                calls s1 = (calls s ++ [CallReviewCacheRead placeId])%list /\
                reviewCache_get w placeId s1 = (Ok (Some r), s1)).
Proof.
  intros Hkey. apply String.eqb_neq in Hkey.
  unfold reviewCache_set, reviewCache_get. rewrite Hkey. split.
  - unfold bind, get_reviewMem, set_reviewMem, outside, ret. cbn.
    rewrite lookup_insert_eq. done.
  - intros r Hmem Hr. eexists.
    unfold bind, get_reviewMem, set_reviewMem, outside, ret. cbn.
    rewrite Hmem, Hr. cbn. split; [reflexivity|]. cbn.
    rewrite lookup_insert_eq. done.
Qed.

End CacheFacts.

(** ** Place resolver and review service *)

Section ResolverFacts.
Context `{Runtime}.
Variable w : world.

Lemma keyForFacility_not_empty facility :
  String.eqb (keyForFacility facility) "" = false.
Proof. unfold keyForFacility. by case_match. Qed.

Lemma getPlaceId_seeded cfg facility sd s :
  seed_for cfg facility = Some sd ->
  getPlaceId w cfg facility s
    = (Ok (Some {| entry_of :=
                     {| place_id := google_place_id sd;
                        name := orElse (google_name sd) VNull;
                        formatted_address := VUndefined;
                        location := VUndefined;
                        resolved_at := None |};
                   source := Some "seed" |}), s).
Proof.
  intros Hseed. unfold getPlaceId. fold (ccnKey facility).
  fold (seed_for cfg facility). by rewrite Hseed.
Qed.

Lemma getPlaceId_unseeded cfg facility :
  seed_for cfg facility = None ->
  getPlaceId w cfg facility
    = (let cacheKey := keyForFacility facility in
       cached <- placeCache_get w cacheKey;;
       fresh <- match cached with
                | Some e => isFresh w cfg e
                | None => ret false
                end;;
       match cached, fresh with
       | Some e, true => ret (Some {| entry_of := e; source := Some "cache" |})
       | _, _ =>
           if negb (truthy (apiKey cfg)) then ret (stale cached)
           else
             try_catch
               (let query := buildQuery facility in
                let locationBias := buildLocationBias facility in
                found <- findPlaceId w query locationBias (apiKey cfg);;
                match found with
                | None => ret (stale cached)
                | Some f =>
                    n <- read_tick;;
                    let payload := payload_of f (now w n) in
                    _ <- placeCache_set w cacheKey payload;;
                    ret (Some {| entry_of := payload; source := Some "fresh" |})
                end)
               (fun _ => ret (stale cached))
       end).
Proof.
  intros Hseed. unfold getPlaceId. fold (ccnKey facility).
  fold (seed_for cfg facility). by rewrite Hseed.
Qed.

(** X4 (resolver without an API key): [getPlaceId] makes no live search
    and writes nothing; apart from at most one read of the cache store
    it leaves the outside world alone. *)
Theorem getPlaceId_without_key cfg facility s :
  truthy (apiKey cfg) = false ->
  calls (snd (getPlaceId w cfg facility s)) = calls s \/
  calls (snd (getPlaceId w cfg facility s))
    = (calls s ++ [CallPlaceCacheRead (keyForFacility facility)])%list.
Proof.
  intros Hkey. destruct (seed_for cfg facility) as [sd|] eqn:Hseed.
  { left. by rewrite (getPlaceId_seeded _ _ _ _ Hseed). }
  rewrite (getPlaceId_unseeded _ _ Hseed). cbn zeta.
  unfold placeCache_get. rewrite keyForFacility_not_empty, Hkey.
  unfold isFresh, bind, get_placeMem, set_placeMem, outside, ret, read_tick.
  cbn. repeat (case_match; cbn in *; simplify_eq); auto.
Qed.

(** X5 (a place found by the live search): with no seed, nothing cached
    and a configured key, a candidate returned by the search is put in
    the in-process layer under the facility's cache key even when the
    store write fails; the call answers with source "fresh" if the
    write succeeded and with [null] if it failed.  While the entry is
    younger than [maxAgeMs], later calls answer from memory with source
    "cache" and leave the state, hence the outside world, untouched. *)
Theorem found_place_is_remembered cfg facility :
  seed_for cfg facility = None ->
  (forall s f,
     placeMem s !! keyForFacility facility = None ->
     readCacheRecord w (keyForFacility facility) (tick s) = Ok None ->
     truthy (apiKey cfg) = true ->
     truthy (buildQuery facility) = true ->
     findPlace w (String_ (buildQuery facility)) (buildLocationBias facility)
       (S (tick s)) = Ok (Some f) ->
     let payload := payload_of f (now w (S (S (tick s)))) in
     let s1 := snd (getPlaceId w cfg facility s) in
     placeMem s1 !! keyForFacility facility = Some payload /\
     fst (getPlaceId w cfg facility s)
       = match writeCacheRecord w (keyForFacility facility) payload
                 (S (S (tick s))) with
         | Ok _ => Ok (Some {| entry_of := payload; source := Some "fresh" |})
         | Throw _ => Ok None
         end) /\
  (forall s e t,
     placeMem s !! keyForFacility facility = Some e ->
     resolved_at e = Some t ->
     younger (now w (tick s)) t (maxAgeMs cfg) ->
     getPlaceId w cfg facility s
       = (Ok (Some {| entry_of := e; source := Some "cache" |}), s)).
Proof.
  intros Hseed. rewrite (getPlaceId_unseeded _ _ Hseed). cbn zeta. split.
  - intros s f Hmem Hread Hkey Hq Hfind.
    unfold placeCache_get, placeCache_set, findPlaceId.
    rewrite keyForFacility_not_empty, Hkey, Hq.
    unfold try_catch, bind, get_placeMem, set_placeMem, outside, ret, read_tick.
    cbn. rewrite Hmem, Hread. cbn. rewrite Hfind. cbn.
    destruct (writeCacheRecord _ _ _ _); cbn; by rewrite lookup_insert_eq.
  - intros s e t Hmem Ht [Ht0 Hage].
    unfold placeCache_get. rewrite keyForFacility_not_empty.
    unfold isFresh, bind, get_placeMem, ret, read_tick. cbn.
    rewrite Hmem. cbn. rewrite Ht.
    destruct (Z.eqb_spec t 0) as [|_]; [done|]. cbn in Hage. by rewrite Hage.
Qed.

(** X6 (review snapshots): a falsy place id yields [null] at once; a
    snapshot held in memory and younger than [maxAgeMs] is returned
    without any outside call; and a snapshot fetched live is put in the
    in-process layer before the store write, so it stays there even if
    that write fails, in which case the call itself answers [null]. *)
Theorem review_snapshot_layers cfg :
  (forall placeId s,
     truthy placeId = false ->
     getReviewSnapshot w cfg placeId s = (Ok None, s)) /\
  (forall p s e t,
     p <> "" ->
     reviewMem s !! p = Some e ->
     fetched_at e = Some t ->
     younger (now w (tick s)) t (reviews_maxAgeMs cfg) ->
     getReviewSnapshot w cfg (VString p) s = (Ok (Some e), s)) /\
  (forall p s result,
     p <> "" ->
     truthy (reviews_apiKey cfg) = true ->
     reviewMem s !! p = None ->
     readSnapshot w p (tick s) = Ok None ->
     fetchPlaceDetails w p (S (tick s)) = Ok result ->
     let snap := {| details := fst result; recent_reviews := snd result;
                    fetched_at := Some (now w (S (S (tick s)))) |} in
     let s1 := snd (getReviewSnapshot w cfg (VString p) s) in
     reviewMem s1 !! p = Some snap /\
     fst (getReviewSnapshot w cfg (VString p) s)
       = match writeSnapshot w p snap (S (S (tick s))) with
         | Ok _ => Ok (Some snap)
         | Throw _ => Ok None
         end).
Proof.
  split; [|split].
  - intros placeId s Hp. unfold getReviewSnapshot. by rewrite Hp.
  - intros p s e t Hne Hmem Ht [Ht0 Hage]. apply String.eqb_neq in Hne.
    unfold getReviewSnapshot, reviewCache_get. cbn [truthy String_].
    rewrite Hne. cbn [negb].
    unfold isRecent, bind, get_reviewMem, ret, read_tick. cbn.
    rewrite Hmem. cbn. rewrite Ht.
    destruct (Z.eqb_spec t 0) as [|_]; [done|]. cbn in Hage. by rewrite Hage.
  - intros p s result Hne Hkey Hmem Hread Hfetch. apply String.eqb_neq in Hne.
    unfold getReviewSnapshot, reviewCache_get, reviewCache_set.
    cbn [truthy String_]. rewrite Hne, Hkey. cbn [negb].
    unfold try_catch, bind, get_reviewMem, set_reviewMem, outside, ret, read_tick.
    cbn. rewrite Hmem, Hread. cbn. rewrite Hfetch. cbn.
    destruct (writeSnapshot _ _ _ _); cbn; by rewrite lookup_insert_eq.
Qed.

End ResolverFacts.

(** ** Seed table of place ids *)

Section SeedFacts.

Lemma toCCN_padded v : padded_or_null (GooglePlaceIds.toCCN v).
Proof.
  unfold GooglePlaceIds.toCCN. destruct (GooglePlaceIds.absent v); [by left|].
  cbn zeta. destruct (String.eqb _ ""); [by left|]. right. eauto.
Qed.

Lemma orElse_padded a b :
  padded_or_null a -> padded_or_null b -> padded_or_null (orElse a b).
Proof. intros Ha Hb. unfold orElse. by destruct (truthy a). Qed.

Lemma padded_truthy v :
  padded_or_null v -> truthy v = true ->
  exists str, v = VString (padStart0 6 str).
Proof. by intros [->|Hv] Ht. Qed.

Lemma seed_row_usable (m : gmap string seed) r :
  (forall k sd, m !! k = Some sd ->
     (6 <= String.length k)%nat /\ truthy (google_place_id sd) = true) ->
  forall k sd, GooglePlaceIds.seed_row m r !! k = Some sd ->
    (6 <= String.length k)%nat /\ truthy (google_place_id sd) = true.
Proof.
  intros Hm k sd. unfold GooglePlaceIds.seed_row.
  set (ccn := orElse _ (GooglePlaceIds.toCCN (row_get r "CCN"))).
  assert (padded_or_null ccn) as Hccn
    by (subst ccn; repeat apply orElse_padded; apply toCCN_padded).
  destruct (truthy ccn) eqn:Ht; cbn [negb]; [|by apply Hm].
  set (placeId := orElse _ VNull).
  destruct (truthy placeId) eqn:Hp; cbn [negb]; [|by apply Hm].
  destruct (padded_truthy _ Hccn Ht) as [str ->]. cbn [String_].
  destruct (decide (k = padStart0 6 str)) as [->|Hne].
  - rewrite lookup_insert_eq. intros [= <-]. split; [apply padStart0_length|done].
  - rewrite lookup_insert_ne by done. apply Hm.
Qed.

Lemma loadGooglePlaceIds_usable rows k sd :
  GooglePlaceIds.loadGooglePlaceIds rows !! k = Some sd ->
  (6 <= String.length k)%nat /\ truthy (google_place_id sd) = true.
Proof.
  destruct rows as [rs|]; [|done]. cbn. revert k sd.
  assert (forall m : gmap string seed,
            (forall k sd, m !! k = Some sd ->
               (6 <= String.length k)%nat /\ truthy (google_place_id sd) = true) ->
            forall k sd, foldl GooglePlaceIds.seed_row m rs !! k = Some sd ->
               (6 <= String.length k)%nat /\ truthy (google_place_id sd) = true)
    as Hfold.
  { induction rs as [|r rs IH]; intros m Hm; [done|].
    cbn. apply IH. by apply seed_row_usable. }
  apply Hfold. intros k sd. by rewrite lookup_empty.
Qed.

Lemma seed_row_cases r :
  (forall m, GooglePlaceIds.seed_row m r = m) \/
  exists k sd, forall m, GooglePlaceIds.seed_row m r = <[k := sd]> m.
Proof.
  unfold GooglePlaceIds.seed_row.
  destruct (negb (truthy _)); [by left|].
  destruct (negb (truthy _)); [by left|].
  right. by eexists _, _.
Qed.

(** X7 (seed loader): every key of the loaded seed table is a CCN of at
    least six characters and every entry carries a truthy place id; a
    missing or unreadable file gives the empty table; and the last row
    of the file decides: the entry it gives for a CCN replaces what the
    rows before it gave, and where it gives none the table of the rows
    before it stands. *)
Theorem loaded_seeds_are_usable :
  (forall rows k sd,
     GooglePlaceIds.loadGooglePlaceIds rows !! k = Some sd ->
     (6 <= String.length k)%nat /\ truthy (google_place_id sd) = true) /\
  GooglePlaceIds.loadGooglePlaceIds None = ∅ /\
  (forall rs r k,
     GooglePlaceIds.loadGooglePlaceIds (Some (rs ++ [r])%list) !! k
       = match GooglePlaceIds.loadGooglePlaceIds (Some [r]) !! k with
         | Some sd => Some sd
         | None => GooglePlaceIds.loadGooglePlaceIds (Some rs) !! k
         end).
Proof.
  split; [apply loadGooglePlaceIds_usable|]. split; [done|].
  intros rs r k. cbn. rewrite foldl_app. cbn.
  destruct (seed_row_cases r) as [Hid|(k' & sd' & Hins)].
  - by rewrite !Hid, lookup_empty.
  - rewrite !Hins. destruct (decide (k' = k)) as [->|Hne].
    + by rewrite !lookup_insert_eq.
    + by rewrite !lookup_insert_ne, lookup_empty.
Qed.

Context `{Runtime}.
Variable w : world.

(** X8 (seeds before cache and live search): when the resolver is
    configured with the loaded seed table and the table has an entry
    under the facility's zero-padded CCN, [getPlaceId] answers with that
    entry, source "seed", and touches neither the caches nor the
    network: the state is returned as it was. *)
Theorem loaded_seed_resolves_facility rows cfg facility k s :
  seedPlaceIds cfg = GooglePlaceIds.loadGooglePlaceIds rows ->
  normalizeCcn (ccnKey facility) = Some k ->
  is_Some (seedPlaceIds cfg !! k) ->
  exists sd,
    seedPlaceIds cfg !! k = Some sd /\
    truthy (google_place_id sd) = true /\
    getPlaceId w cfg facility s
      = (Ok (Some {| entry_of :=
                       {| place_id := google_place_id sd;
                          name := orElse (google_name sd) VNull;
                          formatted_address := VUndefined;
                          location := VUndefined;
                          resolved_at := None |};
                     source := Some "seed" |}), s).
Proof.
  intros Hcfg Hk [sd Hsd]. exists sd.
  assert (truthy (google_place_id sd) = true) as Ht.
  { rewrite Hcfg in Hsd. by apply (loadGooglePlaceIds_usable rows k sd). }
  split; [done|]. split; [done|].
  apply getPlaceId_seeded. unfold seed_for. rewrite Hk. cbn.
  rewrite Hsd. cbn. by rewrite Ht.
Qed.

End SeedFacts.

(** ** Live quality metrics *)

Section QualityFacts.
Variable w : world.

Lemma settled_step ccn metric field s :
  exists v, v <> VUndefined /\
    settled w ccn metric field s = (Ok v, after_calls s [CallCMS ccn metric]).
Proof.
  unfold settled, try_catch, bind, outside, ret, after_calls. cbn.
  destruct (fetchCMSMetric w ccn metric (tick s)) as [[o|]|e]; cbn.
  - exists (coalesce (get o field) VNull). split; [|done].
    unfold coalesce. by destruct (get o field).
  - by exists VNull.
  - by exists VNull.
Qed.

Lemma after_calls_app s cs1 cs2 :
  after_calls (after_calls s cs1) cs2 = after_calls s (cs1 ++ cs2).
Proof.
  unfold after_calls. cbn. f_equal; [|by rewrite app_assoc].
  rewrite length_app. lia.
Qed.

(** X9 (live quality metrics): [fetchQualityMetrics] never throws,
    whatever the four requests do; it makes exactly the four requests
    (mobility, discharge, falls, hai) and changes nothing else; and the
    object it returns has exactly the four quality properties, none of
    them [undefined]. *)
Theorem fetchQualityMetrics_four_keys ccn s :
  exists q,
    fetchQualityMetrics w ccn s
      = (Ok q, after_calls s [CallCMS ccn "mobility"; CallCMS ccn "discharge";
                              CallCMS ccn "falls"; CallCMS ccn "hai"]) /\
    forall k, (k ∈ quality_keys -> exists v, q !! k = Some v /\ v <> VUndefined) /\
              (k ∉ quality_keys -> q !! k = None).
Proof.
  unfold fetchQualityMetrics, try_catch, bind.
  destruct (settled_step ccn "mobility" "mobility_percent" s) as (v1 & Hv1 & ->).
  destruct (settled_step ccn "discharge" "discharge_to_community_percent"
              (after_calls s [CallCMS ccn "mobility"])) as (v2 & Hv2 & ->).
  rewrite after_calls_app.
  destruct (settled_step ccn "falls" "fall_with_major_injury_percent"
              (after_calls s ([CallCMS ccn "mobility"] ++ [CallCMS ccn "discharge"])))
    as (v3 & Hv3 & ->).
  rewrite after_calls_app.
  destruct (settled_step ccn "hai" "hai_percent"
              (after_calls s (([CallCMS ccn "mobility"] ++ [CallCMS ccn "discharge"])
                              ++ [CallCMS ccn "falls"])))
    as (v4 & Hv4 & ->).
  rewrite after_calls_app. cbn [ret app].
  eexists. split; [reflexivity|]. intros k. unfold quality_keys. split.
  - rewrite !elem_of_cons, elem_of_nil.
    intros [->|[->|[->|[->|[]]]]]; eexists; (split; [by simplify_map_eq|done]).
  - rewrite !not_elem_of_cons. intros (? & ? & ? & ? & _).
    by rewrite !lookup_insert_ne, lookup_empty by done.
Qed.

End QualityFacts.

(** ** Shared hospital records *)

Section FrameFacts.
Context `{Runtime}.
Variable w : world.

Lemma keeps_ret {A} (a : A) : keeps_hospitals (ret a).
Proof. done. Qed.

Lemma keeps_throw {A} e : keeps_hospitals (@throw A e).
Proof. done. Qed.

Lemma keeps_lift {A} (o : outcome A) : keeps_hospitals (lift o).
Proof. done. Qed.

Lemma keeps_outside {A} c (f : nat -> outcome A) : keeps_hospitals (outside c f).
Proof. done. Qed.

Lemma keeps_bind {A B} (m : M A) (k : A -> M B) :
  keeps_hospitals m -> (forall a, keeps_hospitals (k a)) ->
  keeps_hospitals (bind m k).
Proof.
  intros Hm Hk s. unfold bind. specialize (Hm s).
  destruct (m s) as [[a|e] s1]; cbn in *; [|done]. by rewrite Hk.
Qed.

Lemma bind_hospitals {A B} (m : M A) (k : A -> M B) s :
  (forall a, keeps_hospitals (k a)) ->
  hospitals (snd (bind m k s)) = hospitals (snd (m s)).
Proof.
  intros Hk. unfold bind. destruct (m s) as [[a|e] s1]; cbn; [apply Hk|done].
Qed.

Lemma keeps_try_catch {A} (m : M A) (h : error -> M A) :
  keeps_hospitals m -> (forall e, keeps_hospitals (h e)) ->
  keeps_hospitals (try_catch m h).
Proof.
  intros Hm Hh s. unfold try_catch. specialize (Hm s).
  destruct (m s) as [[a|e] s1]; cbn in *; [done|]. by rewrite Hh.
Qed.

Ltac keeps :=
  repeat first
    [ apply keeps_ret | apply keeps_throw | apply keeps_lift
    | apply keeps_outside
    | apply keeps_bind; [|intros]
    | apply keeps_try_catch; [|intros]
    | done
    | case_match ].

Lemma keeps_fetchQualityMetrics ccn : keeps_hospitals (fetchQualityMetrics w ccn).
Proof. unfold fetchQualityMetrics, settled. keeps. Qed.

Lemma keeps_getPlaceId cfg facility : keeps_hospitals (getPlaceId w cfg facility).
Proof.
  unfold getPlaceId, placeCache_get, placeCache_set, isFresh, findPlaceId,
    get_placeMem, set_placeMem, read_tick.
  keeps.
Qed.

Lemma keeps_getReviewSnapshot cfg placeId :
  keeps_hospitals (getReviewSnapshot w cfg placeId).
Proof.
  unfold getReviewSnapshot, reviewCache_get, reviewCache_set, isRecent,
    get_reviewMem, set_reviewMem, read_tick.
  keeps.
Qed.

Lemma keeps_enrich req index facility : keeps_hospitals (enrich w req index facility).
Proof.
  unfold enrich.
  repeat first
    [ apply keeps_fetchQualityMetrics | apply keeps_getPlaceId
    | apply keeps_getReviewSnapshot
    | apply keeps_ret
    | apply keeps_bind; [|intros]
    | apply keeps_try_catch; [|intros]
    | case_match ].
Qed.

Lemma keeps_enrich_all req fs : forall index,
  keeps_hospitals (enrich_all w req index fs).
Proof.
  induction fs as [|f fs IH]; intros index; cbn; [apply keeps_ret|].
  apply keeps_bind; [apply keeps_enrich|]. intros e.
  apply keeps_bind; [apply IH|]. intros es. apply keeps_ret.
Qed.

Lemma find_hospital_index n hs : forall i0 i h,
  find_hospital n hs i0 = Ok (Some (i, h)) ->
  (i0 <= i)%nat /\ hs !! (i - i0)%nat = Some h.
Proof.
  induction hs as [|h0 hs IH]; intros i0 i h; cbn; [done|].
  destruct (toUpperCase_v (get h0 "hospital_name")) as [a|]; cbn; [|done].
  destruct (toUpperCase_v n) as [b|]; cbn; [|done].
  destruct (String.eqb (trim a) (trim b)).
  - intros [= <- <-]. split; [lia|]. by rewrite Nat.sub_diag.
  - intros Hfind. destruct (IH _ _ _ Hfind) as [Hle Hget]. split; [lia|].
    replace (i - i0)%nat with (S (i - S i0)) by lia. done.
Qed.

Lemma performAnalysis_hospitals req s :
  hospitals (snd (performAnalysis w req s))
    = if truthy (hospitalName req) then
        match find_hospital (hospitalName req) (hospitals s) 0 with
        | Ok (Some (i, h)) => hospitals (snd (hospital_coordinates w i h s))
        | _ => hospitals s
        end
      else hospitals s.
Proof.
  unfold performAnalysis.
  destruct (truthy (hospitalName req)); cbn [negb]; [|done].
  unfold bind at 1. unfold get_hospitals. unfold bind at 1. unfold lift.
  destruct (find_hospital (hospitalName req) (hospitals s) 0)
    as [[[i h]|]|e]; [|done..].
  rewrite bind_hospitals; [done|]. intros [hLat hLon].
  apply (keeps_bind _ _ (keeps_lift _)). intros top.
  apply keeps_bind; [apply keeps_enrich_all|]. intros. apply keeps_ret.
Qed.

(** X10 (the shared hospital array): whatever a request does and however
    it ends, it changes the loaded hospital records at most at the
    record matched by name, and there only by storing the geocoded
    [latitude] and [longitude]; every other record stays as it was. *)
Theorem analysis_touches_only_matched_hospital req s :
  hospitals (snd (performAnalysis w req s)) = hospitals s \/
  exists i h lat lon,
    hospitals s !! i = Some h /\
    find_hospital (hospitalName req) (hospitals s) 0 = Ok (Some (i, h)) /\
    hospitals (snd (performAnalysis w req s))
      = <[i := <["longitude" := lon]> (<["latitude" := lat]> h)]> (hospitals s).
Proof.
  rewrite performAnalysis_hospitals.
  destruct (truthy (hospitalName req)); [|by left].
  destruct (find_hospital (hospitalName req) (hospitals s) 0)
    as [[[i h]|]|e] eqn:Hfind; [| by left | by left].
  pose proof (find_hospital_index _ _ _ _ _ Hfind) as [_ Hget].
  rewrite Nat.sub_0_r in Hget.
  assert (hospitals (snd (hospital_coordinates w i h s)) = hospitals s \/
          exists lat lon,
            hospitals (snd (hospital_coordinates w i h s))
              = <[i := <["longitude" := lon]> (<["latitude" := lat]> h)]>
                  (hospitals s)) as [->|(lat & lon & ->)].
  { destruct (hospital_coordinates w i h s) as [r s1] eqn:Hc. cbn [snd].
    unfold hospital_coordinates in Hc.
    destruct (_ || _)%bool; [|left; by injection Hc as _ <-].
    unfold bind at 1 in Hc. unfold outside in Hc.
    destruct (geocodeHospitalAddress w _ (tick s)) as [[lat lon]|e];
      [|left; by injection Hc as _ <-].
    right. exists lat, lon. by injection Hc as _ <-. }
  - by left.
  - right. by exists i, h, lat, lon.
Qed.

End FrameFacts.

(** ** Ranking *)

Section RankingMore.
Context `{Runtime}.

Lemma sort_by_indifferent {A} (cmp : A -> A -> outcome number) l :
  (forall a b, cmp a b = Ok (Num 0)) -> sort_by cmp l = Ok l.
Proof.
  intros Hcmp. induction l as [|x l IH]; [done|].
  cbn [sort_by]. rewrite IH. cbn [obind].
  destruct l as [|y l']; [done|]. cbn [insert_by]. by rewrite Hcmp.
Qed.

Lemma valueFor_unknown by_ f :
  by_ ∉ known_sort_keys -> valueFor by_ f = Ok VNull.
Proof.
  unfold known_sort_keys. rewrite !not_elem_of_cons.
  intros (H1 & H2 & H3 & H4 & H5 & H6 & _).
  apply String.eqb_neq in H1, H2, H3, H4, H5, H6.
  unfold valueFor. by rewrite H1, H2, H3, H4, H5, H6.
Qed.

(** X11 (a sort key the engine does not know): with a sort key other
    than rating, overall_rating, composite, composite_score, distance
    and name, and an order that is a string or falsy, ranking does not
    throw and leaves the facilities
    within the radius in the order of the input (every facility has the
    sort value [null], and the sort is stable). *)
Theorem unknown_sort_key_keeps_order o hLat hLon fs by_ :
  resolveSortBy o = Ok by_ ->
  by_ ∉ known_sort_keys ->
  lowerable (order o) = true ->
  ranked o hLat hLon fs = Ok (withDistance hLat hLon (radius_of o) fs).
Proof.
  intros Hby Hunknown Hord. unfold ranked. rewrite Hby. cbn [obind].
  unfold resolveOrder. destruct (lowerable_toLowerCase _ Hord) as [ord ->].
  cbn [obind]. apply sort_by_indifferent. intros a b.
  unfold comparator. by rewrite !valueFor_unknown.
Qed.

(** X12 (which facilities are ranked): the ranked array holds exactly
    the input facilities whose [latitude] and [longitude] are numbers
    and whose distance from the hospital is at most the radius, each
    with that distance stored in [distance]; sorting neither drops nor
    adds a facility. *)
Theorem ranked_facilities_characterised o hLat hLon fs sorted :
  ranked o hLat hLon fs = Ok sorted ->
  length sorted = length (withDistance hLat hLon (radius_of o) fs) /\
  forall f', f' ∈ sorted <->
    exists f, f ∈ fs /\
      isNaN (get f "latitude") = false /\ isNaN (get f "longitude") = false /\
      let d := haversine (hLat, hLon) (get f "latitude", get f "longitude") in
      lessEq (VNumber d) (radius_of o) = true /\
      f' = <["distance" := VNumber d]> f.
Proof.
  intros Hranked. pose proof (ranked_perm _ _ _ _ _ Hranked) as Hperm.
  split; [by rewrite Hperm|]. intros f'. rewrite Hperm.
  unfold withDistance.
  rewrite list_elem_of_In, filter_In, <- list_elem_of_In, list_elem_of_fmap.
  split.
  - intros [(f & -> & Hf) Hle].
    rewrite list_elem_of_In, filter_In, <- list_elem_of_In in Hf.
    destruct Hf as [Hf Hnum]. apply andb_true_iff in Hnum as [Hlat Hlon].
    apply negb_true_iff in Hlat, Hlon.
    exists f. repeat split; try done.
    unfold get in Hle |- *. by rewrite lookup_insert_eq in Hle.
  - intros (f & Hf & Hlat & Hlon & Hle & ->). split.
    + exists f. split; [done|].
      rewrite list_elem_of_In, filter_In, <- list_elem_of_In. split; [done|].
      by rewrite Hlat, Hlon.
    + unfold get. by rewrite lookup_insert_eq.
Qed.

End RankingMore.

(** ** The returned list *)

Section ReturnedList.
Context `{Runtime}.
Variable w : world.

Lemma slice0_int {A} (l : list A) n :
  slice0 l (int n)
    = take (Z.to_nat (if n <? 0 then Z.max (Z.of_nat (length l) + n) 0
                      else Z.min n (Z.of_nat (length l)))) l.
Proof.
  unfold slice0, int. cbn [ToNumber to_integer inject_Z Qnum Qden].
  by rewrite Z.quot_1_r.
Qed.

Lemma limit_of_int o n : limit o = int n -> n <> 0 -> limit_of o = int n.
Proof.
  intros Hl Hn.
  assert (Qeq_bool (inject_Z n) 0 = false) as Hq.
  { destruct (Qeq_bool (inject_Z n) 0) eqn:Hq; [|done].
    apply Qeq_bool_iff in Hq. unfold Qeq in Hq. cbn in Hq. lia. }
  unfold limit_of, orElse. rewrite Hl. unfold int.
  cbn [with_default truthy]. by rewrite Hq.
Qed.

(** X13 (an integer limit): for a non-zero integer [limit] the number of
    returned facilities is [min(limit, totalWithinRadius)] when the
    limit is positive; a negative limit is taken by [slice] as counted
    from the end, so [-k] drops the last [k] of the ranking. *)
Theorem integer_limit_truncates req s r s' n :
  performAnalysis w req s = (Ok r, s') ->
  limit (opts req) = int n -> n <> 0 ->
  length (facilities r)
    = if 0 <? n then Nat.min (Z.to_nat n) (totalWithinRadius r)
      else (totalWithinRadius r - Z.to_nat (- n))%nat.
Proof.
  intros Hrun Hl Hn.
  destruct (performAnalysis_facilities w _ _ _ _ Hrun)
    as (i & h & hLat & hLon & s1 & sorted & _ & Hranked & Hfrom & ->).
  rewrite (enriched_from_length _ _ _ Hfrom), (limit_of_int _ _ Hl Hn).
  rewrite slice0_int, length_take.
  rewrite <- (Permutation_length (ranked_perm _ _ _ _ _ Hranked)).
  destruct (Z.ltb_spec n 0), (Z.ltb_spec 0 n); lia.
Qed.

(** X14 (rank and order of the returned list): the [j]-th returned
    facility is the [j]-th facility of the ranking computed from the
    hospital coordinates of the reply; it carries [Local_Rank = j + 1]
    and, outside the four quality properties, [Local_Rank] and the four
    properties written after the spreads, exactly the properties of the
    ranked facility.  Of those four, [historical_metrics],
    [historical_years_available] and [regulatory_history] are read from
    the timelines of the request under the CCN of the ranked facility,
    whatever the facility held under these names. *)
Theorem returned_facilities_follow_ranking req s r s' :
  performAnalysis w req s = (Ok r, s') ->
  exists sorted,
    ranked (opts req) (summary_latitude (hospital r))
      (summary_longitude (hospital r)) (snfs req) = Ok sorted /\
    forall j e, facilities r !! j = Some e ->
      exists f, sorted !! j = Some f /\
        get (fields e) "Local_Rank" = int (Z.of_nat j + 1) /\
        (forall k, k ∉ quality_keys -> k <> "Local_Rank" ->
                   k ∉ enrichment_keys ->
                   get (fields e) k = get f k) /\
        historical_metrics e
          = historical_of (historicalSnfTimelines req) (facility_ccn f) /\
        historical_years_available e = size (historical_metrics e) /\
        regulatory_history e
          = regulatory_of (historicalRegulatory req) (facility_ccn f).
Proof.
  intros Hrun.
  destruct (proj1 (performAnalysis_Ok w _ _ _ _) Hrun)
    as (i & h & hLat & hLon & s1 & top & _ & Hrank & Hall & ->).
  destruct (proj1 (rank_Ok _ _ _ _ _ _) Hrank) as (sorted & Hranked & -> & _).
  exists sorted. split; [done|]. intros j e Hj.
  pose proof (enrich_all_Ok w _ _ _ _ _ _ Hall) as Hfrom.
  destruct (Forall2_lookup_l _ _ _ _ _ Hfrom Hj) as ([idx f] & Hzip & Hen).
  apply lookup_zip_Some in Hzip as [Hidx Hf]. cbn [fst snd] in *.
  apply lookup_seq in Hidx as [-> _].
  destruct (slice0_take sorted (limit_of (opts req))) as [k Hk].
  rewrite Hk in Hf. apply lookup_take_Some in Hf as [Hf _].
  exists f. split; [done|]. split; [|split].
  - eapply enriched_from_rank; [exact Hfrom|exact Hj].
  - intros key Hq Hr _. eapply enriches_field; [exact Hen|done..].
  - by destruct Hen as (_ & Hh & Hy & Hreg).
Qed.

End ReturnedList.

(** ** Quality loader *)

Section HeaderFacts.
Import HistoricalSnf.

Lemma normKeys_step (m : gmap string string) (r : row) n :
  (forall k, k ∈ (fst <$> r) -> normalizeFieldName k <> n) ->
  foldl (fun m kv => <[normalizeFieldName (fst kv) := fst kv]> m) m r !! n = m !! n.
Proof.
  revert m. induction r as [|[k v] r IH]; intros m Hr; [done|].
  cbn. rewrite IH.
  - rewrite lookup_insert_ne; [done|]. apply Hr. cbn. left.
  - intros k' Hk'. apply Hr. cbn. by right.
Qed.

Lemma normKeys_miss (r : row) n :
  (forall k, k ∈ (fst <$> r) -> normalizeFieldName k <> n) ->
  normKeys r !! n = None.
Proof. intros Hr. unfold normKeys. by rewrite normKeys_step. Qed.

Lemma normKeys_hit (r1 : row) k v (r2 : row) :
  (forall k', k' ∈ (fst <$> r2) -> normalizeFieldName k' <> normalizeFieldName k) ->
  normKeys (r1 ++ (k, v) :: r2)%list !! normalizeFieldName k = Some k.
Proof.
  intros Hr. unfold normKeys. rewrite foldl_app. cbn.
  rewrite normKeys_step by done. by rewrite lookup_insert_eq.
Qed.

Lemma row_get_middle (r1 : row) k v (r2 : row) :
  k ∉ (fst <$> r1) -> row_get (r1 ++ (k, v) :: r2)%list k = v.
Proof.
  induction r1 as [|[k' v'] r1 IH]; cbn.
  - intros _. by rewrite String.eqb_refl.
  - rewrite not_elem_of_cons. intros [Hne Hr1].
    apply not_eq_sym, String.eqb_neq in Hne. rewrite Hne. by apply IH.
Qed.

Lemma pickField_from_skip r nk cs1 cs2 :
  (forall c, c ∈ cs1 -> nk !! normalizeFieldName c = None) ->
  pickField_from r nk (cs1 ++ cs2)%list = pickField_from r nk cs2.
Proof.
  induction cs1 as [|c cs1 IH]; intros Hcs; [done|].
  cbn. rewrite Hcs by left. apply IH. intros c' Hc'. apply Hcs. by right.
Qed.

(** X15 (column lookup by header): [pickField] compares headers and
    candidates by their normalized names.  It yields [undefined] when no
    header of the row matches a candidate; otherwise the first candidate
    in the list that matches some header wins, and it delivers the cell
    of the last column whose header matches it.  A header and a
    candidate with the same lower-case form have the same normalized
    name. *)
Theorem pickField_matches_normalized_headers :
  (forall (r : row) candidates,
     (forall k c, k ∈ (fst <$> r) -> c ∈ candidates ->
                  normalizeFieldName k <> normalizeFieldName c) ->
     pickField r candidates = VUndefined) /\
  (forall (r1 : row) k v (r2 : row) cs1 c cs2,
     (forall k' c', k' ∈ (fst <$> (r1 ++ (k, v) :: r2)%list) -> c' ∈ cs1 ->
                    normalizeFieldName k' <> normalizeFieldName c') ->
     normalizeFieldName k = normalizeFieldName c ->
     k ∉ (fst <$> r1) ->
     (forall k', k' ∈ (fst <$> r2) ->
                 normalizeFieldName k' <> normalizeFieldName c) ->
     pickField (r1 ++ (k, v) :: r2)%list (cs1 ++ c :: cs2)%list = v) /\
  (forall k c, toLowerCase k = toLowerCase c ->
               normalizeFieldName k = normalizeFieldName c).
Proof.
  split; [|split].
  - intros r candidates Hmiss. unfold pickField.
    rewrite <- (app_nil_r candidates). rewrite pickField_from_skip; [done|].
    intros c Hc. apply normKeys_miss. intros k Hk. by apply Hmiss.
  - intros r1 k v r2 cs1 c cs2 Hcs1 Hkc Hk Hr2. unfold pickField.
    rewrite pickField_from_skip.
    + cbn. rewrite <- Hkc, normKeys_hit by (by rewrite Hkc).
      by apply row_get_middle.
    + intros c' Hc'. apply normKeys_miss. intros k' Hk'. by apply Hcs1.
  - intros k c Hkc. unfold normalizeFieldName. by rewrite Hkc.
Qed.

End HeaderFacts.

Section YearFacts.
Context `{Runtime}.
Import HistoricalSnf.

Lemma em_set_keys (m : list (string * entry)) c e :
  fst <$> em_set m c e
    = if bool_decide (c ∈ (fst <$> m)) then fst <$> m
      else ((fst <$> m) ++ [c])%list.
Proof.
  induction m as [|[k e'] m IH]; cbn; [done|].
  destruct (String.eqb_spec k c) as [->|Hne]; cbn.
  - rewrite bool_decide_eq_true_2; [done|left].
  - rewrite IH. destruct (bool_decide (c ∈ (fst <$> m))) eqn:Hin.
    + apply bool_decide_eq_true_1 in Hin.
      rewrite bool_decide_eq_true_2; [done|by right].
    + apply bool_decide_eq_false_1 in Hin.
      rewrite bool_decide_eq_false_2; [done|].
      rewrite not_elem_of_cons. split; [congruence|done].
Qed.

Lemma em_set_Forall (P : string * entry -> Prop) m c e :
  Forall P m -> P (c, e) -> Forall P (em_set m c e).
Proof.
  intros Hm He. induction Hm as [|[k e'] m Hk Hm IH]; cbn.
  - by constructor.
  - destruct (String.eqb k c); by constructor.
Qed.

Lemma em_get_Forall (P : string * entry -> Prop) m c e :
  Forall P m -> em_get m c = Some e -> P (c, e).
Proof.
  intros Hm. induction Hm as [|[k e'] m Hk Hm IH]; cbn; [done|].
  destruct (String.eqb_spec k c) as [->|_]; [by intros [= ->]|done].
Qed.

Lemma em_set_entries y m c e :
  entries_of_year y m ->
  ccn e = c -> year e = y ->
  (forall k, is_Some (metrics e !! k) -> k ∈ known_metric_keys) ->
  entries_of_year y (em_set m c e).
Proof.
  intros [Hnd Hall] Hc Hy Hk. split.
  - rewrite em_set_keys. case_bool_decide as Hin; [done|].
    apply NoDup_app. split; [done|]. split; [|apply NoDup_singleton].
    intros k Hk1 Hk2%list_elem_of_singleton. by subst.
  - by apply em_set_Forall.
Qed.

Lemma metric_of_codes_known table code k :
  metric_of_codes table code = Some k -> k ∈ (fst <$> table).
Proof.
  unfold metric_of_codes. destruct (List.find _ table) as [kc|] eqn:Hfind; [|done].
  intros [= <-]. apply List.find_some in Hfind as [Hin _].
  apply list_elem_of_fmap. exists kc. split; [done|]. by apply list_elem_of_In.
Qed.

Lemma metric_of_code_known table code k :
  metric_of_code table code = Some k -> k ∈ (fst <$> table).
Proof.
  unfold metric_of_code. destruct (List.find _ table) as [kc|] eqn:Hfind; [|done].
  intros [= <-]. apply List.find_some in Hfind as [Hin _].
  apply list_elem_of_fmap. exists kc. split; [done|]. by apply list_elem_of_In.
Qed.

Lemma ingest_row_entries metricKeyOf score1 score2 providerInfoMap y m r :
  (forall code k, metricKeyOf code = Some k -> k ∈ known_metric_keys) ->
  entries_of_year y m ->
  entries_of_year y (ingest_row metricKeyOf score1 score2 providerInfoMap y m r).
Proof.
  intros Hknown Hm. unfold ingest_row. cbn zeta.
  destruct (String.eqb _ ""); [done|].
  destruct (metricKeyOf _) as [metricKey|] eqn:Hkey; [|done].
  destruct (toNumber _) as [v|]; [|done].
  set (c := normalizeCCNFromRow r).
  assert (let e0 := default (new_entry c y) (em_get m c) in
          ccn e0 = c /\ year e0 = y /\
          forall k, is_Some (metrics e0 !! k) -> k ∈ known_metric_keys) as He0.
  { destruct (em_get m c) as [e0|] eqn:Hget; cbn.
    - by apply (em_get_Forall _ _ _ _ (proj2 Hm) Hget).
    - split; [done|]. split; [done|]. intros k. rewrite lookup_empty.
      by intros [? ?]. }
  cbn zeta in He0. destruct He0 as (Hc & Hy & Hk).
  apply em_set_entries; [done|..].
  - unfold ensureEntry, mergeProviderInfo. cbn. by destruct (providerInfoMap !! c).
  - unfold ensureEntry, mergeProviderInfo. cbn. by destruct (providerInfoMap !! c).
  - intros k. unfold ensureEntry, mergeProviderInfo, set_metric.
    destruct (providerInfoMap !! c); cbn.
    all: destruct (decide (k = metricKey)) as [->|Hne];
      [intros _; by eapply Hknown|rewrite lookup_insert_ne by done; apply Hk].
Qed.

Lemma foldl_entries (handler : list (string * entry) -> row -> list (string * entry))
    y (rows : list row) m :
  (forall m r, entries_of_year y m -> entries_of_year y (handler m r)) ->
  entries_of_year y m -> entries_of_year y (foldl handler m rows).
Proof.
  intros Hh. revert m. induction rows as [|r rows IH]; intros m Hm; [done|].
  cbn. apply IH. by apply Hh.
Qed.

Lemma ingest_qrp_paths_entries y paths
    (handler : list (string * entry) -> row -> list (string * entry)) m :
  (forall m r, entries_of_year y m -> entries_of_year y (handler m r)) ->
  entries_of_year y m -> entries_of_year y (ingest_qrp_paths paths handler m).
Proof.
  intros Hh. revert m. induction paths as [|p paths IH]; intros m Hm; [done|].
  cbn. destruct p as [rs|]; cbn; [by apply foldl_entries|by apply IH].
Qed.

Lemma known_mds code k :
  metric_of_codes MDS_METRIC_CODES code = Some k -> k ∈ known_metric_keys.
Proof.
  intros Hk%metric_of_codes_known. unfold known_metric_keys.
  rewrite !elem_of_app. by left.
Qed.

Lemma known_claims code k :
  metric_of_codes CLAIMS_METRIC_CODES code = Some k -> k ∈ known_metric_keys.
Proof.
  intros Hk%metric_of_codes_known. unfold known_metric_keys.
  rewrite !elem_of_app. right. by left.
Qed.

Lemma known_qrp code k :
  metric_of_code QRP_METRIC_CODES code = Some k -> k ∈ known_metric_keys.
Proof.
  intros Hk%metric_of_code_known. unfold known_metric_keys.
  rewrite !elem_of_app. right. by right.
Qed.

Lemma loadYear_from_entries y files :
  exists m, entries_of_year y m /\
    loadYear y files
      = List.filter (fun e => negb (Nat.eqb (size (metrics e)) 0)) (snd <$> m).
Proof.
  unfold loadYear. eexists. split; [|reflexivity].
  apply ingest_qrp_paths_entries.
  { intros m r. apply ingest_row_entries, known_qrp. }
  destruct (qualityClaims files) as [rs|]; cbn.
  - apply foldl_entries; [intros m r; apply ingest_row_entries, known_claims|].
    destruct (qualityMds files) as [rs'|]; cbn.
    + apply foldl_entries; [intros m r; apply ingest_row_entries, known_mds|].
      split; [constructor|constructor].
    + split; [constructor|constructor].
  - destruct (qualityMds files) as [rs'|]; cbn.
    + apply foldl_entries; [intros m r; apply ingest_row_entries, known_mds|].
      split; [constructor|constructor].
    + split; [constructor|constructor].
Qed.

Lemma loadYear_elem y files e :
  e ∈ loadYear y files ->
  year e = y /\ metrics e <> ∅ /\
  forall k, is_Some (metrics e !! k) -> k ∈ known_metric_keys.
Proof.
  destruct (loadYear_from_entries y files) as (m & [_ Hall] & ->).
  rewrite list_elem_of_In, filter_In, <- list_elem_of_In, list_elem_of_fmap.
  intros [([k e'] & -> & Hin) Hsize]. cbn in *.
  rewrite Forall_forall in Hall. destruct (Hall _ Hin) as (_ & Hy & Hk).
  split; [done|]. split; [|done].
  intros Hempty. rewrite Hempty, map_size_empty in Hsize. done.
Qed.

(** X16 (the entries of one year): [loadYear] returns at most one entry
    per CCN; every entry is tagged with the year asked for, has a CCN of
    at least six characters, holds at least one metric, and holds only
    metrics named in the three code tables. *)
Theorem loadYear_entries y files :
  NoDup (ccn <$> loadYear y files) /\
  forall e, e ∈ loadYear y files ->
    year e = y /\ (6 <= String.length (ccn e))%nat /\ metrics e <> ∅ /\
    forall k, is_Some (metrics e !! k) -> k ∈ known_metric_keys.
Proof.
  split.
  - destruct (loadYear_from_entries y files) as (m & [Hnd Hall] & ->).
    assert (ccn <$> (snd <$> m) = fst <$> m) as Hkeys.
    { clear Hnd. induction Hall as [|[k e] m (Hc & _) _ IH]; [done|].
      cbn in *. by rewrite Hc, IH. }
    rewrite <- Hkeys in Hnd. clear Hkeys Hall.
    induction (snd <$> m) as [|e es IH]; [constructor|].
    cbn in *. apply NoDup_cons in Hnd as [Hnotin Hnd].
    destruct (negb _); [|by apply IH]. cbn. apply NoDup_cons. split; [|by apply IH].
    intros Hin. apply Hnotin.
    apply list_elem_of_fmap in Hin as (e' & -> & Hin).
    apply list_elem_of_fmap. exists e'. split; [done|].
    apply list_elem_of_In, filter_In in Hin as [Hin _]. by apply list_elem_of_In.
  - intros e He. destruct (loadYear_elem _ _ _ He) as (Hy & Hm & Hk).
    split; [done|]. split; [by apply (loadYear_ccn y files)|]. done.
Qed.

End YearFacts.

Section TimelineFacts.
Context `{Runtime}.
Import HistoricalSnf.

Lemma add_year_from requested files timelines y e :
  timelines_from requested files timelines ->
  y ∈ requested -> e ∈ loadYear y (files y) ->
  timelines_from requested files (add_year y timelines e).
Proof.
  intros Hinv Hy He k t. unfold add_year.
  destruct (decide (k = ccn e)) as [->|Hne].
  2:{ rewrite lookup_insert_ne by done. apply Hinv. }
  rewrite lookup_insert_eq. intros [= <-]. cbn.
  assert (t_ccn (default
                   {| t_ccn := ccn e; t_facility_name := facility_name e;
                      t_address := address e; t_city := city e;
                      t_state := state e; t_zip_code := zip_code e;
                      t_county_name := county_name e;
                      t_phone_number := phone_number e; years := ∅ |}
                   (timelines !! ccn e)) = ccn e) as Hccn.
  { destruct (timelines !! ccn e) as [t0|] eqn:Ht0; cbn; [|done].
    by apply (Hinv _ _ Ht0). }
  split; [done|]. split.
  { intros Hempty. apply (f_equal (fun m => m !! y)) in Hempty.
    by rewrite lookup_insert_eq, lookup_empty in Hempty. }
  intros y' m. destruct (decide (y' = y)) as [->|Hne].
  - rewrite lookup_insert_eq. intros [= <-]. split; [done|]. by exists e.
  - rewrite lookup_insert_ne by done.
    destruct (timelines !! ccn e) as [t0|] eqn:Ht0; cbn.
    + apply (Hinv _ _ Ht0).
    + by rewrite lookup_empty.
Qed.

Lemma add_years_from requested files y es : forall timelines,
  timelines_from requested files timelines ->
  y ∈ requested -> Forall (fun e => e ∈ loadYear y (files y)) es ->
  timelines_from requested files (foldl (add_year y) timelines es).
Proof.
  induction es as [|e es IH]; intros timelines Hinv Hy Hes; [done|].
  apply Forall_cons in Hes as [He Hes].
  cbn. apply IH; [|done..]. by apply add_year_from.
Qed.

Lemma load_years_from requested files ys : forall timelines,
  timelines_from requested files timelines ->
  Forall (fun y => y ∈ requested) ys ->
  timelines_from requested files
    (foldl (fun timelines y => foldl (add_year y) timelines (loadYear y (files y)))
           timelines ys).
Proof.
  induction ys as [|y ys IH]; intros timelines Hinv Hys; [done|].
  apply Forall_cons in Hys as [Hy Hys].
  cbn. apply IH; [|done]. apply add_years_from; [done..|].
  by apply Forall_forall.
Qed.

(** X17 (timelines built from the yearly extracts): every timeline sits
    under its own CCN and has at least one year; every year it holds was
    among the years asked for (the three default years when none are
    given) and holds exactly the metrics of that facility's entry in
    the extract of that year, hence at least one metric. *)
Theorem timeline_years_are_loaded ys files k t :
  loadHistoricalSNFQuality ys files !! k = Some t ->
  t_ccn t = k /\ years t <> ∅ /\
  forall y m, years t !! y = Some m ->
    y ∈ default DEFAULT_YEARS ys /\ m <> ∅ /\
    exists e, e ∈ loadYear y (files y) /\ ccn e = k /\ metrics e = m.
Proof.
  intros Ht.
  assert (timelines_from (default DEFAULT_YEARS ys) files
            (loadHistoricalSNFQuality ys files)) as Hinv.
  { unfold loadHistoricalSNFQuality. apply load_years_from.
    - intros k' t'. by rewrite lookup_empty.
    - by apply Forall_forall. }
  destruct (Hinv _ _ Ht) as (Hccn & Hne & Hyears).
  split; [done|]. split; [done|]. intros y m Hy.
  destruct (Hyears _ _ Hy) as (Hreq & e & He & Hk & Hm).
  split; [done|]. split; [|by exists e].
  subst m. by apply (loadYear_elem y (files y) e).
Qed.

End TimelineFacts.

(** ** Regulatory loader *)

Section RegulatoryFacts.
Context `{Runtime}.
Import HistoricalRegulatory.

Lemma normalizeCCN_cases v :
  (nullish v = true /\ normalizeCCN v = "") \/
  (nullish v = false /\ (6 <= String.length (normalizeCCN v))%nat).
Proof.
  destruct v; cbn; auto; right; (split; [done|]); apply padStart0_length.
Qed.

Lemma normalizeCCN_eqb v :
  String.eqb (normalizeCCN v) "" = nullish v.
Proof.
  destruct (normalizeCCN_cases v) as [[-> ->]|(-> & Hlen)]; [done|].
  apply String.eqb_neq. intros Heq. rewrite Heq in Hlen. cbn in Hlen. lia.
Qed.

Lemma bump_bucket bucket e :
  bucket <> "total" -> bucket <> "infectionControl" ->
  total (bump bucket e) = total e /\
  infectionControl (bump bucket e) = infectionControl e /\
  immediateJeopardy e <= immediateJeopardy (bump bucket e) /\
  actualHarm e <= actualHarm (bump bucket e) /\
  potentialHarm e <= potentialHarm (bump bucket e) /\
  minimalHarm e <= minimalHarm (bump bucket e) /\
  immediateJeopardy (bump bucket e) + actualHarm (bump bucket e)
  + potentialHarm (bump bucket e) + minimalHarm (bump bucket e)
    <= immediateJeopardy e + actualHarm e + potentialHarm e + minimalHarm e + 1.
Proof.
  intros Ht Hi. apply String.eqb_neq in Ht, Hi. unfold bump. cbn.
  rewrite Ht, Hi.
  destruct (String.eqb_spec bucket "immediateJeopardy") as [->|_]; cbn;
    [repeat split; lia|].
  destruct (String.eqb_spec bucket "actualHarm") as [->|_]; cbn;
    [repeat split; lia|].
  destruct (String.eqb_spec bucket "potentialHarm") as [->|_]; cbn;
    [repeat split; lia|].
  destruct (String.eqb_spec bucket "minimalHarm") as [->|_]; cbn;
    repeat split; lia.
Qed.

Lemma severityBucket_names v bucket :
  severityBucket v = Ok bucket ->
  bucket <> "total" /\ bucket <> "infectionControl".
Proof.
  unfold severityBucket. destruct (with_default v (VString "")); try done.
  destruct (toUpperCase (trim s)); [by intros [= <-]|].
  intros [= <-]. by repeat case_match.
Qed.

Lemma citation_entry_step bucket (flag : bool) e0 :
  bucket <> "total" -> bucket <> "infectionControl" ->
  0 <= total e0 -> consistent_citations e0 ->
  let e := bump bucket (bump "total" e0) in
  let e' := if flag then bump "infectionControl" e else e in
  total e' = total e0 + 1 /\ consistent_citations e'.
Proof.
  intros Hb1 Hb2 Ht (H1 & H2 & H3 & H4 & H5 & H6). cbn zeta.
  pose proof (bump_bucket bucket (bump "total" e0) Hb1 Hb2)
    as (B1 & B2 & B3 & B4 & B5 & B6 & B7).
  unfold consistent_citations.
  destruct flag; cbn in *; rewrite ?B1, ?B2; repeat split; lia.
Qed.

Lemma citation_row_step m r m' :
  citations_ok m -> citation_row m r = Ok m' ->
  citations_ok m' /\
  forall c, c <> "" ->
    total_at m' c
      = total_at m c
        + (if String.eqb (normalizeCCN (provider_number r)) c then 1 else 0).
Proof.
  intros Hm. unfold citation_row. cbn zeta. rewrite normalizeCCN_eqb.
  destruct (normalizeCCN_cases (provider_number r))
    as [[Hnull Hccn]|(Hnull & Hlen)]; rewrite Hnull.
  { intros [= <-]. split; [done|]. intros c Hc. rewrite Hccn.
    destruct (String.eqb_spec "" c) as [<-|_]; [done|lia]. }
  set (ccn := normalizeCCN (provider_number r)) in *.
  destruct (severityBucket _) as [bucket|] eqn:Hb; cbn [obind]; [|done].
  destruct (toUpperCase_v _) as [flag|]; cbn [obind]; [|done].
  destruct (severityBucket_names _ _ Hb) as [Hb1 Hb2].
  set (infectionFlag := (_ || _)%bool).
  set (e0 := default no_citations (m !! ccn)).
  assert (0 <= total e0 /\ consistent_citations e0) as [He0 Hc0].
  { subst e0. destruct (m !! ccn) as [e|] eqn:He; cbn.
    - destruct (Hm _ _ He) as (Ht & Hc & _). split; [lia|done].
    - split; [done|]. unfold consistent_citations. cbn. lia. }
  destruct (citation_entry_step bucket infectionFlag e0 Hb1 Hb2 He0 Hc0)
    as [Htot Hcons]. cbn zeta in Htot, Hcons.
  intros [= <-]. split.
  - intros c e. destruct (decide (c = ccn)) as [->|Hne].
    + rewrite lookup_insert_eq. intros [= <-]. split; [lia|]. by split.
    + rewrite lookup_insert_ne by done. apply Hm.
  - intros c _. unfold total_at.
    destruct (String.eqb_spec ccn c) as [<-|Hne].
    + rewrite lookup_insert_eq. cbn. rewrite Htot. subst e0.
      by destruct (m !! ccn).
    + rewrite lookup_insert_ne by done. lia.
Qed.

Lemma rows_under_cons c r rs :
  Z.of_nat (rows_under c (r :: rs))
    = (if String.eqb (normalizeCCN (provider_number r)) c then 1 else 0)
      + Z.of_nat (rows_under c rs).
Proof.
  unfold rows_under. cbn [List.filter].
  destruct (String.eqb _ c); cbn [length]; lia.
Qed.

Lemma citation_rows_fold rs : forall m m',
  citations_ok m -> for_rows citation_row m rs = Ok m' ->
  citations_ok m' /\
  forall c, c <> "" -> total_at m' c = total_at m c + Z.of_nat (rows_under c rs).
Proof.
  induction rs as [|r rs IH]; intros m m' Hm; cbn [for_rows].
  - intros [= <-]. split; [done|]. intros c _. unfold rows_under. cbn. lia.
  - destruct (citation_row m r) as [m1|] eqn:Hrow; cbn [obind]; [|done].
    intros Hfold. destruct (citation_row_step _ _ _ Hm Hrow) as [Hm1 Hstep].
    destruct (IH _ _ Hm1 Hfold) as [Hm' Hcount]. split; [done|].
    intros c Hc. rewrite Hcount, Hstep, rows_under_cons by done. lia.
Qed.

Lemma loadCitations_entry rows c e :
  loadCitations rows !! c = Some e ->
  exists rs, rows = Some rs /\
    total e = Z.of_nat (rows_under c rs) /\ 0 < total e /\
    consistent_citations e /\ (6 <= String.length c)%nat.
Proof.
  unfold loadCitations. destruct rows as [rs|]; [|done].
  destruct (for_rows citation_row ∅ rs) as [m|] eqn:Hfold; [|done].
  intros Hc. exists rs. split; [done|].
  assert (citations_ok ∅) as H0 by (intros c' e'; by rewrite lookup_empty).
  destruct (citation_rows_fold _ _ _ H0 Hfold) as [Hm Hcount].
  destruct (Hm _ _ Hc) as (Ht & Hcons & Hlen).
  assert (c <> "") as Hne by (intros ->; cbn in Hlen; lia).
  specialize (Hcount c Hne). unfold total_at in Hcount.
  rewrite Hc, lookup_empty in Hcount. cbn in Hcount.
  repeat split; try done; try lia; apply Hcons.
Qed.

Lemma text_row_get r k :
  text_row r -> row_get r k = VUndefined \/ exists s, row_get r k = VString s.
Proof.
  induction 1 as [|[k' v] r Hv _ IH]; cbn; [by left|].
  destruct (String.eqb k' k); [|done]. right.
  destruct v; try done. by eexists.
Qed.

Lemma text_orElse a b :
  (a = VUndefined \/ exists s, a = VString s) ->
  (b = VUndefined \/ exists s, b = VString s) ->
  orElse a b = VUndefined \/ exists s, orElse a b = VString s.
Proof. intros Ha Hb. unfold orElse. by destruct (truthy a). Qed.

Lemma citation_row_text m r :
  text_row r -> exists m', citation_row m r = Ok m'.
Proof.
  intros Hr. unfold citation_row. cbn zeta.
  destruct (String.eqb (normalizeCCN (provider_number r)) ""); [by eexists|].
  assert (exists bucket,
            severityBucket (orElse (row_get r "Scope Severity Code")
                                   (row_get r "scope severity code")) = Ok bucket)
    as [bucket ->].
  { destruct (text_orElse _ _ (text_row_get r "Scope Severity Code" Hr)
                (text_row_get r "scope severity code" Hr)) as [->|[s ->]];
      unfold severityBucket; cbn;
      first [by eexists | destruct (toUpperCase _); by eexists]. }
  cbn [obind].
  assert (exists flag,
            toUpperCase_v
              (orElse (orElse (row_get r "Infection Control Inspection Deficiency")
                              (row_get r "infection control inspection deficiency"))
                      (VString "")) = Ok flag) as [flag ->].
  { destruct (text_orElse _ _
                (text_row_get r "Infection Control Inspection Deficiency" Hr)
                (text_row_get r "infection control inspection deficiency" Hr))
      as [->|[s ->]]; unfold orElse; cbn; [by eexists|].
    destruct (negb _); by eexists. }
  cbn [obind]. by eexists.
Qed.

Lemma citation_rows_text rs : forall m,
  Forall text_row rs -> exists m', for_rows citation_row m rs = Ok m'.
Proof.
  induction rs as [|r rs IH]; intros m Hrs; cbn [for_rows]; [by eexists|].
  apply Forall_cons in Hrs as [Hr Hrs].
  destruct (citation_row_text m r Hr) as [m1 ->]. cbn [obind]. by apply IH.
Qed.

(** X18 (citation summaries): the summary a CCN gets counts exactly the
    rows filed under that CCN in [total]; the four severity counters and
    the infection-control counter are non-negative and never exceed the
    total, the severity counters not even in sum (a row of unknown
    severity is counted in the total only); the CCN has at least six
    characters.  On rows read from CSV, where every cell is text, no
    row makes the loader give up, and every CCN with a row has a
    summary. *)
Theorem citation_counts_add_up rs c :
  (forall e, loadCitations (Some rs) !! c = Some e ->
     total e = Z.of_nat (rows_under c rs) /\ 0 < total e /\
     consistent_citations e /\ (6 <= String.length c)%nat) /\
  (Forall text_row rs -> c <> "" -> (0 < rows_under c rs)%nat ->
     is_Some (loadCitations (Some rs) !! c)).
Proof.
  split.
  - intros e He. destruct (loadCitations_entry _ _ _ He) as (rs' & [= <-] & Hrest).
    done.
  - intros Hrs Hc Hpos. unfold loadCitations.
    destruct (citation_rows_text rs ∅ Hrs) as [m Hfold]. rewrite Hfold.
    assert (citations_ok ∅) as H0 by (intros c' e'; by rewrite lookup_empty).
    destruct (citation_rows_fold _ _ _ H0 Hfold) as [_ Hcount].
    specialize (Hcount c Hc). unfold total_at in Hcount.
    rewrite lookup_empty in Hcount. cbn in Hcount.
    destruct (m !! c) as [e|]; [done|]. cbn in Hcount. lia.
Qed.

Lemma penalty_row_step m r m' :
  penalties_ok m -> penalty_row m r = Ok m' ->
  penalties_ok m' /\
  forall c, c <> "" ->
    penalties_at m' c
      = penalties_at m c
        + (if String.eqb (normalizeCCN (provider_number r)) c then 1 else 0).
Proof.
  intros Hm. unfold penalty_row. cbn zeta. rewrite normalizeCCN_eqb.
  destruct (normalizeCCN_cases (provider_number r))
    as [[Hnull Hccn]|(Hnull & Hlen)]; rewrite Hnull.
  { intros [= <-]. split; [done|]. intros c Hc. rewrite Hccn.
    destruct (String.eqb_spec "" c) as [<-|_]; [done|lia]. }
  set (ccn := normalizeCCN (provider_number r)) in *.
  destruct (toLowerCase_v _) as [penaltyType|]; cbn [obind]; [|done].
  set (fined := match toNumber _ with Some q => negb (Qeq_bool q 0) | None => false end).
  set (hasDenial := (_ || _)%bool).
  set (e0 := default no_penalties (m !! ccn)).
  assert (0 <= penalties e0 /\ consistent_penalties e0) as [He0 (C1 & C2 & C3)].
  { subst e0. destruct (m !! ccn) as [e|] eqn:He; cbn.
    - destruct (Hm _ _ He) as (Ht & Hc & _). split; [lia|done].
    - split; [done|]. unfold consistent_penalties. cbn. repeat split; lia. }
  intros [= <-]. split.
  - intros c e. destruct (decide (c = ccn)) as [->|Hne].
    + rewrite lookup_insert_eq. intros [= <-]. cbn. split; [lia|].
      split; [|done]. unfold consistent_penalties. cbn.
      split; [destruct fined; lia|]. split; [destruct hasDenial; lia|].
      destruct fined; intros Hz; [lia|apply C3; lia].
    + rewrite lookup_insert_ne by done. apply Hm.
  - intros c _. unfold penalties_at.
    destruct (String.eqb_spec ccn c) as [<-|Hne].
    + rewrite lookup_insert_eq. cbn. subst e0. by destruct (m !! ccn).
    + rewrite lookup_insert_ne by done. lia.
Qed.

Lemma penalty_rows_fold rs : forall m m',
  penalties_ok m -> for_rows penalty_row m rs = Ok m' ->
  penalties_ok m' /\
  forall c, c <> "" ->
    penalties_at m' c = penalties_at m c + Z.of_nat (rows_under c rs).
Proof.
  induction rs as [|r rs IH]; intros m m' Hm; cbn [for_rows].
  - intros [= <-]. split; [done|]. intros c _. unfold rows_under. cbn. lia.
  - destruct (penalty_row m r) as [m1|] eqn:Hrow; cbn [obind]; [|done].
    intros Hfold. destruct (penalty_row_step _ _ _ Hm Hrow) as [Hm1 Hstep].
    destruct (IH _ _ Hm1 Hfold) as [Hm' Hcount]. split; [done|].
    intros c Hc. rewrite Hcount, Hstep, rows_under_cons by done. lia.
Qed.

Lemma loadPenalties_entry rows c e :
  loadPenalties rows !! c = Some e ->
  exists rs, rows = Some rs /\
    penalties e = Z.of_nat (rows_under c rs) /\ 0 < penalties e /\
    consistent_penalties e /\ (6 <= String.length c)%nat.
Proof.
  unfold loadPenalties. destruct rows as [rs|]; [|done].
  destruct (for_rows penalty_row ∅ rs) as [m|] eqn:Hfold; [|done].
  intros Hc. exists rs. split; [done|].
  assert (penalties_ok ∅) as H0 by (intros c' e'; by rewrite lookup_empty).
  destruct (penalty_rows_fold _ _ _ H0 Hfold) as [Hm Hcount].
  destruct (Hm _ _ Hc) as (Ht & Hcons & Hlen).
  assert (c <> "") as Hne by (intros ->; cbn in Hlen; lia).
  specialize (Hcount c Hne). unfold penalties_at in Hcount.
  rewrite Hc, lookup_empty in Hcount. cbn in Hcount.
  repeat split; try done; try lia; apply Hcons.
Qed.

Lemma penalty_row_text m r :
  text_row r -> exists m', penalty_row m r = Ok m'.
Proof.
  intros Hr. unfold penalty_row. cbn zeta.
  destruct (String.eqb (normalizeCCN (provider_number r)) ""); [by eexists|].
  assert (exists penaltyType,
            toLowerCase_v
              (orElse (orElse (row_get r "Penalty Type") (row_get r "penalty type"))
                      (VString "")) = Ok penaltyType) as [penaltyType ->].
  { destruct (text_orElse _ _ (text_row_get r "Penalty Type" Hr)
                (text_row_get r "penalty type" Hr)) as [->|[s ->]];
      unfold orElse; cbn; [by eexists|]. destruct (negb _); by eexists. }
  cbn [obind]. by eexists.
Qed.

Lemma penalty_rows_text rs : forall m,
  Forall text_row rs -> exists m', for_rows penalty_row m rs = Ok m'.
Proof.
  induction rs as [|r rs IH]; intros m Hrs; cbn [for_rows]; [by eexists|].
  apply Forall_cons in Hrs as [Hr Hrs].
  destruct (penalty_row_text m r Hr) as [m1 ->]. cbn [obind]. by apply IH.
Qed.

(** X19 (penalty summaries): the summary a CCN gets counts exactly the
    rows filed under that CCN in [penalties]; the number of fines and
    the number of payment denials are non-negative and never exceed it,
    and without a counted fine the fines total is 0; the CCN has at
    least six characters.  On rows read from CSV every CCN with a row
    has a summary. *)
Theorem penalty_counts_add_up rs c :
  (forall e, loadPenalties (Some rs) !! c = Some e ->
     penalties e = Z.of_nat (rows_under c rs) /\ 0 < penalties e /\
     consistent_penalties e /\ (6 <= String.length c)%nat) /\
  (Forall text_row rs -> c <> "" -> (0 < rows_under c rs)%nat ->
     is_Some (loadPenalties (Some rs) !! c)).
Proof.
  split.
  - intros e He. destruct (loadPenalties_entry _ _ _ He) as (rs' & [= <-] & Hrest).
    done.
  - intros Hrs Hc Hpos. unfold loadPenalties.
    destruct (penalty_rows_text rs ∅ Hrs) as [m Hfold]. rewrite Hfold.
    assert (penalties_ok ∅) as H0 by (intros c' e'; by rewrite lookup_empty).
    destruct (penalty_rows_fold _ _ _ H0 Hfold) as [_ Hcount].
    specialize (Hcount c Hc). unfold penalties_at in Hcount.
    rewrite lookup_empty in Hcount. cbn in Hcount.
    destruct (m !! c) as [e|]; [done|]. cbn in Hcount. lia.
Qed.

Lemma add_citation_from requested files timelines y k e :
  regulatory_from requested files timelines ->
  y ∈ requested ->
  loadCitations (citationsCsv (files y)) !! k = Some e ->
  regulatory_from requested files (add_citation y timelines (k, e)).
Proof.
  intros Hinv Hy He k' t. unfold add_citation, ensure. cbn [fst snd].
  destruct (decide (k' = k)) as [->|Hne].
  2:{ rewrite lookup_insert_ne by done. apply Hinv. }
  rewrite lookup_insert_eq. intros [= <-]. cbn.
  destruct (timelines !! k) as [t0|] eqn:Ht0; cbn.
  - destruct (Hinv _ _ Ht0) as (Hccn & Hcit & Hpen). split; [done|].
    split; [|done]. intros y' e'. destruct (decide (y' = y)) as [->|Hne].
    + rewrite lookup_insert_eq. by intros [= <-].
    + rewrite lookup_insert_ne by done. apply Hcit.
  - split; [done|]. split.
    + intros y' e'. destruct (decide (y' = y)) as [->|Hne].
      * rewrite lookup_insert_eq. by intros [= <-].
      * by rewrite lookup_insert_ne, lookup_empty by done.
    + intros y' e'. by rewrite lookup_empty.
Qed.

Lemma add_penalty_from requested files timelines y k e :
  regulatory_from requested files timelines ->
  y ∈ requested ->
  loadPenalties (penaltiesCsv (files y)) !! k = Some e ->
  regulatory_from requested files (add_penalty y timelines (k, e)).
Proof.
  intros Hinv Hy He k' t. unfold add_penalty, ensure. cbn [fst snd].
  destruct (decide (k' = k)) as [->|Hne].
  2:{ rewrite lookup_insert_ne by done. apply Hinv. }
  rewrite lookup_insert_eq. intros [= <-]. cbn.
  destruct (timelines !! k) as [t0|] eqn:Ht0; cbn.
  - destruct (Hinv _ _ Ht0) as (Hccn & Hcit & Hpen). split; [done|].
    split; [done|]. intros y' e'. destruct (decide (y' = y)) as [->|Hne].
    + rewrite lookup_insert_eq. by intros [= <-].
    + rewrite lookup_insert_ne by done. apply Hpen.
  - split; [done|]. split.
    + intros y' e'. by rewrite lookup_empty.
    + intros y' e'. destruct (decide (y' = y)) as [->|Hne].
      * rewrite lookup_insert_eq. by intros [= <-].
      * by rewrite lookup_insert_ne, lookup_empty by done.
Qed.

Lemma add_citations_from requested files y kvs : forall timelines,
  regulatory_from requested files timelines ->
  y ∈ requested ->
  Forall (fun kv => loadCitations (citationsCsv (files y)) !! fst kv = Some (snd kv))
         kvs ->
  regulatory_from requested files (foldl (add_citation y) timelines kvs).
Proof.
  induction kvs as [|[k e] kvs IH]; intros timelines Hinv Hy Hkvs; [done|].
  apply Forall_cons in Hkvs as [Hk Hkvs].
  cbn [foldl]. apply IH; [|done..]. by apply add_citation_from.
Qed.

Lemma add_penalties_from requested files y kvs : forall timelines,
  regulatory_from requested files timelines ->
  y ∈ requested ->
  Forall (fun kv => loadPenalties (penaltiesCsv (files y)) !! fst kv = Some (snd kv))
         kvs ->
  regulatory_from requested files (foldl (add_penalty y) timelines kvs).
Proof.
  induction kvs as [|[k e] kvs IH]; intros timelines Hinv Hy Hkvs; [done|].
  apply Forall_cons in Hkvs as [Hk Hkvs].
  cbn [foldl]. apply IH; [|done..]. by apply add_penalty_from.
Qed.

Lemma regulatory_years_from requested files ys : forall timelines,
  regulatory_from requested files timelines ->
  Forall (fun y => y ∈ requested) ys ->
  regulatory_from requested files
    (foldl (fun timelines y =>
              let citations := loadCitations (citationsCsv (files y)) in
              let penalties := loadPenalties (penaltiesCsv (files y)) in
              foldl (add_penalty y)
                    (foldl (add_citation y) timelines (map_to_list citations))
                    (map_to_list penalties))
           timelines ys).
Proof.
  induction ys as [|y ys IH]; intros timelines Hinv Hys; [done|].
  apply Forall_cons in Hys as [Hy Hys].
  cbn [foldl]. apply IH; [|done]. cbn zeta.
  apply add_penalties_from; [|done|].
  - apply add_citations_from; [done..|].
    apply Forall_forall. intros [k e] Hin. by apply elem_of_map_to_list in Hin.
  - apply Forall_forall. intros [k e] Hin. by apply elem_of_map_to_list in Hin.
Qed.

(** X20 (regulatory timelines): every timeline sits under its own CCN,
    which has at least six characters; every year it holds was among
    the years asked for; and the summary it holds for a year is the
    one the citation (penalty) file of that year gives for that CCN. *)
Theorem regulatory_timelines_are_loaded ys files k t :
  loadHistoricalRegulatory ys files !! k = Some t ->
  t_ccn t = k /\
  (forall y e, t_citations t !! y = Some e ->
     y ∈ default DEFAULT_YEARS ys /\
     loadCitations (citationsCsv (files y)) !! k = Some e /\
     (6 <= String.length k)%nat) /\
  (forall y e, t_penalties t !! y = Some e ->
     y ∈ default DEFAULT_YEARS ys /\
     loadPenalties (penaltiesCsv (files y)) !! k = Some e /\
     (6 <= String.length k)%nat).
Proof.
  intros Ht.
  assert (regulatory_from (default DEFAULT_YEARS ys) files
            (loadHistoricalRegulatory ys files)) as Hinv.
  { unfold loadHistoricalRegulatory. apply regulatory_years_from.
    - intros k' t'. by rewrite lookup_empty.
    - by apply Forall_forall. }
  destruct (Hinv _ _ Ht) as (Hccn & Hcit & Hpen).
  split; [done|]. split.
  - intros y e He. destruct (Hcit _ _ He) as [Hy Hload].
    split; [done|]. split; [done|].
    by destruct (loadCitations_entry _ _ _ Hload) as (_ & _ & _ & _ & _ & ?).
  - intros y e He. destruct (Hpen _ _ He) as [Hy Hload].
    split; [done|]. split; [done|].
    by destruct (loadPenalties_entry _ _ _ Hload) as (_ & _ & _ & _ & _ & ?).
Qed.

End RegulatoryFacts.

(** ** Dashboard helpers *)

Section CardFacts.
Context `{Runtime}.
Import DashboardCards.

Lemma Qle_bool_false_lt x y : Qle_bool x y = false -> (y < x)%Q.
Proof.
  intros Hb. destruct (Qlt_le_dec y x) as [|Hle]; [done|].
  apply Qle_bool_iff in Hle. congruence.
Qed.

Lemma badge_of_number x :
  fst (compositeBadge (VNumber (Num x)))
    = if Qle_bool 80 x then "Excellent"
      else if Qle_bool 60 x then "Strong"
      else if Qle_bool 40 x then "Average"
      else if Qle_bool 20 x then "Below Avg"
      else "High Risk".
Proof. unfold compositeBadge. cbn. by repeat case_match. Qed.

(** X21 (composite badge): on numbers the badge is monotone, a higher
    score never gets a lower badge; a missing score ([null] or
    [undefined]) gets "No score", while [NaN] is not missing and gets
    "High Risk". *)
Theorem compositeBadge_monotone :
  (forall x y, (x <= y)%Q ->
     (badge_level (fst (compositeBadge (VNumber (Num x))))
      <= badge_level (fst (compositeBadge (VNumber (Num y)))))%nat) /\
  compositeBadge VNull = ("No score", "pill-neutral") /\
  compositeBadge VUndefined = ("No score", "pill-neutral") /\
  compositeBadge (VNumber NaN) = ("High Risk", "pill-rose").
Proof.
  split; [|done]. intros x y Hxy. rewrite !badge_of_number.
  destruct (Qle_bool 80 x) eqn:X80; destruct (Qle_bool 80 y) eqn:Y80;
  destruct (Qle_bool 60 x) eqn:X60; destruct (Qle_bool 60 y) eqn:Y60;
  destruct (Qle_bool 40 x) eqn:X40; destruct (Qle_bool 40 y) eqn:Y40;
  destruct (Qle_bool 20 x) eqn:X20; destruct (Qle_bool 20 y) eqn:Y20;
  cbn; try lia;
  repeat match goal with
         | Hb : Qle_bool _ _ = true |- _ => apply Qle_bool_iff in Hb
         | Hb : Qle_bool _ _ = false |- _ => apply Qle_bool_false_lt in Hb
         end;
  lra.
Qed.

End CardFacts.

Section RatingFacts.
Context `{Runtime}.
Import SnfRatings DashboardCards.

Lemma sum_between (l : list Q) : forall acc,
  Forall (fun q => 1 <= q <= 5)%Q l ->
  (acc + inject_Z (Z.of_nat (length l)) <= foldl Qplus acc l
   /\ foldl Qplus acc l <= acc + 5 * inject_Z (Z.of_nat (length l)))%Q.
Proof.
  induction l as [|q l IH]; intros acc Hl.
  - cbn [foldl length]. change (inject_Z (Z.of_nat 0)) with 0%Q. split; lra.
  - apply Forall_cons in Hl as [[Hq1 Hq5] Hl].
    cbn [foldl length]. destruct (IH (acc + q)%Q Hl) as [IH1 IH2].
    rewrite Nat2Z.inj_succ. unfold Z.succ. rewrite inject_Z_plus.
    change (inject_Z 1) with 1%Q. split; lra.
Qed.

Lemma average_between (l : list Q) :
  Forall (fun q => 1 <= q <= 5)%Q l ->
  match average l with
  | Some a => l <> [] /\ (1 <= a <= 5)%Q
  | None => l = []
  end.
Proof.
  intros Hl. destruct l as [|q l]; [done|]. unfold average.
  split; [done|]. destruct (sum_between (q :: l) 0%Q Hl) as [H1 H2].
  set (n := inject_Z (Z.of_nat (length (q :: l)))) in *.
  assert (0 < n)%Q as Hn.
  { subst n. change 0%Q with (inject_Z 0). rewrite <- Zlt_Qlt. cbn. lia. }
  split.
  - apply Qle_shift_div_l; [done|]. lra.
  - apply Qle_shift_div_r; [done|]. lra.
Qed.

(** X22 (composite score of a facility row): when the ratings the row
    has are star ratings between 1 and 5, the composite score is [null]
    exactly when the row has no rating; otherwise it lies between 20
    and 100, and the dashboard shows neither "High Risk" nor "No score"
    for it. *)
Theorem composite_of_star_ratings r :
  Forall (fun q => 1 <= q <= 5)%Q (ratings r) ->
  match compositeScore r with
  | Some c =>
      ratings r <> [] /\ (20 <= c <= 100)%Q /\
      (1 <= badge_level (fst (compositeBadge (VNumber (Num c)))))%nat
  | None => ratings r = []
  end.
Proof.
  intros Hr. unfold compositeScore.
  pose proof (average_between _ Hr) as Ha.
  destruct (average (ratings r)) as [a|]; [|done].
  change ((fun composite => composite * 20)%Q <$> Some a) with (Some (a * 20)%Q).
  cbv beta iota.
  destruct Ha as [Hne [H1 H5]]. split; [done|]. split; [split; lra|].
  rewrite badge_of_number.
  assert (Qle_bool 20 (a * 20) = true) as H20 by (apply Qle_bool_iff; lra).
  rewrite H20. repeat case_match; cbn; lia.
Qed.

End RatingFacts.

Section EscapeFacts.
Import DashboardCards.

Lemma string_app_assoc (a b c : string) : a ++ (b ++ c) = (a ++ b) ++ c.
Proof.
  induction a as [|x a IH]; [done|].
  change (String x (a ++ (b ++ c)) = String x ((a ++ b) ++ c)). by rewrite IH.
Qed.

Lemma replace_char_app c by_ s1 s2 :
  replace_char c by_ (s1 ++ s2) = replace_char c by_ s1 ++ replace_char c by_ s2.
Proof.
  induction s1 as [|d s1 IH]; [done|].
  change (String d s1 ++ s2) with (String d (s1 ++ s2)). cbn [replace_char].
  destruct (Ascii.eqb d c); rewrite IH; [apply string_app_assoc|done].
Qed.

Lemma escape_app s1 s2 : escape (s1 ++ s2) = escape s1 ++ escape s2.
Proof. unfold escape. by rewrite !replace_char_app. Qed.

Lemma escape_one c : escape (String c "") = escape_char c.
Proof.
  unfold escape, escape_char.
  destruct (Ascii.eqb_spec c "&") as [->|H1]; [done|].
  destruct (Ascii.eqb_spec c "<") as [->|H2]; [done|].
  destruct (Ascii.eqb_spec c ">") as [->|H3]; [done|].
  destruct (Ascii.eqb_spec c "034") as [->|H4]; [done|].
  destruct (Ascii.eqb_spec c "'") as [->|H5]; [done|].
  apply Ascii.eqb_neq in H1, H2, H3, H4, H5.
  cbn. rewrite H1. cbn. rewrite H2. cbn. rewrite H3. cbn. rewrite H4. cbn.
  by rewrite H5.
Qed.

Lemma free_of_markup_app s1 s2 :
  free_of_markup (s1 ++ s2) = (free_of_markup s1 && free_of_markup s2)%bool.
Proof.
  induction s1 as [|c s1 IH]; [done|].
  change (String c s1 ++ s2) with (String c (s1 ++ s2)).
  cbn [free_of_markup]. rewrite IH. by rewrite andb_assoc.
Qed.

Lemma escape_char_free c : free_of_markup (escape_char c) = true.
Proof.
  unfold escape_char.
  destruct (Ascii.eqb_spec c "&") as [->|H1]; [done|].
  destruct (Ascii.eqb_spec c "<") as [->|H2]; [done|].
  destruct (Ascii.eqb_spec c ">") as [->|H3]; [done|].
  destruct (Ascii.eqb_spec c "034") as [->|H4]; [done|].
  destruct (Ascii.eqb_spec c "'") as [->|H5]; [done|].
  apply Ascii.eqb_neq in H2, H3, H4, H5.
  cbn. unfold markup_char. by rewrite H2, H3, H4, H5.
Qed.

(** X23 (escaping chat text): the five replacement passes of [escape]
    amount to rewriting every character on its own, so no entity is
    escaped twice; the result contains none of the characters [<], [>],
    the double quote and the apostrophe; and a text without the five
    special characters is returned unchanged. *)
Theorem escape_leaves_no_markup str :
  escape str = escape_each str /\
  free_of_markup (escape str) = true /\
  (free_of_markup str = true -> includes str "&" = false -> escape str = str).
Proof.
  assert (escape str = escape_each str) as Heach.
  { induction str as [|c str IH]; [done|].
    change (String c str) with (String c "" ++ str).
    rewrite escape_app, escape_one, IH. done. }
  split; [done|]. split.
  - rewrite Heach. induction str as [|c str IH]; [done|].
    cbn [escape_each]. rewrite free_of_markup_app, escape_char_free. apply IH.
    clear. induction str as [|c str IH]; [done|].
    change (String c str) with (String c "" ++ str).
    by rewrite escape_app, escape_one, IH.
  - rewrite Heach. clear Heach. induction str as [|c str IH]; [done|].
    cbn [free_of_markup escape_each includes].
    intros [Hc Hstr]%andb_true_iff [Hp Hincl]%orb_false_iff.
    rewrite IH by done. unfold markup_char in Hc. apply negb_true_iff in Hc.
    apply orb_false_iff in Hc as [Hc H5]. apply orb_false_iff in Hc as [Hc H4].
    apply orb_false_iff in Hc as [H2 H3].
    unfold escape_char. rewrite H2, H3, H4, H5.
    destruct (Ascii.eqb_spec c "&") as [->|_]; [|done].
    destruct str; by vm_compute in Hp.
Qed.

End EscapeFacts.

(** ** Routes *)

Section RouteFacts.
Context `{Runtime}.
Variable w : world.

Lemma match_best {A} (m : string) (a b : A) :
  match m with "best" => a | _ => b end = if String.eqb m "best" then a else b.
Proof.
  destruct (String.eqb_spec m "best") as [->|Hne]; [done|].
  repeat (case_match; try done).
Qed.

Lemma resolve_without_sort o :
  sortBy o = VUndefined -> order o = VUndefined ->
  exists by_ ord,
    resolveSortBy o = Ok by_ /\ resolveOrder o by_ = Ok ord /\
    (by_, ord) = match mode o with
                 | VString "best" => ("composite", "desc")
                 | _ => ("distance", "asc")
                 end.
Proof.
  intros Hs Ho. unfold resolveSortBy, resolveOrder. rewrite Hs, Ho.
  cbn [orElse truthy toLowerCase_v obind with_default].
  destruct (mode o) as [| | |m]; cbn; try by eexists _, _.
  rewrite !match_best. destruct (String.eqb m "best"); by eexists _, _.
Qed.

(** X24 ([POST /api/analyze]): the route always answers.  Without a
    hospital name it answers 400 and does nothing else; when no loaded
    hospital answers to the name it answers 404 with "Hospital not
    found" and leaves the state alone; and when the analysis returns it
    answers 200 with that analysis, which, whatever else the body
    carries, was ranked by distance ascending, or by composite
    descending in mode "best". *)
Theorem analyze_route_answers d body s :
  (exists resp s', analyze_post w d body s = (Ok resp, s')) /\
  (truthy (get body "hospitalName") = false ->
     analyze_post w d body s
       = (Ok {| http_status := 400; json := Failure "hospitalName required" |}, s)) /\
  (forall n, get body "hospitalName" = VString n -> n <> "" ->
     Forall named (hospitals s) ->
     Forall (fun h => ~ answers_to n h) (hospitals s) ->
     analyze_post w d body s
       = (Ok {| http_status := 404; json := Failure "Hospital not found" |}, s)) /\
  (forall resp s', analyze_post w d body s = (Ok resp, s') ->
     http_status resp = 200 ->
     exists a req by_ ord,
       json resp = Analysis a /\
       performAnalysis w req s = (Ok a, s') /\
       hospitalName req = get body "hospitalName" /\
       resolveSortBy (opts req) = Ok by_ /\ resolveOrder (opts req) by_ = Ok ord /\
       (by_, ord) = match get body "mode" with
                    | VString "best" => ("composite", "desc")
                    | _ => ("distance", "asc")
                    end).
Proof.
  unfold analyze_post, try_catch, on_error.
  split; [|split; [|split]].
  - destruct (truthy (get body "hospitalName")); cbn [negb]; [|by eexists _, _].
    unfold bind.
    destruct (performAnalysis w _ s) as [[a|e] s1]; [by eexists _, _|].
    case_bool_decide; by eexists _, _.
  - by intros ->.
  - intros n Hn Hne Hnamed Hnone. rewrite Hn. cbn [truthy].
    apply String.eqb_neq in Hne. rewrite Hne. cbn [negb]. unfold bind.
    rewrite performAnalysis_not_found.
    + by rewrite bool_decide_eq_true_2.
    + cbn [hospitalName request_of truthy]. by rewrite Hne.
    + cbn [hospitalName request_of]. by apply find_hospital_none.
  - intros resp s'.
    destruct (truthy (get body "hospitalName")); cbn [negb];
      [|by intros [= <- <-]].
    unfold bind.
    destruct (performAnalysis w _ s) as [[a|e] s1] eqn:Hrun.
    + intros [= <- <-] _.
      destruct (resolve_without_sort
                  {| mode := get body "mode"; radiusMiles := get body "radiusMiles";
                     limit := get body "limit"; sortBy := VUndefined;
                     order := VUndefined |} eq_refl eq_refl)
        as (by_ & ord & Hby & Hord & Hpair).
      eexists a, _, by_, ord. split; [done|]. split; [exact Hrun|].
      split; [done|]. split; [exact Hby|]. split; [exact Hord|]. exact Hpair.
    + case_bool_decide; by intros [= <- <-].
Qed.

(** X25 (the sort label of [GET /api/chat/view]): the label the reply
    carries is computed apart from the ordering the engine applies.
    The two agree when the query names a sort key in lower case together
    with an order "asc" or "desc".  With neither given and a mode other
    than "best", the engine ranks by distance ascending while the reply
    is labelled distance, "desc". *)
Theorem view_label_and_engine query :
  (forall by_ ord,
     get query "sortBy" = VString by_ -> by_ <> "" -> toLowerCase by_ = by_ ->
     get query "order" = VString ord -> ord = "asc" \/ ord = "desc" ->
     resolveSortBy (view_options query) = Ok by_ /\
     resolveOrder (view_options query) by_ = Ok ord /\
     view_label query = (VString by_, VString ord)) /\
  (get query "sortBy" = VUndefined -> get query "order" = VUndefined ->
   get query "mode" <> VString "best" ->
     resolveSortBy (view_options query) = Ok "distance" /\
     resolveOrder (view_options query) "distance" = Ok "asc" /\
     view_label query = (VString "distance", VString "desc")).
Proof.
  split.
  - intros by_ ord Hby Hne Hlow Hord Hcase.
    apply String.eqb_neq in Hne.
    assert (String.eqb (toLowerCase by_) "" = false) as Hne' by by rewrite Hlow.
    unfold resolveSortBy, resolveOrder, view_label, view_options, orElse.
    cbn [sortBy order mode]. rewrite Hby, Hord. cbn [truthy].
    rewrite Hne. cbn [negb toLowerCase_v obind]. rewrite Hne', Hlow.
    destruct Hcase as [-> | ->]; cbn; done.
  - intros Hby Hord Hmode.
    destruct (resolve_without_sort (view_options query) Hby Hord)
      as (by_ & ord & Hb & Ho & Hpair).
    unfold view_label, orElse. rewrite Hby, Hord. cbn [truthy].
    change (mode (view_options query)) with (get query "mode") in Hpair.
    destruct (get query "mode") as [| | |m].
    1-3: injection Hpair as -> ->; done.
    cbv beta iota in Hpair. rewrite match_best in Hpair. rewrite match_best.
    destruct (String.eqb_spec m "best") as [->|_]; [done|].
    by injection Hpair as -> ->.
Qed.

Lemma engine_takes_named_sort o k d :
  k = "composite" \/ k = "rating" \/ k = "distance" ->
  d = "asc" \/ d = "desc" ->
  sortBy o = VString k -> order o = VString d ->
  resolveSortBy o = Ok k /\ resolveOrder o k = Ok d.
Proof.
  intros Hk Hd Hsk Hsd. unfold resolveSortBy, resolveOrder, orElse.
  rewrite Hsk, Hsd.
  destruct Hk as [->|[->| ->]], Hd as [-> | ->]; by cbn.
Qed.

(** X26 (the ordering inferred from a chat question): an explicit sort
    key is passed on as given.  Without one, a question that names a
    sort key yields one of composite, rating and distance together with
    an order "asc" or "desc", and the engine then sorts by exactly
    that key in exactly that order; distance is always ascending. *)
Theorem inferSort_is_honoured :
  (forall question sb eo,
     truthy sb = true -> inferSort question sb eo = Ok (sb, eo)) /\
  (forall question sb eo by_ ord o,
     truthy sb = false ->
     inferSort question sb eo = Ok (VString by_, ord) -> by_ <> "" ->
     sortBy o = VString by_ -> order o = ord ->
     by_ ∈ ["composite"; "rating"; "distance"] /\
     (by_ = "distance" -> ord = VString "asc") /\
     exists ord_, ord = VString ord_ /\ (ord_ = "asc" \/ ord_ = "desc") /\
       resolveSortBy o = Ok by_ /\ resolveOrder o by_ = Ok ord_).
Proof.
  split.
  - intros question sb eo Hsb. unfold inferSort. by rewrite Hsb.
  - intros question sb eo by_ ord o Hsb Hinfer Hne Hby Hord.
    unfold inferSort in Hinfer. rewrite Hsb in Hinfer.
    destruct (toLowerCase_v _) as [q|]; cbn [obind] in Hinfer; [|done].
    cbn zeta in Hinfer.
    set (descHint := (_ || includes q "desc")%bool) in Hinfer.
    set (ascHint := (_ || includes q "smallest")%bool) in Hinfer.
    destruct (includes q "composite");
      [|destruct (includes q "rating" || includes q "stars")%bool;
        [|destruct (includes q "distance" || includes q "closest"
                    || includes q "nearest")%bool]].
    + injection Hinfer as Hb Ho. subst by_ ord.
      split; [set_solver|]. split; [done|].
      destruct descHint, ascHint; cbn; eexists; (split; [done|]);
        (split; [auto|]); apply engine_takes_named_sort; auto.
    + injection Hinfer as Hb Ho. subst by_ ord.
      split; [set_solver|]. split; [done|].
      destruct descHint, ascHint; cbn; eexists; (split; [done|]);
        (split; [auto|]); apply engine_takes_named_sort; auto.
    + injection Hinfer as Hb Ho. subst by_ ord.
      split; [set_solver|]. split; [done|].
      eexists; (split; [done|]); (split; [auto|]); apply engine_takes_named_sort; auto.
    + injection Hinfer as Hb Ho. subst sb. destruct by_; [done|]. by cbn in Hsb.
Qed.

End RouteFacts.

(** ** Worked instances of the further properties *)

(** Instance of X1: a payload set under the key of Oak Manor. *)
Lemma place_cache_set_then_get_at_oak :
  let s1 := snd (placeCache_set upstream_down "ccn:015009" oak_place (boot [])) in
  placeMem s1 !! "ccn:015009" = Some oak_place /\
  placeCache_get upstream_down "ccn:015009" s1 = (Ok (Some oak_place), s1) /\
  calls s1 = [CallPlaceCacheWrite "ccn:015009"].
Proof.
  apply (place_cache_set_then_get upstream_down "ccn:015009" oak_place (boot [])).
  discriminate.
Defined.

(** Instance of X2: the store holds a record for Oak Manor. *)
Lemma place_cache_keeps_hit_at_oak :
  exists s1,
    placeCache_get place_stored "ccn:015009" (boot []) = (Ok (Some oak_place), s1) /\
    calls s1 = [CallPlaceCacheRead "ccn:015009"] /\
    placeCache_get place_stored "ccn:015009" s1 = (Ok (Some oak_place), s1).
Proof.
  apply (proj1 (place_cache_keeps_hits_only place_stored "ccn:015009" (boot [])
                  ltac:(discriminate) ltac:(vm_compute; reflexivity))
           oak_place eq_refl).
Defined.

(** Instance of X3: a snapshot set, and one read from the store. *)
Lemma review_cache_set_then_get_at_oak :
  reviewCache_get upstream_down "ChIJoak"
    (snd (reviewCache_set upstream_down "ChIJoak" oak_snapshot (boot [])))
    = (Ok (Some oak_snapshot),
       snd (reviewCache_set upstream_down "ChIJoak" oak_snapshot (boot []))) /\
  exists s1,
    reviewCache_get snapshot_stored "ChIJoak" (boot []) = (Ok (Some oak_snapshot), s1) /\
    calls s1 = [CallReviewCacheRead "ChIJoak"] /\
    reviewCache_get snapshot_stored "ChIJoak" s1 = (Ok (Some oak_snapshot), s1).
Proof.
  split.
  - apply (proj1 (review_cache_set_then_get upstream_down "ChIJoak" oak_snapshot
                    (boot []) ltac:(discriminate))).
  - apply (proj2 (review_cache_set_then_get snapshot_stored "ChIJoak" oak_snapshot
                    (boot []) ltac:(discriminate))
             oak_snapshot ltac:(vm_compute; reflexivity) eq_refl).
Defined.

(** Instance of X4: Oak Manor and a resolver without a key. *)
Lemma getPlaceId_without_key_at_oak :
  calls (snd (getPlaceId place_stored keyless_resolver oak_manor (boot []))) = [] \/
  calls (snd (getPlaceId place_stored keyless_resolver oak_manor (boot [])))
    = [CallPlaceCacheRead (keyForFacility oak_manor)].
Proof.
  apply (getPlaceId_without_key place_stored keyless_resolver oak_manor (boot [])
           eq_refl).
Defined.

(** Instance of X5: the search finds Oak Manor and the store write
    fails. *)
Lemma found_place_is_remembered_at_oak :
  placeMem (snd (getPlaceId place_found sample_resolver oak_manor (boot [])))
    !! keyForFacility oak_manor = Some (payload_of oak_candidate 1002) /\
  fst (getPlaceId place_found sample_resolver oak_manor (boot [])) = Ok None /\
  getPlaceId place_found sample_resolver oak_manor
    (snd (getPlaceId place_found sample_resolver oak_manor (boot [])))
    = (Ok (Some {| entry_of := payload_of oak_candidate 1002;
                   source := Some "cache" |}),
       snd (getPlaceId place_found sample_resolver oak_manor (boot []))).
Proof.
  pose proof (found_place_is_remembered place_found sample_resolver oak_manor
                ltac:(vm_compute; reflexivity)) as [Hfound Hcached].
  destruct (Hfound (boot []) oak_candidate
              ltac:(vm_compute; reflexivity) eq_refl eq_refl
              ltac:(vm_compute; reflexivity) eq_refl) as [Hmem Hres].
  split; [exact Hmem|]. split; [exact Hres|].
  apply (Hcached _ _ 1002 Hmem eq_refl).
  split; [discriminate|vm_compute; reflexivity].
Defined.

(** Instance of X8: the seed row of Oak Manor. *)
Lemma loaded_seed_resolves_oak :
  exists sd,
    seedPlaceIds seeded_resolver !! "015009" = Some sd /\
    truthy (google_place_id sd) = true /\
    getPlaceId upstream_down seeded_resolver oak_manor (boot [])
      = (Ok (Some {| entry_of :=
                       {| place_id := google_place_id sd;
                          name := orElse (google_name sd) VNull;
                          formatted_address := VUndefined;
                          location := VUndefined;
                          resolved_at := None |};
                     source := Some "seed" |}), boot []).
Proof.
  apply (loaded_seed_resolves_facility upstream_down (Some seed_rows)
           seeded_resolver oak_manor "015009" (boot []) eq_refl
           ltac:(vm_compute; reflexivity)).
  eexists. vm_compute. reflexivity.
Defined.

(** Instance of X11: sorting by the unknown key "beds". *)
Lemma unknown_sort_key_at_beds :
  ranked (sort_options "beds" "asc" VUndefined) (int 31) (int (-85)) four_facilities
    = Ok (withDistance (int 31) (int (-85)) (int 50) four_facilities).
Proof.
  apply (unknown_sort_key_keeps_order (sort_options "beds" "asc" VUndefined)
           (int 31) (int (-85)) four_facilities "beds" eq_refl).
  - unfold known_sort_keys. rewrite !not_elem_of_cons.
    repeat split; try discriminate. apply not_elem_of_nil.
  - reflexivity.
Defined.

(** Instance of X12: the four sample facilities ranked by composite. *)
Lemma ranked_facilities_at_mercy :
  length by_composite
    = length (withDistance (int 31) (int (-85)) (int 50) four_facilities) /\
  forall f', f' ∈ by_composite <->
    exists f, f ∈ four_facilities /\
      isNaN (get f "latitude") = false /\ isNaN (get f "longitude") = false /\
      let d := haversine (int 31, int (-85)) (get f "latitude", get f "longitude") in
      lessEq (VNumber d) (int 50) = true /\
      f' = <["distance" := VNumber d]> f.
Proof.
  pose proof (ranked_facilities_characterised
                (sort_options "composite" "desc" (int 0))
                (int 31) (int (-85)) four_facilities by_composite eq_refl) as H.
  exact H.
Defined.

(** Instance of X13: a limit of 2 on the four sample facilities. *)
Lemma integer_limit_at_mercy :
  exists r s',
    performAnalysis calm (mercy_request (sort_options "composite" "desc" (int 2)))
      (boot [mercy]) = (Ok r, s') /\
    length (facilities r) = Nat.min 2 (totalWithinRadius r).
Proof.
  pose (req := mercy_request (sort_options "composite" "desc" (int 2))).
  destruct (performAnalysis_returns calm req (boot [mercy]) 0%nat mercy
              (int 31, int (-85)) (after_coordinates calm mercy)
              (mercy_resolves_calm _) eq_refl four_facilities_well_typed
              (calm_stores_readable req))
    as (r & s' & Hrun).
  exists r, s'. split; [exact Hrun|].
  exact (integer_limit_truncates calm req (boot [mercy]) r s' 2 Hrun eq_refl
           ltac:(discriminate)).
Defined.

(** Instance of X14: the default request for Mercy Hospital. *)
Lemma returned_facilities_at_mercy :
  exists r s' sorted,
    performAnalysis calm (mercy_request no_options) (boot [mercy]) = (Ok r, s') /\
    ranked no_options (summary_latitude (hospital r))
      (summary_longitude (hospital r)) four_facilities = Ok sorted /\
    forall j e, facilities r !! j = Some e ->
      exists f, sorted !! j = Some f /\
        get (fields e) "Local_Rank" = int (Z.of_nat j + 1) /\
        (forall k, k ∉ quality_keys -> k <> "Local_Rank" ->
                   k ∉ enrichment_keys ->
                   get (fields e) k = get f k) /\
        historical_metrics e
          = historical_of (historicalSnfTimelines (mercy_request no_options))
              (facility_ccn f) /\
        historical_years_available e = size (historical_metrics e) /\
        regulatory_history e
          = regulatory_of (historicalRegulatory (mercy_request no_options))
              (facility_ccn f).
Proof.
  pose (req := mercy_request no_options).
  destruct (performAnalysis_returns calm req (boot [mercy]) 0%nat mercy
              (int 31, int (-85)) (after_coordinates calm mercy)
              (mercy_resolves_calm _) eq_refl four_facilities_well_typed
              (calm_stores_readable req))
    as (r & s' & Hrun).
  destruct (returned_facilities_follow_ranking calm req (boot [mercy]) r s' Hrun)
    as (sorted & Hranked & Hrest).
  exists r, s', sorted. split; [exact Hrun|]. split; [exact Hranked|exact Hrest].
Defined.

(** Instance of X17: the timeline built from the extract without CCN
    column. *)
Lemma timeline_years_at_sample :
  HistoricalSnf.t_ccn padded_timeline = "000000" /\
  HistoricalSnf.years padded_timeline <> ∅ /\
  forall y m, HistoricalSnf.years padded_timeline !! y = Some m ->
    y ∈ [2023] /\ m <> ∅ /\
    exists e, e ∈ HistoricalSnf.loadYear y files_without_ccn /\
              HistoricalSnf.ccn e = "000000" /\ HistoricalSnf.metrics e = m.
Proof.
  apply (timeline_years_are_loaded (Some [2023]) (fun _ => files_without_ccn)
           "000000" padded_timeline).
  vm_compute. reflexivity.
Defined.

(** Instance of X20: the citations of Oak Manor in 2023. *)
Lemma regulatory_timeline_at_oak :
  HistoricalRegulatory.t_ccn oak_regulatory = "015009" /\
  (forall y e, HistoricalRegulatory.t_citations oak_regulatory !! y = Some e ->
     y ∈ [2023] /\
     HistoricalRegulatory.loadCitations (Some citation_rows) !! "015009" = Some e /\
     (6 <= String.length "015009")%nat) /\
  (forall y e, HistoricalRegulatory.t_penalties oak_regulatory !! y = Some e ->
     y ∈ [2023] /\
     HistoricalRegulatory.loadPenalties None !! "015009" = Some e /\
     (6 <= String.length "015009")%nat).
Proof.
  apply (regulatory_timelines_are_loaded (Some [2023]) (fun _ => regulatory_files)
           "015009" oak_regulatory).
  vm_compute. reflexivity.
Defined.

(** Instance of X22: a row with the ratings 4 and 5. *)
Lemma composite_of_rated_row :
  SnfRatings.compositeScore rated_row = Some ((0 + 4 + 5) / 2 * 20)%Q /\
  match SnfRatings.compositeScore rated_row with
  | Some c =>
      SnfRatings.ratings rated_row <> [] /\ (20 <= c <= 100)%Q /\
      (1 <= badge_level (fst (DashboardCards.compositeBadge (VNumber (Num c)))))%nat
  | None => SnfRatings.ratings rated_row = []
  end.
Proof.
  split; [vm_compute; reflexivity|].
  apply (composite_of_star_ratings rated_row).
  assert (SnfRatings.ratings rated_row = [4%Q; 5%Q]) as -> by (vm_compute; reflexivity).
  repeat constructor; discriminate.
Defined.

(** Instance of X6: a live fetch of the reviews of Oak Manor. *)
Lemma review_snapshot_at_oak :
  let snap := {| details := ∅; recent_reviews := []; fetched_at := Some 1002 |} in
  reviewMem (snd (getReviewSnapshot calm sample_reviews (VString "ChIJoak") (boot [])))
    !! "ChIJoak" = Some snap /\
  fst (getReviewSnapshot calm sample_reviews (VString "ChIJoak") (boot []))
    = Ok (Some snap).
Proof.
  exact (proj2 (proj2 (review_snapshot_layers calm sample_reviews))
           "ChIJoak" (boot []) (∅, []) ltac:(discriminate) eq_refl eq_refl
           eq_refl eq_refl).
Defined.

(** Instance of X15: a titled column found under its second candidate. *)
Lemma pickField_at_titled_row :
  HistoricalSnf.pickField titled_row ["facility_name"; "provider_name"]
    = VString "Oak Manor".
Proof.
  apply (proj1 (proj2 pickField_matches_normalized_headers)
           [] "Provider Name" (VString "Oak Manor") [("State", VString "AL")]
           ["facility_name"] "provider_name" []).
  - intros k' c' Hk Hc. apply list_elem_of_singleton in Hc as ->.
    cbn in Hk. rewrite !elem_of_cons in Hk.
    destruct Hk as [->|[->|Hk]]; [vm_compute; discriminate..|].
    by apply elem_of_nil in Hk.
  - vm_compute. reflexivity.
  - apply not_elem_of_nil.
  - intros k' Hk. cbn in Hk. apply list_elem_of_singleton in Hk as ->.
    vm_compute. discriminate.
Defined.

(** Instance of X18: the two citations of Oak Manor. *)
Lemma citation_counts_at_oak :
  HistoricalRegulatory.loadCitations (Some citation_rows) !! "015009"
    = Some oak_citations /\
  HistoricalRegulatory.total oak_citations
    = Z.of_nat (rows_under "015009" citation_rows) /\
  consistent_citations oak_citations.
Proof.
  assert (HistoricalRegulatory.loadCitations (Some citation_rows) !! "015009"
          = Some oak_citations) as Hload by (vm_compute; reflexivity).
  split; [exact Hload|].
  destruct (proj1 (citation_counts_add_up citation_rows "015009") oak_citations Hload)
    as (Htotal & _ & Hcounters & _).
  split; [exact Htotal|exact Hcounters].
Defined.

(** Instance of X19: the two penalties of Oak Manor. *)
Lemma penalty_counts_at_oak :
  HistoricalRegulatory.loadPenalties (Some penalty_rows) !! "015009"
    = Some oak_penalties /\
  HistoricalRegulatory.penalties oak_penalties
    = Z.of_nat (rows_under "015009" penalty_rows) /\
  consistent_penalties oak_penalties.
Proof.
  assert (HistoricalRegulatory.loadPenalties (Some penalty_rows) !! "015009"
          = Some oak_penalties) as Hload by (vm_compute; reflexivity).
  split; [exact Hload|].
  destruct (proj1 (penalty_counts_add_up penalty_rows "015009") oak_penalties Hload)
    as (Htotal & _ & Hcounters & _).
  split; [exact Htotal|exact Hcounters].
Defined.

(** Instance of X24: a name no loaded hospital answers to. *)
Lemma analyze_route_at_unknown_name :
  analyze_post calm sample_datasets nowhere_body (boot [mercy])
    = (Ok {| http_status := 404; json := Failure "Hospital not found" |},
       boot [mercy]).
Proof.
  apply (proj1 (proj2 (proj2 (analyze_route_answers calm sample_datasets
                                nowhere_body (boot [mercy]))))
           "Nowhere General").
  - vm_compute. reflexivity.
  - discriminate.
  - constructor; [|constructor]. eexists. reflexivity.
  - constructor; [|constructor]. intros (s & Hs & Heq).
    vm_compute in Hs. injection Hs as <-. vm_compute in Heq. discriminate.
Defined.

(** Instance of X25: a query without [sortBy], [order] and [mode]. *)
Lemma view_label_at_plain_query :
  resolveSortBy (view_options ∅) = Ok "distance" /\
  resolveOrder (view_options ∅) "distance" = Ok "asc" /\
  view_label ∅ = (VString "distance", VString "desc").
Proof.
  exact (proj2 (view_label_and_engine ∅) eq_refl eq_refl ltac:(discriminate)).
Defined.

(** Instance of X26: a question about the highest rating. *)
Lemma inferSort_at_highest_rating :
  inferSort (VString "Which one has the highest rating?") VUndefined VUndefined
    = Ok (VString "rating", VString "desc") /\
  resolveSortBy (sort_options "rating" "desc" VUndefined) = Ok "rating" /\
  resolveOrder (sort_options "rating" "desc" VUndefined) "rating" = Ok "desc".
Proof.
  assert (inferSort (VString "Which one has the highest rating?") VUndefined VUndefined
          = Ok (VString "rating", VString "desc")) as Hinfer
    by (vm_compute; reflexivity).
  split; [exact Hinfer|].
  destruct (proj2 inferSort_is_honoured
              (VString "Which one has the highest rating?") VUndefined VUndefined
              "rating" (VString "desc") (sort_options "rating" "desc" VUndefined)
              eq_refl Hinfer ltac:(discriminate) eq_refl eq_refl)
    as (_ & _ & ord_ & Hord & _ & Hby & Horder).
  injection Hord as <-. split; [exact Hby|exact Horder].
Defined.

(** ** Paging through the CMS datasets *)

Lemma trimEnd_not_white a c b :
  is_white c = false -> trimEnd (a ++ String c b) <> "".
Proof.
  intros Hc. induction a as [|x a IH].
  - change ("" ++ String c b) with (String c b). cbn [trimEnd].
    destruct (trimEnd b); [by rewrite Hc|done].
  - change (String x a ++ String c b) with (String x (a ++ String c b)).
    cbn [trimEnd]. by destruct (trimEnd (a ++ String c b)).
Qed.

Lemma trim_not_white a c b :
  is_white c = false -> trim (a ++ String c b) <> "".
Proof.
  intros Hc. unfold trim.
  assert (exists a', trimStart (a ++ String c b) = a' ++ String c b) as [a' ->].
  { induction a as [|x a [a' IH]].
    - exists "". change ("" ++ String c b) with (String c b).
      cbn [trimStart]. by rewrite Hc.
    - change (String x a ++ String c b) with (String x (a ++ String c b)).
      cbn [trimStart]. destruct (is_white x); [by exists a'|].
      by exists (String x a). }
  by apply trimEnd_not_white.
Qed.

Lemma key_of_not_blank p q ps : trim (CmsService.key_of (p :: q :: ps)) <> "".
Proof.
  unfold CmsService.key_of. rewrite !fmap_cons. cbn [join].
  destruct (_ <$> ps); apply (trim_not_white _ "|"%char); done.
Qed.

Section PagingFacts.
Import CmsService.
Variable fetchDataset : nat -> Z -> Z -> outcome (list obj).
Variable keyParts : obj -> list value.

Lemma normalizeLimit_range v : 1 <= normalizeLimit v MAX_PAGE_SIZE <= 500.
Proof. unfold normalizeLimit, MAX_PAGE_SIZE. case_match; lia. Qed.

Lemma normalizeLimit_fixed v :
  1 <= v <= 500 -> normalizeLimit v DEFAULT_LIMIT = v.
Proof. unfold normalizeLimit. intros. case_match; lia. Qed.

(** The rows a page adds: those whose key is new, each key once. *)
Lemma unique_fold page : forall seen u0,
  exists new,
    foldl (unique_step keyParts) (seen, u0) page
      = (seen ∪ list_to_set (row_key keyParts <$> new), (u0 ++ new)%list) /\
    NoDup (row_key keyParts <$> new) /\
    (forall row, row ∈ new -> row ∈ page /\ row_key keyParts row ∉ seen) /\
    (forall row, row ∈ page -> trim (row_key keyParts row) <> "" ->
                 row_key keyParts row
                   ∈ seen ∪ list_to_set (row_key keyParts <$> new)) /\
    (length new <= length page)%nat.
Proof.
  induction page as [|row page IH]; intros seen u0.
  - exists []. cbn. rewrite app_nil_r, (right_id_L ∅ (∪)).
    split; [done|]. split; [constructor|].
    split; [intros r Hr; by apply elem_of_nil in Hr|].
    split; [intros r Hr; by apply elem_of_nil in Hr|lia].
  - cbn [foldl]. unfold unique_step at 2. cbn [fst snd].
    fold (row_key keyParts row).
    destruct (String.eqb (trim (row_key keyParts row)) ""
              || bool_decide (row_key keyParts row ∈ seen))%bool
      eqn:Hskip.
    + destruct (IH seen u0) as (new & -> & Hnd & Hin & Hall & Hlen).
      exists new. split; [done|]. split; [done|].
      split.
      { intros r Hr. destruct (Hin r Hr) as [Hpage Hout].
        split; [|done]. apply elem_of_cons. by right. }
      split; [|cbn; lia].
      intros r [->|Hr]%elem_of_cons Hk; [|by apply Hall].
      apply orb_true_iff in Hskip as [Hblank|Hseen].
      * by apply String.eqb_eq in Hblank.
      * apply bool_decide_eq_true in Hseen. apply elem_of_union. by left.
    + apply orb_false_iff in Hskip as [_ Hnew].
      apply bool_decide_eq_false in Hnew.
      destruct (IH ({[row_key keyParts row]} ∪ seen) (u0 ++ [row])%list)
        as (new & -> & Hnd & Hin & Hall & Hlen).
      exists (row :: new). rewrite <- app_assoc. cbn [app fmap list_fmap].
      assert ({[row_key keyParts row]} ∪ seen ∪ list_to_set (row_key keyParts <$> new)
              = seen ∪ list_to_set (row_key keyParts row :: (row_key keyParts <$> new)))
        as Heq.
      { apply set_eq. intros x.
        rewrite list_to_set_cons, !elem_of_union. tauto. }
      split; [by rewrite Heq|].
      split.
      { constructor; [|done].
        intros (r & Hk & Hr)%list_elem_of_fmap.
        destruct (Hin r Hr) as [_ Hout]. apply Hout, elem_of_union. left.
        by apply elem_of_singleton. }
      split.
      { intros r [->|Hr]%elem_of_cons.
        - split; [|done]. apply elem_of_cons. by left.
        - destruct (Hin r Hr) as [Hpage Hout].
          split; [apply elem_of_cons; by right|].
          intros Hs. apply Hout, elem_of_union. by right. }
      split; [|cbn; lia].
      intros r Hr Hk. rewrite <- Heq. apply elem_of_cons in Hr as [->|Hr].
      * rewrite !elem_of_union, elem_of_singleton. by left; left.
      * by apply Hall.
Qed.

Lemma replied_app log q page :
  replied fetchDataset log page -> replied fetchDataset (log ++ [q])%list page.
Proof.
  intros (i & q0 & Hi & Hf). exists i, q0. split; [|done].
  by apply lookup_app_l_Some.
Qed.

Lemma replied_app_inv log q page :
  replied fetchDataset (log ++ [q])%list page ->
  replied fetchDataset log page \/ fetchDataset (length log) q.1 q.2 = Ok page.
Proof.
  intros (i & q0 & Hi & Hf).
  apply lookup_app_Some in Hi as [Hi|[Hge Hi]].
  - left. by exists i, q0.
  - right. apply list_lookup_singleton_Some in Hi as [Hi ->].
    by replace (length log) with i by lia.
Qed.

Section Loop.
Variables (L : Z) (cap : option Z) (maxRecords maxOffset first : Z).
Hypothesis HL : 1 <= L <= 500.

Lemma pages_run fuel : forall pageCount offset seen results log,
  (Z.to_nat (maxOffset - offset) < fuel)%nat ->
  first <= offset ->
  pageCount = Z.of_nat (length log) ->
  (forall k, k ∈ seen <-> k ∈ (row_key keyParts <$> results)) ->
  NoDup (row_key keyParts <$> results) ->
  (forall row, row ∈ results ->
     exists page, replied fetchDataset log page /\ row ∈ page) ->
  (forall page row, replied fetchDataset log page -> row ∈ page ->
     trim (row_key keyParts row) <> "" ->
     row_key keyParts row ∈ (row_key keyParts <$> results)) ->
  Z.of_nat (length results) < Z.max maxRecords 1 ->
  Forall (fun q => q.1 = L /\ first <= q.2 < maxOffset /\ q.2 + L <= offset) log ->
  spaced L log ->
  (forall c, cap = Some c -> Z.of_nat (length log) <= Z.max c 0) ->
  exists r log',
    pages fetchDataset keyParts fuel L cap maxRecords maxOffset
      pageCount offset seen results log = Some (r, log') /\
    disciplined L first maxOffset cap log' /\
    forall rows, r = Ok rows ->
      NoDup (row_key keyParts <$> rows) /\
      (forall row, row ∈ rows ->
         exists page, replied fetchDataset log' page /\ row ∈ page) /\
      (forall page row, replied fetchDataset log' page -> row ∈ page ->
         trim (row_key keyParts row) <> "" ->
         row_key keyParts row ∈ (row_key keyParts <$> rows)) /\
      ((forall page, replied fetchDataset log' page ->
          Z.of_nat (length page) <= L) ->
       Z.of_nat (length rows) < Z.max maxRecords 1 + L).
Proof.
  induction fuel as [|fuel IH];
    intros pageCount offset seen results log Hfuel Hfirst Hcount Hseen Hnd
           Hsound Hcomplete Hlen Hlog Hspaced Hcap; [lia|].
  assert (disciplined L first maxOffset cap log) as Hdisc.
  { split; [|done]. eapply Forall_impl; [exact Hlog|]. cbn. intros q. tauto. }
  cbn [pages].
  destruct (below pageCount cap) eqn:Hbelow; cbn [negb];
    [|exists (Ok results), log; split; [done|]; split; [done|];
      intros rows [= <-]; repeat split; try done; lia].
  destruct (maxOffset <=? offset) eqn:Hoff;
    [exists (Ok results), log; split; [done|]; split; [done|];
      intros rows [= <-]; repeat split; try done; lia|].
  apply Z.leb_gt in Hoff.
  unfold fetchPage. rewrite (normalizeLimit_fixed L HL).
  set (log' := (log ++ [(L, offset)])%list).
  assert (disciplined L first maxOffset cap log') as Hdisc'.
  { split; [|split].
    - apply Forall_app. split; [by destruct Hdisc|].
      constructor; [|constructor]. cbn. lia.
    - intros i j q q' Hij Hi Hj.
      apply lookup_app_Some in Hj as [Hj|[Hge Hj]].
      + apply (Hspaced i j q q' Hij); [|done].
        apply lookup_app_Some in Hi as [Hi|[Hge' _]]; [done|].
        apply lookup_lt_Some in Hj. lia.
      + apply list_lookup_singleton_Some in Hj as [Hj <-]. cbn.
        apply lookup_app_Some in Hi as [Hi|[Hge' _]]; [|lia].
        rewrite Forall_forall in Hlog.
        apply (Hlog q). by eapply list_elem_of_lookup_2.
    - intros c ->. unfold log'. rewrite length_app. cbn in *.
      apply Z.ltb_lt in Hbelow. lia. }
  destruct (fetchDataset (length log) L offset) as [page|e] eqn:Hfetch;
    [|exists (Throw e), log'; split; [done|]; split; [done|]; intros rows [=]].
  assert (forall page', replied fetchDataset log' page' ->
            replied fetchDataset log page' \/ page' = page) as Hinv.
  { intros page' [Hold|Hnew]%replied_app_inv; [by left|right].
    cbn in Hnew. congruence. }
  assert (replied fetchDataset log' page) as Hpage.
  { exists (length log), (L, offset). split; [|done].
    by apply list_lookup_middle. }
  destruct (bool_decide (page = [])) eqn:Hempty.
  { apply bool_decide_eq_true in Hempty. subst page.
    exists (Ok results), log'. split; [done|]. split; [done|].
    intros rows [= <-]. split; [done|]. split.
    - intros row Hrow. destruct (Hsound row Hrow) as (pg & Hpg & Hin).
      exists pg. split; [by apply replied_app|done].
    - split; [|intros _; lia].
      intros pg row [Hold| ->]%Hinv Hin Hk; [by eapply Hcomplete|].
      by apply elem_of_nil in Hin. }
  destruct (unique_fold page seen []) as (new & -> & Hnew & Hin & Hall & Hcount').
  cbn [app].
  assert (forall row, row ∈ results ->
            exists pg, replied fetchDataset log' pg /\ row ∈ pg) as Hsound'.
  { intros row Hrow. destruct (Hsound row Hrow) as (pg & Hpg & Hi).
    exists pg. split; [by apply replied_app|done]. }
  destruct (bool_decide (new = [])) eqn:Hnone.
  { apply bool_decide_eq_true in Hnone. subst new.
    exists (Ok results), log'. split; [done|]. split; [done|].
    intros rows [= <-]. split; [done|]. split; [done|].
    split; [|intros _; lia].
    intros pg row [Hold| ->]%Hinv Hi Hk; [by eapply Hcomplete|].
    specialize (Hall row Hi Hk). apply Hseen.
    apply elem_of_union in Hall as [Hs|Hs]; [done|].
    by apply elem_of_list_to_set, elem_of_nil in Hs. }
  set (results' := (results ++ new)%list).
  assert (NoDup (row_key keyParts <$> results')) as Hnd'.
  { unfold results'. rewrite fmap_app. apply NoDup_app. split; [done|].
    split; [|done]. intros k Hk (row & -> & Hrow)%list_elem_of_fmap.
    destruct (Hin row Hrow) as [_ Hout]. by apply Hout, Hseen. }
  assert (forall k, k ∈ seen ∪ list_to_set (row_key keyParts <$> new)
                    <-> k ∈ (row_key keyParts <$> results'))
    as Hseen'.
  { intros k. unfold results'. rewrite fmap_app, elem_of_app, elem_of_union,
      elem_of_list_to_set, Hseen. done. }
  assert (forall row, row ∈ results' ->
            exists pg, replied fetchDataset log' pg /\ row ∈ pg) as Hsound''.
  { intros row [Hrow|Hrow]%elem_of_app; [by apply Hsound'|].
    exists page. split; [done|]. by apply Hin. }
  assert (forall pg row, replied fetchDataset log' pg -> row ∈ pg ->
            trim (row_key keyParts row) <> "" ->
            row_key keyParts row ∈ (row_key keyParts <$> results')) as Hcomplete'.
  { intros pg row [Hold| ->]%Hinv Hi Hk.
    - unfold results'. rewrite fmap_app, elem_of_app. left.
      by eapply Hcomplete.
    - by apply Hseen', Hall. }
  assert ((forall pg, replied fetchDataset log' pg -> Z.of_nat (length pg) <= L) ->
          Z.of_nat (length results') < Z.max maxRecords 1 + L) as Hbound.
  { intros Hsize. specialize (Hsize page Hpage). unfold results'.
    rewrite length_app. lia. }
  destruct (maxRecords <=? Z.of_nat (length results')) eqn:Hmax;
    [exists (Ok results'), log'; split; [done|]; split; [done|];
      by intros rows [= <-]|].
  destruct (Z.of_nat (length page) <? L) eqn:Hshort;
    [exists (Ok results'), log'; split; [done|]; split; [done|];
      by intros rows [= <-]|].
  apply Z.leb_gt in Hmax. apply Z.ltb_ge in Hshort.
  apply IH; try done.
  - lia.
  - lia.
  - unfold log'. rewrite length_app. cbn. lia.
  - lia.
  - apply Forall_app. split.
    + eapply Forall_impl; [exact Hlog|]. cbn. intros q. lia.
    + constructor; [|constructor]. cbn. lia.
  - by destruct Hdisc' as (_ & ? & _).
  - by destruct Hdisc' as (_ & _ & ?).
Qed.

End Loop.

End PagingFacts.

Section PagingResults.
Import CmsService.
Variable fetchDataset : nat -> Z -> Z -> outcome (list obj).

Lemma fetchAll_run keyParts defaultMaxRecords defaultMaxOffset o :
  exists r log,
    fetchAll fetchDataset keyParts defaultMaxRecords defaultMaxOffset o
      = Some (r, log) /\
    disciplined (page_size o) (or_number (offset o) 0)
      (or_number (maxOffset o) defaultMaxOffset) (cap_of (maxPages o)) log /\
    forall rows, r = Ok rows ->
      (forall row, trim (row_key keyParts row) <> "") ->
      paged fetchDataset keyParts (page_size o)
        (or_number (maxRecords o) defaultMaxRecords) rows log.
Proof.
  unfold fetchAll.
  destruct (pages_run fetchDataset keyParts (page_size o) (cap_of (maxPages o))
              (or_number (maxRecords o) defaultMaxRecords)
              (or_number (maxOffset o) defaultMaxOffset)
              (or_number (offset o) 0) (normalizeLimit_range _)
              (S (Z.to_nat (or_number (maxOffset o) defaultMaxOffset
                            - or_number (offset o) 0)))
              0 (or_number (offset o) 0) ∅ [] [])
    as (r & log & Hrun & Hdisc & Hrows); try done; try lia.
  - intros k. cbn. by rewrite elem_of_nil, elem_of_empty.
  - constructor.
  - intros row Hrow. by apply elem_of_nil in Hrow.
  - intros page row (i & q & Hi & _). by destruct i.
  - cbn. lia.
  - intros c _. cbn. lia.
  - exists r, log. split; [done|]. split; [done|].
    intros rows Hr Hkey. destruct (Hrows rows Hr) as (Hnd & Hsound & Hcomplete & Hlen).
    split; [done|]. split; [done|]. split; [|done].
    intros page row Hpage Hrow. by eapply Hcomplete.
Qed.

(** X27 (requests of the paging loop): whatever the data API replies,
    [fetchAllHospitals] and [fetchAllSNFs] come to an end.  Every request
    asks for the page size, which lies between 1 and 500, from an offset
    that is at least the first offset and below [maxOffset]; a later
    request starts at least one page size further; and with a non-zero
    [maxPages] no more requests than that are made. *)
Theorem paging_ends_with_bounded_requests keyParts defaultMaxRecords defaultMaxOffset o :
  exists r log,
    fetchAll fetchDataset keyParts defaultMaxRecords defaultMaxOffset o
      = Some (r, log) /\
    1 <= page_size o <= 500 /\
    disciplined (page_size o) (or_number (offset o) 0)
      (or_number (maxOffset o) defaultMaxOffset) (cap_of (maxPages o)) log.
Proof.
  destruct (fetchAll_run keyParts defaultMaxRecords defaultMaxOffset o)
    as (r & log & Hrun & Hdisc & _).
  exists r, log. split; [done|]. split; [apply normalizeLimit_range|done].
Qed.

(** X28 (rows of the paging loop): the rows [fetchAllHospitals] and
    [fetchAllSNFs] return carry pairwise different keys, every one of
    them comes from a reply of the data API, and every row of every reply
    has its key among them: a row is left out only for a row with the
    same key before it, never for a blank key.  When no reply is longer
    than the page size, the rows returned are fewer than [maxRecords]
    (taken as 1 when it is less) plus one page size. *)
Theorem paged_rows_are_distinct_and_complete o :
  (forall rows log,
     fetchAllHospitals fetchDataset o = Some (Ok rows, log) ->
     paged fetchDataset hospital_keyParts (page_size o)
       (or_number (maxRecords o) 20000) rows log) /\
  (forall rows log,
     fetchAllSNFs fetchDataset o = Some (Ok rows, log) ->
     paged fetchDataset snf_keyParts (page_size o)
       (or_number (maxRecords o) 25000) rows log).
Proof.
  split; intros rows log Hrun.
  - destruct (fetchAll_run hospital_keyParts 20000 50000 o)
      as (r & log' & Hrun' & _ & Hrows).
    unfold fetchAllHospitals in Hrun. rewrite Hrun in Hrun'.
    injection Hrun' as <- <-. apply Hrows; [done|].
    intros row. apply key_of_not_blank.
  - destruct (fetchAll_run snf_keyParts 25000 20000 o)
      as (r & log' & Hrun' & _ & Hrows).
    unfold fetchAllSNFs in Hrun. rewrite Hrun in Hrun'.
    injection Hrun' as <- <-. apply Hrows; [done|].
    intros row. apply key_of_not_blank.
Qed.

End PagingResults.

(** Instance of X28: two pages of two rows with one repeated provider. *)
Lemma paged_rows_at_two_pages :
  CmsService.fetchAllSNFs two_pages pages_of_two
    = Some (Ok [provider "015009" "Oak Manor"; provider "015010" "Pine View";
                provider "015011" "Elm Court"],
            [(2, 0); (2, 2); (2, 4)]) /\
  paged two_pages CmsService.snf_keyParts 2 25000
    [provider "015009" "Oak Manor"; provider "015010" "Pine View";
     provider "015011" "Elm Court"]
    [(2, 0); (2, 2); (2, 4)].
Proof.
  split; [reflexivity|].
  apply (proj2 (paged_rows_are_distinct_and_complete two_pages pages_of_two)).
  reflexivity.
Defined.

(** ** Regulatory summary of the chat context *)

Lemma latest_is_greatest {A} (o : gmap Z A) :
  match ChatContext.latest o with
  | Some y => is_Some (o !! y) /\ forall y', is_Some (o !! y') -> y' <= y
  | None => o = ∅
  end.
Proof.
  unfold ChatContext.latest.
  assert (StronglySorted Z.ge (merge_sort Z.ge (elements (dom o)))) as Hsorted.
  { apply Sorted_StronglySorted; [intros x y z; lia|].
    apply (@Sorted_merge_sort _ Z.ge _). intros x y. lia. }
  assert (forall y, y ∈ merge_sort Z.ge (elements (dom o)) <-> is_Some (o !! y))
    as Helem.
  { intros y. rewrite merge_sort_Permutation, elem_of_elements.
    apply elem_of_dom. }
  destruct (merge_sort Z.ge (elements (dom o))) as [|y l]; cbn.
  - apply map_eq. intros y. rewrite lookup_empty.
    apply eq_None_not_Some. intros Hy%Helem. by apply elem_of_nil in Hy.
  - split; [apply Helem; left|].
    intros y' [->|Hy']%Helem%elem_of_cons; [lia|].
    apply StronglySorted_inv in Hsorted as [_ Hall].
    rewrite Forall_forall in Hall. specialize (Hall y' Hy'). lia.
Qed.

Section ChatFacts.
Context `{Runtime}.
Import HistoricalRegulatory.

Lemma loadHistoricalRegulatory_from ys files :
  regulatory_from (default DEFAULT_YEARS ys) files
    (loadHistoricalRegulatory ys files).
Proof.
  unfold loadHistoricalRegulatory. apply regulatory_years_from.
  - intros k' t'. by rewrite lookup_empty.
  - by apply Forall_forall.
Qed.

(** X29 (regulatory summary of the chat context): for a timeline of the
    regulatory loader, [summarizeRegulatory] shows the citations of the
    latest year the timeline has citations for, which are the ones the
    citation file of that year gives the facility; it shows none only
    when the timeline has no citation year, or when its latest one is
    the year 0.  The same holds for the penalties, with their own latest
    year. *)
Theorem chat_shows_latest_regulatory_year ys files k t :
  loadHistoricalRegulatory ys files !! k = Some t ->
  exists r,
    ChatContext.summarizeRegulatory (Some t) = Some r /\
    match ChatContext.citations r with
    | Some e =>
        exists y, latest_entry (t_citations t) y e /\ y <> 0 /\
          y ∈ default DEFAULT_YEARS ys /\
          loadCitations (citationsCsv (files y)) !! k = Some e
    | None =>
        t_citations t = ∅ \/
        (is_Some (t_citations t !! 0) /\
         forall y, is_Some (t_citations t !! y) -> y <= 0)
    end /\
    match ChatContext.penalties r with
    | Some e =>
        exists y, latest_entry (t_penalties t) y e /\ y <> 0 /\
          y ∈ default DEFAULT_YEARS ys /\
          loadPenalties (penaltiesCsv (files y)) !! k = Some e
    | None =>
        t_penalties t = ∅ \/
        (is_Some (t_penalties t !! 0) /\
         forall y, is_Some (t_penalties t !! y) -> y <= 0)
    end.
Proof.
  intros Ht.
  destruct (loadHistoricalRegulatory_from ys files k t Ht) as (_ & Hcit & Hpen).
  eexists. split; [reflexivity|]. cbn [ChatContext.citations ChatContext.penalties].
  split.
  - pose proof (latest_is_greatest (t_citations t)) as Hlatest.
    destruct (ChatContext.latest (t_citations t)) as [y|]; [|by left].
    destruct Hlatest as [[e He] Hmax].
    destruct (Z.eqb_spec y 0) as [->|Hy]; [right; split; [by exists e|done]|].
    rewrite He. exists y. destruct (Hcit y e He) as [Hin Hload].
    by repeat split.
  - pose proof (latest_is_greatest (t_penalties t)) as Hlatest.
    destruct (ChatContext.latest (t_penalties t)) as [y|]; [|by left].
    destruct Hlatest as [[e He] Hmax].
    destruct (Z.eqb_spec y 0) as [->|Hy]; [right; split; [by exists e|done]|].
    rewrite He. exists y. destruct (Hpen y e He) as [Hin Hload].
    by repeat split.
Qed.

End ChatFacts.

(** Instance of X29: the citations of Oak Manor loaded for 2023. *)
Lemma chat_regulatory_at_oak :
  exists r,
    ChatContext.summarizeRegulatory (Some oak_regulatory) = Some r /\
    ChatContext.citations r = Some oak_citations /\
    ChatContext.penalties r = None.
Proof.
  destruct (chat_shows_latest_regulatory_year (Some [2023])
              (fun _ => regulatory_files) "015009" oak_regulatory
              ltac:(vm_compute; reflexivity))
    as (r & Hr & _).
  exists r. split; [exact Hr|].
  injection Hr as <-. split; reflexivity.
Defined.
